(* ===== verification/_CoqProject ===== *)
-Q . S2P
Prelude.v
Buffer.v
Wire.v
Replay.v
Padding.v
Cipher.v
Encoding.v
Keys.v
Noise.v
Session.v
Address.v
Transport.v
System.v
Tun.v
Router.v
KillSwitch.v
Platform.v
Server.v
Client.v
Ipc.v
Daemon.v
Traffic.v
Mobile.v
ZeroLog.v
Ui.v
Launch.v
