(* ===== verification/Prelude.v ===== *)
(** * AnonymousAnt: a verification development

    AnonymousAnt is a VPN written in Go.  A client (cmd/antclient, the daemon in
    cmd/ant-daemon behind the console of cmd/ant-ui, or the library of pkg/mobile)
    runs one Noise IK handshake with a server (cmd/antserver), and from then on
    both sides exchange packets sealed with an AEAD, over UDP, TLS or WebSocket,
    between the network and a TUN device.  This library models the program from the
    pooled buffer to the mains, and proves what makes it correct, including the
    places where it is not.

    ** The files, bottom up

    - [Prelude] (this file): Go's run-time vocabulary.  [outcome] is a computation
      that may panic, [result] Go's value-or-error pair, [method] a method that may
      fail half way and leaves its object as it is; machine integers are [Z] with
      [wrap]; bytes are [Byte.byte]; [sub] and [splice] read and overwrite a range
      of an array, with the rewrite database [ant_size] and the tactic [size].
    - [Buffer] (pkg/buffer/pool.go): slices with capacity and bounds checks,
      [PacketBuffer], and the pool as a heap of buffers with a free list.
    - [Wire] (pkg/protocol/packet.go): the packet header, put in front of a buffer
      and taken off in place.
    - [Replay] (pkg/protocol/session.go, ReplayWindow): the two 64-bit words and
      the abstract window they implement.
    - [Padding] (pkg/obfuscation/padding.go): padding and jitter.
    - [Cipher] (pkg/crypto/cipher.go): in-place sealing and opening over the
      interface [AeadLib] of the cipher libraries.
    - [Encoding] (encoding/base64 and encoding/hex as pkg/crypto/keys.go uses
      them) and [Keys] (pkg/crypto/keys.go, pkg/security/memory.go): key pairs,
      shared secrets, parsing and wiping, over the interface [Curve25519].
    - [Noise] (pkg/crypto/noise.go): both sides of the handshake as objects, over
      [HashLib] for SHA-256 and HKDF.
    - [Session] (pkg/protocol/session.go): sessions and the session table.  The
      table holds pointers into an explicit store, since a removed session is
      wiped and stays reachable from elsewhere.
    - [Address] (the address and URL functions of cmd/antclient, cmd/ant-daemon and
      pkg/transport/tls.go): the functions of packages strings and net the program
      uses, [sanitizeAddress] and [ParseURL].
    - [Transport] (pkg/transport): the interface [Transport] with what its clients
      rely on and its three implementations over the sockets of [Net].
      [TransportReceive] promises a well-formed buffer; [TransportStorage] is the
      weaker promise of a transport whose messages may be longer than a buffer,
      as the WebSocket one's may.
    - [System]: the command-line tools, as a [Shell]; [ok] and [all_ok] say that the
      commands a function runs succeed; [Routing] and [Netfilter] are the laws of
      exactly the commands the program runs, successful or not: routes, name servers,
      and the three shapes of packet filter rules it writes ([ours]).
    - [Tun] (pkg/tun): the interface [Device] with [DeviceLaws] and [TunDevice], and
      the Linux, macOS and Windows devices over the system calls of [Kernel] and
      [TunCalls].
    - [Router] (pkg/router) and [KillSwitch] (pkg/security/killswitch.go): the
      commands of each platform over a [Shell].
    - [Platform] (cmd/antclient, cmd/ant-daemon): device, routes, name servers and
      kill switch around a tunnel, and the way back.
    - [Server] (cmd/antserver/main.go): the peer table, the packet handler, the
      ingress and the egress loop, for any transport and any device that keep the
      promises of the interfaces.
    - [Client] (cmd/antclient/main.go and the dialling side of pkg/transport): the
      handshake, start-up and the three loops; [AnyTransport] is a value of the
      interface, whatever its implementation.
    - [Ipc] (pkg/ipc): messages, server, client, and the loop over a connection, for
      any [Handler] and over [Json].
    - [Daemon] (cmd/ant-daemon/main.go): the state behind the mutex, the three
      requests, the packet loops in half rounds, and the node in which they
      interleave ([node_step]), with the abstract tunnel it refines ([spec_step]).
    - [Traffic]: the daemon's packet loops against the server, end to end.
    - [Mobile] (pkg/mobile/bridge.go): the calls of the app over a list of engines.
    - [ZeroLog] (pkg/security/zero_log.go): the two regular expressions with a
      matcher, replacement and the level filter.
    - [Ui] (cmd/ant-ui/main.go): the request handlers in front of the control
      channel, and the start of the daemon.
    - [Launch] (the mains of cmd/antserver, cmd/antclient and cmd/ant-daemon, the
      constructors of the server's transports): keys, connection string, NAT rules,
      settings, deferred calls.

    ** What the theorems show

    - Codec and buffers: the header codec is a bijection ([header_codec]),
      stripping undoes prepending ([StripHeader_PrependHeader]), the pool never
      hands out a buffer twice ([Get_exclusive]).
    - Replay protection: the bitmap refines the abstract window
      ([CheckAndSet_refinement]).
    - Cryptographic use: opening inverts sealing and accepts nothing else; the
      handshake ends with matching keys ([handshake_agreement]) and authenticates
      the client ([ConsumeInitiation_sound]); nonces never repeat
      ([nonce_unique]).
    - The tunnel: under loss, reordering, repetition and forgery the receiver
      delivers exactly what the abstract window lets through
      ([tunnel_delivery], [tunnel_security]).
    - Transports and devices: TLS framing ([tls_tunnel]), the connection table
      ([tls_server_reachable]), which probes get the decoy ([decoy_exact]), the
      macOS family prefix ([darwin_framing]).
    - The server: no packet can make an ingress loop panic in any reachable state
      ([server_ingress_safe]); traffic is forwarded and returned ([data_forwarded],
      [egress_delivers]); it starts, runs and stops cleanly ([server_lifecycle]).
    - End to end: a connection string leads a client to the server and its key
      ([server_invites]); an initiation that arrives ends with fitting sessions
      ([connect]); packets then travel both ways, from one TUN device to the other
      ([uplink], [downlink]).  The client's loops panic on a WebSocket message of more
      than 2048 bytes and on nothing else ([client_safe]).
    - The daemon: whatever requests, packets and half rounds interleave, the answers
      are those of an abstract tunnel, uptime included ([daemon_refines]); what can
      crash it while the tunnel is up, and nothing else does, is listed by
      [daemon_safe]; a connect request brings the tunnel up ([daemon_connects]), and
      packets travel through it whatever steps come between the halves of a round
      ([daemon_tunnel]).  The control channel serves every input ([ipc_serves]), and
      the console passes on requests and state, or waits with them for the mutex
      ([console_daemon], [console_forwards], [handleStartDaemon_ends]).
    - The mobile library: [mobile_tunnel], and [mobile_api_safe], which ties the
      statistics to the packets handed over and opened along a labelled run.
    - Configuration of the system: [client_system_linux], [linux_routes],
      [darwin_routes], [killswitch_linux], [exit_node_rules].  What is taken back is
      stated for any outcome of the commands, what is in force while they succeed for
      the success of the commands that are run.  Addresses: [sanitizeAddress_forms],
      [ParseURL_parts].
    - Logs: [Sanitize_no_address].
    - Defects, as theorems about the code as it is: [forged_packet_blocks_tunnel],
      [initiation_replay], [disconnect_crashes_egress], [payload_78_lost],
      [tls_interleaved_sends], [ws_receive_overflow], [UnpadPacket_PadPacket] (for
      block sizes above 256), [ParsePublicKey_hex_dead], [waiting_blocks],
      [disconnect_races], [overlapping_starts_leak], [Sanitize_leaks], [daemon_stops],
      [tls_break_unnoticed]; and parts of [client_system_linux], [killswitch_linux],
      [darwin_routes], [linux_routes], [exit_node_rules], [server_lifecycle],
      [client_safe], [daemon_safe], [mobile_api_safe], [sanitizeAddress_forms].

    ** Conventions, bounds and fuel

    A pointer is a [loc] into an explicit store where aliasing matters, and an
    [option] where only nil matters.  Randomness, the clock, the runtime's choice
    of a pooled buffer and of a ready select branch are arguments.  A blocked call
    is [None].

    Fuel is always bounded by the input.  A frame of [Transport] takes at least three
    bytes, so the length of the stream suffices ([read_frames_fuel]); a request of
    [Ipc] takes at least one byte ([decode_req_shorter], [ipc_serves]); splitting and
    trimming in [Address] and replacing in [ZeroLog] use up a byte in every round;
    the console's wait for the daemon needs 21 checks ([handleStartDaemon_ends]).
    Lemma [window_reachable] and theorem [nonce_unique] state the 64-bit bounds they
    need.

    Libraries that are not part of the repository, and the operating system, are
    type classes whose laws state their documented behaviour, each with a concrete
    instance ([toy_aead], [toy_curve], [toy_hash], [toy_net], [toy_kernel],
    [toy_dialer], [toy_json], [toy_shell], ...) on which the theorems are exercised.

    Steps of different goroutines interleave at the granularity of loop rounds in
    [Server] and [Client], of half rounds and of the two halves of a connect request
    in [Daemon], of calls and the two halves of a start in [Mobile], and of single
    writes in [tls_interleaved_sends].  The daemon's mutex is part of its node: a
    request that finds it taken is not answered ([with_lock]), and steps of [Daemon]
    and [Mobile] carry labels, from which the answers ([spec_run]) and the bytes
    ([bytes_handed], [bytes_opened]) of a run are read off.

    What arrives at a transport is arbitrary, in content and, over WebSocket, in
    length; only the queue of a TLS transport is kept to the lengths its reader lets
    through ([any_ok], [server_end]).

    ** Not modelled

    Flag parsing, signals and log output of the mains; the certificate of
    GenerateSelfSignedCert, the HTTP servers around the handlers and the console's
    page; the addresses LocalAddr reports; the contents of system calls below
    [Kernel], [TunCalls] and [Shell].  router_linux.go is modelled although two of its
    imports are unused, which keeps it from being compiled as it is.  Go's memory model is not modelled: within one
    step of the granularity above, code runs undisturbed. *)

From Stdlib Require Export ZArith Lia.
From Stdlib Require Export Strings.Byte.
From stdpp Require Export base list numbers option strings gmap.

#[global] Set Warnings "-notation-overridden".

(** ** Go runtime vocabulary *)

(** The run-time panics the modelled code can raise. *)
Inductive panic :=
  | SliceBounds          (* slice expression out of range *)
  | IndexBounds          (* index out of range *)
  | NilDeref             (* nil pointer dereference *)
  | CloseClosed          (* close of a closed channel *)
  | CloseNil.            (* close of a nil channel *)

(** A Go computation that may panic.  Nothing in the program recovers, so a
    panic is the end of the process and carries no state. *)
Inductive outcome (A : Type) :=
  | Ret (a : A)
  | Panic (p : panic).
Arguments Ret {A} a.
Arguments Panic {A} p.

#[global] Instance outcome_ret : MRet outcome := @Ret.
#[global] Instance outcome_bind : MBind outcome := λ A B f m,
  match m with Ret a => f a | Panic p => Panic p end.
#[global] Instance outcome_fmap : FMap outcome := λ A B f m,
  match m with Ret a => Ret (f a) | Panic p => Panic p end.

(** Go's [error] values: the constructors of package [errors] and of
    [fmt.Errorf], with the arguments of the format verbs. *)
Inductive error :=
  | ErrNew (msg : string)
  | ErrInts (fmt : string) (args : list Z)
  | ErrStr (fmt : string) (arg : string)
  | ErrWrap (fmt : string) (inner : error).

(** Go's [(T, error)] pair where the value is used only when the error is nil. *)
Inductive result (A : Type) :=
  | Ok (a : A)
  | Err (e : error).
Arguments Ok {A} a.
Arguments Err {A} e.

#[global] Instance result_ret : MRet result := @Ok.
#[global] Instance result_bind : MBind result := λ A B f m,
  match m with Ok a => f a | Err e => Err e end.

Definition returns {A} (m : outcome A) : Prop := ∃ a, m = Ret a.

Lemma outcome_bind_Ret {A B} (m : outcome A) (f : A → outcome B) b :
  (m ≫= f) = Ret b ↔ ∃ a, m = Ret a ∧ f a = Ret b.
Proof. destruct m; simpl; split; [eauto|intros (?&?&?)|done|intros (?&?&?)]; simplify_eq; auto. Qed.

(** A method of a Go object that may fail: it returns its value or error and the
    object as it left it, on the error paths too. *)
Definition method (S A : Type) : Type := S → result A * S.

#[global] Instance method_ret S : MRet (method S) := λ A a s, (Ok a, s).
#[global] Instance method_bind S : MBind (method S) := λ A B f m s,
  match m s with
  | (Ok a, s') => f a s'
  | (Err e, s') => (Err e, s')
  end.

(** Read the object, replace it, fail, and use a fallible pure step. *)
Definition self {S} : method S S := λ s, (Ok s, s).
Definition set_self {S} (s : S) : method S () := λ _, (Ok (), s).
Definition fail {S A} (e : error) : method S A := λ s, (Err e, s).
Definition try_ {S A} (r : result A) : method S A := λ s, (r, s).

(** ** Machine integers *)

(** Unsigned [w]-bit wrap-around. *)
Definition wrap (w z : Z) : Z := (z mod 2 ^ w)%Z.
Abbreviation u8 := (wrap 8).
Abbreviation u16 := (wrap 16).
Abbreviation u32 := (wrap 32).
Abbreviation u64 := (wrap 64).

Section Wrap.
Local Open Scope Z_scope.

Lemma wrap_range w z : 0 ≤ w → 0 ≤ wrap w z < 2 ^ w.
Proof. intros. apply Z.mod_pos_bound. lia. Qed.

Lemma wrap_small w z : 0 ≤ z < 2 ^ w → wrap w z = z.
Proof. intros. by apply Z.mod_small. Qed.

Lemma wrap_wrap w z : wrap w (wrap w z) = wrap w z.
Proof. apply Zmod_mod. Qed.

Lemma wrap_add_l w a b : wrap w (wrap w a + b) = wrap w (a + b).
Proof. apply Zplus_mod_idemp_l. Qed.

Lemma wrap_sub_l w a b : wrap w (wrap w a - b) = wrap w (a - b).
Proof. apply Zminus_mod_idemp_l. Qed.

(** The bits of a wrapped integer are its low bits. *)
Lemma testbit_wrap w z i :
  0 ≤ w → Z.testbit (wrap w z) i = bool_decide (i < w) && Z.testbit z i.
Proof.
  intros Hw. unfold wrap.
  destruct (decide (i < 0)) as [Hi|Hi].
  { rewrite !Z.testbit_neg_r by lia. by rewrite andb_false_r. }
  case_bool_decide; simpl.
  - by apply Z.mod_pow2_bits_low.
  - apply Z.mod_pow2_bits_high. lia.
Qed.
End Wrap.

(** ** Bytes *)

#[global] Instance byte_eq_dec : EqDecision byte := Byte.byte_eq_dec.
#[global] Instance byte_inhabited : Inhabited byte := populate x00.

Definition byte_to_Z (b : byte) : Z := Z.of_N (Byte.to_N b).
(** Go's conversion [byte(z)]: the low eight bits. *)
Definition byte_of_Z (z : Z) : byte :=
  default x00 (Byte.of_N (Z.to_N (z mod 256))).

Section Bytes.
Local Open Scope Z_scope.

Lemma byte_to_Z_range b : 0 ≤ byte_to_Z b < 256.
Proof. unfold byte_to_Z. pose proof (Byte.to_N_bounded b). lia. Qed.

Lemma byte_to_of_Z z : byte_to_Z (byte_of_Z z) = z mod 256.
Proof.
  unfold byte_to_Z, byte_of_Z.
  assert (0 ≤ z mod 256 < 256) as Hr by (apply Z.mod_pos_bound; lia).
  destruct (Byte.of_N (Z.to_N (z mod 256))) as [b|] eqn:E; simpl.
  - apply Byte.to_of_N in E. rewrite E. lia.
  - apply Byte.of_N_None_iff in E. lia.
Qed.

Lemma byte_of_to_Z b : byte_of_Z (byte_to_Z b) = b.
Proof.
  unfold byte_of_Z. rewrite Z.mod_small by apply byte_to_Z_range.
  unfold byte_to_Z. by rewrite N2Z.id, Byte.of_to_N.
Qed.

Lemma byte_to_Z_inj a b : byte_to_Z a = byte_to_Z b → a = b.
Proof. intros H. by rewrite <- (byte_of_to_Z a), H, byte_of_to_Z. Qed.
End Bytes.

(** The bytes of a Go string constant. *)
Definition bytes_of (s : string) : list byte := String.list_byte_of_string s.

(** A zeroed array of [n] bytes. *)
Definition zeros (n : nat) : list byte := replicate n x00.

(** ** Little-endian integers ([encoding/binary.LittleEndian]) *)

Fixpoint le_encode (n : nat) (z : Z) : list byte :=
  match n with
  | O => []
  | S n => byte_of_Z z :: le_encode n (z / 256)
  end.

Fixpoint le_decode (bs : list byte) : Z :=
  match bs with
  | [] => 0
  | b :: bs => byte_to_Z b + 256 * le_decode bs
  end.

Section LittleEndian.
Local Open Scope Z_scope.

Lemma length_le_encode n z : length (le_encode n z) = n.
Proof. revert z. induction n; intros; simpl; auto. Qed.

Lemma le_decode_range bs : 0 ≤ le_decode bs < 256 ^ Z.of_nat (length bs).
Proof.
  induction bs as [|b bs IH]; simpl length; [simpl; lia|].
  rewrite Nat2Z.inj_succ, Z.pow_succ_r by lia. simpl.
  pose proof (byte_to_Z_range b). lia.
Qed.

Lemma le_decode_encode n z : le_decode (le_encode n z) = z mod 256 ^ Z.of_nat n.
Proof.
  revert z. induction n as [|n IH]; intros z; simpl le_encode.
  { simpl. by rewrite Z.mod_1_r. }
  simpl le_decode. rewrite IH, byte_to_of_Z.
  rewrite Nat2Z.inj_succ, Z.pow_succ_r by lia.
  rewrite Z.rem_mul_r; lia.
Qed.

Lemma le_encode_decode bs : le_encode (length bs) (le_decode bs) = bs.
Proof.
  induction bs as [|b bs IH]; [done|]. simpl length. simpl le_decode.
  simpl le_encode. pose proof (byte_to_Z_range b).
  f_equal.
  - apply byte_to_Z_inj. rewrite byte_to_of_Z.
    rewrite Z.mul_comm, Z.mod_add, Z.mod_small by lia. done.
  - rewrite Z.mul_comm, Z.div_add, Z.div_small by lia.
    by rewrite Z.add_0_l.
Qed.

Lemma le_encode_decode_len n bs : length bs = n → le_encode n (le_decode bs) = bs.
Proof. intros <-. apply le_encode_decode. Qed.

Lemma le_decode_range_len n bs :
  length bs = n → 0 ≤ le_decode bs < 256 ^ Z.of_nat n.
Proof. intros <-. apply le_decode_range. Qed.

Lemma le_decode_encode_small n z :
  0 ≤ z < 256 ^ Z.of_nat n → le_decode (le_encode n z) = z.
Proof. intros. by rewrite le_decode_encode, Z.mod_small. Qed.

Lemma le_encode_inj n a b :
  0 ≤ a < 256 ^ Z.of_nat n → 0 ≤ b < 256 ^ Z.of_nat n → le_encode n a = le_encode n b → a = b.
Proof.
  intros Ha Hb H. apply (f_equal le_decode) in H.
  by rewrite !le_decode_encode_small in H.
Qed.
End LittleEndian.

(** ** Slices of a byte array

    [sub lo hi l] is the contents of the slice expression [l[lo:hi]];
    [splice off bs l] is [l] after [copy(l[off:], bs)] when [bs] fits. *)

Definition sub (lo hi : Z) (l : list byte) : list byte :=
  take (Z.to_nat (hi - lo)) (drop (Z.to_nat lo) l).

Definition splice (off : Z) (bs l : list byte) : list byte :=
  take (Z.to_nat off) l ++ bs ++ drop (Z.to_nat off + length bs) l.

(** Size of a list as a Go [int]. *)
Definition zlen {A} (l : list A) : Z := Z.of_nat (length l).

Section Slices.
Local Open Scope Z_scope.

Lemma zlen_nonneg {A} (l : list A) : 0 ≤ zlen l.
Proof. unfold zlen. lia. Qed.

Lemma zlen_app {A} (l k : list A) : zlen (l ++ k) = zlen l + zlen k.
Proof. unfold zlen. rewrite length_app. lia. Qed.

Lemma zlen_nil {A} : zlen (@nil A) = 0.
Proof. done. Qed.

Lemma zlen_cons {A} (x : A) l : zlen (x :: l) = 1 + zlen l.
Proof. unfold zlen. simpl. lia. Qed.

Lemma zlen_le_encode n z : zlen (le_encode n z) = Z.of_nat n.
Proof. unfold zlen. by rewrite length_le_encode. Qed.

Lemma zlen_sub lo hi l :
  0 ≤ lo → lo ≤ hi → hi ≤ zlen l → zlen (sub lo hi l) = hi - lo.
Proof. unfold zlen, sub. intros. rewrite length_take, length_drop. lia. Qed.

Lemma length_sub (n : nat) lo hi l :
  0 ≤ lo → hi = lo + Z.of_nat n → hi ≤ zlen l → length (sub lo hi l) = n.
Proof. unfold zlen, sub. intros. rewrite length_take, length_drop. lia. Qed.

Lemma zlen_splice off bs l :
  0 ≤ off → off + zlen bs ≤ zlen l → zlen (splice off bs l) = zlen l.
Proof.
  unfold zlen, splice. intros.
  rewrite !length_app, length_take, length_drop. lia.
Qed.

Lemma lookup_sub lo hi l (i : nat) :
  0 ≤ lo →
  sub lo hi l !! i =
    if decide (lo + Z.of_nat i < hi) then l !! (Z.to_nat lo + i)%nat else None.
Proof.
  intros. unfold sub. case_decide.
  - rewrite lookup_take_lt by lia. by rewrite lookup_drop.
  - apply lookup_take_ge. lia.
Qed.

Lemma lookup_splice off bs l (i : nat) :
  0 ≤ off → off + zlen bs ≤ zlen l →
  splice off bs l !! i =
    if decide (off ≤ Z.of_nat i < off + zlen bs)
    then bs !! (i - Z.to_nat off)%nat else l !! i.
Proof.
  unfold zlen, splice. intros.
  destruct (decide (Z.of_nat i < off)).
  - rewrite decide_False by lia.
    rewrite lookup_app_l by (rewrite length_take; lia).
    by rewrite lookup_take_lt by lia.
  - rewrite lookup_app_r by (rewrite length_take; lia).
    rewrite length_take, Nat.min_l by lia.
    case_decide.
    + by rewrite lookup_app_l by lia.
    + rewrite lookup_app_r by lia. rewrite lookup_drop. f_equal. lia.
Qed.

Lemma list_lookup_total_alt_sub lo hi l (i : nat) :
  lo = 0 → Z.of_nat i < hi → sub lo hi l !!! i = l !!! i.
Proof.
  intros -> ?. rewrite !list_lookup_total_alt, lookup_sub by lia.
  by rewrite decide_True by lia.
Qed.

(** Reading back exactly what was written. *)
Lemma sub_splice_eq off bs l :
  0 ≤ off → off + zlen bs ≤ zlen l →
  sub off (off + zlen bs) (splice off bs l) = bs.
Proof.
  intros. apply list_eq. intros i.
  rewrite lookup_sub, lookup_splice by lia.
  unfold zlen in *. repeat case_decide; try lia.
  - f_equal. lia.
  - symmetry. apply lookup_ge_None. lia.
Qed.

Lemma sub_splice_eq' lo hi off bs l :
  0 ≤ off → off + zlen bs ≤ zlen l → lo = off → hi = off + zlen bs →
  sub lo hi (splice off bs l) = bs.
Proof. intros ? ? -> ->. by apply sub_splice_eq. Qed.

(** Reading outside the written range. *)
Lemma sub_splice_ne lo hi off bs l :
  0 ≤ lo → 0 ≤ off → off + zlen bs ≤ zlen l →
  hi ≤ off ∨ off + zlen bs ≤ lo →
  sub lo hi (splice off bs l) = sub lo hi l.
Proof.
  intros. apply list_eq. intros i. rewrite !lookup_sub by lia.
  case_decide; [|done]. rewrite lookup_splice by lia.
  rewrite decide_False by lia. done.
Qed.

Lemma sub_sub a b lo hi l :
  0 ≤ lo → 0 ≤ a → b ≤ hi - lo →
  sub a b (sub lo hi l) = sub (lo + a) (lo + b) l.
Proof.
  intros. apply list_eq. intros i. rewrite !lookup_sub by lia.
  repeat case_decide; try lia; [|done].
  f_equal. lia.
Qed.

Lemma sub_cat a b c l :
  0 ≤ a → a ≤ b → b ≤ c → c ≤ zlen l →
  sub a c l = sub a b l ++ sub b c l.
Proof.
  intros. apply list_eq. intros i. rewrite lookup_sub by lia.
  destruct (decide (a + Z.of_nat i < b)).
  - rewrite lookup_app_l by (pose proof (zlen_sub a b l); unfold zlen in *; lia).
    rewrite lookup_sub by lia. by rewrite !decide_True by lia.
  - assert (Z.of_nat (length (sub a b l)) = b - a)
      by (apply (zlen_sub a b l); lia).
    rewrite lookup_app_r by lia. rewrite lookup_sub by lia.
    replace (i - length (sub a b l))%nat with (i - Z.to_nat (b - a))%nat by lia.
    repeat case_decide; try lia; [|done]. f_equal. lia.
Qed.

Lemma sub_splice_inside lo hi off bs l :
  0 ≤ off → off + zlen bs ≤ zlen l → off ≤ lo → hi ≤ off + zlen bs →
  sub lo hi (splice off bs l) = sub (lo - off) (hi - off) bs.
Proof.
  intros. apply list_eq. intros i. rewrite !lookup_sub by lia.
  rewrite lookup_splice by lia. repeat case_decide; try lia; [|done].
  f_equal. lia.
Qed.

(** The last byte of a range. *)
Lemma last_byte l off n a b :
  0 ≤ off → 1 ≤ n → off + n ≤ zlen l → sub off (off + n) l = a ++ [b] →
  l !!! Z.to_nat (off + n - 1) = b.
Proof.
  intros Ho Hn Hl H. apply list_lookup_total_correct.
  pose proof (zlen_sub off (off + n) l) as Hz.
  rewrite H, zlen_app in Hz. change (zlen [b]) with 1 in Hz.
  pose proof (lookup_sub off (off + n) l (length a) Ho) as Hk.
  unfold zlen in *. rewrite H, decide_True in Hk by lia.
  rewrite lookup_app_r, Nat.sub_diag in Hk by lia. simpl in Hk.
  rewrite Hk. f_equal. lia.
Qed.

Lemma app_inv_nil {A} (a b : list A) : a ++ b = a → b = [].
Proof. intros H. rewrite <- (app_nil_r a) in H at 2. by apply app_inv_head in H. Qed.

Lemma sub_full l : sub 0 (zlen l) l = l.
Proof.
  unfold sub, zlen. rewrite drop_0. apply take_ge. lia.
Qed.

Lemma sub_app_l lo hi l k :
  0 ≤ lo → hi ≤ zlen l → sub lo hi (l ++ k) = sub lo hi l.
Proof.
  unfold zlen. intros. apply list_eq. intros i. rewrite !lookup_sub by lia.
  case_decide; [|done]. by rewrite lookup_app_l by lia.
Qed.

Lemma sub_app_r lo hi l k :
  zlen l ≤ lo → sub lo hi (l ++ k) = sub (lo - zlen l) (hi - zlen l) k.
Proof.
  unfold zlen. intros. apply list_eq. intros i. rewrite !lookup_sub by lia.
  repeat case_decide; try lia; [|done].
  rewrite lookup_app_r by lia. f_equal. lia.
Qed.

(** The middle, the front and the back of a concatenation. *)
Lemma sub_app_mid lo hi a b c :
  lo = zlen a → hi = zlen a + zlen b → sub lo hi (a ++ b ++ c) = b.
Proof.
  intros -> ->. pose proof (zlen_nonneg a). pose proof (zlen_nonneg b).
  rewrite sub_app_r, sub_app_l by lia. rewrite Z.sub_diag.
  replace (zlen a + zlen b - zlen a) with (zlen b) by lia. apply sub_full.
Qed.

Lemma sub_app_front hi a b : hi = zlen a → sub 0 hi (a ++ b) = a.
Proof. intros ->. by apply (sub_app_mid 0 (zlen a) [] a b). Qed.

Lemma sub_app_back lo hi a b :
  lo = zlen a → hi = zlen a + zlen b → sub lo hi (a ++ b) = b.
Proof.
  intros. rewrite <- (app_nil_r b) at 1. by apply sub_app_mid.
Qed.

Lemma splice_back n l : 0 ≤ n → n ≤ zlen l → splice 0 (sub 0 n l) l = l.
Proof.
  intros. assert (zlen (sub 0 n l) = n) by (rewrite zlen_sub; lia).
  apply list_eq. intros i. rewrite lookup_splice, lookup_sub by lia.
  repeat case_decide; try lia; try done. f_equal. lia.
Qed.

(** Writing through a sub-slice is writing at its offset. *)
Lemma splice_sub lo bs l :
  0 ≤ lo → lo + zlen bs ≤ zlen l →
  splice lo (splice 0 bs (sub lo (zlen l) l)) l = splice lo bs l.
Proof.
  intros. pose proof (zlen_nonneg bs).
  assert (zlen (splice 0 bs (sub lo (zlen l) l)) = zlen l - lo)
    by (rewrite zlen_splice, zlen_sub; rewrite ?zlen_sub; lia).
  apply list_eq. intros i. rewrite (lookup_splice lo bs) by lia.
  rewrite (lookup_splice lo (splice _ _ _)) by lia.
  rewrite (lookup_splice 0) by (rewrite ?zlen_sub; lia). rewrite lookup_sub by lia.
  repeat case_decide; try lia; try done; f_equal; lia.
Qed.

(** Two adjacent writes are one. *)
Lemma splice_splice off a b l :
  0 ≤ off → off + zlen a + zlen b ≤ zlen l →
  splice (off + zlen a) b (splice off a l) = splice off (a ++ b) l.
Proof.
  intros. pose proof (zlen_nonneg a). pose proof (zlen_nonneg b).
  apply list_eq. intros i.
  rewrite !lookup_splice by (rewrite ?zlen_splice, ?zlen_app; lia).
  rewrite zlen_app. unfold zlen in *. repeat case_decide; try lia.
  - rewrite lookup_app_r by lia. f_equal. lia.
  - by rewrite lookup_app_l by lia.
  - done.
Qed.

Lemma splice_splice' off off' a b l :
  0 ≤ off → off' = off + zlen a → off' + zlen b ≤ zlen l →
  splice off' b (splice off a l) = splice off (a ++ b) l.
Proof. intros ? -> ?. by apply splice_splice. Qed.

Lemma splice_nil off l : 0 ≤ off → off ≤ zlen l → splice off [] l = l.
Proof.
  intros. unfold splice. simpl. rewrite Nat.add_0_r. apply take_drop.
Qed.

Lemma splice_full bs l : zlen bs = zlen l → splice 0 bs l = bs.
Proof.
  unfold splice, zlen. intros. simpl.
  rewrite drop_ge by lia. by rewrite app_nil_r.
Qed.
End Slices.

Arguments le_encode : simpl never.
Arguments le_decode : simpl never.
Arguments sub : simpl never.
Arguments splice : simpl never.
Arguments wrap : simpl never.
Arguments byte_of_Z : simpl never.
Arguments byte_to_Z : simpl never.

#[export] Hint Resolve zlen_nonneg byte_to_Z_range wrap_range le_decode_range : core.

(** Rewriting with the size equations of the byte-level operations. *)
Create Rewrite HintDb ant_size.
#[export] Hint Rewrite @zlen_app @zlen_nil @zlen_cons zlen_le_encode : ant_size.
#[export] Hint Rewrite zlen_splice zlen_sub
  using (autorewrite with ant_size; lia) : ant_size.
Ltac size := autorewrite with ant_size in *; simpl in *; try lia.
