(* ===== verification/Buffer.v ===== *)
(** * Packet buffers and the buffer pool (pkg/buffer/pool.go)

    [slice] is a Go byte slice: the backing array up to the capacity, and the
    length.  [PacketBuffer] is the pooled buffer, with [Bytes] and [Reset].
    [Pool] models [sync.Pool] with an explicit heap of buffers, because the
    program hands out pointers: [Get] may return any pooled buffer or make a
    new one, [Put] gives one back. *)

From S2P Require Import Prelude.
Local Open Scope Z_scope.

(** ** Go byte slices *)

Record slice := mkSlice {
  arr : list byte;   (* the backing array from the slice's start to its capacity *)
  len : Z            (* len(s) *)
}.
Definition cap (s : slice) : Z := zlen (arr s).

Definition slice_wf (s : slice) : Prop := 0 ≤ len s ≤ cap s.

(** [make([]byte, n)] *)
Definition make_slice (n : Z) : slice := mkSlice (zeros (Z.to_nat n)) n.

(** The slice expression [s[lo:hi]]: its bounds are checked against the
    capacity; what it denotes is the contents of that range. *)
Definition slice_expr (s : slice) (lo hi : Z) : outcome (list byte) :=
  if decide (0 ≤ lo ∧ lo ≤ hi ∧ hi ≤ cap s) then Ret (sub lo hi (arr s))
  else Panic SliceBounds.

(** Writing [bs] through a slice whose first element is [s[off]]. *)
Definition write_at (s : slice) (off : Z) (bs : list byte) : slice :=
  mkSlice (splice off bs (arr s)) (len s).

(** [s[i] = b] *)
Definition set_index (s : slice) (i : Z) (b : byte) : outcome slice :=
  if decide (0 ≤ i ∧ i < len s) then Ret (write_at s i [b])
  else Panic IndexBounds.

(** [s[i]] *)
Definition get_index (s : slice) (i : Z) : outcome byte :=
  if decide (0 ≤ i ∧ i < len s) then
    match arr s !! Z.to_nat i with Some b => Ret b | None => Panic IndexBounds end
  else Panic IndexBounds.

(** [copy(s, src)]: as many bytes as both sides have. *)
Definition copy_to (s : slice) (src : list byte) : slice :=
  write_at s 0 (take (Z.to_nat (len s)) src).

Arguments cap : simpl never.
Arguments write_at : simpl never.
Arguments copy_to : simpl never.

(** ** PacketBuffer *)

Definition DefaultBufferSize : Z := 2048.
Definition MaxPacketSize : Z := 65535.

Record PacketBuffer := mkBuf {
  Data : slice;
  Length : Z;
  Offset : Z
}.

(** [b.Data[b.Offset : b.Offset+b.Length]] *)
Definition Bytes (b : PacketBuffer) : outcome (list byte) :=
  slice_expr (Data b) (Offset b) (Offset b + Length b).

Definition Reset (b : PacketBuffer) : PacketBuffer :=
  mkBuf (Data b) 0 0.

(** The idiom [copy(buf.Data, src); buf.Length = len(src)]. *)
Definition load (b : PacketBuffer) (src : list byte) : PacketBuffer :=
  mkBuf (copy_to (Data b) src) (zlen src) (Offset b).

(** A buffer is well formed when its valid range lies inside the storage. *)
Record wf (b : PacketBuffer) : Prop := mkWf {
  wf_off : 0 ≤ Offset b;
  wf_len : 0 ≤ Length b;
  wf_fit : Offset b + Length b ≤ cap (Data b);
  wf_slice : slice_wf (Data b)
}.

(** A buffer of a pool whose size is [n]: its storage was made by
    [make([]byte, n)], so length and capacity agree. *)
Definition pooled (n : Z) (b : PacketBuffer) : Prop :=
  len (Data b) = n ∧ cap (Data b) = n.

(** The valid bytes of a well-formed buffer. *)
Definition contents (b : PacketBuffer) : list byte :=
  sub (Offset b) (Offset b + Length b) (arr (Data b)).

Section BufferFacts.
Lemma arr_write_at s off bs : arr (write_at s off bs) = splice off bs (arr s).
Proof. done. Qed.

Lemma len_write_at s off bs : len (write_at s off bs) = len s.
Proof. done. Qed.

Lemma cap_write_at s off bs :
  0 ≤ off → off + zlen bs ≤ cap s → cap (write_at s off bs) = cap s.
Proof. unfold cap, write_at. intros. by apply zlen_splice. Qed.

Lemma slice_expr_ok s lo hi :
  0 ≤ lo → lo ≤ hi → hi ≤ cap s → slice_expr s lo hi = Ret (sub lo hi (arr s)).
Proof. intros. unfold slice_expr. by rewrite decide_True by lia. Qed.

Lemma zlen_make_slice n : 0 ≤ n → cap (make_slice n) = n.
Proof.
  intros. unfold cap, make_slice, zlen, zeros. simpl.
  rewrite length_replicate. lia.
Qed.

Lemma slice_wf_write s off bs :
  slice_wf s → 0 ≤ off → off + zlen bs ≤ cap s → slice_wf (write_at s off bs).
Proof. unfold slice_wf. intros. by rewrite cap_write_at by lia. Qed.

Lemma set_index_ok s i b : 0 ≤ i < len s → set_index s i b = Ret (write_at s i [b]).
Proof. intros. unfold set_index. by rewrite decide_True by lia. Qed.

Lemma get_index_ok s i :
  slice_wf s → 0 ≤ i < len s → get_index s i = Ret (arr s !!! Z.to_nat i).
Proof.
  intros [_ Hc] Hi. unfold get_index. rewrite decide_True by lia.
  rewrite (list_lookup_lookup_total_lt (arr s)); [done|].
  unfold cap, zlen in Hc. lia.
Qed.

Lemma write_at_write_at s off off' a b :
  0 ≤ off → off' = off + zlen a → off' + zlen b ≤ cap s →
  write_at (write_at s off a) off' b = write_at s off (a ++ b).
Proof. intros ? -> ?. unfold write_at. simpl. f_equal. by apply splice_splice. Qed.

Lemma Bytes_wf b : wf b → Bytes b = Ret (contents b).
Proof. intros []. apply slice_expr_ok; lia. Qed.

Lemma zlen_contents b : wf b → zlen (contents b) = Length b.
Proof.
  intros []. unfold contents. rewrite zlen_sub; unfold cap in *; lia.
Qed.

Lemma Reset_wf b : wf b → wf (Reset b).
Proof. intros []. constructor; simpl; auto; unfold slice_wf in *; lia. Qed.

Lemma zlen_take_le (n : nat) (l : list byte) : zlen (take n l) ≤ Z.of_nat n.
Proof. unfold zlen. rewrite length_take. lia. Qed.

Lemma cap_copy_to s src : slice_wf s → cap (copy_to s src) = cap s.
Proof.
  intros [? ?]. unfold copy_to.
  pose proof (zlen_take_le (Z.to_nat (len s)) src).
  rewrite cap_write_at; lia.
Qed.

(** Loading data that fits gives a well-formed buffer holding exactly it. *)
Lemma slice_wf_copy_to s src : slice_wf s → slice_wf (copy_to s src).
Proof. intros [? ?]. unfold slice_wf. by rewrite cap_copy_to. Qed.

Lemma load_wf b src :
  slice_wf (Data b) → Offset b = 0 → zlen src ≤ cap (Data b) → wf (load b src).
Proof.
  intros Hs Ho Hl. constructor; simpl; try rewrite Ho; auto; try lia.
  - rewrite cap_copy_to by done. lia.
  - by apply slice_wf_copy_to.
Qed.

Lemma load_contents b src :
  slice_wf (Data b) → Offset b = 0 → zlen src ≤ len (Data b) →
  contents (load b src) = src.
Proof.
  intros [? ?] Ho Hl. unfold contents, load, copy_to. simpl. rewrite Ho.
  rewrite take_ge by (unfold zlen in *; lia).
  apply (sub_splice_eq 0); unfold cap in *; lia.
Qed.
End BufferFacts.

(** Reduce the monad and the buffer projections, and nothing else. *)
Ltac gsimpl :=
  cbn [mbind outcome_bind mret outcome_ret Data Length Offset arr len fst snd];
  rewrite ?arr_write_at, ?len_write_at.

#[export] Hint Resolve Reset_wf : core.
#[export] Hint Rewrite cap_write_at
  using (autorewrite with ant_size; simpl; lia) : ant_size.

(** ** Pool *)

Definition loc := positive.

Record Pool := mkPool {
  heap : gmap loc PacketBuffer;   (* every buffer ever made by the pool *)
  free : list loc;                (* the pointers the sync.Pool holds *)
  pool_size : Z
}.

(** [NewPool]: the size defaults when it is not positive. *)
Definition NewPool (bufferSize : Z) : Pool :=
  mkPool ∅ [] (if decide (bufferSize ≤ 0) then DefaultBufferSize else bufferSize).

Definition GlobalPool : Pool := NewPool DefaultBufferSize.

(** [p.pool.New] *)
Definition new_buffer (p : Pool) : PacketBuffer := mkBuf (make_slice (pool_size p)) 0 0.

(** [Get]: [choice] is the runtime's choice, an item of the sync.Pool or, when
    it names none, a call of [New]. *)
Definition Get (p : Pool) (choice : option nat) : loc * Pool :=
  match (i ← choice; l ← free p !! i; b ← heap p !! l; Some (i, l, b)) with
  | Some (i, l, b) =>
      (l, mkPool (<[l := Reset b]> (heap p)) (delete i (free p)) (pool_size p))
  | None =>
      let l := fresh (dom (heap p)) in
      (l, mkPool (<[l := Reset (new_buffer p)]> (heap p)) (free p) (pool_size p))
  end.

(** [Put]: a nil pointer is ignored; otherwise the buffer is reset and pooled. *)
Definition Put (p : Pool) (buf : option loc) : Pool :=
  match buf with
  | None => p
  | Some l =>
      mkPool (alter Reset l (heap p)) (l :: free p) (pool_size p)
  end.

(** What the program does with a pool: it takes buffers, works on the ones it
    holds without replacing their storage, and puts back buffers it holds.  The
    garbage collector may empty the pool. *)
Inductive pool_step : Pool * gset loc → Pool * gset loc → Prop :=
  | step_get p held choice l p' :
      Get p choice = (l, p') → pool_step (p, held) (p', {[l]} ∪ held)
  | step_put p held l :
      l ∈ held → pool_step (p, held) (Put p (Some l), held ∖ {[l]})
  | step_put_nil p held : pool_step (p, held) (Put p None, held)
  | step_use p held l b b' :
      l ∈ held → heap p !! l = Some b → pooled (pool_size p) b' →
      pool_step (p, held) (mkPool (<[l := b']> (heap p)) (free p) (pool_size p), held)
  | step_gc p held free' :
      free' `sublist_of` free p →
      pool_step (p, held) (mkPool (heap p) free' (pool_size p), held).

Record pool_inv (p : Pool) (held : gset loc) : Prop := {
  inv_nodup : NoDup (free p);
  inv_disjoint : ∀ l, l ∈ free p → l ∉ held;
  inv_free_dom : ∀ l, l ∈ free p → is_Some (heap p !! l);
  inv_held_dom : ∀ l, l ∈ held → is_Some (heap p !! l);
  inv_size : 0 < pool_size p;
  inv_pooled : ∀ l b, heap p !! l = Some b → pooled (pool_size p) b
}.

Section PoolFacts.
Lemma Get_cases p choice :
  (∃ i l b, free p !! i = Some l ∧ heap p !! l = Some b ∧
     Get p choice =
       (l, mkPool (<[l := Reset b]> (heap p)) (delete i (free p)) (pool_size p))) ∨
  (Get p choice =
     (fresh (dom (heap p)),
      mkPool (<[fresh (dom (heap p)) := Reset (new_buffer p)]> (heap p))
             (free p) (pool_size p))).
Proof.
  unfold Get. destruct choice as [i|]; simpl; [|by right].
  destruct (free p !! i) as [l|] eqn:Hl; simpl; [|by right].
  destruct (heap p !! l) as [b|] eqn:Hb; simpl; [|by right].
  left. eauto 10.
Qed.

Lemma fresh_heap p : heap p !! fresh (dom (heap p)) = None.
Proof. apply not_elem_of_dom, is_fresh. Qed.

Lemma delete_NoDup_not_in (l : list loc) i x :
  NoDup l → l !! i = Some x → x ∉ delete i l.
Proof.
  intros Hnd Hi Hin.
  assert (l ≡ₚ x :: delete i l) as Hp by by apply delete_Permutation.
  rewrite Hp in Hnd. by apply NoDup_cons in Hnd as [? _].
Qed.

Lemma Reset_pooled n b : pooled n b → pooled n (Reset b).
Proof. done. Qed.

Lemma new_buffer_pooled p : 0 < pool_size p → pooled (pool_size p) (new_buffer p).
Proof. intros. split; [done|]. simpl. apply zlen_make_slice. lia. Qed.

Lemma pool_inv_init n : pool_inv (NewPool n) ∅.
Proof.
  constructor; simpl; try set_solver.
  - constructor.
  - case_decide; unfold DefaultBufferSize; lia.
Qed.

Lemma pool_inv_get p held choice l p' :
  pool_inv p held → Get p choice = (l, p') → pool_inv p' ({[l]} ∪ held).
Proof.
  intros [Hnd Hdis Hfd Hhd Hsz Hp] HG.
  destruct (Get_cases p choice) as [(i & l0 & b & Hi & Hb & E)|E];
    rewrite E in HG; injection HG as <- <-.
  - assert (delete i (free p) `sublist_of` free p) as Hsub by apply sublist_delete.
    assert (∀ x, x ∈ delete i (free p) → x ∈ free p) as Hin.
    { intros x Hx. by eapply elem_of_sublist. }
    constructor; simpl; auto.
    + by eapply sublist_NoDup.
    + intros x Hx. apply not_elem_of_union. split; [|by apply Hdis, Hin].
      apply not_elem_of_singleton. intros ->.
      by eapply delete_NoDup_not_in.
    + intros x Hx. apply lookup_insert_is_Some'. auto.
    + intros x Hx. apply lookup_insert_is_Some'. set_solver.
    + intros x c Hx. apply lookup_insert_Some in Hx as [[_ <-]|[_ Hx]]; eauto.
      eapply Reset_pooled; eauto.
  - pose proof (fresh_heap p) as Hf.
    constructor; simpl; auto.
    + intros x Hx. apply not_elem_of_union. split; [|by apply Hdis].
      apply not_elem_of_singleton. intros ->.
      apply Hfd in Hx. rewrite Hf in Hx. by destruct Hx.
    + intros x Hx. apply lookup_insert_is_Some'. auto.
    + intros x Hx. apply lookup_insert_is_Some'. set_solver.
    + intros x c Hx. apply lookup_insert_Some in Hx as [[_ <-]|[_ Hx]]; eauto.
      by apply new_buffer_pooled.
Qed.

Lemma Get_fresh_or_free p held choice l p' :
  pool_inv p held → Get p choice = (l, p') →
  l ∉ held ∧ ∃ b, heap p' !! l = Some (Reset b).
Proof.
  intros Hinv HG.
  destruct (Get_cases p choice) as [(i & l0 & b & Hi & Hb & E)|E];
    rewrite E in HG; injection HG as <- <-; simpl.
  - rewrite lookup_insert_eq. split; [|eauto].
    by apply (inv_disjoint _ _ Hinv), list_elem_of_lookup_2 with i.
  - rewrite lookup_insert_eq. split; [|eauto].
    intros Hin. apply (inv_held_dom _ _ Hinv) in Hin.
    rewrite fresh_heap in Hin. by destruct Hin.
Qed.

Lemma Get_size p choice l p' : Get p choice = (l, p') → pool_size p' = pool_size p.
Proof.
  intros HG. destruct (Get_cases p choice) as [(? & ? & ? & _ & _ & E)|E];
    rewrite E in HG; by injection HG as <- <-.
Qed.

Lemma pooled_reset_wf n b : 0 < n → pooled n b → wf (Reset b).
Proof.
  intros ? []. constructor; simpl; unfold slice_wf; lia.
Qed.

Lemma pool_inv_step p held p' held' :
  pool_inv p held → pool_step (p, held) (p', held') → pool_inv p' held'.
Proof.
  intros Hinv Hstep. inversion Hstep; subst; auto.
  - by eapply pool_inv_get.
  - destruct Hinv as [Hnd Hdis Hfd Hhd Hsz Hp]. constructor; simpl; auto.
    + constructor; [|done]. intros Hin. by apply Hdis in Hin.
    + intros x. rewrite elem_of_cons. set_solver.
    + intros x. rewrite elem_of_cons, lookup_alter_is_Some. naive_solver.
    + intros x Hx. rewrite lookup_alter_is_Some. apply Hhd. set_solver.
    + intros x c. rewrite lookup_alter_Some.
      intros [(<- & b & Hb & ->)|[_ Hx]]; eauto. apply Reset_pooled; eauto.
  - destruct Hinv as [Hnd Hdis Hfd Hhd Hsz Hp]. constructor; simpl; auto.
    + intros x Hx. apply lookup_insert_is_Some'. auto.
    + intros x Hx. apply lookup_insert_is_Some'. auto.
    + intros x c Hx. apply lookup_insert_Some in Hx as [[_ <-]|[_ Hx]]; eauto.
  - destruct Hinv as [Hnd Hdis Hfd Hhd Hsz Hp].
    assert (∀ x, x ∈ free' → x ∈ free p) as Hin.
    { intros x Hx. by eapply elem_of_sublist. }
    constructor; simpl; auto. by eapply sublist_NoDup.
Qed.

Lemma pool_inv_reachable n p held :
  rtc pool_step (NewPool n, ∅) (p, held) → pool_inv p held.
Proof.
  intros Hr.
  apply (rtc_ind_r (λ s, pool_inv s.1 s.2) (NewPool n, ∅)) in Hr; [done| |].
  - apply pool_inv_init.
  - intros [p1 h1] [p2 h2] _ Hs IH. by eapply pool_inv_step.
Qed.
End PoolFacts.

(** ** Properties *)

(** C38: the pool never hands out a buffer that somebody still holds, and what it
    hands out is empty and has the pool's capacity: in every state the program
    can reach with a pool by taking, using and returning buffers, [Get] returns
    a pointer outside the held set whose buffer is well formed, has offset and
    length zero, and has storage of exactly the pool's size. *)
Theorem Get_exclusive n p held choice l p' :
  rtc pool_step (NewPool n, ∅) (p, held) →
  Get p choice = (l, p') →
  l ∉ held ∧
  ∃ b, heap p' !! l = Some b ∧ wf b ∧ contents b = [] ∧
       Length b = 0 ∧ Offset b = 0 ∧ len (Data b) = pool_size p ∧ 0 < pool_size p.
Proof.
  intros Hr HG. apply pool_inv_reachable in Hr as Hinv.
  pose proof (pool_inv_get _ _ _ _ _ Hinv HG) as Hinv'.
  destruct (Get_fresh_or_free p held choice l p' Hinv HG) as [Hl [b Hb]].
  split; [done|]. exists (Reset b).
  pose proof (inv_pooled _ _ Hinv' _ _ Hb) as Hp.
  assert (pool_size p' = pool_size p) as Hs by (by eapply Get_size).
  rewrite Hs in Hp. pose proof (inv_size _ _ Hinv).
  split_and!; auto; [by apply pooled_reset_wf with (n := pool_size p)|by destruct Hp].
Qed.

(** A buffer is taken, written to, returned and taken again; then another is. *)
Example Get_exclusive_witness :
  let p1 := (Get (NewPool 16) None).2 in
  let p2 := mkPool (<[1%positive := load (mkBuf (make_slice 16) 0 0) [x07]]> (heap p1)) (free p1) 16 in
  let p3 := (Get (Put p2 (Some 1%positive)) (Some 0%nat)).2 in
  (Get (Put p2 (Some 1%positive)) (Some 0%nat)).1 = 1%positive ∧
  (Get p3 None).1 ∉ ({[1%positive]} : gset loc) ∧
  ∃ b, heap p3 !! 1%positive = Some b ∧ contents b = [].
Proof.
  intros p1 p2 p3.
  assert (rtc pool_step (NewPool 16, ∅) (Put p2 (Some 1%positive), ∅)) as Hr.
  { apply (rtc_l _ _ (p1, {[1%positive]} ∪ ∅)); [by apply (step_get _ _ None)|].
    apply (rtc_l _ _ (p2, {[1%positive]} ∪ ∅)).
    { apply (step_use p1 _ 1%positive (mkBuf (make_slice 16) 0 0)); [set_solver|reflexivity|].
      by split. }
    apply (rtc_l _ _ (Put p2 (Some 1%positive), ({[1%positive]} ∪ ∅) ∖ {[1%positive]}));
      [apply step_put; set_solver|].
    assert (({[1%positive]} ∪ ∅) ∖ {[1%positive]} = (∅ : gset loc)) as -> by set_solver. apply rtc_refl. }
  split; [reflexivity|]. split.
  - apply (Get_exclusive 16 p3 {[1%positive]} None _ (Get p3 None).2); [|by destruct (Get p3 None)].
    eapply rtc_r; [exact Hr|].
    assert (({[1%positive]} : gset loc) = {[1%positive]} ∪ ∅) as -> by set_solver.
    by apply (step_get _ _ (Some 0%nat)).
  - destruct (Get_exclusive 16 (Put p2 (Some 1%positive)) ∅ (Some 0%nat) 1%positive p3 Hr)
      as (_ & b & Hb & _ & Hc & _); [reflexivity|]. by exists b.
Defined.
