(* ===== verification/Wire.v ===== *)
(** * Wire framing (pkg/protocol/packet.go)

    The 14-byte header, its codec, and the in-place operations that put it in
    front of a packet buffer and take it off again.  Every index and slice
    expression of the code is written with its bounds check. *)

From S2P Require Import Prelude Buffer.
Local Open Scope Z_scope.

(** ** Message types and the header *)

Definition TypeHandshakeInit : Z := 1.
Definition TypeHandshakeResp : Z := 2.
Definition TypeData : Z := 3.
Definition TypeKeepalive : Z := 4.
Definition TypeDisconnect : Z := 5.

Definition HeaderSize : Z := 14.
Definition FlagPadded : Z := Z.shiftl 1 0.

Record Header := mkHeader {
  Type_ : Z;            (* uint8 *)
  Flags : Z;            (* uint8 *)
  ReceiverIndex : Z;    (* uint32 *)
  Counter : Z           (* uint64 *)
}.

(** The field widths. *)
Record header_wf (h : Header) : Prop := {
  type_range : 0 ≤ Type_ h < 256;
  flags_range : 0 ≤ Flags h < 256;
  index_range : 0 ≤ ReceiverIndex h < 2 ^ 32;
  counter_range : 0 ≤ Counter h < 2 ^ 64
}.

#[global] Instance header_eq_dec : EqDecision Header.
Proof. solve_decision. Defined.

(** [binary.LittleEndian.PutUintN(s[lo:hi], v)] with N = 8*n. *)
Definition put_le (n : nat) (s : slice) (lo hi v : Z) : outcome slice :=
  w ← slice_expr s lo hi;
  if decide (Z.of_nat n ≤ zlen w) then Ret (write_at s lo (le_encode n v))
  else Panic IndexBounds.

(** [binary.LittleEndian.UintN(s[lo:hi])] *)
Definition get_le (n : nat) (s : slice) (lo hi : Z) : outcome Z :=
  w ← slice_expr s lo hi;
  if decide (Z.of_nat n ≤ zlen w) then Ret (le_decode (take n w))
  else Panic IndexBounds.

Definition EncodeHeader (h : Header) (dst : slice) : outcome slice :=
  dst ← set_index dst 0 (byte_of_Z (Type_ h));
  dst ← set_index dst 1 (byte_of_Z (Flags h));
  dst ← put_le 4 dst 2 6 (ReceiverIndex h);
  put_le 8 dst 6 14 (Counter h).

Definition DecodeHeader (src : slice) : outcome (result Header) :=
  if decide (len src < HeaderSize) then
    Ret (Err (ErrNew "packet header truncated"))
  else
    t ← get_index src 0;
    f ← get_index src 1;
    ri ← get_le 4 src 2 6;
    c ← get_le 8 src 6 14;
    Ret (Ok (mkHeader (byte_to_Z t) (byte_to_Z f) ri c)).

(** A sub-slice [s[lo:hi]] as a slice value of its own (its capacity runs to
    the end of the backing array). *)
Definition subslice (s : slice) (lo hi : Z) : outcome slice :=
  _ ← slice_expr s lo hi;
  Ret (mkSlice (sub lo (cap s) (arr s)) (hi - lo)).

(** [EncodeHeader(h, s[lo:hi])]: the write goes through to [s]. *)
Definition encode_header_at (h : Header) (s : slice) (lo hi : Z) : outcome slice :=
  w ← subslice s lo hi;
  w ← EncodeHeader h w;
  Ret (mkSlice (splice lo (arr w) (arr s)) (len s)).

Definition PrependHeader (buf : PacketBuffer) (h : Header)
    : outcome (PacketBuffer * option error) :=
  if decide (HeaderSize ≤ Offset buf) then
    let off := Offset buf - HeaderSize in
    let n := Length buf + HeaderSize in
    data ← encode_header_at h (Data buf) off (off + HeaderSize);
    Ret (mkBuf data n off, None)
  else if decide (len (Data buf) < Length buf + HeaderSize) then
    Ret (buf, Some (ErrInts
      "buffer capacity (%d) insufficient to prepend header (%d)"
      [len (Data buf); Length buf + HeaderSize]))
  else
    dst ← slice_expr (Data buf) HeaderSize (HeaderSize + Length buf);
    src ← Bytes buf;
    let n := Z.min (zlen dst) (zlen src) in
    let data := write_at (Data buf) HeaderSize (take (Z.to_nat n) src) in
    data ← encode_header_at h data 0 HeaderSize;
    Ret (mkBuf data (Length buf + HeaderSize) 0, None).

Definition StripHeader (buf : PacketBuffer) : outcome (PacketBuffer * result Header) :=
  if decide (Length buf < HeaderSize) then
    Ret (buf, Err (ErrNew "insufficient data for header"))
  else
    w ← subslice (Data buf) (Offset buf) (Offset buf + Length buf);
    r ← DecodeHeader w;
    match r with
    | Err e => Ret (buf, Err e)
    | Ok h =>
        Ret (mkBuf (Data buf) (Length buf - HeaderSize) (Offset buf + HeaderSize), Ok h)
    end.

(** ** The byte layout the codec agrees on *)

Definition header_bytes (h : Header) : list byte :=
  [byte_of_Z (Type_ h); byte_of_Z (Flags h)] ++
  le_encode 4 (ReceiverIndex h) ++ le_encode 8 (Counter h).

Definition header_of_bytes (bs : list byte) : Header :=
  mkHeader (byte_to_Z (bs !!! 0%nat)) (byte_to_Z (bs !!! 1%nat))
           (le_decode (sub 2 6 bs)) (le_decode (sub 6 14 bs)).

Section SliceFacts.
Lemma put_le_ok n s lo hi v :
  0 ≤ lo → hi = lo + Z.of_nat n → hi ≤ cap s →
  put_le n s lo hi v = Ret (write_at s lo (le_encode n v)).
Proof.
  intros ? -> ?. unfold put_le. rewrite slice_expr_ok by lia. simpl.
  rewrite zlen_sub by (unfold cap in *; lia). by rewrite decide_True by lia.
Qed.

Lemma get_le_ok n s lo hi :
  0 ≤ lo → hi = lo + Z.of_nat n → hi ≤ cap s →
  get_le n s lo hi = Ret (le_decode (sub lo hi (arr s))).
Proof.
  intros ? -> ?. unfold get_le. rewrite slice_expr_ok by lia. simpl.
  assert (zlen (sub lo (lo + Z.of_nat n) (arr s)) = Z.of_nat n) as Hl
    by (rewrite zlen_sub; unfold cap in *; lia).
  rewrite decide_True by lia. f_equal. f_equal. apply take_ge.
  unfold zlen in Hl. lia.
Qed.

Lemma subslice_ok s lo hi :
  0 ≤ lo → lo ≤ hi → hi ≤ cap s →
  subslice s lo hi = Ret (mkSlice (sub lo (cap s) (arr s)) (hi - lo)).
Proof. intros. unfold subslice. by rewrite slice_expr_ok. Qed.

Lemma write_back s n :
  0 ≤ n → n ≤ cap s → write_at s 0 (sub 0 n (arr s)) = s.
Proof.
  intros. unfold write_at. destruct s as [a l]. simpl. f_equal.
  unfold cap in *. simpl in *. by apply splice_back.
Qed.

Lemma zlen_header_bytes h : zlen (header_bytes h) = 14.
Proof. unfold header_bytes, zlen. by rewrite !length_app, !length_le_encode. Qed.

Lemma EncodeHeader_ok h s :
  slice_wf s → HeaderSize ≤ len s →
  EncodeHeader h s = Ret (write_at s 0 (header_bytes h)).
Proof.
  unfold HeaderSize. intros [_ Hc] Hl. unfold EncodeHeader.
  rewrite set_index_ok by lia. simpl.
  rewrite set_index_ok by (simpl; lia). simpl.
  rewrite write_at_write_at by size.
  rewrite put_le_ok by size. simpl.
  rewrite write_at_write_at by size.
  rewrite put_le_ok by size.
  by rewrite write_at_write_at by size.
Qed.
End SliceFacts.

#[export] Hint Rewrite zlen_header_bytes : ant_size.

(** ** The codec *)

Section Codec.
Lemma header_of_bytes_bytes h : header_wf h → header_of_bytes (header_bytes h) = h.
Proof.
  intros [Ht Hf Hi Hc]. unfold header_of_bytes, header_bytes.
  rewrite sub_app_mid by size. rewrite (app_assoc [_; _]).
  rewrite sub_app_back by size. rewrite <- app_assoc.
  rewrite !le_decode_encode_small by (simpl; lia). simpl.
  rewrite !byte_to_of_Z, !Z.mod_small by lia. by destruct h.
Qed.

Lemma list_two (bs : list byte) :
  2 ≤ zlen bs → bs = [bs !!! 0%nat; bs !!! 1%nat] ++ sub 2 (zlen bs) bs.
Proof.
  intros H. destruct bs as [|a [|b r]]; try (unfold zlen in H; simpl in H; lia).
  simpl. do 2 f_equal. unfold sub, zlen. simpl. symmetry.
  rewrite drop_0. apply take_ge. lia.
Qed.

Lemma header_bytes_of_bytes bs :
  zlen bs = HeaderSize → header_bytes (header_of_bytes bs) = bs.
Proof.
  unfold HeaderSize. intros H. unfold header_bytes, header_of_bytes.
  cbn [Type_ Flags ReceiverIndex Counter].
  rewrite !byte_of_to_Z, !le_encode_decode_len by (apply length_sub; lia).
  rewrite <- sub_cat by lia. rewrite <- H. symmetry. apply list_two. lia.
Qed.

Lemma header_of_bytes_wf bs : zlen bs = HeaderSize → header_wf (header_of_bytes bs).
Proof.
  unfold HeaderSize. intros H. constructor; simpl; auto.
  - by apply (le_decode_range_len 4), length_sub; lia.
  - by apply (le_decode_range_len 8), length_sub; lia.
Qed.

Lemma DecodeHeader_short s :
  len s < HeaderSize → DecodeHeader s = Ret (Err (ErrNew "packet header truncated")).
Proof. intros. unfold DecodeHeader. by rewrite decide_True. Qed.

Lemma DecodeHeader_ok s :
  slice_wf s → HeaderSize ≤ len s →
  DecodeHeader s = Ret (Ok (header_of_bytes (sub 0 HeaderSize (arr s)))).
Proof.
  unfold HeaderSize. intros Hs Hl. pose proof Hs as [_ Hc].
  unfold DecodeHeader, HeaderSize.
  rewrite decide_False by lia. rewrite !get_index_ok by (auto; lia).
  rewrite !get_le_ok by lia. simpl.
  unfold header_of_bytes. rewrite !sub_sub by lia.
  by rewrite !list_lookup_total_alt_sub by lia.
Qed.

(** A header written in front of anything decodes back to itself. *)
Lemma decode_encode h s s' :
  header_wf h → slice_wf s → HeaderSize ≤ len s →
  EncodeHeader h s = Ret s' → DecodeHeader s' = Ret (Ok h).
Proof.
  intros Hh Hs Hl HE. rewrite EncodeHeader_ok in HE by done. injection HE as <-.
  pose proof Hs as [_ Hc]. unfold HeaderSize in *.
  rewrite DecodeHeader_ok; [|apply slice_wf_write; auto; size|done].
  unfold write_at. simpl.
  rewrite sub_splice_eq' by (unfold cap in *; size; unfold HeaderSize; lia).
  by rewrite header_of_bytes_bytes.
Qed.
End Codec.

(** ** In-place prepending and stripping *)

(** When [PrependHeader] succeeds: headroom in front, or room behind. *)
Definition can_prepend (buf : PacketBuffer) : Prop :=
  HeaderSize ≤ Offset buf ∨ Length buf + HeaderSize ≤ len (Data buf).

#[global] Instance can_prepend_dec buf : Decision (can_prepend buf).
Proof. unfold can_prepend. apply _. Defined.

Section InPlace.
Lemma encode_header_at_ok h s lo hi :
  0 ≤ lo → hi = lo + HeaderSize → hi ≤ cap s →
  encode_header_at h s lo hi = Ret (write_at s lo (header_bytes h)).
Proof.
  unfold HeaderSize. intros ? -> ?. unfold encode_header_at.
  assert (cap (mkSlice (sub lo (cap s) (arr s)) (lo + 14 - lo)) = cap s - lo) as Hc
    by (unfold cap at 1; simpl; rewrite zlen_sub; unfold cap in *; lia).
  rewrite subslice_ok by lia. simpl. rewrite EncodeHeader_ok.
  - simpl. unfold write_at. simpl. do 2 f_equal.
    apply splice_sub; unfold cap in *; size.
  - unfold slice_wf. rewrite Hc. simpl. lia.
  - simpl. unfold HeaderSize. lia.
Qed.

Lemma PrependHeader_ok buf h :
  wf buf → can_prepend buf →
  ∃ buf', PrependHeader buf h = Ret (buf', None) ∧ wf buf' ∧
    contents buf' = header_bytes h ++ contents buf ∧
    len (Data buf') = len (Data buf) ∧ cap (Data buf') = cap (Data buf).
Proof.
  intros Hwf Hroom. pose proof Hwf as [Ho Hl Hf Hs]. pose proof Hs as [Hs1 Hs2].
  pose proof (zlen_header_bytes h) as Hz.
  unfold can_prepend, PrependHeader, HeaderSize in *.
  case_decide as Hoff.
  - rewrite encode_header_at_ok by (unfold HeaderSize; lia). gsimpl.
    eexists. split; [done|]. split; [constructor; gsimpl; try lia|].
    + rewrite cap_write_at; lia.
    + apply slice_wf_write; auto; lia.
    + split; [|split; [done|by apply cap_write_at; lia]].
      unfold contents. gsimpl.
      rewrite (sub_cat _ (Offset buf)) by (unfold cap in *; size).
      f_equal.
      * apply sub_splice_eq'; unfold cap in *; lia.
      * rewrite sub_splice_ne by (unfold cap in *; lia). f_equal. lia.
  - rewrite decide_False by lia.
    rewrite slice_expr_ok by lia. rewrite Bytes_wf by done. gsimpl.
    rewrite zlen_contents, zlen_sub by (done || unfold cap in *; lia).
    pose proof (zlen_contents _ Hwf) as Hzc.
    rewrite (take_ge (contents buf)) by (unfold zlen in *; lia).
    rewrite encode_header_at_ok by
      (rewrite ?cap_write_at; unfold HeaderSize; lia). gsimpl.
    eexists. split; [done|].
    assert (cap (write_at (write_at (Data buf) 14 (contents buf)) 0 (header_bytes h))
            = cap (Data buf)) as Hcap by (rewrite !cap_write_at; rewrite ?cap_write_at; lia).
    split; [constructor; gsimpl; try lia|].
    + unfold slice_wf. rewrite Hcap. done.
    + split; [|done]. unfold contents at 1. gsimpl.
      rewrite (sub_cat 0 14) by (unfold cap in *; size).
      rewrite sub_splice_eq' by (unfold cap in *; size). f_equal.
      rewrite sub_splice_ne by (unfold cap in *; size).
      apply sub_splice_eq'; unfold cap in *; lia.
Qed.

Lemma PrependHeader_full buf h :
  ¬ can_prepend buf →
  PrependHeader buf h = Ret (buf, Some (ErrInts
    "buffer capacity (%d) insufficient to prepend header (%d)"
    [len (Data buf); Length buf + HeaderSize])).
Proof.
  unfold can_prepend, PrependHeader. intros.
  rewrite decide_False, decide_True by (unfold HeaderSize in *; lia). done.
Qed.

Lemma StripHeader_short buf :
  Length buf < HeaderSize →
  StripHeader buf = Ret (buf, Err (ErrNew "insufficient data for header")).
Proof. intros. unfold StripHeader. by rewrite decide_True. Qed.

Lemma StripHeader_ok buf :
  wf buf → HeaderSize ≤ Length buf →
  ∃ buf', StripHeader buf = Ret (buf', Ok (header_of_bytes (sub 0 HeaderSize (contents buf)))) ∧
    wf buf' ∧ contents buf' = sub HeaderSize (Length buf) (contents buf) ∧
    Length buf' = Length buf - HeaderSize ∧ Data buf' = Data buf.
Proof.
  intros Hwf Hl14. pose proof Hwf as [Ho Hl Hf Hs]. pose proof Hs as [Hs1 Hs2].
  unfold StripHeader, HeaderSize in *. rewrite decide_False by lia.
  rewrite subslice_ok by lia. gsimpl.
  rewrite DecodeHeader_ok; [|unfold slice_wf, cap; gsimpl; size..]; gsimpl;
    [|unfold cap in *; size|unfold HeaderSize; lia].
  eexists. split; [do 4 f_equal|].
  - unfold contents, HeaderSize. rewrite !sub_sub by (unfold cap in *; lia). done.
  - split; [constructor; gsimpl; auto; lia|].
    split; [|done]. unfold contents. gsimpl. rewrite sub_sub by lia. f_equal; lia.
Qed.

(** A buffer whose valid bytes start with an encoded header. *)
Lemma strip_header_bytes buf h payload :
  wf buf → header_wf h → contents buf = header_bytes h ++ payload →
  ∃ buf', StripHeader buf = Ret (buf', Ok h) ∧ wf buf' ∧
    contents buf' = payload ∧ Length buf' = zlen payload ∧ Data buf' = Data buf.
Proof.
  intros Hwf Hh Hc. pose proof (zlen_contents _ Hwf) as Hz.
  rewrite Hc in Hz. autorewrite with ant_size in Hz.
  pose proof (zlen_nonneg payload).
  destruct (StripHeader_ok buf) as (b & H1 & H2 & H3 & H4 & H5);
    [done|unfold HeaderSize; lia|].
  exists b. rewrite H1, H3, Hc, sub_app_front by (by rewrite zlen_header_bytes).
  rewrite header_of_bytes_bytes by done.
  split_and!; auto; [|unfold HeaderSize in *; lia].
  apply sub_app_back; unfold HeaderSize; size.
Qed.

(** Neither operation panics on a well-formed buffer, and both keep it so. *)
Lemma PrependHeader_total buf h :
  wf buf → ∃ buf' e, PrependHeader buf h = Ret (buf', e) ∧ wf buf'.
Proof.
  intros Hwf. destruct (decide (can_prepend buf)).
  - destruct (PrependHeader_ok buf h) as (b & H & ? & _); eauto.
  - rewrite PrependHeader_full by done. eauto.
Qed.

Lemma StripHeader_total buf :
  wf buf → ∃ buf' r, StripHeader buf = Ret (buf', r) ∧ wf buf' ∧ Data buf' = Data buf.
Proof.
  intros Hwf. destruct (decide (Length buf < HeaderSize)).
  - rewrite StripHeader_short by done. eauto 6.
  - destruct (StripHeader_ok buf) as (b & H & ? & _ & _ & ?); [done|lia|]. eauto 6.
Qed.
End InPlace.

(** ** Properties *)

(** The header codec is a bijection between headers (with fields in their
    widths) and 14-byte strings: writing a header into a slice with room and
    decoding the slice gives the header back and changes nothing after the
    first 14 bytes; and decoding any slice of at least 14 bytes succeeds with a
    header in range whose encoding is exactly the bytes read. *)
Theorem header_codec h s :
  header_wf h → slice_wf s → HeaderSize ≤ len s →
  (∃ s', EncodeHeader h s = Ret s' ∧ DecodeHeader s' = Ret (Ok h) ∧
         len s' = len s ∧ sub HeaderSize (cap s) (arr s') = sub HeaderSize (cap s) (arr s)) ∧
  (∃ h', DecodeHeader s = Ret (Ok h') ∧ header_wf h' ∧ EncodeHeader h' s = Ret s).
Proof.
  intros Hh Hs Hl. pose proof Hs as [_ Hc]. split.
  - exists (write_at s 0 (header_bytes h)). rewrite EncodeHeader_ok by done.
    split_and!; [done|by eapply decode_encode, EncodeHeader_ok|done|].
    unfold HeaderSize in *. apply sub_splice_ne; unfold cap in *; size.
  - pose proof (zlen_sub 0 HeaderSize (arr s)) as Hz. unfold HeaderSize, cap in *.
    eexists. rewrite DecodeHeader_ok by done. split; [done|].
    split; [apply header_of_bytes_wf; unfold HeaderSize; lia|].
    rewrite EncodeHeader_ok, header_bytes_of_bytes by (done || unfold HeaderSize; lia).
    f_equal. by apply write_back; unfold cap, HeaderSize; lia.
Qed.

Example header_codec_witness :
  let h := mkHeader TypeData FlagPadded 0x12345678 0xAABBCCDDEEFF0011 in
  header_wf h ∧
  ∃ s', EncodeHeader h (make_slice 20) = Ret s' ∧ DecodeHeader s' = Ret (Ok h).
Proof.
  split; [by constructor|].
  edestruct (header_codec (mkHeader TypeData FlagPadded 0x12345678 0xAABBCCDDEEFF0011)
    (make_slice 20)) as [(s' & H1 & H2 & _) _]; [by constructor|done|done|eauto].
Defined.

(** [PrependHeader] on a well-formed buffer never panics; it succeeds exactly
    when there is headroom of 14 bytes in front or 14 free bytes behind, and then
    the valid bytes are the encoded header followed by the old ones; otherwise
    it reports the capacity error and leaves the buffer as it was. *)
Theorem PrependHeader_correct buf h :
  wf buf →
  (can_prepend buf →
     ∃ buf', PrependHeader buf h = Ret (buf', None) ∧ wf buf' ∧
             contents buf' = header_bytes h ++ contents buf) ∧
  (¬ can_prepend buf →
     ∃ e, PrependHeader buf h = Ret (buf, Some e)).
Proof.
  intros Hwf. split; intros Hroom.
  - destruct (PrependHeader_ok buf h) as (b & H1 & H2 & H3 & _); eauto.
  - rewrite PrependHeader_full by done. eauto.
Qed.

Example PrependHeader_correct_witness :
  let buf := load (mkBuf (make_slice 20) 0 0) (bytes_of "abcdef") in
  let h := mkHeader TypeData 0 42 100 in
  can_prepend buf ∧
  ∃ buf', PrependHeader buf h = Ret (buf', None) ∧
          contents buf' = header_bytes h ++ bytes_of "abcdef".
Proof.
  split; [right; vm_compute; discriminate|].
  destruct (PrependHeader_correct
    (load (mkBuf (make_slice 20) 0 0) (bytes_of "abcdef")) (mkHeader TypeData 0 42 100))
    as [Hok _].
  - apply load_wf; vm_compute; intuition discriminate.
  - destruct Hok as (b & H1 & _ & H3); [right; vm_compute; discriminate|].
    exists b. by rewrite H1, H3.
Defined.

(** C37: stripping undoes prepending: whatever the offset of the buffer, if
    [PrependHeader] succeeded then [StripHeader] on its result returns the same
    header and leaves exactly the original payload. *)
Theorem StripHeader_PrependHeader buf h buf' :
  wf buf → header_wf h → PrependHeader buf h = Ret (buf', None) →
  ∃ buf'', StripHeader buf' = Ret (buf'', Ok h) ∧ wf buf'' ∧
           contents buf'' = contents buf ∧ Length buf'' = Length buf.
Proof.
  intros Hwf Hh HP. destruct (decide (can_prepend buf)) as [Hroom|Hroom].
  - destruct (PrependHeader_ok buf h) as (b & H1 & Hwf' & Hc & _); auto.
    rewrite H1 in HP. injection HP as ->.
    destruct (strip_header_bytes buf' h (contents buf)) as (b & ? & ? & ? & Hl & _); auto.
    rewrite zlen_contents in Hl by done. eauto.
  - by rewrite PrependHeader_full in HP.
Qed.

Example StripHeader_PrependHeader_witness :
  let buf := load (mkBuf (make_slice 64) 0 0) (bytes_of "tun packet content") in
  let h := mkHeader TypeData 0 42 100 in
  ∃ buf' buf'', PrependHeader buf h = Ret (buf', None) ∧
    StripHeader buf' = Ret (buf'', Ok h) ∧ contents buf'' = bytes_of "tun packet content".
Proof.
  eexists. 
  edestruct (StripHeader_PrependHeader
    (load (mkBuf (make_slice 64) 0 0) (bytes_of "tun packet content"))
    (mkHeader TypeData 0 42 100)) as (b & H1 & _ & H3 & _).
  - apply load_wf; vm_compute; intuition discriminate.
  - by constructor.
  - vm_compute. reflexivity.
  - exists b. split; [vm_compute; reflexivity|]. split; [exact H1|by rewrite H3].
Defined.
