(* ===== verification/Replay.v ===== *)
(** * The anti-replay window (pkg/protocol/session.go, ReplayWindow)

    [CheckAndSet] on two 64-bit words, with the shifts at their width, refined
    to an abstract window that remembers the set of accepted sequence numbers. *)

From S2P Require Import Prelude.
Local Open Scope Z_scope.

Definition WindowSize : Z := 128.

Record ReplayWindow := mkWindow {
  maxSeq : Z;      (* uint64 *)
  bitmap0 : Z;     (* bitmap[0], uint64 *)
  bitmap1 : Z      (* bitmap[1], uint64 *)
}.

(** The zero value of the struct. *)
Definition zero_window : ReplayWindow := mkWindow 0 0 0.

(** [x << d] and [x >> d] on uint64. *)
Definition shl64 (x d : Z) : Z := u64 (Z.shiftl x d).
Definition shr64 (x d : Z) : Z := Z.shiftr x d.

Definition CheckAndSet (rw : ReplayWindow) (seq : Z) : bool * ReplayWindow :=
  if decide (maxSeq rw < seq) then
    let diff := u64 (seq - maxSeq rw) in
    let '(b0, b1) :=
      if decide (WindowSize ≤ diff) then (0, 0)
      else if decide (64 ≤ diff) then (0, shl64 (bitmap0 rw) (diff - 64))
      else (shl64 (bitmap0 rw) diff,
            Z.lor (shl64 (bitmap1 rw) diff) (shr64 (bitmap0 rw) (64 - diff))) in
    (true, mkWindow seq (Z.lor b0 1) b1)
  else
    let diff := u64 (maxSeq rw - seq) in
    if decide (WindowSize ≤ diff) then (false, rw)
    else
      let word := diff / 64 in
      let bit := diff mod 64 in
      let w := if decide (word = 0) then bitmap0 rw else bitmap1 rw in
      if decide (Z.land w (shl64 1 bit) ≠ 0) then (false, rw)
      else
        let w' := Z.lor w (shl64 1 bit) in
        (true, if decide (word = 0) then mkWindow (maxSeq rw) w' (bitmap1 rw)
               else mkWindow (maxSeq rw) (bitmap0 rw) w').

(** A sequence of arrivals: the verdict of each, and the final window. *)
Fixpoint check_all (rw : ReplayWindow) (seqs : list Z) : list bool * ReplayWindow :=
  match seqs with
  | [] => ([], rw)
  | s :: seqs =>
      let '(v, rw) := CheckAndSet rw s in
      let '(vs, rw) := check_all rw seqs in (v :: vs, rw)
  end.

(** ** The abstract window *)

Record Window := mkSpec {
  highest : Z;
  seen : gset Z
}.

Definition spec_zero : Window := mkSpec 0 ∅.

Definition spec_check (w : Window) (seq : Z) : bool * Window :=
  if decide (seq ∈ seen w ∨ seq + WindowSize ≤ highest w) then (false, w)
  else (true, mkSpec (Z.max (highest w) seq) ({[seq]} ∪ seen w)).

Fixpoint spec_all (w : Window) (seqs : list Z) : list bool * Window :=
  match seqs with
  | [] => ([], w)
  | s :: seqs =>
      let '(v, w) := spec_check w s in
      let '(vs, w) := spec_all w seqs in (v :: vs, w)
  end.

(** The sequence numbers that got the verdict true. *)
Fixpoint accepted (vs : list bool) (seqs : list Z) : list Z :=
  match vs, seqs with
  | v :: vs, s :: seqs => if v then s :: accepted vs seqs else accepted vs seqs
  | _, _ => []
  end.

(** ** The refinement relation *)

(** Bit [i] of the 128-bit bitmap: whether [maxSeq - i] was accepted. *)
Definition window_bit (rw : ReplayWindow) (i : Z) : bool :=
  if decide (i < 64) then Z.testbit (bitmap0 rw) i else Z.testbit (bitmap1 rw) (i - 64).

Definition u64_range (z : Z) : Prop := 0 ≤ z < 2 ^ 64.

Record refines (rw : ReplayWindow) (w : Window) : Prop := {
  ref_max : maxSeq rw = highest w;
  ref_range : u64_range (maxSeq rw);
  ref_b0 : u64_range (bitmap0 rw);
  ref_b1 : u64_range (bitmap1 rw);
  ref_seen : ∀ s, s ∈ seen w → 0 ≤ s ≤ highest w;
  ref_bits : ∀ i, 0 ≤ i < WindowSize →
    window_bit rw i = bool_decide (highest w - i ∈ seen w)
}.

Section Bits.
Lemma testbit_u64_high x i : u64_range x → 64 ≤ i → Z.testbit x i = false.
Proof.
  intros Hx Hi. rewrite <- (wrap_small 64 x) by done.
  rewrite testbit_wrap by lia. by rewrite bool_decide_eq_false_2 by lia.
Qed.

Lemma lor_range a b : u64_range a → u64_range b → u64_range (Z.lor a b).
Proof.
  intros Ha Hb. split; [apply Z.lor_nonneg; split; [apply Ha|apply Hb]|].
  destruct (decide (Z.lor a b = 0)) as [->|Hne]; [lia|].
  assert (0 ≤ Z.lor a b) by (apply Z.lor_nonneg; split; [apply Ha|apply Hb]).
  destruct (decide (Z.log2 (Z.lor a b) < 64)) as [Hl|Hl].
  - apply Z.log2_lt_pow2; lia.
  - exfalso. assert (Z.testbit (Z.lor a b) (Z.log2 (Z.lor a b)) = true)
      as Ht by (apply Z.bit_log2; lia).
    rewrite Z.lor_spec, !testbit_u64_high in Ht by (done || lia). done.
Qed.

Lemma shl64_range x d : u64_range (shl64 x d).
Proof. apply wrap_range. lia. Qed.

Lemma shr64_range x d : 0 ≤ d → u64_range x → u64_range (shr64 x d).
Proof.
  intros Hd [H0 H1]. unfold shr64. rewrite Z.shiftr_div_pow2 by done.
  assert (0 < 2 ^ d) by (apply Z.pow_pos_nonneg; lia).
  split; [by apply Z.div_pos|].
  apply Z.le_lt_trans with x; [|done]. apply Z.div_le_upper_bound; nia.
Qed.

Lemma testbit_shl64 x d i :
  0 ≤ d → 0 ≤ i → Z.testbit (shl64 x d) i =
    bool_decide (i < 64) && bool_decide (d ≤ i) && Z.testbit x (i - d).
Proof.
  intros. unfold shl64. rewrite testbit_wrap, Z.shiftl_spec by lia.
  destruct (decide (d ≤ i)).
  - rewrite (bool_decide_eq_true_2 (d ≤ i)) by done. by rewrite andb_true_r.
  - rewrite (Z.testbit_neg_r x) by lia. by rewrite !andb_false_r.
Qed.

Lemma testbit_1 i : 0 ≤ i → Z.testbit 1 i = bool_decide (i = 0).
Proof.
  intros. case_bool_decide; [by subst|].
  change 1 with (2 ^ 0). apply Z.pow2_bits_false. lia.
Qed.

Lemma land_bit x d :
  0 ≤ d < 64 → (Z.land x (shl64 1 d) ≠ 0 ↔ Z.testbit x d = true).
Proof.
  intros Hd. assert (shl64 1 d = 2 ^ d) as ->.
  { unfold shl64. rewrite Z.shiftl_1_l. apply wrap_small.
    split; [apply Z.pow_nonneg; lia|apply Z.pow_lt_mono_r; lia]. }
  split; intros H.
  - destruct (Z.testbit x d) eqn:E; [done|]. exfalso. apply H.
    apply Z.bits_inj'. intros i Hi. rewrite Z.land_spec, Z.bits_0.
    destruct (decide (i = d)) as [->|]; [by rewrite E|].
    rewrite Z.pow2_bits_false by lia. by rewrite andb_false_r.
  - intros E. apply (f_equal (λ z, Z.testbit z d)) in E.
    rewrite Z.land_spec, H, Z.pow2_bits_true, Z.bits_0 in E by lia. done.
Qed.

Lemma testbit_bit d i :
  0 ≤ d < 64 → 0 ≤ i → Z.testbit (shl64 1 d) i = bool_decide (i = d).
Proof.
  intros. rewrite testbit_shl64 by lia.
  destruct (decide (d ≤ i)).
  - rewrite testbit_1 by lia. repeat case_bool_decide; lia || done.
  - rewrite (bool_decide_eq_false_2 (d ≤ i)), (bool_decide_eq_false_2 (i = d)) by lia.
    by rewrite andb_false_r.
Qed.
End Bits.

(** ** One step *)

(** The two words after the window moved [d] places, before the new number is
    marked: [CheckAndSet]'s three shift cases. *)
Definition shifted (rw : ReplayWindow) (d : Z) : Z * Z :=
  if decide (WindowSize ≤ d) then (0, 0)
  else if decide (64 ≤ d) then (0, shl64 (bitmap0 rw) (d - 64))
  else (shl64 (bitmap0 rw) d,
        Z.lor (shl64 (bitmap1 rw) d) (shr64 (bitmap0 rw) (64 - d))).

Section Step.
Lemma shifted_range rw d :
  0 ≤ d → u64_range (bitmap0 rw) → u64_range (bitmap1 rw) →
  u64_range (shifted rw d).1 ∧ u64_range (shifted rw d).2.
Proof.
  intros. unfold shifted.
  assert (u64_range 0) by (unfold u64_range; lia).
  repeat case_decide; simpl; auto using shl64_range, lor_range.
  split; [apply shl64_range|]. apply lor_range; [apply shl64_range|].
  apply shr64_range; [lia|done].
Qed.

(** Shifting the two words by [d] is shifting the 128-bit bitmap by [d]. *)
Lemma window_bit_shifted rw d m i :
  1 ≤ d → u64_range (bitmap0 rw) → u64_range (bitmap1 rw) → 0 ≤ i < WindowSize →
  window_bit (mkWindow m (Z.lor (shifted rw d).1 1) (shifted rw d).2) i =
    bool_decide (i = 0) || (bool_decide (d ≤ i) && window_bit rw (i - d)).
Proof.
  unfold WindowSize. intros Hd H0 H1 Hi. unfold window_bit, shifted, WindowSize. simpl.
  destruct (decide (i < 64)) as [Hlt|Hge].
  - rewrite Z.lor_spec, testbit_1 by lia. rewrite orb_comm. f_equal.
    repeat case_decide; simpl; rewrite ?testbit_shl64, ?Z.bits_0 by lia;
      repeat case_bool_decide; simpl; try done; lia.
  - rewrite (bool_decide_eq_false_2 (i = 0)) by lia. simpl.
    repeat case_decide; simpl;
      rewrite ?Z.lor_spec, ?testbit_shl64, ?Z.bits_0 by lia;
      unfold shr64; rewrite ?Z.shiftr_spec by lia;
      repeat case_bool_decide; simpl; try lia; try done.
    all: rewrite ?orb_false_r; try (f_equal; lia).
    all: rewrite ?(testbit_u64_high (bitmap0 rw)) by (done || lia).
    all: rewrite ?orb_false_r, ?orb_false_l; try done; try (f_equal; lia).
    all: rewrite ?(Z.testbit_neg_r (bitmap1 rw)) by lia; try done; try (simpl; f_equal; lia).
Qed.
End Step.

Section Refinement.
Implicit Types (rw : ReplayWindow) (w : Window).

Lemma zero_refines : refines zero_window spec_zero.
Proof.
  constructor; simpl; try (unfold u64_range; lia); try set_solver.
  intros i Hi. unfold window_bit. simpl.
  rewrite bool_decide_eq_false_2 by set_solver.
  case_decide; apply Z.bits_0.
Qed.

Lemma CheckAndSet_forward rw seq :
  u64_range (maxSeq rw) → u64_range seq → maxSeq rw < seq →
  CheckAndSet rw seq =
    (true, mkWindow seq (Z.lor (shifted rw (seq - maxSeq rw)).1 1)
                    (shifted rw (seq - maxSeq rw)).2).
Proof.
  intros Hm Hs Hlt. unfold CheckAndSet. rewrite decide_True by done.
  rewrite wrap_small by (unfold u64_range in *; lia).
  unfold shifted. by repeat case_decide.
Qed.

Lemma CheckAndSet_old rw seq :
  u64_range (maxSeq rw) → u64_range seq → seq + WindowSize ≤ maxSeq rw →
  CheckAndSet rw seq = (false, rw).
Proof.
  unfold WindowSize. intros Hm Hs Hlt. unfold CheckAndSet.
  rewrite decide_False by lia.
  rewrite wrap_small by (unfold u64_range in *; lia).
  by rewrite decide_True by (unfold WindowSize; lia).
Qed.

(** Marking bit [d] of the bitmap. *)
Definition mark rw (d : Z) : ReplayWindow :=
  if decide (d < 64) then mkWindow (maxSeq rw) (Z.lor (bitmap0 rw) (shl64 1 d)) (bitmap1 rw)
  else mkWindow (maxSeq rw) (bitmap0 rw) (Z.lor (bitmap1 rw) (shl64 1 (d - 64))).

Lemma CheckAndSet_inside rw seq :
  u64_range (maxSeq rw) → u64_range seq →
  seq ≤ maxSeq rw → maxSeq rw < seq + WindowSize →
  CheckAndSet rw seq =
    if window_bit rw (maxSeq rw - seq) then (false, rw)
    else (true, mark rw (maxSeq rw - seq)).
Proof.
  unfold WindowSize. intros Hm Hs Hle Hlt. unfold CheckAndSet, mark, window_bit.
  rewrite decide_False by lia.
  rewrite wrap_small by (unfold u64_range in *; lia).
  rewrite decide_False by (unfold WindowSize; lia).
  set (d := maxSeq rw - seq) in *.
  destruct (decide (d < 64)) as [Hd|Hd].
  - rewrite Z.div_small, Z.mod_small by lia. rewrite !(decide_True (P := 0 = 0)) by done.
    destruct (decide (Z.land _ _ ≠ 0)) as [Hb|Hb]; rewrite land_bit in Hb by lia.
    + by rewrite Hb.
    + by apply not_true_is_false in Hb as ->.
  - assert (d / 64 = 1) as -> by (symmetry; apply Z.div_unique with (d - 64); lia).
    assert (d mod 64 = d - 64) as -> by (symmetry; apply Z.mod_unique with 1; lia).
    rewrite !(decide_False (P := 1 = 0)) by done.
    destruct (decide (Z.land _ _ ≠ 0)) as [Hb|Hb]; rewrite land_bit in Hb by lia.
    + by rewrite Hb.
    + by apply not_true_is_false in Hb as ->.
Qed.

Lemma window_bit_mark rw d i :
  u64_range (bitmap0 rw) → u64_range (bitmap1 rw) → 0 ≤ d < WindowSize →
  0 ≤ i < WindowSize →
  window_bit (mark rw d) i = window_bit rw i || bool_decide (i = d).
Proof.
  unfold WindowSize. intros. unfold window_bit, mark.
  repeat case_decide; cbn [bitmap0 bitmap1]; rewrite ?Z.lor_spec, ?testbit_bit by lia;
    repeat case_bool_decide; rewrite ?orb_true_r, ?orb_false_r; lia || done.
Qed.

Lemma refines_forward rw w seq :
  refines rw w → u64_range seq → highest w < seq →
  refines (mkWindow seq (Z.lor (shifted rw (seq - maxSeq rw)).1 1)
                    (shifted rw (seq - maxSeq rw)).2)
          (mkSpec seq ({[seq]} ∪ seen w)).
Proof.
  intros [Hmax Hr H0 H1 Hseen Hbits] Hs Hlt.
  destruct (shifted_range rw (seq - maxSeq rw)) as [Hr0 Hr1]; [lia|done..|].
  assert (u64_range 1) by (unfold u64_range; lia).
  constructor; simpl; auto using lor_range.
  - intros s. rewrite elem_of_union, elem_of_singleton.
    unfold u64_range in *. intros [->|Hin]; [lia|]. apply Hseen in Hin. lia.
  - intros i Hi. rewrite window_bit_shifted by (done || lia).
    destruct (decide (i = 0)) as [->|Hi0].
    { rewrite Z.sub_0_r, (bool_decide_eq_true_2 (seq ∈ _)) by set_solver. done. }
    rewrite (bool_decide_eq_false_2 (i = 0)) by done. simpl.
    destruct (decide (seq - maxSeq rw ≤ i)) as [Hd|Hd].
    + rewrite bool_decide_eq_true_2 by done. simpl.
      rewrite Hbits by lia. apply bool_decide_ext.
      replace (highest w - (i - (seq - maxSeq rw))) with (seq - i) by lia.
      rewrite elem_of_union, elem_of_singleton. split; [auto|].
      intros [?|?]; [lia|done].
    + rewrite bool_decide_eq_false_2 by done. simpl. symmetry.
      apply bool_decide_eq_false_2. rewrite elem_of_union, elem_of_singleton.
      intros [?|Hin]; [lia|]. apply Hseen in Hin. lia.
Qed.

Lemma refines_mark rw w seq :
  refines rw w → 0 ≤ seq ≤ highest w → highest w < seq + WindowSize →
  refines (mark rw (maxSeq rw - seq)) (mkSpec (highest w) ({[seq]} ∪ seen w)).
Proof.
  intros [Hmax Hr H0 H1 Hseen Hbits] Hle Hlt.
  assert (maxSeq (mark rw (maxSeq rw - seq)) = maxSeq rw ∧
          u64_range (bitmap0 (mark rw (maxSeq rw - seq))) ∧
          u64_range (bitmap1 (mark rw (maxSeq rw - seq)))) as (Em & E0 & E1).
  { unfold mark. case_decide; simpl; auto using lor_range, shl64_range. }
  constructor; simpl; rewrite ?Em; auto.
  - intros s. rewrite elem_of_union, elem_of_singleton. intros [->|Hin]; auto.
  - intros i Hi. rewrite window_bit_mark, Hbits by (done || lia).
    rewrite <- bool_decide_or. apply bool_decide_ext.
    rewrite elem_of_union, elem_of_singleton. naive_solver lia.
Qed.

(** One call of [CheckAndSet] is one step of the abstract window. *)
Lemma CheckAndSet_refines rw w seq :
  refines rw w → u64_range seq →
  (CheckAndSet rw seq).1 = (spec_check w seq).1 ∧
  refines (CheckAndSet rw seq).2 (spec_check w seq).2.
Proof.
  intros Href Hs. pose proof Href as [Hmax Hr H0 H1 Hseen Hbits].
  unfold spec_check. destruct (decide (highest w < seq)) as [Hlt|Hge].
  - rewrite CheckAndSet_forward by (done || lia).
    rewrite decide_False.
    + simpl. split; [done|]. rewrite Z.max_r by lia. by apply refines_forward.
    + unfold WindowSize. intros [Hin|?]; [apply Hseen in Hin|]; lia.
  - destruct (decide (seq + WindowSize ≤ highest w)) as [Hold|Hin].
    + rewrite CheckAndSet_old by (done || lia). by rewrite decide_True by auto.
    + rewrite CheckAndSet_inside by (done || lia).
      rewrite Hbits by (unfold u64_range, WindowSize in *; lia).
      replace (highest w - (maxSeq rw - seq)) with seq by lia.
      case_bool_decide as Hb.
      * by rewrite decide_True by auto.
      * rewrite decide_False by naive_solver. simpl. split; [done|].
        rewrite Z.max_l by lia. apply refines_mark; unfold u64_range in *; lia || done.
Qed.

Lemma check_all_refines seqs rw w :
  refines rw w → Forall u64_range seqs →
  (check_all rw seqs).1 = (spec_all w seqs).1 ∧
  refines (check_all rw seqs).2 (spec_all w seqs).2.
Proof.
  revert rw w. induction seqs as [|s seqs IH]; intros rw w Href Hf; [done|].
  apply Forall_cons in Hf as [Hs Hf].
  destruct (CheckAndSet_refines rw w s Href Hs) as [E Href']. simpl.
  destruct (CheckAndSet rw s) as [v rw'], (spec_check w s) as [v' w']. simpl in *.
  destruct (IH rw' w' Href' Hf) as [E' Href''].
  destruct (check_all rw' seqs), (spec_all w' seqs). simpl in *. by subst.
Qed.
End Refinement.

(** ** The abstract window in terms of the history *)

Section History.
Lemma spec_all_seen w seqs :
  seen (spec_all w seqs).2 =
    list_to_set (accepted (spec_all w seqs).1 seqs) ∪ seen w.
Proof.
  revert w. induction seqs as [|s seqs IH]; intros w; simpl; [set_solver|].
  unfold spec_check. case_decide; simpl.
  - specialize (IH w). destruct (spec_all w seqs). done.
  - specialize (IH (mkSpec (highest w `max` s) ({[s]} ∪ seen w))).
    destruct (spec_all _ seqs). simpl in *. set_solver.
Qed.

Lemma spec_all_nodup w seqs :
  NoDup (accepted (spec_all w seqs).1 seqs) ∧
  ∀ s, s ∈ accepted (spec_all w seqs).1 seqs → s ∉ seen w.
Proof.
  revert w. induction seqs as [|s seqs IH]; intros w; simpl.
  { split; [constructor|set_solver]. }
  unfold spec_check. case_decide as Hd; simpl.
  - specialize (IH w). by destruct (spec_all w seqs).
  - specialize (IH (mkSpec (highest w `max` s) ({[s]} ∪ seen w))).
    destruct (spec_all _ seqs) as [vs w']. simpl in *. destruct IH as [Hn Hf].
    split.
    + constructor; [|done]. intros Hin. apply Hf in Hin. set_solver.
    + intros t. rewrite elem_of_cons. intros [->|Hin]; [tauto|].
      apply Hf in Hin. set_solver.
Qed.

(** [highest] is the greatest accepted number (0 before any). *)
Lemma spec_all_highest w seqs b :
  0 ≤ b →
  highest (spec_all w seqs).2 < b ↔
    highest w < b ∧ ∀ s, s ∈ accepted (spec_all w seqs).1 seqs → s < b.
Proof.
  intros Hb. revert w. induction seqs as [|s seqs IH]; intros w; simpl; [set_solver|].
  unfold spec_check. case_decide as Hd; simpl.
  - specialize (IH w). by destruct (spec_all w seqs).
  - specialize (IH (mkSpec (highest w `max` s) ({[s]} ∪ seen w))).
    destruct (spec_all _ seqs) as [vs w']. simpl in *. rewrite IH.
    setoid_rewrite elem_of_cons. split.
    + intros [? Ha]. split; [lia|]. intros t [->|?]; [lia|auto].
    + intros [? Ha]. split; [|auto]. specialize (Ha s). naive_solver lia.
Qed.

Lemma window_reachable seqs :
  Forall u64_range seqs →
  (check_all zero_window seqs).1 = (spec_all spec_zero seqs).1 ∧
  refines (check_all zero_window seqs).2 (spec_all spec_zero seqs).2.
Proof. apply check_all_refines, zero_refines. Qed.
End History.

(** ** Properties *)

(** C26: the two-word bitmap implements the abstract window: for every sequence
    of arrivals of 64-bit sequence numbers, [CheckAndSet] gives exactly the
    verdicts of a window that keeps the whole set of accepted numbers, rejects a
    number already in it or 128 or more below the highest, and accepts the rest. *)
Theorem CheckAndSet_refinement seqs :
  Forall u64_range seqs →
  (check_all zero_window seqs).1 = (spec_all spec_zero seqs).1 ∧
  maxSeq (check_all zero_window seqs).2 = highest (spec_all spec_zero seqs).2.
Proof.
  intros Hf. destruct (window_reachable seqs Hf) as [E Href]. split; [done|].
  by apply ref_max.
Qed.

Example CheckAndSet_refinement_witness :
  let seqs := [1; 2; 1; 50; 49; 49; 300; 50; 2 ^ 64 - 1] in
  Forall u64_range seqs ∧
  (check_all zero_window seqs).1 =
    [true; true; false; true; true; false; true; false; true] ∧
  (spec_all spec_zero seqs).1 =
    [true; true; false; true; true; false; true; false; true].
Proof.
  assert (Forall u64_range [1; 2; 1; 50; 49; 49; 300; 50; 2 ^ 64 - 1]) as Hf
    by (repeat constructor; done).
  split; [done|]. destruct (CheckAndSet_refinement _ Hf) as [E _].
  rewrite <- E. split; vm_compute; reflexivity.
Defined.

(** No sequence number is ever accepted twice, in any order of arrivals. *)
Theorem CheckAndSet_no_replay seqs :
  Forall u64_range seqs →
  NoDup (accepted (check_all zero_window seqs).1 seqs).
Proof.
  intros Hf. destruct (window_reachable seqs Hf) as [-> _]. apply spec_all_nodup.
Qed.

Example CheckAndSet_no_replay_witness :
  NoDup (accepted (check_all zero_window [7; 7; 200; 7; 199; 200; 199]).1
                  [7; 7; 200; 7; 199; 200; 199]).
Proof. apply CheckAndSet_no_replay. repeat constructor; done. Defined.

(** The verdict on the next packet, in terms of what was accepted before: a
    number is accepted if and only if it was not accepted before and every
    accepted number is less than 128 above it. *)
Theorem CheckAndSet_verdict seqs s :
  Forall u64_range seqs → u64_range s →
  let acc := accepted (check_all zero_window seqs).1 seqs in
  (CheckAndSet (check_all zero_window seqs).2 s).1 = true ↔
    s ∉ acc ∧ ∀ a, a ∈ acc → a < s + WindowSize.
Proof.
  intros Hf Hs acc. unfold acc.
  destruct (window_reachable seqs Hf) as [-> Href].
  destruct (CheckAndSet_refines _ _ s Href Hs) as [-> _].
  pose proof (spec_all_seen spec_zero seqs) as Hseen.
  pose proof (spec_all_highest spec_zero seqs (s + WindowSize)) as Hhi.
  unfold spec_check, u64_range, WindowSize in *. simpl in *.
  rewrite Hseen. case_decide as Hd; simpl; set_solver by lia.
Qed.

Example CheckAndSet_verdict_witness :
  (CheckAndSet (check_all zero_window [5; 131]).2 4).1 = true ∧
  (CheckAndSet (check_all zero_window [5; 131]).2 3).1 ≠ true.
Proof.
  split.
  - apply (CheckAndSet_verdict [5; 131] 4); [by repeat constructor|done|].
    vm_compute accepted. unfold WindowSize. set_solver by lia.
  - intros H. apply (CheckAndSet_verdict [5; 131] 3) in H; [|by repeat constructor|done].
    vm_compute accepted in H. destruct H as [_ H]. specialize (H 131).
    unfold WindowSize in H. set_solver by lia.
Defined.
