(* ===== verification/Padding.v ===== *)
(** * Anti-DPI padding and jitter (pkg/obfuscation/padding.go)

    [PadPacket] and [UnpadPacket] on a packet buffer, with the one-byte length
    trailer at its width, and [ApplyJitter].  Randomness is an argument: the
    stream [crypto/rand] delivers, or its error. *)

From S2P Require Import Prelude Buffer.
Local Open Scope Z_scope.

Definition DefaultBlockSize : Z := 128.
Definition MaxBlockSize : Z := 512.

(** The first [n] bytes of a random stream. *)
Definition rand_read (rnd : nat → byte) (n : Z) : list byte :=
  map rnd (seq 0 (Z.to_nat n)).

(** [PadPacket]'s clamping of its argument. *)
Definition block_size (blockSize : Z) : Z :=
  let b := if decide (blockSize ≤ 0) then DefaultBlockSize else blockSize in
  if decide (MaxBlockSize < b) then MaxBlockSize else b.

(** The number of filler bytes for a payload of [n] bytes. *)
Definition pad_len (n blockSize : Z) : Z :=
  let rem := Z.rem (n + 1) blockSize in
  if decide (rem ≠ 0) then blockSize - rem else 0.

Definition PadPacket (rnd : result (nat → byte)) (buf : PacketBuffer) (blockSize : Z)
    : outcome (PacketBuffer * option error) :=
  let blockSize := block_size blockSize in
  let padLen := pad_len (Length buf) blockSize in
  let totalAdd := padLen + 1 in
  if decide (len (Data buf) < Offset buf + Length buf + totalAdd) then
    Ret (buf, Some (ErrNew "buffer capacity exceeded for padding"))
  else
    _ ← slice_expr (Data buf) (Offset buf + Length buf) (Offset buf + Length buf + padLen);
    let finish data :=
      data ← set_index data (Offset buf + Length buf + padLen) (byte_of_Z padLen);
      Ret (mkBuf data (Length buf + totalAdd) (Offset buf), None) in
    if decide (0 < padLen) then
      match rnd with
      | Err e => Ret (buf, Some e)
      | Ok r => finish (write_at (Data buf) (Offset buf + Length buf) (rand_read r padLen))
      end
    else finish (Data buf).

Definition UnpadPacket (buf : PacketBuffer) : outcome (PacketBuffer * option error) :=
  if decide (Length buf < 1) then
    Ret (buf, Some (ErrNew "buffer too short for unpadding"))
  else
    b ← get_index (Data buf) (Offset buf + Length buf - 1);
    let totalAdd := byte_to_Z b + 1 in
    if decide (Length buf < totalAdd) then
      Ret (buf, Some (ErrNew "invalid padding length metadata"))
    else Ret (mkBuf (Data buf) (Length buf - totalAdd) (Offset buf), None).

(** Signed 64-bit wrap-around. *)
Definition s64 (z : Z) : Z := u64 (z + 2 ^ 63) - 2 ^ 63.

(** [ApplyJitter]: the nanoseconds slept, or nothing.  [rnd] is
    [rand.Int(rand.Reader, max)]. *)
Definition ApplyJitter (rnd : Z → result Z) (minMs maxMs : Z) : option Z :=
  if decide (maxMs ≤ minMs ∨ minMs < 0) then None
  else
    match rnd (s64 (maxMs - minMs)) with
    | Err _ => None
    | Ok n => Some (s64 (s64 (minMs + n) * 1000000))
    end.

Section Padding.
Lemma zlen_rand_read r n : 0 ≤ n → zlen (rand_read r n) = n.
Proof. intros. unfold zlen, rand_read. rewrite length_map, length_seq. lia. Qed.

Lemma block_size_range b : 1 ≤ block_size b ≤ MaxBlockSize.
Proof.
  unfold block_size, MaxBlockSize, DefaultBlockSize. repeat case_decide; lia.
Qed.

Lemma pad_len_range n b : 0 ≤ n → 1 ≤ b → 0 ≤ pad_len n b < b.
Proof.
  intros. unfold pad_len.
  pose proof (Z.rem_bound_pos (n + 1) b). case_decide; lia.
Qed.

Lemma pad_len_multiple n b : 0 ≤ n → 1 ≤ b → (n + pad_len n b + 1) mod b = 0.
Proof.
  intros. unfold pad_len.
  rewrite Z.rem_mod_nonneg by lia.
  pose proof (Z.div_mod (n + 1) b) as Hd.
  case_decide as Hr.
  - replace (n + (b - (n + 1) mod b) + 1) with ((n + 1) / b * b + 1 * b) by lia.
    rewrite <- Z.mul_add_distr_r. apply Z.mod_mul. lia.
  - by replace (n + 0 + 1) with (n + 1) by lia.
Qed.

(** The state after a successful padding. *)
Lemma PadPacket_ok r buf blockSize :
  wf buf →
  Offset buf + Length buf + pad_len (Length buf) (block_size blockSize) + 1
    ≤ len (Data buf) →
  let p := pad_len (Length buf) (block_size blockSize) in
  ∃ buf', PadPacket (Ok r) buf blockSize = Ret (buf', None) ∧ wf buf' ∧
    contents buf' = contents buf ++ rand_read r p ++ [byte_of_Z p] ∧
    Length buf' = Length buf + p + 1 ∧ len (Data buf') = len (Data buf) ∧
    Offset buf' = Offset buf.
Proof.
  intros Hwf Hfit p. pose proof Hwf as [Ho Hl Hf Hs]. pose proof Hs as [Hs1 Hs2].
  pose proof (block_size_range blockSize).
  assert (0 ≤ p) as Hp by (apply pad_len_range; lia).
  pose proof (zlen_rand_read r p Hp) as Hz.
  unfold PadPacket. fold p in Hfit |- *.
  rewrite decide_False by lia. rewrite slice_expr_ok by lia.
  assert ((if decide (0 < p) then
             write_at (Data buf) (Offset buf + Length buf) (rand_read r p)
           else Data buf) =
          write_at (Data buf) (Offset buf + Length buf) (rand_read r p)) as Hw.
  { case_decide; [done|]. assert (p = 0) as -> by lia.
    unfold write_at, rand_read. simpl. rewrite splice_nil by (unfold cap in *; lia).
    by destruct (Data buf). }
  set (d := write_at (Data buf) (Offset buf + Length buf) (rand_read r p)) in *.
  assert (cap d = cap (Data buf)) as Hc by (apply cap_write_at; lia).
  exists (mkBuf (write_at d (Offset buf + Length buf + p) [byte_of_Z p])
                (Length buf + (p + 1)) (Offset buf)).
  split; [|split_and!; [constructor; gsimpl; auto; try lia| |gsimpl; lia|done|done]].
  - revert Hw. case_decide; intros Hw; gsimpl; [|rewrite Hw];
      by rewrite set_index_ok by (change (len d) with (len (Data buf)); lia).
  - rewrite cap_write_at by size. lia.
  - apply slice_wf_write; [by apply slice_wf_write; auto; lia|lia|size].
  - unfold contents. gsimpl. unfold d. gsimpl.
    rewrite splice_splice' by (unfold cap in *; size).
    rewrite (sub_cat _ (Offset buf + Length buf)) by (unfold cap in *; size).
    rewrite sub_splice_ne by (unfold cap in *; size). f_equal.
    apply sub_splice_eq'; unfold cap in *; size.
Qed.

(** A buffer whose valid bytes end with a length byte and that many fillers. *)
Lemma UnpadPacket_ok buf payload pad b :
  wf buf → contents buf = payload ++ pad ++ [b] → len (Data buf) = cap (Data buf) →
  ∃ buf', (UnpadPacket buf =
      if decide (Length buf < byte_to_Z b + 1)
      then Ret (buf, Some (ErrNew "invalid padding length metadata"))
      else Ret (buf', None)) ∧
    (byte_to_Z b + 1 ≤ Length buf →
     wf buf' ∧ Data buf' = Data buf ∧
     contents buf' = sub 0 (Length buf - byte_to_Z b - 1) (contents buf)).
Proof.
  intros Hwf Hc Hcap. pose proof Hwf as [Ho Hl Hf Hs]. pose proof Hs as [Hs1 Hs2].
  pose proof (zlen_contents _ Hwf) as Hz. pose proof (byte_to_Z_range b).
  assert (1 ≤ Length buf) as H1.
  { rewrite <- Hz, Hc. pose proof (zlen_nonneg payload). pose proof (zlen_nonneg pad). size. }
  eexists (mkBuf (Data buf) (Length buf - (byte_to_Z b + 1)) (Offset buf)).
  unfold UnpadPacket. rewrite decide_False by lia.
  rewrite get_index_ok by (auto; lia). gsimpl.
  assert (arr (Data buf) !!! Z.to_nat (Offset buf + Length buf - 1) = b) as ->.
  { apply (last_byte _ (Offset buf) (Length buf) (payload ++ pad)); [lia|lia|unfold cap in *; lia|].
    by rewrite <- app_assoc. }
  split; [by case_decide|]. intros. split_and!; [constructor; gsimpl; auto; lia|done|].
  unfold contents. gsimpl. rewrite sub_sub by lia. f_equal; lia.
Qed.

Lemma PadPacket_cap r buf blockSize buf' :
  wf buf → PadPacket r buf blockSize = Ret (buf', None) →
  cap (Data buf') = cap (Data buf).
Proof.
  intros Hwf. pose proof Hwf as [Ho Hl Hf Hs]. pose proof Hs as [Hs1 Hs2].
  pose proof (pad_len_range (Length buf) (block_size blockSize)) as Hp.
  pose proof (block_size_range blockSize).
  unfold PadPacket. set (p := pad_len _ _) in *.
  case_decide; [done|]. rewrite slice_expr_ok by lia. gsimpl.
  assert (0 < p → ∀ s, zlen (rand_read s p) = p) by (intros; apply zlen_rand_read; lia).
  case_decide as Hpos; [destruct r as [s|]; [|done]|];
    (rewrite set_index_ok by (gsimpl; lia)); gsimpl; intros [= <-]; gsimpl;
    rewrite !cap_write_at; rewrite ?cap_write_at; rewrite ?H1; size.
Qed.

Lemma pad_unpad buf payload pad p :
  wf buf → contents buf = payload ++ pad ++ [byte_of_Z p] → zlen pad = p →
  len (Data buf) = cap (Data buf) →
  ∃ buf', UnpadPacket buf = Ret (buf', None) ∧ wf buf' ∧
    contents buf' = payload ++ sub 0 (p - p mod 256) pad.
Proof.
  intros Hwf Hc Hp Hcap. pose proof (zlen_nonneg pad). pose proof (zlen_nonneg payload).
  pose proof (zlen_contents _ Hwf) as Hz. rewrite Hc in Hz.
  autorewrite with ant_size in Hz.
  assert (0 ≤ p mod 256 ≤ p) as Hm
    by (split; [apply Z.mod_pos_bound|apply Z.mod_le]; lia).
  destruct (UnpadPacket_ok buf payload pad (byte_of_Z p)) as (b & HU & Hok); [done..|].
  rewrite byte_to_of_Z in *. exists b. rewrite decide_False in HU by lia.
  destruct Hok as (? & _ & Hb); [lia|]. split_and!; auto. rewrite Hb, Hc.
  replace (Length buf - p mod 256 - 1) with (zlen payload + (p - p mod 256)) by lia.
  rewrite (sub_cat 0 (zlen payload)) by size.
  rewrite sub_app_front by done. f_equal.
  rewrite sub_app_r, sub_app_l by lia. f_equal; lia.
Qed.

Lemma sub_prefix_nil (p : Z) pad :
  0 ≤ p → zlen pad = p → (sub 0 (p - p mod 256) pad = [] ↔ p < 256).
Proof.
  intros Hp Hz. pose proof (Z.mod_le p 256). pose proof (Z.mod_pos_bound p 256).
  pose proof (zlen_sub 0 (p - p mod 256) pad) as Hs. split; intros Hx.
  - rewrite Hx in Hs. change (zlen (@nil byte)) with 0 in Hs. lia.
  - apply nil_length_inv. unfold zlen in *. rewrite Z.mod_small in * by lia. lia.
Qed.

Lemma byte_of_Z_small z : 0 ≤ z < 256 → byte_to_Z (byte_of_Z z) = z.
Proof. intros. by rewrite byte_to_of_Z, Z.mod_small. Qed.
End Padding.

(** ** Properties *)

(** Padding never panics on a well-formed buffer; when the padded packet
    fits, its length is the next multiple of the (clamped) block size, the
    payload is kept in front, and the last byte is the low byte of the filler
    length; when it does not fit the buffer is left as it was with an error. *)
Theorem PadPacket_correct r buf blockSize :
  wf buf →
  let p := pad_len (Length buf) (block_size blockSize) in
  (Offset buf + Length buf + p + 1 ≤ len (Data buf) →
     ∃ buf', PadPacket (Ok r) buf blockSize = Ret (buf', None) ∧ wf buf' ∧
       Length buf' mod block_size blockSize = 0 ∧
       Length buf < Length buf' ≤ Length buf + block_size blockSize ∧
       contents buf' = contents buf ++ rand_read r p ++ [byte_of_Z p]) ∧
  (len (Data buf) < Offset buf + Length buf + p + 1 →
     PadPacket (Ok r) buf blockSize =
       Ret (buf, Some (ErrNew "buffer capacity exceeded for padding"))).
Proof.
  intros Hwf p. pose proof (block_size_range blockSize). pose proof (wf_len _ Hwf).
  pose proof (pad_len_range (Length buf) (block_size blockSize)) as Hp. split; intros Hfit.
  - destruct (PadPacket_ok r buf blockSize) as (b & H1 & H2 & H3 & H4 & _); auto.
    exists b. rewrite H4. split_and!; auto; try (fold p in Hp |- *; lia).
    by apply pad_len_multiple; lia.
  - unfold PadPacket. fold p. by rewrite decide_True by lia.
Qed.

Definition demo_buf (n : Z) (s : string) : PacketBuffer :=
  load (mkBuf (make_slice n) 0 0) (bytes_of s).

Lemma demo_buf_wf n s :
  0 ≤ n → zlen (bytes_of s) ≤ n → wf (demo_buf n s).
Proof.
  intros. assert (cap (make_slice n) = n) by by apply zlen_make_slice.
  apply load_wf; simpl; [unfold slice_wf; simpl; lia|done|lia].
Qed.

Example PadPacket_correct_witness :
  ∃ buf', PadPacket (Ok (λ _, x2a)) (demo_buf 2048 "secret payload") 128 = Ret (buf', None) ∧
          Length buf' mod 128 = 0.
Proof.
  destruct (PadPacket_correct (λ _, x2a) (demo_buf 2048 "secret payload") 128) as [H _].
  - apply demo_buf_wf; vm_compute; intuition discriminate.
  - destruct H as (b & H1 & _ & H2 & _); [vm_compute; discriminate|].
    exists b. split; [exact H1|exact H2].
Defined.

(** C39: what unpadding a padded packet gives, for every block size the code
    admits: with [p] fillers, the payload followed by the first
    [p - p mod 256] fillers.  The payload comes back exactly when [p < 256],
    which every block size up to 256 guarantees; above it the one-byte trailer
    loses the high bits of the filler length. *)
Theorem UnpadPacket_PadPacket r buf blockSize buf' :
  wf buf → len (Data buf) = cap (Data buf) →
  PadPacket (Ok r) buf blockSize = Ret (buf', None) →
  let p := pad_len (Length buf) (block_size blockSize) in
  ∃ buf'', UnpadPacket buf' = Ret (buf'', None) ∧ wf buf'' ∧
    contents buf'' = contents buf ++ sub 0 (p - p mod 256) (rand_read r p) ∧
    (contents buf'' = contents buf ↔ p < 256) ∧
    (block_size blockSize ≤ 256 → contents buf'' = contents buf).
Proof.
  intros Hwf Hcap HP p. pose proof (block_size_range blockSize) as Hb.
  pose proof Hwf as [Ho Hl Hf Hs].
  assert (0 ≤ p < block_size blockSize) as Hp by (apply pad_len_range; lia).
  destruct (decide (len (Data buf) < Offset buf + Length buf + p + 1)) as [Hno|Hfit].
  { unfold PadPacket in HP. fold p in HP. by rewrite decide_True in HP by lia. }
  destruct (PadPacket_ok r buf blockSize) as (b & H1 & Hwf' & Hc & Hlen & Hd & Hoff);
    [done|fold p; lia|].
  rewrite H1 in HP. injection HP as ->. fold p in Hc, Hlen.
  destruct (pad_unpad buf' (contents buf) (rand_read r p) p) as (b' & HU & Hw & Hc').
  { done. } { done. } { by apply zlen_rand_read; lia. } { by rewrite Hd, (PadPacket_cap _ _ _ _ Hwf H1). }
  exists b'. split; [done|]. split; [done|]. split; [done|].
  pose proof (zlen_rand_read r p) as Hz.
  assert (contents b' = contents buf ↔ p < 256) as Hiff.
  { rewrite Hc'. rewrite <- sub_prefix_nil with (pad := rand_read r p) by lia.
    split; [apply app_inv_nil|intros ->; apply app_nil_r]. }
  split; [done|]. intros. apply Hiff. lia.
Qed.

(** Block size 128 round-trips; block size 512 on an empty payload (511 fillers)
    leaves 256 filler bytes behind. *)
Example UnpadPacket_PadPacket_witness :
  (∃ b1 b2, PadPacket (Ok (λ _, x2a)) (demo_buf 2048 "payload") 128 = Ret (b1, None) ∧
     UnpadPacket b1 = Ret (b2, None) ∧ contents b2 = bytes_of "payload") ∧
  (∃ b1 b2, PadPacket (Ok (λ _, x2a)) (demo_buf 2048 "") 512 = Ret (b1, None) ∧
     UnpadPacket b1 = Ret (b2, None) ∧ contents b2 ≠ bytes_of "").
Proof.
  split.
  - destruct (PadPacket_ok (λ _, x2a) (demo_buf 2048 "payload") 128) as (b1 & H1 & _);
      [apply demo_buf_wf; vm_compute; intuition discriminate|vm_compute; discriminate|].
    destruct (UnpadPacket_PadPacket (λ _, x2a) (demo_buf 2048 "payload") 128 b1)
      as (b2 & H2 & _ & _ & _ & H3);
      [apply demo_buf_wf; vm_compute; intuition discriminate|reflexivity|done|].
    exists b1, b2. split; [done|]. split; [done|]. apply H3. vm_compute. discriminate.
  - destruct (PadPacket_ok (λ _, x2a) (demo_buf 2048 "") 512) as (b1 & H1 & _);
      [apply demo_buf_wf; vm_compute; intuition discriminate|vm_compute; discriminate|].
    destruct (UnpadPacket_PadPacket (λ _, x2a) (demo_buf 2048 "") 512 b1)
      as (b2 & H2 & _ & _ & H3 & _);
      [apply demo_buf_wf; vm_compute; intuition discriminate|reflexivity|done|].
    exists b1, b2. split; [done|]. split; [done|]. intros E. apply H3 in E.
    vm_compute in E. discriminate.
Defined.

(** C40: the jitter pause stays inside the requested interval: when the arguments
    are ordered and non-negative and the upper bound is below 2^63 nanoseconds,
    [ApplyJitter] sleeps at least [minMs] and less than [maxMs] milliseconds
    (or not at all if the random source fails); otherwise it never sleeps. *)
Theorem ApplyJitter_bounds rnd minMs maxMs :
  (∀ m n, rnd m = Ok n → 0 ≤ n < m) →
  - 2 ^ 63 ≤ minMs → maxMs * 1000000 < 2 ^ 63 →
  match ApplyJitter rnd minMs maxMs with
  | Some ns => 0 ≤ minMs < maxMs ∧ minMs * 1000000 ≤ ns < maxMs * 1000000
  | None => maxMs ≤ minMs ∨ minMs < 0 ∨ ∃ e, rnd (maxMs - minMs) = Err e
  end.
Proof.
  intros Hrnd Hlo Hhi. unfold ApplyJitter. case_decide as Hd; [naive_solver|].
  assert (∀ z, - 2 ^ 63 ≤ z < 2 ^ 63 → s64 z = z) as Hs.
  { intros z Hz. unfold s64. rewrite wrap_small; lia. }
  rewrite Hs by lia. destruct (rnd (maxMs - minMs)) as [n|e] eqn:E; [|eauto].
  apply Hrnd in E. rewrite (Hs (minMs + n)), Hs by lia. lia.
Qed.

Example ApplyJitter_bounds_witness :
  match ApplyJitter (λ m, Ok (m - 1)) 5 20 with
  | Some ns => 0 ≤ 5 < 20 ∧ 5 * 1000000 ≤ ns < 20 * 1000000
  | None => 20 ≤ 5 ∨ 5 < 0 ∨ ∃ e : error, @Ok Z (20 - 5 - 1) = Err e
  end.
Proof.
  assert (ApplyJitter (λ m, Ok (m - 1)) 5 20 = Some 19000000) as E by reflexivity.
  pose proof (ApplyJitter_bounds (λ m, if decide (0 < m) then Ok (m - 1) else Err (ErrNew "")) 5 20)
    as H. rewrite E. change (ApplyJitter _ 5 20) with (Some 19000000) in H.
  apply H; [|done|done]. intros m n. case_decide; [intros [= <-]; lia|done].
Defined.
