(* ===== verification/Cipher.v ===== *)
(** * The AEAD layer (pkg/crypto/cipher.go)

    [AeadLib] is the interface of the cipher libraries the code calls
    (golang.org/x/crypto/chacha20poly1305, crypto/aes, crypto/cipher) and
    [AeadLaws] what it relies on.  On top of it, [NewAEADCipher], [EncodeNonce]
    and the in-place operations on packet buffers.  [toy_aead] is a concrete
    instance used to evaluate the model. *)

From S2P Require Import Prelude Buffer Wire.
Local Open Scope Z_scope.

Definition TagSize : Z := 16.
Definition NonceSize : Z := 12.

Definition CipherChaCha20Poly1305 : Z := 1.
Definition CipherAESGCM : Z := 2.

(** ** The interface of the cipher libraries *)

Class AeadLib := {
  block : Type;                                       (* cipher.Block *)
  aead : Type;                                        (* cipher.AEAD *)
  chacha20poly1305_New : list byte → result aead;
  aes_NewCipher : list byte → result block;
  cipher_NewGCM : block → result aead;
  (** [Seal aead nonce plaintext additionalData]: what is appended to dst. *)
  Seal : aead → list byte → list byte → list byte → list byte;
  (** [Open aead nonce ciphertext additionalData] *)
  Open : aead → list byte → list byte → list byte → result (list byte);
  (** What a failed [Open] leaves in the storage of dst, which it may overwrite
      up to the capacity. *)
  open_residue : aead → list byte → list byte → list byte → list byte → list byte
}.

(** Documented behaviour: both constructors accept 32-byte keys; sealing adds a
    16-byte tag; opening inverts sealing, and succeeds on nothing else. *)
Class AeadLaws (L : AeadLib) := {
  chacha_New_ok k : zlen k = 32 → ∃ a, chacha20poly1305_New k = Ok a;
  gcm_New_ok k : zlen k = 32 →
    ∃ b a, aes_NewCipher k = Ok b ∧ cipher_NewGCM b = Ok a;
  Seal_length a n p d : zlen (Seal a n p d) = zlen p + TagSize;
  Open_Seal a n p d : Open a n (Seal a n p d) d = Ok p;
  Open_sound a n c d p : Open a n c d = Ok p → c = Seal a n p d;
  residue_length a n c d s : zlen (open_residue a n c d s) = zlen s
}.

(** [EncodeNonce]: four zero bytes, then the counter. *)
Definition EncodeNonce (counter : Z) : list byte :=
  le_encode 4 0 ++ le_encode 8 counter.

Lemma EncodeNonce_inj a b :
  0 ≤ a < 2 ^ 64 → 0 ≤ b < 2 ^ 64 → EncodeNonce a = EncodeNonce b → a = b.
Proof. intros ? ? H. apply app_inv_head in H. by apply (le_encode_inj 8) in H. Qed.

Section Cipher.
Context `{L : AeadLib}.

Record AEADCipher := mkCipher {
  cipher_aead : aead;
  suite : Z
}.

Definition NewAEADCipher (suite : Z) (key : list byte) : result AEADCipher :=
  if decide (zlen key ≠ 32) then Err (ErrNew "aead key must be exactly 32 bytes")
  else
    r ← (if decide (suite = CipherChaCha20Poly1305) then Ok (chacha20poly1305_New key)
         else if decide (suite = CipherAESGCM) then
           match aes_NewCipher key with
           | Err e => Err (ErrWrap "aes block cipher creation failed: %w" e)
           | Ok b => Ok (cipher_NewGCM b)
           end
         else Err (ErrInts "unsupported cipher suite: %d" [suite]));
    match r with
    | Err e => Err (ErrWrap "failed to create aead cipher: %w" e)
    | Ok a => Ok (mkCipher a suite)
    end.

(** The receiver is a pointer: [None] is nil, whose first use panics. *)
Definition EncryptInPlace (c : option AEADCipher) (buf : PacketBuffer) (counter : Z)
    (additionalData : list byte) : outcome (PacketBuffer * option error) :=
  let nonce := EncodeNonce counter in
  let requiredCap := Offset buf + Length buf + TagSize in
  if decide (cap (Data buf) < requiredCap) then
    Ret (buf, Some (ErrNew "buffer capacity insufficient for aead tag overhead"))
  else
    plaintext ← Bytes buf;
    match c with
    | None => Panic NilDeref
    | Some c =>
        let out := Seal (cipher_aead c) nonce plaintext additionalData in
        Ret (mkBuf (write_at (Data buf) (Offset buf) out)
                   (Length buf + TagSize) (Offset buf), None)
    end.

Definition DecryptInPlace (c : option AEADCipher) (buf : PacketBuffer) (counter : Z)
    (additionalData : list byte) : outcome (PacketBuffer * option error) :=
  if decide (Length buf < TagSize) then
    Ret (buf, Some (ErrNew "ciphertext length shorter than authentication tag"))
  else
    let nonce := EncodeNonce counter in
    ciphertext ← Bytes buf;
    match c with
    | None => Panic NilDeref
    | Some c =>
        match Open (cipher_aead c) nonce ciphertext additionalData with
        | Err e =>
            let storage := sub (Offset buf) (cap (Data buf)) (arr (Data buf)) in
            let left := open_residue (cipher_aead c) nonce ciphertext additionalData storage in
            Ret (mkBuf (write_at (Data buf) (Offset buf) left) (Length buf) (Offset buf),
                 Some (ErrWrap "aead authentication failed: %w" e))
        | Ok plaintext =>
            Ret (mkBuf (write_at (Data buf) (Offset buf) plaintext)
                       (Length buf - TagSize) (Offset buf), None)
        end
    end.
End Cipher.

#[global] Arguments AEADCipher : clear implicits.
#[global] Arguments AEADCipher {L}.

Section CipherFacts.
Context `{L : AeadLib, !AeadLaws L}.
Implicit Types (c : AEADCipher) (buf : PacketBuffer).

Lemma NewAEADCipher_chacha k :
  zlen k = 32 →
  ∃ a, chacha20poly1305_New k = Ok a ∧
       NewAEADCipher CipherChaCha20Poly1305 k = Ok (mkCipher a CipherChaCha20Poly1305).
Proof.
  intros Hk. destruct (chacha_New_ok k Hk) as [a Ha]. exists a. split; [done|].
  unfold NewAEADCipher. rewrite decide_False by auto.
  rewrite decide_True by done. simpl. by rewrite Ha.
Qed.

Lemma EncryptInPlace_ok c buf counter ad :
  wf buf → Offset buf + Length buf + TagSize ≤ cap (Data buf) →
  ∃ buf', EncryptInPlace (Some c) buf counter ad = Ret (buf', None) ∧ wf buf' ∧
    contents buf' = Seal (cipher_aead c) (EncodeNonce counter) (contents buf) ad ∧
    Length buf' = Length buf + TagSize ∧ Offset buf' = Offset buf ∧
    len (Data buf') = len (Data buf) ∧ cap (Data buf') = cap (Data buf).
Proof.
  intros Hwf Hcap. pose proof Hwf as [Ho Hl Hf Hs]. pose proof (zlen_contents _ Hwf) as Hz.
  pose proof (Seal_length (cipher_aead c) (EncodeNonce counter) (contents buf) ad) as Hsl.
  unfold TagSize in *. unfold EncryptInPlace, TagSize.
  rewrite decide_False by lia. rewrite Bytes_wf by done. gsimpl.
  set (out := Seal _ _ _ _) in *.
  assert (cap (write_at (Data buf) (Offset buf) out) = cap (Data buf)) as Hc
    by (apply cap_write_at; lia).
  eexists. split; [done|].
  split; [constructor; gsimpl; auto; try lia; apply slice_wf_write; auto; lia|].
  split_and!; gsimpl; auto.
  unfold contents. gsimpl. apply sub_splice_eq'; unfold cap in *; lia.
Qed.

Lemma EncryptInPlace_full (c : option AEADCipher) buf counter ad :
  cap (Data buf) < Offset buf + Length buf + TagSize →
  EncryptInPlace c buf counter ad =
    Ret (buf, Some (ErrNew "buffer capacity insufficient for aead tag overhead")).
Proof. intros. unfold EncryptInPlace. by rewrite decide_True. Qed.

Lemma DecryptInPlace_short (c : option AEADCipher) buf counter ad :
  Length buf < TagSize →
  DecryptInPlace c buf counter ad =
    Ret (buf, Some (ErrNew "ciphertext length shorter than authentication tag")).
Proof. intros. unfold DecryptInPlace. by rewrite decide_True. Qed.

Lemma DecryptInPlace_ok c buf counter ad p :
  wf buf → Open (cipher_aead c) (EncodeNonce counter) (contents buf) ad = Ok p →
  ∃ buf', DecryptInPlace (Some c) buf counter ad = Ret (buf', None) ∧ wf buf' ∧
    contents buf' = p ∧ Length buf' = Length buf - TagSize ∧ Offset buf' = Offset buf ∧
    len (Data buf') = len (Data buf) ∧ cap (Data buf') = cap (Data buf).
Proof.
  intros Hwf HO. pose proof Hwf as [Ho Hl Hf Hs]. pose proof (zlen_contents _ Hwf) as Hz.
  pose proof (Open_sound _ _ _ _ _ HO) as Hc.
  pose proof (Seal_length (cipher_aead c) (EncodeNonce counter) p ad) as Hsl.
  rewrite <- Hc in Hsl. pose proof (zlen_nonneg p). unfold TagSize in *.
  unfold DecryptInPlace, TagSize. rewrite decide_False by lia.
  rewrite Bytes_wf by done. gsimpl. rewrite HO.
  assert (cap (write_at (Data buf) (Offset buf) p) = cap (Data buf)) as Hcap
    by (apply cap_write_at; lia).
  eexists. split; [done|].
  split; [constructor; gsimpl; auto; try lia; apply slice_wf_write; auto; lia|].
  split_and!; gsimpl; auto.
  unfold contents. gsimpl. apply sub_splice_eq'; unfold cap in *; lia.
Qed.

Lemma DecryptInPlace_bad c buf counter ad e :
  wf buf → TagSize ≤ Length buf →
  Open (cipher_aead c) (EncodeNonce counter) (contents buf) ad = Err e →
  ∃ buf', DecryptInPlace (Some c) buf counter ad =
      Ret (buf', Some (ErrWrap "aead authentication failed: %w" e)) ∧ wf buf' ∧
    Length buf' = Length buf ∧ Offset buf' = Offset buf ∧
    len (Data buf') = len (Data buf) ∧ cap (Data buf') = cap (Data buf).
Proof.
  intros Hwf Ht HO. pose proof Hwf as [Ho Hl Hf Hs]. unfold DecryptInPlace.
  rewrite decide_False by lia. rewrite Bytes_wf by done. gsimpl. rewrite HO.
  set (left := open_residue _ _ _ _ _).
  assert (zlen left = cap (Data buf) - Offset buf) as Hz.
  { unfold left. rewrite residue_length. apply zlen_sub; unfold cap in *; lia. }
  assert (cap (write_at (Data buf) (Offset buf) left) = cap (Data buf)) as Hcap
    by (apply cap_write_at; lia).
  eexists. split; [done|].
  split; [constructor; gsimpl; auto; try lia; apply slice_wf_write; auto; lia|].
  split_and!; gsimpl; auto.
Qed.

(** With a non-nil receiver neither operation panics on a well-formed buffer. *)
Lemma EncryptInPlace_total c buf counter ad :
  wf buf → ∃ buf' e, EncryptInPlace (Some c) buf counter ad = Ret (buf', e) ∧ wf buf' ∧
    len (Data buf') = len (Data buf) ∧ cap (Data buf') = cap (Data buf).
Proof.
  intros Hwf. destruct (decide (Offset buf + Length buf + TagSize ≤ cap (Data buf))).
  - destruct (EncryptInPlace_ok c buf counter ad) as (b & ? & ? & _ & _ & _ & ? & ?); eauto 10.
  - rewrite EncryptInPlace_full by lia. eauto 10.
Qed.

Lemma DecryptInPlace_total c buf counter ad :
  wf buf → ∃ buf' e, DecryptInPlace (Some c) buf counter ad = Ret (buf', e) ∧ wf buf' ∧
    len (Data buf') = len (Data buf) ∧ cap (Data buf') = cap (Data buf).
Proof.
  intros Hwf. destruct (decide (Length buf < TagSize)).
  { rewrite DecryptInPlace_short by done. eauto 10. }
  destruct (Open (cipher_aead c) (EncodeNonce counter) (contents buf) ad) as [p|e] eqn:E.
  - destruct (DecryptInPlace_ok c buf counter ad p) as (b & ? & ? & _ & _ & _ & ? & ?); eauto 10.
  - destruct (DecryptInPlace_bad c buf counter ad e) as (b & ? & ? & _ & _ & ? & ?);
      [done|lia|done|]. eauto 10.
Qed.
End CipherFacts.

(** ** A concrete instance

    A toy cipher with the interface's laws: every byte is shifted by a key and
    nonce dependent amount and the tag is a checksum.  It only serves to
    evaluate the model. *)

Definition byte_sum (bs : list byte) : Z := foldr (λ b z, byte_to_Z b + z) 0 bs.
Definition shift_byte (s : Z) (b : byte) : byte := byte_of_Z (byte_to_Z b + s).

Definition toy_tag (k n p d : list byte) : list byte :=
  le_encode 16 (byte_sum k + 3 * byte_sum n + 5 * byte_sum p + 7 * byte_sum d + zlen d).
Definition toy_shift (k n : list byte) : Z := byte_sum k + byte_sum n.
Definition toy_seal (k n p d : list byte) : list byte :=
  map (shift_byte (toy_shift k n)) p ++ toy_tag k n p d.
Definition toy_open (k n c d : list byte) : result (list byte) :=
  let p := map (shift_byte (- toy_shift k n)) (take (length c - 16) c) in
  if decide (toy_seal k n p d = c) then Ok p
  else Err (ErrNew "chacha20poly1305: message authentication failed").
Definition toy_key (k : list byte) : result (list byte) :=
  if decide (zlen k = 32) then Ok k else Err (ErrNew "chacha20poly1305: bad key length").

Definition toy_aead : AeadLib := {|
  block := list byte;
  aead := list byte;
  chacha20poly1305_New := toy_key;
  aes_NewCipher := toy_key;
  cipher_NewGCM := Ok;
  Seal := toy_seal;
  Open := toy_open;
  open_residue := λ _ _ _ _ s, zeros (length s)
|}.

Lemma shift_byte_inv s b : shift_byte (- s) (shift_byte s b) = b.
Proof.
  unfold shift_byte. apply byte_to_Z_inj.
  rewrite !byte_to_of_Z, Z.add_mod_idemp_l by lia.
  replace (byte_to_Z b + s + - s) with (byte_to_Z b) by lia.
  apply Z.mod_small, byte_to_Z_range.
Qed.

#[global] Instance toy_aead_laws : AeadLaws toy_aead.
Proof.
  split; simpl.
  - intros k Hk. exists k. unfold toy_key. by rewrite decide_True.
  - intros k Hk. exists k, k. unfold toy_key. by rewrite decide_True.
  - intros a n p d. unfold toy_seal, toy_tag. rewrite zlen_app, zlen_le_encode.
    unfold zlen at 1. rewrite length_map. done.
  - intros a n p d. unfold toy_open.
    assert (map (shift_byte (- toy_shift a n))
              (take (length (toy_seal a n p d) - 16) (toy_seal a n p d)) = p) as ->.
    { unfold toy_seal, toy_tag at 1. rewrite length_app, length_map, length_le_encode.
      rewrite take_app_length' by (rewrite length_map; lia). rewrite map_map.
      rewrite <- (map_id p) at 2. apply map_ext. intros b. apply shift_byte_inv. }
    by rewrite decide_True.
  - intros a n c d p. unfold toy_open. case_decide as E; [|done]. by intros [= <-].
  - intros. unfold zlen, zeros. by rewrite length_replicate.
Qed.

(** ** Properties *)

(** In-place encryption followed by in-place decryption under the same
    cipher, counter and additional data restores the payload, for any
    well-formed buffer with 16 bytes to spare; the tag makes the packet exactly
    16 bytes longer in between, and the offset never moves. *)
Theorem DecryptInPlace_EncryptInPlace `{L : AeadLib, !AeadLaws L} c buf counter ad buf' :
  wf buf → Offset buf + Length buf + TagSize ≤ cap (Data buf) →
  EncryptInPlace (Some c) buf counter ad = Ret (buf', None) →
  Length buf' = Length buf + TagSize ∧ Offset buf' = Offset buf ∧
  ∃ buf'', DecryptInPlace (Some c) buf' counter ad = Ret (buf'', None) ∧ wf buf'' ∧
    contents buf'' = contents buf ∧ Length buf'' = Length buf.
Proof.
  intros Hwf Hcap HE.
  destruct (EncryptInPlace_ok c buf counter ad) as (b & H1 & Hwf' & Hc & Hl & Ho & _); auto.
  rewrite H1 in HE. injection HE as ->. split; [done|]. split; [done|].
  destruct (DecryptInPlace_ok c buf' counter ad (contents buf))
    as (b' & H2 & ? & ? & Hl' & _); [done|by rewrite Hc; apply Open_Seal|].
  exists b'. split_and!; auto. lia.
Qed.

Definition demo_cipher : AEADCipher (L := toy_aead) :=
  mkCipher (L := toy_aead) (zeros 32) CipherChaCha20Poly1305.

Example DecryptInPlace_EncryptInPlace_witness :
  let buf := load (mkBuf (make_slice 64) 0 0) (bytes_of "confidential") in
  let ad := bytes_of "header" in
  ∃ b1 b2, EncryptInPlace (Some demo_cipher) buf 42 ad = Ret (b1, None) ∧
    DecryptInPlace (Some demo_cipher) b1 42 ad = Ret (b2, None) ∧
    contents b2 = bytes_of "confidential".
Proof.
  assert (wf (load (mkBuf (make_slice 64) 0 0) (bytes_of "confidential"))) as Hwf
    by (apply load_wf; vm_compute; intuition discriminate).
  destruct (EncryptInPlace_ok (L := toy_aead) demo_cipher
    (load (mkBuf (make_slice 64) 0 0) (bytes_of "confidential")) 42 (bytes_of "header"))
    as (b1 & H1 & _); [done|vm_compute; discriminate|].
  destruct (DecryptInPlace_EncryptInPlace (L := toy_aead) demo_cipher
    (load (mkBuf (make_slice 64) 0 0) (bytes_of "confidential")) 42 (bytes_of "header") b1)
    as (_ & _ & b2 & H2 & _ & H3 & _); [done|vm_compute; discriminate|done|].
  exists b1, b2. done.
Defined.

(** Decryption authenticates: with a non-nil cipher it never panics on a
    well-formed buffer, and it reports success only if the packet it was given is
    exactly what [Seal] makes of the plaintext it delivers, under this key, this
    counter and this additional data.  In every other case it returns an error
    and leaves the length and offset of the buffer alone. *)
Theorem DecryptInPlace_authentic `{L : AeadLib, !AeadLaws L} c buf counter ad :
  wf buf →
  ∃ buf' e, DecryptInPlace (Some c) buf counter ad = Ret (buf', e) ∧ wf buf' ∧
    match e with
    | None => contents buf =
                Seal (cipher_aead c) (EncodeNonce counter) (contents buf') ad
    | Some _ => Length buf' = Length buf ∧ Offset buf' = Offset buf
    end.
Proof.
  intros Hwf. destruct (decide (Length buf < TagSize)).
  { rewrite DecryptInPlace_short by done. eauto 10. }
  destruct (Open (cipher_aead c) (EncodeNonce counter) (contents buf) ad) as [p|e] eqn:E.
  - destruct (DecryptInPlace_ok c buf counter ad p) as (b & H1 & H2 & Hp & _); auto.
    exists b, None. split_and!; auto. rewrite Hp. by apply Open_sound.
  - destruct (DecryptInPlace_bad c buf counter ad e) as (b & ? & ? & ? & ? & _);
      [done|lia|done|]. eauto 10.
Qed.

Example DecryptInPlace_authentic_witness :
  ∃ buf' e, DecryptInPlace (Some demo_cipher)
      (load (mkBuf (make_slice 64) 0 0) (bytes_of "not a sealed packet")) 0 [] =
    Ret (buf', Some e) ∧ Length buf' = 19.
Proof.
  destruct (DecryptInPlace_authentic (L := toy_aead) demo_cipher
    (load (mkBuf (make_slice 64) 0 0) (bytes_of "not a sealed packet")) 0 [])
    as (b & e & H1 & _ & H2).
  - apply load_wf; vm_compute; intuition discriminate.
  - destruct e as [e|]; [|vm_compute in H1; discriminate].
    exists b, e. split; [exact H1|apply H2].
Defined.
