(* ===== verification/Encoding.v ===== *)
(** * Text encodings of keys (encoding/base64 RawURLEncoding, encoding/hex)

    The two Go standard-library codecs the key functions use, with the facts
    about them: base64 round trip, and which strings both codecs accept. *)

From S2P Require Import Prelude.
Local Open Scope Z_scope.

(** ** base64.RawURLEncoding: URL alphabet, no padding *)

(** The character of a 6-bit value. *)
Definition b64_char (v : Z) : byte :=
  byte_of_Z (if decide (v < 26) then v + 65          (* A-Z *)
             else if decide (v < 52) then v + 71     (* a-z *)
             else if decide (v < 62) then v - 4      (* 0-9 *)
             else if decide (v = 62) then 45         (* - *)
             else 95).                               (* _ *)

(** The 6-bit value of a character. *)
Definition b64_value (c : byte) : option Z :=
  let z := byte_to_Z c in
  if decide (65 ≤ z ≤ 90) then Some (z - 65)
  else if decide (97 ≤ z ≤ 122) then Some (z - 71)
  else if decide (48 ≤ z ≤ 57) then Some (z + 4)
  else if decide (z = 45) then Some 62
  else if decide (z = 95) then Some 63
  else None.

Fixpoint b64_encode (bs : list byte) : list byte :=
  match bs with
  | [] => []
  | [a] =>
      let v := byte_to_Z a * 65536 in
      [b64_char (v / 262144); b64_char (v / 4096 mod 64)]
  | [a; b] =>
      let v := byte_to_Z a * 65536 + byte_to_Z b * 256 in
      [b64_char (v / 262144); b64_char (v / 4096 mod 64); b64_char (v / 64 mod 64)]
  | a :: b :: c :: bs =>
      let v := byte_to_Z a * 65536 + byte_to_Z b * 256 + byte_to_Z c in
      b64_char (v / 262144) :: b64_char (v / 4096 mod 64) ::
      b64_char (v / 64 mod 64) :: b64_char (v mod 64) :: b64_encode bs
  end.

(** Quanta of four sextets; a final quantum may have two or three, and its
    spare bits are not checked (the encoding is not [Strict]). *)
Fixpoint b64_quanta (ds : list Z) : option (list byte) :=
  match ds with
  | [] => Some []
  | [_] => None
  | [a; b] =>
      let v := a * 262144 + b * 4096 in Some [byte_of_Z (v / 65536)]
  | [a; b; c] =>
      let v := a * 262144 + b * 4096 + c * 64 in
      Some [byte_of_Z (v / 65536); byte_of_Z (v / 256)]
  | a :: b :: c :: d :: ds =>
      let v := a * 262144 + b * 4096 + c * 64 + d in
      r ← b64_quanta ds;
      Some (byte_of_Z (v / 65536) :: byte_of_Z (v / 256) :: byte_of_Z v :: r)
  end.

(** The decoder skips CR and LF. *)
Definition b64_newline (c : byte) : bool := bool_decide (c = x0a ∨ c = x0d).

(** [DecodeString]: [None] is a [CorruptInputError]. *)
Definition b64_decode (cs : list byte) : option (list byte) :=
  ds ← mapM b64_value (List.filter (λ c, negb (b64_newline c)) cs);
  b64_quanta ds.

(** ** encoding/hex *)

Definition hex_char (v : Z) : byte :=
  byte_of_Z (if decide (v < 10) then v + 48 else v + 87).

Definition hex_value (c : byte) : option Z :=
  let z := byte_to_Z c in
  if decide (48 ≤ z ≤ 57) then Some (z - 48)
  else if decide (97 ≤ z ≤ 102) then Some (z - 87)
  else if decide (65 ≤ z ≤ 70) then Some (z - 55)
  else None.

Fixpoint hex_encode (bs : list byte) : list byte :=
  match bs with
  | [] => []
  | b :: bs => hex_char (byte_to_Z b / 16) :: hex_char (byte_to_Z b mod 16) :: hex_encode bs
  end.

Fixpoint hex_decode (cs : list byte) : result (list byte) :=
  match cs with
  | [] => Ok []
  | [c] =>
      match hex_value c with
      | None => Err (ErrInts "encoding/hex: invalid byte: %#U" [byte_to_Z c])
      | Some _ => Err (ErrNew "encoding/hex: odd length hex string")
      end
  | c :: d :: cs =>
      match hex_value c, hex_value d with
      | Some a, Some b => r ← hex_decode cs; Ok (byte_of_Z (a * 16 + b) :: r)
      | None, _ => Err (ErrInts "encoding/hex: invalid byte: %#U" [byte_to_Z c])
      | _, None => Err (ErrInts "encoding/hex: invalid byte: %#U" [byte_to_Z d])
      end
  end.

(** ** Facts *)

(** A property of all integers below a bound, checked one by one. *)
Lemma forall_below (n : nat) (P : Z → bool) :
  forallb P (map Z.of_nat (seq 0 n)) = true → ∀ v, 0 ≤ v < Z.of_nat n → P v = true.
Proof.
  intros H v Hv. rewrite forallb_forall in H. apply H.
  rewrite in_map_iff. exists (Z.to_nat v). rewrite in_seq. lia.
Qed.

Lemma forall_byte (P : byte → bool) :
  forallb P (map (λ n, byte_of_Z (Z.of_nat n)) (seq 0 256)) = true → ∀ b, P b = true.
Proof.
  intros H b. rewrite forallb_forall in H. apply H.
  rewrite in_map_iff. exists (Z.to_nat (byte_to_Z b)).
  pose proof (byte_to_Z_range b). rewrite Z2Nat.id by lia.
  rewrite byte_of_to_Z, in_seq. split; [done|lia].
Qed.

Section Encodings.
Lemma b64_value_char v :
  0 ≤ v < 64 → b64_value (b64_char v) = Some v ∧ b64_newline (b64_char v) = false.
Proof.
  intros Hv. eapply bool_decide_eq_true_1. revert v Hv.
  apply (forall_below 64 (λ v, bool_decide
    (b64_value (b64_char v) = Some v ∧ b64_newline (b64_char v) = false))).
  vm_compute. reflexivity.
Qed.

(** A list of encoded sextets decodes to those sextets. *)
Lemma b64_chars_values ds :
  Forall (λ v, 0 ≤ v < 64) ds →
  mapM b64_value (List.filter (λ c, negb (b64_newline c)) (map b64_char ds)) = Some ds.
Proof.
  induction 1 as [|v ds Hv Hf IH]; [done|]. simpl.
  destruct (b64_value_char v Hv) as [Hc Hn]. rewrite Hn. simpl.
  rewrite Hc. simpl. by rewrite IH.
Qed.

(** The sextets of a byte string. *)
Fixpoint sextets (bs : list byte) : list Z :=
  match bs with
  | [] => []
  | [a] => let v := byte_to_Z a * 65536 in [v / 262144; v / 4096 mod 64]
  | [a; b] =>
      let v := byte_to_Z a * 65536 + byte_to_Z b * 256 in
      [v / 262144; v / 4096 mod 64; v / 64 mod 64]
  | a :: b :: c :: bs =>
      let v := byte_to_Z a * 65536 + byte_to_Z b * 256 + byte_to_Z c in
      v / 262144 :: v / 4096 mod 64 :: v / 64 mod 64 :: v mod 64 :: sextets bs
  end.

(** Induction three bytes at a time. *)
Lemma triple_ind (P : list byte → Prop) :
  P [] → (∀ a, P [a]) → (∀ a b, P [a; b]) →
  (∀ a b c bs, P bs → P (a :: b :: c :: bs)) → ∀ bs, P bs.
Proof.
  intros H0 H1 H2 H3 bs.
  assert (P bs ∧ (∀ a, P (a :: bs)) ∧ ∀ a b, P (a :: b :: bs)) as [? _]; [|done].
  induction bs as [|c bs (IH1 & IH2 & IH3)]; auto.
Qed.

Lemma b64_encode_sextets bs : b64_encode bs = map b64_char (sextets bs).
Proof.
  induction bs as [| | |a b c bs IH] using triple_ind; [done..|].
  simpl. by rewrite IH.
Qed.

Lemma sextets_range bs : Forall (λ v, 0 ≤ v < 64) (sextets bs).
Proof.
  induction bs as [|a|a b|a b c bs IH] using triple_ind; simpl;
    try pose proof (byte_to_Z_range a); try pose proof (byte_to_Z_range b);
    try pose proof (byte_to_Z_range c);
    repeat constructor; try (apply Z.mod_pos_bound; lia); auto;
    try (apply Z.div_pos; lia); apply Z.div_lt_upper_bound; lia.
Qed.

Lemma sextet_bytes v : 0 ≤ v < 16777216 →
  let w := v / 262144 * 262144 + v / 4096 mod 64 * 4096 + v / 64 mod 64 * 64 + v mod 64 in
  w = v.
Proof. intros Hv. simpl. Z.div_mod_to_equations. lia. Qed.

Lemma b64_quanta_sextets bs : b64_quanta (sextets bs) = Some bs.
Proof.
  induction bs as [|a|a b|a b c bs IH] using triple_ind; [done|..]; simpl sextets;
    unfold b64_quanta; fold b64_quanta;
    try pose proof (byte_to_Z_range a); try pose proof (byte_to_Z_range b);
    try pose proof (byte_to_Z_range c).
  - do 2 f_equal. apply byte_to_Z_inj. rewrite byte_to_of_Z.
    Z.div_mod_to_equations. lia.
  - do 3 f_equal; [|f_equal]; apply byte_to_Z_inj; rewrite byte_to_of_Z;
      Z.div_mod_to_equations; lia.
  - set (v := byte_to_Z a * 65536 + byte_to_Z b * 256 + byte_to_Z c).
    rewrite sextet_bytes by (unfold v; lia). rewrite IH. simpl.
    assert (byte_of_Z (v / 65536) = a ∧ byte_of_Z (v / 256) = b ∧ byte_of_Z v = c)
      as (-> & -> & ->); [|done].
    split_and!; apply byte_to_Z_inj; rewrite byte_to_of_Z; unfold v;
      Z.div_mod_to_equations; lia.
Qed.

Lemma b64_decode_encode bs : b64_decode (b64_encode bs) = Some bs.
Proof.
  unfold b64_decode. rewrite b64_encode_sextets, b64_chars_values by apply sextets_range.
  apply b64_quanta_sextets.
Qed.

(** Every hex digit is also a base64 character. *)
Lemma hex_is_b64 c v : hex_value c = Some v → is_Some (b64_value c) ∧ b64_newline c = false.
Proof.
  intros H.
  assert (∀ c, match hex_value c with
    | Some _ => bool_decide (is_Some (b64_value c) ∧ b64_newline c = false)
    | None => true end = true) as Hc by (apply forall_byte; vm_compute; reflexivity).
  specialize (Hc c). rewrite H in Hc. by apply bool_decide_eq_true in Hc.
Qed.

Lemma hex_value_char v : 0 ≤ v < 16 → hex_value (hex_char v) = Some v.
Proof.
  intros Hv. eapply bool_decide_eq_true_1. revert v Hv.
  apply (forall_below 16 (λ v, bool_decide (hex_value (hex_char v) = Some v))).
  vm_compute. reflexivity.
Qed.

Lemma hex_decode_encode bs : hex_decode (hex_encode bs) = Ok bs.
Proof.
  induction bs as [|b bs IH]; [done|]. simpl. pose proof (byte_to_Z_range b).
  rewrite !hex_value_char by (split; [apply Z.div_pos || apply Z.mod_pos_bound|
    apply Z.div_lt_upper_bound || apply Z.mod_pos_bound]; lia).
  rewrite IH. simpl. do 2 f_equal. apply byte_to_Z_inj. rewrite byte_to_of_Z.
  Z.div_mod_to_equations. lia.
Qed.
End Encodings.
