(* ===== verification/Keys.v ===== *)
(** * Curve25519 keys (pkg/crypto/keys.go) and memory wiping (pkg/security/memory.go)

    [Curve25519] is the interface of golang.org/x/crypto/curve25519 and
    [CurveLaws] what the code relies on.  A key is its 32 bytes; a Go string is
    its bytes. *)

From S2P Require Import Prelude Encoding.
Local Open Scope Z_scope.

(** ** pkg/security/memory.go *)

(** [for i := range b { b[i] = 0 }], with the early return for an empty slice. *)
Fixpoint zero_from (n i : nat) (b : list byte) : list byte :=
  match n with
  | O => b
  | S n => zero_from n (S i) (<[i := x00]> b)
  end.

Definition Zero (b : list byte) : list byte :=
  if decide (length b = 0%nat) then b else zero_from (length b) 0 b.

(** [Zero32]: a nil pointer is ignored. *)
Definition Zero32 (key : option (list byte)) : option (list byte) :=
  match key with
  | None => None
  | Some k => Some (zero_from 32 0 k)
  end.

(** [subtle.ConstantTimeCompare]: 1 when the slices have equal contents. *)
Definition ConstantTimeCompare (x y : list byte) : Z :=
  if decide (x = y) then 1 else 0.

(** ** The curve *)

Class Curve25519 := {
  ScalarBaseMult : list byte → list byte;
  ScalarMult : list byte → list byte → list byte
}.

(** X25519 is a Diffie-Hellman function on 32-byte strings. *)
Class CurveLaws (C : Curve25519) := {
  base_length k : zlen (ScalarBaseMult k) = 32;
  mult_length k p : zlen (ScalarMult k p) = 32;
  dh_comm a b : ScalarMult a (ScalarBaseMult b) = ScalarMult b (ScalarBaseMult a)
}.

Definition KeySize : Z := 32.

(** [x &= m] and [x |= m] on a byte of an array. *)
Definition byte_and (b : byte) (m : Z) : byte := byte_of_Z (Z.land (byte_to_Z b) m).
Definition byte_or (b : byte) (m : Z) : byte := byte_of_Z (Z.lor (byte_to_Z b) m).

(** The clamping of a fresh private key. *)
Definition clamp (priv : list byte) : list byte :=
  let priv := alter (λ b, byte_and b 248) 0%nat priv in
  let priv := alter (λ b, byte_and b 127) 31%nat priv in
  alter (λ b, byte_or b 64) 31%nat priv.

Section Keys.
Context `{C : Curve25519}.

(** [rnd] is what [io.ReadFull(rand.Reader, priv[:])] delivers. *)
Definition GenerateKeyPair (rnd : result (list byte)) : result (list byte * list byte) :=
  match rnd with
  | Err e => Err (ErrWrap "failed to generate random bytes: %w" e)
  | Ok r =>
      let priv := clamp (take 32 (r ++ zeros 32)) in
      Ok (priv, ScalarBaseMult priv)
  end.

Definition PublicKey (k : list byte) : list byte := ScalarBaseMult k.

(** The loop ORs every byte of the result together. *)
Definition all_or (ss : list byte) : Z :=
  foldl (λ z b, Z.lor z (byte_to_Z b)) 0 ss.

Definition SharedSecret (k peerPub : list byte) : result (list byte) :=
  let ss := ScalarMult k peerPub in
  if decide (all_or ss = 0) then
    Err (ErrNew "invalid Curve25519 public key (contributory point)")
  else Ok ss.

Definition PrivateKey_Wipe (k : list byte) : list byte :=
  match Zero32 (Some k) with Some k' => k' | None => k end.

Definition Base64 (k : list byte) : list byte := b64_encode k.
Definition Hex (k : list byte) : list byte := hex_encode k.

Definition ParsePublicKey (s : list byte) : result (list byte) :=
  data ← (match b64_decode s with
          | Some data => Ok data
          | None =>
              match hex_decode s with
              | Ok data => Ok data
              | Err e =>
                  Err (ErrWrap "invalid public key format: neither base64 nor hex: %w" e)
              end
          end);
  if decide (zlen data ≠ KeySize) then
    Err (ErrInts "invalid key length: got %d bytes, expected %d" [zlen data; KeySize])
  else Ok (take 32 data).

Definition ParsePrivateKey (s : list byte) : result (list byte) :=
  data ← (match b64_decode s with
          | Some data => Ok data
          | None =>
              match hex_decode s with
              | Ok data => Ok data
              | Err e => Err (ErrWrap "invalid private key format: %w" e)
              end
          end);
  if decide (zlen data ≠ KeySize) then
    Err (ErrInts "invalid key length: got %d bytes, expected %d" [zlen data; KeySize])
  else Ok (take 32 data).
End Keys.

Section KeyFacts.
(** The wiping loop. *)
Lemma zero_from_spec n i b :
  (i + n = length b)%nat → zero_from n i b = take i b ++ zeros n.
Proof.
  revert i b. induction n as [|n IH]; intros i b Hl; simpl.
  - rewrite take_ge by lia. by rewrite app_nil_r.
  - rewrite IH by (rewrite length_insert; lia).
    rewrite (take_S_r _ i x00) by (apply list_lookup_insert_eq; lia).
    rewrite take_insert_ge by lia. by rewrite <- app_assoc.
Qed.

Lemma Zero_spec b : Zero b = zeros (length b).
Proof.
  unfold Zero. case_decide as H; [by rewrite H; apply nil_length_inv in H as ->|].
  by rewrite zero_from_spec.
Qed.

Lemma PrivateKey_Wipe_spec k : length k = 32%nat → PrivateKey_Wipe k = zeros 32.
Proof.
  intros H. unfold PrivateKey_Wipe, Zero32.
  rewrite zero_from_spec by (rewrite H; reflexivity). reflexivity.
Qed.

(** A key has the bytes it has: the OR of all bytes is zero only for zeros. *)
Lemma all_or_zero ss : all_or ss = 0 ↔ ss = zeros (length ss).
Proof.
  unfold all_or.
  assert (∀ z, 0 ≤ z → foldl (λ z b, Z.lor z (byte_to_Z b)) z ss = 0 ↔
               z = 0 ∧ ss = zeros (length ss)) as H; [|rewrite H by lia; naive_solver].
  induction ss as [|b ss IH]; intros z Hz; simpl; [naive_solver|].
  pose proof (byte_to_Z_range b).
  rewrite IH by (apply Z.lor_nonneg; lia). rewrite Z.lor_eq_0_iff.
  assert (byte_to_Z b = 0 ↔ b = x00) as ->.
  { split; [|by intros ->]. intros E. apply byte_to_Z_inj. by rewrite E. }
  unfold zeros. simpl. split.
  - intros [[? ?] ?]. split; [done|congruence].
  - intros [? H']. injection H' as ? ?. auto.
Qed.

Lemma b64_quanta_some ds :
  Nat.Even (length ds) → ∃ r, b64_quanta ds = Some r ∧
    ∀ n, length ds = (4 * n)%nat → length r = (3 * n)%nat.
Proof.
  assert (∀ n ds, (length ds ≤ n)%nat → Nat.Even (length ds) →
    ∃ r, b64_quanta ds = Some r ∧
    ∀ n, length ds = (4 * n)%nat → length r = (3 * n)%nat) as H; [|by apply (H (length ds))].
  induction n as [|n IH]; intros [|a [|b [|c [|d es]]]] Hl He; simpl in *; try lia;
    try (by destruct He as [k Hk]; lia);
    try (eexists; split; [reflexivity|]; intros m Hm; simpl; lia).
  destruct (IH es) as (r & Hr & Hlen); [lia| |].
  { destruct He as [k Hk]. exists (k - 2)%nat. lia. }
  rewrite Hr. simpl. eexists. split; [done|]. intros m Hm. simpl.
  rewrite (Hlen (m - 1)%nat); lia.
Qed.

(** A string that hex accepts is an even-length string of base64 characters. *)
Lemma hex_decode_b64 cs d :
  hex_decode cs = Ok d →
  length cs = (2 * length d)%nat ∧ ∃ ds, length ds = length cs ∧
    mapM b64_value (List.filter (λ c, negb (b64_newline c)) cs) = Some ds.
Proof.
  revert cs. induction d as [|b d IH]; intros cs.
  - destruct cs as [|c [|c' cs]]; simpl; [intros _; split; [done|by exists []]|by destruct (hex_value c)|].
    destruct (hex_value c), (hex_value c'); try done. by destruct (hex_decode cs).
  - destruct cs as [|c [|c' cs]]; simpl; [done|by destruct (hex_value c)|].
    destruct (hex_value c) as [x|] eqn:Ec; [|done].
    destruct (hex_value c') as [y|] eqn:Ec'; [|done].
    destruct (hex_decode cs) as [d'|] eqn:Ed; simpl; [|done]. intros [= <- <-].
    destruct (IH _ Ed) as [Hl (ds & Hds & HM)].
    apply hex_is_b64 in Ec as [[v Hv] Hn], Ec' as [[v' Hv'] Hn'].
    rewrite Hn. simpl. rewrite Hn'. simpl. rewrite Hv. simpl. rewrite Hv'. simpl.
    rewrite HM. simpl. split; [lia|]. exists (v :: v' :: ds). simpl. split; [lia|done].
Qed.

(** So base64 accepts it too. *)
Lemma hex_decode_shadowed cs d :
  hex_decode cs = Ok d →
  ∃ r, b64_decode cs = Some r ∧ ∀ n, length cs = (4 * n)%nat → length r = (3 * n)%nat.
Proof.
  intros H. apply hex_decode_b64 in H as [Hl (ds & Hds & HM)].
  unfold b64_decode. rewrite HM. simpl.
  destruct (b64_quanta_some ds) as (r & -> & Hr).
  { exists (length d). lia. }
  exists r. split; [done|]. intros n Hn. apply Hr. lia.
Qed.

Lemma ParsePublicKey_Base64' k : zlen k = 32 → ParsePublicKey (Base64 k) = Ok k.
Proof.
  intros Hk. unfold ParsePublicKey, Base64. rewrite b64_decode_encode. simpl.
  rewrite decide_False by (unfold KeySize; lia). rewrite take_ge; [done|].
  unfold zlen in Hk. lia.
Qed.

Lemma length_hex_encode bs : length (hex_encode bs) = (2 * length bs)%nat.
Proof. induction bs; simpl; lia. Qed.
End KeyFacts.

(** ** A concrete curve

    Addition of 32-byte strings byte by byte, a commutative group, with the
    identity as the public-key map: it has the laws and evaluates. *)

Fixpoint add_bytes (n : nat) (a b : list byte) : list byte :=
  match n with
  | O => []
  | S n => byte_of_Z (byte_to_Z (default x00 (head a)) + byte_to_Z (default x00 (head b)))
             :: add_bytes n (tail a) (tail b)
  end.

Definition toy_curve : Curve25519 := {|
  ScalarBaseMult := λ k, add_bytes 32 k [];
  ScalarMult := λ k p, add_bytes 32 k p
|}.

Lemma length_add_bytes n a b : length (add_bytes n a b) = n.
Proof. revert a b. induction n as [|n IH]; intros a b; [done|]. simpl. by rewrite IH. Qed.

Lemma add_bytes_comm n a b :
  add_bytes n a (add_bytes n b []) = add_bytes n b (add_bytes n a []).
Proof.
  revert a b. induction n as [|n IH]; intros a b; [done|]. simpl.
  f_equal; [|apply IH]. apply byte_to_Z_inj. rewrite !byte_to_of_Z.
  change (byte_to_Z x00) with 0. rewrite !Z.add_0_r, !Z.add_mod_idemp_r by lia.
  f_equal. lia.
Qed.

Arguments add_bytes : simpl never.

#[global] Instance toy_curve_laws : CurveLaws toy_curve.
Proof.
  split; intros; cbn [ScalarBaseMult ScalarMult toy_curve].
  - unfold zlen. by rewrite length_add_bytes.
  - unfold zlen. by rewrite length_add_bytes.
  - apply (add_bytes_comm 32).
Qed.

(** ** Properties *)

(** The base64 form of a public key parses back to the key. *)
Theorem ParsePublicKey_Base64 k :
  zlen k = KeySize → ParsePublicKey (Base64 k) = Ok k ∧ ParsePrivateKey (Base64 k) = Ok k.
Proof.
  intros Hk. split; [by apply ParsePublicKey_Base64'|].
  pose proof (ParsePublicKey_Base64' k Hk) as H.
  unfold ParsePublicKey, ParsePrivateKey, Base64 in *. by rewrite b64_decode_encode in *.
Qed.

Example ParsePublicKey_Base64_witness :
  let k := map (λ n, byte_of_Z (7 * Z.of_nat n)) (seq 0 32) in
  ParsePublicKey (Base64 k) = Ok k.
Proof.
  apply (ParsePublicKey_Base64 (map (λ n, byte_of_Z (7 * Z.of_nat n)) (seq 0 32))).
  reflexivity.
Defined.

(** The hexadecimal fallback never produces a key.  Every string that
    [hex.DecodeString] accepts is also accepted by the base64 decoder that runs
    first, so a successful parse is always the base64 reading; in particular the
    64-character hexadecimal form of a key, which [Hex] prints, is read as 48
    bytes and refused. *)
Theorem ParsePublicKey_hex_dead :
  (∀ s k, ParsePublicKey s = Ok k → b64_decode s = Some k ∧ zlen k = KeySize) ∧
  (∀ k, zlen k = KeySize →
     ParsePublicKey (Hex k) =
       Err (ErrInts "invalid key length: got %d bytes, expected %d" [48; KeySize])).
Proof.
  split.
  - intros s k. unfold ParsePublicKey.
    destruct (b64_decode s) as [d|] eqn:E; simpl.
    + case_decide as Hl; [done|]. intros [= <-]. unfold KeySize in *.
      rewrite take_ge by (unfold zlen in Hl; lia). split; [done|lia].
    + destruct (hex_decode s) as [d|e] eqn:Eh; [|done].
      apply hex_decode_shadowed in Eh as (r & Hr & _). by rewrite Hr in E.
  - intros k Hk. unfold ParsePublicKey, Hex.
    destruct (hex_decode_shadowed (hex_encode k) k (hex_decode_encode k)) as (r & -> & Hr).
    assert (length r = 48%nat) as Hlen.
    { apply (Hr 16%nat). rewrite length_hex_encode. unfold KeySize, zlen in Hk. lia. }
    simpl. unfold zlen. rewrite Hlen. done.
Qed.

(** Wiping a private key or a byte slice leaves only zero bytes, of the same
    length. *)
Theorem Wipe_zeroes k b :
  length k = 32%nat →
  PrivateKey_Wipe k = zeros 32 ∧ Zero b = zeros (length b) ∧ length (Zero b) = length b.
Proof.
  intros Hk. rewrite PrivateKey_Wipe_spec, Zero_spec by done.
  split_and!; auto. unfold zeros. by rewrite length_replicate.
Qed.

Example Wipe_zeroes_witness :
  PrivateKey_Wipe (replicate 32 xaa) = zeros 32 ∧ Zero (bytes_of "key") = zeros 3.
Proof.
  destruct (Wipe_zeroes (replicate 32 xaa) (bytes_of "key")) as (H1 & H2 & _);
    [reflexivity|]. split; [exact H1|exact H2].
Defined.
