(* ===== verification/Noise.v ===== *)
(** * The Noise IK handshake (pkg/crypto/noise.go)

    The symmetric state ([mixKey], [mixHash]), the initiator and the responder
    as objects whose methods may fail half way, and the derived session keys.
    SHA-256 and HKDF are the interface [HashLib]; the cipher and the curve are
    those of Cipher and Keys. *)

From S2P Require Import Prelude Buffer Encoding Cipher Keys.
Local Open Scope Z_scope.

Definition NoiseHandshakeInitSize : Z := 32 + 48 + (12 + 16).
Definition NoiseHandshakeRespSize : Z := 32 + (4 + 16).
Definition NoiseProtocolName : string := "Noise_IK_25519_ChaChaPoly_SHA256".

(** [sha256.Sum256] and the output stream of [hkdf.New(sha256.New, ikm, salt, info)]. *)
Class HashLib := {
  sha256 : list byte → list byte;
  hkdf : list byte → list byte → list byte → nat → byte
}.
Class HashLaws (H : HashLib) := {
  sha256_length m : zlen (sha256 m) = 32
}.

(** [io.ReadFull(kdf, buf[:n])] after [pos] bytes were read. *)
Definition read_full (stream : nat → byte) (pos n : nat) : list byte :=
  map stream (seq pos n).

Record SessionKeys := mkSessionKeys {
  SendKey : list byte;
  RecvKey : list byte;
  SenderID : Z;
  PeerID : Z
}.

Definition SessionKeys_Wipe (sk : SessionKeys) : SessionKeys :=
  mkSessionKeys (zero_from 32 0 (SendKey sk)) (zero_from 32 0 (RecvKey sk))
                (SenderID sk) (PeerID sk).

Record NoiseState := mkNoise {
  chainingKey : list byte;
  hash : list byte
}.

Record InitiatorHandshake := mkInitiator {
  ih_staticPriv : list byte;
  ih_peerStatic : list byte;
  ih_ephemPriv : list byte;
  ih_ephemPub : list byte;
  ih_localIndex : Z;
  ih_remoteIndex : Z;
  ih_noise : NoiseState
}.

Record ResponderHandshake := mkResponder {
  rh_staticPriv : list byte;
  rh_localIndex : Z;
  rh_remoteIndex : Z;
  rh_peerStatic : list byte;
  rh_noise : NoiseState
}.

(** Objects that carry a handshake state, for the methods both sides share. *)
Class HasNoise (T : Type) := {
  get_noise : T → NoiseState;
  set_noise : NoiseState → T → T
}.
#[global] Instance initiator_noise : HasNoise InitiatorHandshake := {|
  get_noise := ih_noise;
  set_noise := λ n ih, mkInitiator (ih_staticPriv ih) (ih_peerStatic ih) (ih_ephemPriv ih)
                         (ih_ephemPub ih) (ih_localIndex ih) (ih_remoteIndex ih) n
|}.
#[global] Instance responder_noise : HasNoise ResponderHandshake := {|
  get_noise := rh_noise;
  set_noise := λ n rh, mkResponder (rh_staticPriv rh) (rh_localIndex rh)
                         (rh_remoteIndex rh) (rh_peerStatic rh) n
|}.

Definition nonce0 : list byte := zeros 12.

Section Noise.
Context `{H : HashLib, C : Curve25519, L : AeadLib}.

Definition newNoiseState : NoiseState :=
  let h := sha256 (bytes_of NoiseProtocolName) in mkNoise h h.

Definition mixKey (ns : NoiseState) (inputKeyMaterial : list byte)
    : list byte * NoiseState :=
  let kdf := hkdf inputKeyMaterial (chainingKey ns) [] in
  let nextCk := read_full kdf 0 32 in
  let tempKey := read_full kdf 32 32 in
  (tempKey, mkNoise nextCk (hash ns)).

Definition mixHash (ns : NoiseState) (data : list byte) : NoiseState :=
  mkNoise (chainingKey ns) (sha256 (hash ns ++ data)).

(** The same on the object that owns the state. *)
Definition mix_hash `{HasNoise T} (data : list byte) : method T () := λ s,
  (Ok (), set_noise (mixHash (get_noise s) data) s).
Definition mix_key `{HasNoise T} (ikm : list byte) : method T (list byte) := λ s,
  let r := mixKey (get_noise s) ikm in (Ok r.1, set_noise r.2 s).
Definition cur_hash `{HasNoise T} : method T (list byte) := λ s,
  (Ok (hash (get_noise s)), s).

(** The two transport keys drawn from the final chaining key. *)
Definition split_keys (ns : NoiseState) : list byte * list byte :=
  let kdf := hkdf [] (chainingKey ns) (bytes_of "AnonymousAnt-Split") in
  (read_full kdf 0 32, read_full kdf 32 32).

(** ** Initiator *)

Definition NewInitiatorHandshake (rnd : result (list byte))
    (localStatic peerStatic : list byte) (localIndex : Z) : result InitiatorHandshake :=
  match GenerateKeyPair rnd with
  | Err e => Err (ErrWrap "failed to generate ephemeral keypair: %w" e)
  | Ok (ephemPriv, ephemPub) =>
      let ns := mixHash newNoiseState peerStatic in
      Ok (mkInitiator localStatic peerStatic ephemPriv ephemPub localIndex 0 ns)
  end.

(** [now] is [time.Now().UnixNano()]. *)
Definition CreateInitiation (now : Z) : method InitiatorHandshake (list byte) :=
  ih ← self;
  let out := splice 0 (ih_ephemPub ih) (zeros (Z.to_nat NoiseHandshakeInitSize)) in
  _ ← mix_hash (ih_ephemPub ih);
  es ← try_ (SharedSecret (ih_ephemPriv ih) (ih_peerStatic ih));
  key1 ← mix_key es;
  aead1 ← try_ (chacha20poly1305_New key1);
  let localPub := PublicKey (ih_staticPriv ih) in
  h ← cur_hash;
  let out := splice 32 (Seal aead1 nonce0 localPub h) out in
  _ ← mix_hash (sub 32 80 out);
  ss ← try_ (SharedSecret (ih_staticPriv ih) (ih_peerStatic ih));
  key2 ← mix_key ss;
  aead2 ← try_ (chacha20poly1305_New key2);
  let payload := le_encode 4 (ih_localIndex ih) ++ le_encode 8 (u64 now) in
  h ← cur_hash;
  let out := splice 80 (Seal aead2 nonce0 payload h) out in
  _ ← mix_hash (sub 80 108 out);
  mret out.

Definition set_remote_index (d : list byte) : method InitiatorHandshake () := λ ih,
  (Ok (), if decide (4 ≤ zlen d) then
            mkInitiator (ih_staticPriv ih) (ih_peerStatic ih) (ih_ephemPriv ih)
              (ih_ephemPub ih) (ih_localIndex ih) (le_decode (sub 0 4 d)) (ih_noise ih)
          else ih).

Definition wipe_ephem : method InitiatorHandshake () := λ ih,
  (Ok (), mkInitiator (ih_staticPriv ih) (ih_peerStatic ih)
            (PrivateKey_Wipe (ih_ephemPriv ih)) (ih_ephemPub ih)
            (ih_localIndex ih) (ih_remoteIndex ih) (ih_noise ih)).

(** Package fmt's wrapping of an authentication failure. *)
Definition wrap_err {A} (msg : string) (r : result A) : result A :=
  match r with Ok a => Ok a | Err e => Err (ErrWrap msg e) end.

Definition ConsumeResponse (resp : list byte) : method InitiatorHandshake SessionKeys :=
  if decide (zlen resp < NoiseHandshakeRespSize) then
    fail (ErrNew "response message too short")
  else
    let respEphemPub := sub 0 32 resp in
    _ ← mix_hash respEphemPub;
    ih ← self;
    ee ← try_ (SharedSecret (ih_ephemPriv ih) respEphemPub);
    _ ← mix_key ee;
    se ← try_ (SharedSecret (ih_staticPriv ih) respEphemPub);
    key ← mix_key se;
    aead ← try_ (chacha20poly1305_New key);
    h ← cur_hash;
    d ← try_ (wrap_err "failed to authenticate response payload: %w"
                (Open aead nonce0 (sub 32 52 resp) h));
    _ ← mix_hash (sub 32 52 resp);
    _ ← set_remote_index d;
    ih ← self;
    let '(k1, k2) := split_keys (ih_noise ih) in
    let sk := mkSessionKeys k1 k2 (ih_localIndex ih) (ih_remoteIndex ih) in
    _ ← wipe_ephem;
    mret sk.

(** ** Responder *)

Definition NewResponderHandshake (localStatic : list byte) (localIndex : Z)
    : ResponderHandshake :=
  let ns := mixHash newNoiseState (PublicKey localStatic) in
  mkResponder localStatic localIndex 0 (zeros 32) ns.

Definition set_peer_static (d : list byte) : method ResponderHandshake () := λ rh,
  (Ok (), mkResponder (rh_staticPriv rh) (rh_localIndex rh) (rh_remoteIndex rh)
            (splice 0 (take 32 d) (rh_peerStatic rh)) (rh_noise rh)).

Definition set_peer_index (d : list byte) : method ResponderHandshake () := λ rh,
  (Ok (), if decide (4 ≤ zlen d) then
            mkResponder (rh_staticPriv rh) (rh_localIndex rh) (le_decode (sub 0 4 d))
              (rh_peerStatic rh) (rh_noise rh)
          else rh).

(** [rnd] feeds the responder's ephemeral key. *)
Definition ConsumeInitiation (rnd : result (list byte)) (initMsg : list byte)
    : method ResponderHandshake (list byte * SessionKeys) :=
  if decide (zlen initMsg < NoiseHandshakeInitSize) then
    fail (ErrNew "initiation message too short")
  else
    let initEphemPub := sub 0 32 initMsg in
    _ ← mix_hash initEphemPub;
    rh ← self;
    es ← try_ (SharedSecret (rh_staticPriv rh) initEphemPub);
    key1 ← mix_key es;
    aead1 ← try_ (chacha20poly1305_New key1);
    h ← cur_hash;
    d ← try_ (wrap_err "failed to decrypt initiator static key: %w"
                (Open aead1 nonce0 (sub 32 80 initMsg) h));
    _ ← set_peer_static d;
    _ ← mix_hash (sub 32 80 initMsg);
    rh ← self;
    ss ← try_ (SharedSecret (rh_staticPriv rh) (rh_peerStatic rh));
    key2 ← mix_key ss;
    aead2 ← try_ (chacha20poly1305_New key2);
    h ← cur_hash;
    d ← try_ (wrap_err "failed to decrypt initiation payload: %w"
                (Open aead2 nonce0 (sub 80 108 initMsg) h));
    _ ← mix_hash (sub 80 108 initMsg);
    _ ← set_peer_index d;
    kp ← try_ (GenerateKeyPair rnd);
    let '(respEphemPriv, respEphemPub) := kp in
    let respMsg := splice 0 respEphemPub (zeros (Z.to_nat NoiseHandshakeRespSize)) in
    _ ← mix_hash respEphemPub;
    ee ← try_ (SharedSecret respEphemPriv initEphemPub);
    _ ← mix_key ee;
    rh ← self;
    se ← try_ (SharedSecret respEphemPriv (rh_peerStatic rh));
    key3 ← mix_key se;
    aead3 ← try_ (chacha20poly1305_New key3);
    let respPayload := le_encode 4 (rh_localIndex rh) in
    h ← cur_hash;
    let respMsg := splice 32 (Seal aead3 nonce0 respPayload h) respMsg in
    _ ← mix_hash (sub 32 52 respMsg);
    rh ← self;
    let '(k1, k2) := split_keys (rh_noise rh) in
    let sk := mkSessionKeys k2 k1 (rh_localIndex rh) (rh_remoteIndex rh) in
    mret (respMsg, sk).

Definition PeerStaticKey (rh : ResponderHandshake) : list byte := rh_peerStatic rh.

(** [rnd] is what [rand.Read] put into the four bytes (its error is ignored). *)
Definition GenerateIndex (rnd : list byte) : Z :=
  let idx := le_decode (take 4 (rnd ++ zeros 4)) in
  if decide (idx = 0) then 1 else idx.
End Noise.

(** Symbolic execution of the handshake methods. *)
Ltac msimpl :=
  cbv beta iota zeta delta [mbind method_bind mret method_ret self try_ fail set_self
    mix_hash mix_key cur_hash set_remote_index set_peer_static set_peer_index wipe_ephem
    wrap_err];
  cbn [get_noise set_noise initiator_noise responder_noise
    ih_staticPriv ih_peerStatic ih_ephemPriv ih_ephemPub ih_localIndex ih_remoteIndex ih_noise
    rh_staticPriv rh_localIndex rh_remoteIndex rh_peerStatic rh_noise].

Section NoiseFacts.
Context `{H : HashLib, C : Curve25519, L : AeadLib}.
Context `{!HashLaws H, !CurveLaws C, !AeadLaws L}.

Lemma zlen_read_full s pos n : zlen (read_full s pos n) = Z.of_nat n.
Proof. unfold zlen, read_full. by rewrite length_map, length_seq. Qed.

Lemma zlen_zeros n : zlen (zeros n) = Z.of_nat n.
Proof. unfold zlen, zeros. by rewrite length_replicate. Qed.

(** A contributory exchange: the shared secret is not all zeros. *)
Definition contributory (k p : list byte) : Prop := all_or (ScalarMult k p) ≠ 0.

Lemma SharedSecret_ok k p : contributory k p → SharedSecret k p = Ok (ScalarMult k p).
Proof. intros Hc. unfold SharedSecret. by rewrite decide_False. Qed.

Lemma SharedSecret_comm a b :
  contributory b (PublicKey a) → SharedSecret a (PublicKey b) = Ok (ScalarMult b (PublicKey a)).
Proof.
  unfold contributory, PublicKey. rewrite dh_comm. intros Hc. by apply SharedSecret_ok.
Qed.

Lemma SharedSecret_inv k p s : SharedSecret k p = Ok s → s = ScalarMult k p.
Proof. unfold SharedSecret. case_decide; [done|]. by intros [= <-]. Qed.

Lemma clamp_length k : length (clamp k) = length k.
Proof. unfold clamp. by rewrite !length_alter. Qed.

Lemma GenerateKeyPair_ok r :
  ∃ e, GenerateKeyPair (Ok r) = Ok (e, PublicKey e) ∧ length e = 32%nat.
Proof.
  eexists. split; [reflexivity|]. rewrite clamp_length, length_take, length_app.
  unfold zeros. rewrite length_replicate. lia.
Qed.

Lemma zlen_PublicKey k : zlen (PublicKey k) = 32.
Proof. apply base_length. Qed.

Lemma step_key_ok n ikm : ∃ a, chacha20poly1305_New (mixKey n ikm).1 = Ok a.
Proof. apply chacha_New_ok. apply zlen_read_full. Qed.

Lemma build3 a b c n :
  zlen a + zlen b + zlen c = n →
  splice (zlen a + zlen b) c (splice (zlen a) b (splice 0 a (zeros (Z.to_nat n)))) = a ++ b ++ c.
Proof.
  intros Hn. pose proof (zlen_nonneg a). pose proof (zlen_nonneg b). pose proof (zlen_nonneg c).
  pose proof (zlen_zeros (Z.to_nat n)).
  rewrite (splice_splice' 0 (zlen a) a b) by lia.
  rewrite (splice_splice' 0 (zlen a + zlen b) (a ++ b) c) by (rewrite ?zlen_app; lia).
  rewrite <- app_assoc. apply splice_full. rewrite !zlen_app. lia.
Qed.

Definition init_payload (localIndex now : Z) : list byte :=
  le_encode 4 localIndex ++ le_encode 8 (u64 now).

(** What [CreateInitiation] computes when both exchanges are contributory. *)
Lemma CreateInitiation_run ih now es ss a1 a2 :
  zlen (ih_ephemPub ih) = 32 →
  SharedSecret (ih_ephemPriv ih) (ih_peerStatic ih) = Ok es →
  SharedSecret (ih_staticPriv ih) (ih_peerStatic ih) = Ok ss →
  let n0 := ih_noise ih in
  let cpub := PublicKey (ih_staticPriv ih) in
  let n1 := mixKey (mixHash n0 (ih_ephemPub ih)) es in
  let c1 := Seal a1 nonce0 cpub (hash n1.2) in
  let n2 := mixKey (mixHash n1.2 c1) ss in
  let c2 := Seal a2 nonce0 (init_payload (ih_localIndex ih) now) (hash n2.2) in
  chacha20poly1305_New n1.1 = Ok a1 → chacha20poly1305_New n2.1 = Ok a2 →
  CreateInitiation now ih =
    (Ok (ih_ephemPub ih ++ c1 ++ c2), set_noise (mixHash n2.2 c2) ih) ∧
  zlen c1 = 48 ∧ zlen c2 = 28.
Proof.
  intros He Hes Hss n0 cpub n1 c1 n2 c2 Ha1 Ha2.
  assert (zlen c1 = 48) as Hc1.
  { unfold c1. rewrite Seal_length. unfold cpub. by rewrite zlen_PublicKey. }
  assert (zlen c2 = 28) as Hc2.
  { unfold c2, init_payload. rewrite Seal_length. by size. }
  split; [|done]. unfold CreateInitiation. msimpl.
  rewrite Hes. msimpl.
  fold n0 n1. rewrite Ha1. msimpl. fold cpub c1.
  set (out0 := splice 0 _ _). set (out1 := splice 32 c1 out0).
  assert (zlen out0 = 108) as Hz0.
  { unfold out0. rewrite zlen_splice; rewrite ?zlen_zeros, ?He; done. }
  assert (zlen out1 = 108) as Hz1 by (unfold out1; rewrite zlen_splice; lia).
  assert (sub 32 80 out1 = c1) as Hs1 by (apply sub_splice_eq'; lia).
  rewrite Hs1, Hss. msimpl.
  fold n2. rewrite Ha2. msimpl.
  fold (init_payload (ih_localIndex ih) now). fold c2.
  assert (sub 80 108 (splice 80 c2 out1) = c2) as Hs2 by (apply sub_splice_eq'; lia).
  rewrite Hs2. f_equal. f_equal. unfold out1, out0.
  pose proof (build3 (ih_ephemPub ih) c1 c2 108) as Hb.
  rewrite He, Hc1, Hc2 in Hb. by apply Hb.
Qed.

(** An initiation always has the same length. *)
Lemma CreateInitiation_length ih now out ih' :
  zlen (ih_ephemPub ih) = 32 → CreateInitiation now ih = (Ok out, ih') →
  zlen out = NoiseHandshakeInitSize.
Proof.
  intros He HC.
  destruct (SharedSecret (ih_ephemPriv ih) (ih_peerStatic ih)) as [es|] eqn:Hes.
  2:{ revert HC. unfold CreateInitiation. msimpl. by rewrite Hes. }
  destruct (step_key_ok (mixHash (ih_noise ih) (ih_ephemPub ih)) es) as [a1 Ha1].
  destruct (SharedSecret (ih_staticPriv ih) (ih_peerStatic ih)) as [ss|] eqn:Hss.
  2:{ revert HC. unfold CreateInitiation. msimpl. rewrite Hes. msimpl. rewrite Ha1. msimpl.
      by rewrite Hss. }
  set (n1 := mixKey (mixHash (ih_noise ih) (ih_ephemPub ih)) es) in *.
  set (c1 := Seal a1 nonce0 (PublicKey (ih_staticPriv ih)) (hash n1.2)).
  destruct (step_key_ok (mixHash n1.2 c1) ss) as [a2 Ha2].
  destruct (CreateInitiation_run ih now es ss a1 a2 He Hes Hss Ha1 Ha2) as (HR & Hz1 & Hz2).
  rewrite HC in HR. injection HR as Ho _.
  assert (∀ a b c d : list byte, zlen a = 32 → zlen b = 48 → zlen c = 28 → d = a ++ b ++ c →
    zlen d = NoiseHandshakeInitSize) as Hlen.
  { intros a b c d Ha Hb Hc ->. rewrite !zlen_app, Ha, Hb, Hc. done. }
  exact (Hlen _ _ _ _ He Hz1 Hz2 Ho).
Qed.

(** What [ConsumeInitiation] computes on a message sealed for it. *)
Lemma ConsumeInitiation_run rnd rh epub cpub payload e2 es ss ee se a1 a2 a3 :
  let s := rh_staticPriv rh in
  zlen epub = 32 → zlen cpub = 32 → zlen payload = 12 → zlen (rh_peerStatic rh) = 32 →
  SharedSecret s epub = Ok es → SharedSecret s cpub = Ok ss →
  GenerateKeyPair rnd = Ok (e2, PublicKey e2) →
  SharedSecret e2 epub = Ok ee → SharedSecret e2 cpub = Ok se →
  let n1 := mixKey (mixHash (rh_noise rh) epub) es in
  let c1 := Seal a1 nonce0 cpub (hash n1.2) in
  let n2 := mixKey (mixHash n1.2 c1) ss in
  let c2 := Seal a2 nonce0 payload (hash n2.2) in
  let n3 := mixKey (mixHash (mixHash n2.2 c2) (PublicKey e2)) ee in
  let n4 := mixKey n3.2 se in
  let c3 := Seal a3 nonce0 (le_encode 4 (rh_localIndex rh)) (hash n4.2) in
  let n5 := mixHash n4.2 c3 in
  let peer := le_decode (sub 0 4 payload) in
  chacha20poly1305_New n1.1 = Ok a1 → chacha20poly1305_New n2.1 = Ok a2 →
  chacha20poly1305_New n4.1 = Ok a3 →
  ConsumeInitiation rnd (epub ++ c1 ++ c2) rh =
    (Ok (PublicKey e2 ++ c3,
         mkSessionKeys (split_keys n5).2 (split_keys n5).1 (rh_localIndex rh) peer),
     mkResponder s (rh_localIndex rh) peer cpub n5) ∧ zlen c3 = 20.
Proof.
  intros s He Hcp Hp Hps Hes Hss Hg Hee Hse n1 c1 n2 c2 n3 n4 c3 n5 peer Ha1 Ha2 Ha3.
  assert (zlen c1 = 48) as Hc1 by (unfold c1; rewrite Seal_length; unfold TagSize; lia).
  assert (zlen c2 = 28) as Hc2 by (unfold c2; rewrite Seal_length; unfold TagSize; lia).
  assert (zlen c3 = 20) as Hc3 by (unfold c3; rewrite Seal_length; unfold TagSize; size).
  split; [|done]. unfold ConsumeInitiation.
  rewrite decide_False by (rewrite !zlen_app; unfold NoiseHandshakeInitSize; lia).
  rewrite (sub_app_front 32) by done.
  rewrite (sub_app_mid 32 80) by lia.
  assert (sub 80 108 (epub ++ c1 ++ c2) = c2) as ->
    by (rewrite app_assoc; apply sub_app_back; rewrite zlen_app; lia).
  msimpl. fold s. rewrite Hes. msimpl.
  fold n1. rewrite Ha1. msimpl. unfold c1 at 1. rewrite Open_Seal. msimpl.
  rewrite (take_ge cpub), splice_full by (unfold zlen in *; lia).
  fold s. rewrite Hss. msimpl.
  fold n2. rewrite Ha2. msimpl. unfold c2 at 1. rewrite Open_Seal. msimpl.
  rewrite decide_True by lia. msimpl. rewrite Hg. msimpl.
  rewrite Hee. msimpl. fold n3.
  rewrite Hse. msimpl. fold n4. rewrite Ha3. msimpl. fold c3.
  set (out := splice 32 c3 _).
  assert (out = PublicKey e2 ++ c3) as ->.
  { unfold out. pose proof (build3 (PublicKey e2) c3 [] 52) as Hb.
    rewrite zlen_PublicKey, Hc3, app_nil_r in Hb. rewrite <- Hb by done.
    rewrite splice_nil; [done|lia|]. rewrite !zlen_splice;
      rewrite ?zlen_splice; rewrite ?zlen_zeros, ?zlen_PublicKey; simpl; lia. }
  rewrite sub_app_back by (rewrite zlen_PublicKey; lia). fold n5 peer. done.
Qed.

(** What [ConsumeResponse] computes on a reply sealed for it. *)
Lemma ConsumeResponse_run ih rpub payload ee se a3 :
  zlen rpub = 32 → zlen payload = 4 →
  SharedSecret (ih_ephemPriv ih) rpub = Ok ee →
  SharedSecret (ih_staticPriv ih) rpub = Ok se →
  let n3 := mixKey (mixHash (ih_noise ih) rpub) ee in
  let n4 := mixKey n3.2 se in
  let c3 := Seal a3 nonce0 payload (hash n4.2) in
  let n5 := mixHash n4.2 c3 in
  chacha20poly1305_New n4.1 = Ok a3 →
  ConsumeResponse (rpub ++ c3) ih =
    (Ok (mkSessionKeys (split_keys n5).1 (split_keys n5).2
           (ih_localIndex ih) (le_decode payload)),
     mkInitiator (ih_staticPriv ih) (ih_peerStatic ih) (PrivateKey_Wipe (ih_ephemPriv ih))
       (ih_ephemPub ih) (ih_localIndex ih) (le_decode payload) n5).
Proof.
  intros Hr Hp Hee Hse n3 n4 c3 n5 Ha3.
  assert (zlen c3 = 20) as Hc3 by (unfold c3; rewrite Seal_length; unfold TagSize; lia).
  unfold ConsumeResponse.
  rewrite decide_False by (rewrite !zlen_app; unfold NoiseHandshakeRespSize; lia).
  rewrite (sub_app_front 32) by done. rewrite (sub_app_back 32 52) by lia.
  msimpl. rewrite Hee. msimpl. fold n3.
  rewrite Hse. msimpl. fold n4. rewrite Ha3. msimpl.
  unfold c3 at 1. rewrite Open_Seal. msimpl. rewrite decide_True by lia. msimpl.
  fold n5. assert (sub 0 4 payload = payload) as -> by (rewrite <- Hp; apply sub_full).
  done.
Qed.
(** A method that succeeds has succeeded at its first step. *)
Lemma method_bind_Ok {S A B} (m : method S A) (f : A → method S B) s b s' :
  (m ≫= f) s = (Ok b, s') → ∃ a s1, m s = (Ok a, s1) ∧ f a s1 = (Ok b, s').
Proof.
  unfold mbind, method_bind. destruct (m s) as [[a|e] s1]; [eauto|done].
Qed.

Lemma try_Ok {S A} (r : result A) (s s' : S) a :
  try_ r s = (Ok a, s') → r = Ok a ∧ s' = s.
Proof. by intros [= -> ->]. Qed.

Lemma wrap_err_Ok {A} msg (r : result A) a : wrap_err msg r = Ok a → r = Ok a.
Proof. destruct r; [done|discriminate]. Qed.

Lemma split_keys_length n k1 k2 : split_keys n = (k1, k2) → zlen k1 = 32 ∧ zlen k2 = 32.
Proof. intros [= <- <-]. split; apply zlen_read_full. Qed.

(** What an accepted initiation contains. *)
Lemma ConsumeInitiation_inv rnd msg rh resp sk rh' :
  ConsumeInitiation rnd msg rh = (Ok (resp, sk), rh') → zlen (rh_peerStatic rh) = 32 →
  let s := rh_staticPriv rh in
  let epub := sub 0 32 msg in
  ∃ es cpub ss a1 a2 payload,
    108 ≤ zlen msg ∧ zlen cpub = 32 ∧ zlen payload = 12 ∧
    SharedSecret s epub = Ok es ∧ SharedSecret s cpub = Ok ss ∧
    let n1 := mixKey (mixHash (rh_noise rh) epub) es in
    let c1 := Seal a1 nonce0 cpub (hash n1.2) in
    let n2 := mixKey (mixHash n1.2 c1) ss in
    let c2 := Seal a2 nonce0 payload (hash n2.2) in
    chacha20poly1305_New n1.1 = Ok a1 ∧ chacha20poly1305_New n2.1 = Ok a2 ∧
    sub 32 80 msg = c1 ∧ sub 80 108 msg = c2 ∧
    rh_peerStatic rh' = cpub ∧ rh_remoteIndex rh' = le_decode (sub 0 4 payload) ∧
    rh_staticPriv rh' = s ∧ rh_localIndex rh' = rh_localIndex rh ∧
    SenderID sk = rh_localIndex rh ∧ PeerID sk = le_decode (sub 0 4 payload) ∧
    zlen resp = NoiseHandshakeRespSize ∧ zlen (SendKey sk) = 32 ∧ zlen (RecvKey sk) = 32.
Proof.
  intros HC Hps s epub. revert HC. unfold ConsumeInitiation. case_decide as Hl; [done|]. msimpl.
  destruct (SharedSecret _ (sub 0 32 msg)) as [es|] eqn:Hes; [|done].
  destruct (chacha20poly1305_New (mixKey _ es).1) as [a1|] eqn:Ha1; [|done].
  destruct (Open a1 _ _ _) as [cpub|] eqn:Ho1; [|done].
  apply Open_sound in Ho1 as Hc1. unfold NoiseHandshakeInitSize in Hl.
  assert (zlen cpub = 32) as Hcp.
  { pose proof (zlen_sub 32 80 msg) as Hz. rewrite Hc1, Seal_length in Hz.
    unfold TagSize in Hz. lia. }
  rewrite (take_ge cpub), splice_full by (unfold zlen in *; lia).
  destruct (SharedSecret _ cpub) as [ss|] eqn:Hss; [|done].
  destruct (chacha20poly1305_New (mixKey _ ss).1) as [a2|] eqn:Ha2; [|done].
  destruct (Open a2 _ _ _) as [payload|] eqn:Ho2; [|done].
  apply Open_sound in Ho2 as Hc2.
  assert (zlen payload = 12) as Hp.
  { pose proof (zlen_sub 80 108 msg) as Hz. rewrite Hc2, Seal_length in Hz.
    unfold TagSize in Hz. lia. }
  rewrite decide_True by lia. msimpl.
  destruct (GenerateKeyPair rnd) as [[e2 epub2]|] eqn:Hg; [|done]. msimpl.
  assert (zlen epub2 = 32) as He2.
  { revert Hg. unfold GenerateKeyPair. destruct rnd; [|done]. intros [= _ <-]. apply base_length. }
  destruct (SharedSecret e2 (sub 0 32 msg)) as [ee|]; [|done]. msimpl.
  destruct (SharedSecret e2 cpub) as [se|]; [|done]. msimpl.
  destruct (chacha20poly1305_New (mixKey _ se).1) as [a3|]; [|done]. msimpl.
  match goal with |- context [split_keys ?n] => destruct (split_keys n) as [k1 k2] eqn:Hk end.
  destruct (split_keys_length _ _ _ Hk) as [Hk1 Hk2]. intros [= <- <- <-].
  set (out0 := splice 0 epub2 _).
  assert (zlen out0 = 52) as Hz0 by (unfold out0; rewrite zlen_splice; rewrite ?zlen_zeros, ?He2; done).
  exists es, cpub, ss, a1, a2, payload. subst s epub. cbv zeta. rewrite <- Hc1, <- Hc2.
  split_and!; try done; try lia.
  rewrite zlen_splice; [done|lia|]. rewrite Seal_length, Hz0. unfold TagSize. by size.
Qed.
End NoiseFacts.

(** ** Properties *)

Section NoiseProperties.
Context `{H : HashLib, C : Curve25519, L : AeadLib}.
Context `{!HashLaws H, !CurveLaws C, !AeadLaws L}.

(** The four exchanges of a run are contributory: no shared secret is zero. *)
Record good_keys (cp sp e1 e2 : list byte) : Prop := {
  good_es : contributory e1 (PublicKey sp);
  good_ss : contributory cp (PublicKey sp);
  good_ee : contributory e2 (PublicKey e1);
  good_se : contributory e2 (PublicKey cp)
}.

Lemma GenerateIndex_range rnd : 0 < GenerateIndex rnd < 2 ^ 32.
Proof.
  unfold GenerateIndex. pose proof (le_decode_range (take 4 (rnd ++ zeros 4))) as Hr.
  assert (length (take 4 (rnd ++ zeros 4)) = 4%nat) as Hl.
  { rewrite length_take, length_app. unfold zeros. rewrite length_replicate. lia. }
  rewrite Hl in Hr. case_decide; simpl in Hr; lia.
Qed.

Lemma init_payload_peer ci now :
  0 ≤ ci < 2 ^ 32 → le_decode (sub 0 4 (init_payload ci now)) = ci.
Proof.
  intros Hci. unfold init_payload. rewrite sub_app_front by done.
  by rewrite le_decode_encode_small by (simpl; lia).
Qed.

(** The two messages, sealed in three parts, and what each step makes of them. *)
Lemma handshake_parts cp sp r2 e1 e2 ci si now :
  0 ≤ ci < 2 ^ 32 → 0 ≤ si < 2 ^ 32 → GenerateKeyPair (Ok r2) = Ok (e2, PublicKey e2) →
  good_keys cp sp e1 e2 →
  let ih := mkInitiator cp (PublicKey sp) e1 (PublicKey e1) ci 0
              (mixHash newNoiseState (PublicKey sp)) in
  ∃ c1 c2 c3 n keys, zlen c1 = 48 ∧ zlen c2 = 28 ∧ zlen c3 = 20 ∧
    CreateInitiation now ih = (Ok (PublicKey e1 ++ c1 ++ c2), set_noise n ih) ∧
    ConsumeInitiation (Ok r2) (PublicKey e1 ++ c1 ++ c2) (NewResponderHandshake sp si) =
      (Ok (PublicKey e2 ++ c3, mkSessionKeys keys.2 keys.1 si ci), mkResponder sp si ci (PublicKey cp)
         (ih_noise (ConsumeResponse (PublicKey e2 ++ c3) (set_noise n ih)).2)) ∧
    ∃ n', ConsumeResponse (PublicKey e2 ++ c3) (set_noise n ih) =
      (Ok (mkSessionKeys keys.1 keys.2 ci si),
       mkInitiator cp (PublicKey sp) (PrivateKey_Wipe e1) (PublicKey e1) ci si n').
Proof.
  intros Hci Hsi Hg2 [Hes Hss Hee Hse] ih. set (pay := init_payload ci now).
  set (n1 := mixKey (mixHash (ih_noise ih) (PublicKey e1)) (ScalarMult e1 (PublicKey sp))).
  destruct (step_key_ok (mixHash (ih_noise ih) (PublicKey e1))
              (ScalarMult e1 (PublicKey sp))) as [a1 Ha1]. fold n1 in Ha1.
  set (c1 := Seal a1 nonce0 (PublicKey cp) (hash n1.2)).
  set (n2 := mixKey (mixHash n1.2 c1) (ScalarMult cp (PublicKey sp))).
  destruct (step_key_ok (mixHash n1.2 c1) (ScalarMult cp (PublicKey sp))) as [a2 Ha2].
  fold n2 in Ha2. set (c2 := Seal a2 nonce0 pay (hash n2.2)).
  set (n3 := mixKey (mixHash (mixHash n2.2 c2) (PublicKey e2)) (ScalarMult e2 (PublicKey e1))).
  set (n4 := mixKey n3.2 (ScalarMult e2 (PublicKey cp))).
  destruct (step_key_ok n3.2 (ScalarMult e2 (PublicKey cp))) as [a3 Ha3]. fold n4 in Ha3.
  set (c3 := Seal a3 nonce0 (le_encode 4 si) (hash n4.2)).
  destruct (CreateInitiation_run ih now (ScalarMult e1 (PublicKey sp)) (ScalarMult cp (PublicKey sp)) a1 a2)
    as (Hm1 & Hz1 & Hz2); [apply zlen_PublicKey|by apply SharedSecret_ok..|exact Ha1|exact Ha2|].
  destruct (ConsumeInitiation_run (Ok r2) (NewResponderHandshake sp si) (PublicKey e1)
    (PublicKey cp) pay e2 (ScalarMult e1 (PublicKey sp)) (ScalarMult cp (PublicKey sp))
    (ScalarMult e2 (PublicKey e1)) (ScalarMult e2 (PublicKey cp)) a1 a2 a3) as (Hm2 & Hz3);
    try apply zlen_PublicKey; try done; try (by apply SharedSecret_comm); try (by apply SharedSecret_ok).
  assert (ConsumeResponse (PublicKey e2 ++ c3) (set_noise (mixHash n2.2 c2) ih) =
    (Ok (mkSessionKeys (split_keys (mixHash n4.2 c3)).1 (split_keys (mixHash n4.2 c3)).2 ci si),
     mkInitiator cp (PublicKey sp) (PrivateKey_Wipe e1) (PublicKey e1) ci si (mixHash n4.2 c3))) as Hm3.
  { rewrite <- (le_decode_encode_small 4 si) at 1 2 by (simpl; lia).
    refine (ConsumeResponse_run (set_noise (mixHash n2.2 c2) ih) (PublicKey e2)
      (le_encode 4 si) (ScalarMult e2 (PublicKey e1)) (ScalarMult e2 (PublicKey cp)) a3
      _ _ _ _ Ha3); [apply zlen_PublicKey|done|by apply SharedSecret_comm..]. }
  unfold pay in Hm2. rewrite init_payload_peer in Hm2 by done.
  exists c1, c2, c3, (mixHash n2.2 c2), (split_keys (mixHash n4.2 c3)).
  do 4 (split; [done|]). split; [|by eexists]. rewrite Hm3. exact Hm2.
Qed.

(** A whole run. *)
Lemma handshake_run cp sp r1 r2 e1 e2 ci si now :
  0 ≤ ci < 2 ^ 32 → 0 ≤ si < 2 ^ 32 →
  GenerateKeyPair (Ok r1) = Ok (e1, PublicKey e1) →
  GenerateKeyPair (Ok r2) = Ok (e2, PublicKey e2) →
  good_keys cp sp e1 e2 →
  ∃ ih m1 ih1 m2 server rh client ih2,
    NewInitiatorHandshake (Ok r1) cp (PublicKey sp) ci = Ok ih ∧
    CreateInitiation now ih = (Ok m1, ih1) ∧ zlen m1 = NoiseHandshakeInitSize ∧
    ConsumeInitiation (Ok r2) m1 (NewResponderHandshake sp si) = (Ok (m2, server), rh) ∧
    zlen m2 = NoiseHandshakeRespSize ∧
    ConsumeResponse m2 ih1 = (Ok client, ih2) ∧
    SendKey client = RecvKey server ∧ RecvKey client = SendKey server ∧
    SenderID client = ci ∧ PeerID client = si ∧
    SenderID server = si ∧ PeerID server = ci ∧
    PeerStaticKey rh = PublicKey cp ∧ ih_ephemPriv ih2 = zeros 32.
Proof.
  intros Hci Hsi Hg1 Hg2 Hgood.
  destruct (handshake_parts cp sp r2 e1 e2 ci si now Hci Hsi Hg2 Hgood)
    as (c1 & c2 & c3 & n & keys & Hz1 & Hz2 & Hz3 & Hm1 & Hm2 & n' & Hm3).
  do 8 eexists. split; [unfold NewInitiatorHandshake; by rewrite Hg1|].
  split; [exact Hm1|].
  split; [rewrite !zlen_app, zlen_PublicKey; unfold NoiseHandshakeInitSize; lia|].
  split; [exact Hm2|].
  split; [rewrite zlen_app, zlen_PublicKey; unfold NoiseHandshakeRespSize; lia|].
  split; [exact Hm3|]. split_and!; try done. simpl. apply PrivateKey_Wipe_spec.
  destruct (GenerateKeyPair_ok r1) as (e & He & Hl). rewrite Hg1 in He.
  by injection He as -> _.
Qed.

(** C25: the handshake agrees.  Whatever the two static keys, the ephemeral
    randomness, the indices and the clock, if the four Diffie-Hellman results
    are non-zero then all four steps succeed, the messages have 108 and 52
    bytes, the client's send key is the server's receive key and conversely,
    each side knows the other's session index, the server has authenticated
    the client's static public key, and the client's ephemeral private key is
    wiped. *)
Theorem handshake_agreement cp sp r1 r2 e1 e2 ci si now :
  0 ≤ ci < 2 ^ 32 → 0 ≤ si < 2 ^ 32 →
  GenerateKeyPair (Ok r1) = Ok (e1, PublicKey e1) →
  GenerateKeyPair (Ok r2) = Ok (e2, PublicKey e2) →
  good_keys cp sp e1 e2 →
  ∃ ih m1 ih1 m2 server rh client ih2,
    NewInitiatorHandshake (Ok r1) cp (PublicKey sp) ci = Ok ih ∧
    CreateInitiation now ih = (Ok m1, ih1) ∧ zlen m1 = NoiseHandshakeInitSize ∧
    ConsumeInitiation (Ok r2) m1 (NewResponderHandshake sp si) = (Ok (m2, server), rh) ∧
    zlen m2 = NoiseHandshakeRespSize ∧
    ConsumeResponse m2 ih1 = (Ok client, ih2) ∧
    SendKey client = RecvKey server ∧ RecvKey client = SendKey server ∧
    SenderID client = ci ∧ PeerID client = si ∧
    SenderID server = si ∧ PeerID server = ci ∧
    PeerStaticKey rh = PublicKey cp ∧ ih_ephemPriv ih2 = zeros 32.
Proof. apply handshake_run. Qed.
(** C28: the responder authenticates the initiator.  It accepts a message only
    if the message's two sealed parts open under keys derived from the
    Diffie-Hellman results of its own static key with the message's ephemeral
    key and with the claimed static key: the claimed key is what the first part
    seals, the second part seals a 12-byte payload under a key that takes both
    results, and the index the session will answer to is that payload's. *)
Theorem ConsumeInitiation_sound rnd msg sp si resp sk rh :
  ConsumeInitiation rnd msg (NewResponderHandshake sp si) = (Ok (resp, sk), rh) →
  let epub := sub 0 32 msg in
  let peer := PeerStaticKey rh in
  ∃ a1 a2 payload,
    NoiseHandshakeInitSize ≤ zlen msg ∧ zlen peer = 32 ∧ zlen payload = 12 ∧
    contributory sp epub ∧ contributory sp peer ∧
    let n0 := rh_noise (NewResponderHandshake sp si) in
    let n1 := mixKey (mixHash n0 epub) (ScalarMult sp epub) in
    let n2 := mixKey (mixHash n1.2 (sub 32 80 msg)) (ScalarMult sp peer) in
    chacha20poly1305_New n1.1 = Ok a1 ∧ chacha20poly1305_New n2.1 = Ok a2 ∧
    sub 32 80 msg = Seal a1 nonce0 peer (hash n1.2) ∧
    sub 80 108 msg = Seal a2 nonce0 payload (hash n2.2) ∧
    SenderID sk = si ∧ PeerID sk = le_decode (sub 0 4 payload).
Proof.
  intros HC epub peer.
  destruct (ConsumeInitiation_inv _ _ _ _ _ _ HC) as
    (es & cpub & ss & a1 & a2 & pay & Hl & Hcp & Hp & Hes & Hss & Ha1 & Ha2 & Hc1 & Hc2 &
     Hps & _ & _ & _ & Hs & Hpid & _); [done|].
  unfold peer, PeerStaticKey. rewrite Hps. exists a1, a2, pay.
  apply SharedSecret_inv in Hes as Hes'. apply SharedSecret_inv in Hss as Hss'.
  assert (∀ k p x, SharedSecret k p = Ok x → contributory k p) as Hcon.
  { intros k p x. unfold SharedSecret, contributory. by case_decide. }
  apply Hcon in Hes, Hss. subst es ss. rewrite <- Hc1 in Ha2, Hc2.
  split_and!; auto.
Qed.

(** An initiation can be replayed.  The responder keeps no memory of the
    initiations it has seen and does not look at the timestamp they carry, so a
    message accepted once is accepted again, for the same client and the same
    client index, by any later responder that holds the same static key and
    draws an ephemeral key with non-zero exchanges. *)
Theorem initiation_replay rnd msg sp si resp sk rh r e si' :
  ConsumeInitiation rnd msg (NewResponderHandshake sp si) = (Ok (resp, sk), rh) →
  zlen msg = NoiseHandshakeInitSize →
  GenerateKeyPair (Ok r) = Ok (e, PublicKey e) →
  contributory e (sub 0 32 msg) → contributory e (PeerStaticKey rh) →
  ∃ resp' sk' rh',
    ConsumeInitiation (Ok r) msg (NewResponderHandshake sp si') = (Ok (resp', sk'), rh') ∧
    zlen resp' = NoiseHandshakeRespSize ∧
    PeerStaticKey rh' = PeerStaticKey rh ∧ PeerID sk' = PeerID sk ∧ SenderID sk' = si'.
Proof.
  intros HC Hz Hg Hce Hcs.
  destruct (ConsumeInitiation_inv _ _ _ _ _ _ HC) as
    (es & cpub & ss & a1 & a2 & pay & Hl & Hcp & Hp & Hes & Hss & Ha1 & Ha2 & Hc1 & Hc2 &
     Hps & _ & _ & _ & Hs & Hpid & _); [done|].
  unfold PeerStaticKey in *. rewrite Hps in Hcs |- *. rewrite Hpid.
  set (epub := sub 0 32 msg) in *.
  assert (msg = epub ++ sub 32 80 msg ++ sub 80 108 msg) as Hmsg.
  { unfold epub. rewrite <- (sub_cat 32 80 108), <- (sub_cat 0 32 108) by lia.
    change 108 with NoiseHandshakeInitSize. by rewrite <- Hz, sub_full. }
  set (n1 := mixKey (mixHash (rh_noise (NewResponderHandshake sp si)) epub) es) in *.
  set (n2 := mixKey (mixHash n1.2 (Seal a1 nonce0 cpub (hash n1.2))) ss) in *.
  set (n3 := mixKey (mixHash (mixHash n2.2 (Seal a2 nonce0 pay (hash n2.2))) (PublicKey e))
               (ScalarMult e epub)).
  destruct (step_key_ok n3.2 (ScalarMult e cpub)) as [a3 Ha3].
  destruct (ConsumeInitiation_run (Ok r) (NewResponderHandshake sp si') epub cpub pay e
    es ss (ScalarMult e epub) (ScalarMult e cpub) a1 a2 a3) as [Hrun Hc3];
    try done; try by apply SharedSecret_ok.
  { unfold epub. rewrite zlen_sub by lia. done. }
  rewrite Hmsg, Hc1, Hc2. eexists _, _, _. split; [exact Hrun|].
  split; [|done]. rewrite zlen_app, Hc3, zlen_PublicKey. done.
Qed.
End NoiseProperties.

(** A toy hash and key-derivation stream with the interface's law, to evaluate
    the handshake. *)
Definition toy_hash : HashLib := {|
  sha256 := λ m, le_encode 32 (byte_sum m + 11 * zlen m);
  hkdf := λ ikm salt info i,
    byte_of_Z (byte_sum ikm + 3 * byte_sum salt + 5 * byte_sum info + 7 * Z.of_nat i)
|}.

#[global] Instance toy_hash_laws : HashLaws toy_hash.
Proof. split. intros m. apply zlen_le_encode. Qed.

Definition demo_key (n : Z) : list byte := map (λ i, byte_of_Z (n + 3 * Z.of_nat i)) (seq 0 32).

Example handshake_agreement_witness :
  ∃ m1 ih1 m2 server rh client ih2 ih,
    NewInitiatorHandshake (C := toy_curve) (H := toy_hash) (Ok (demo_key 5)) (demo_key 40)
      (PublicKey (C := toy_curve) (demo_key 90)) 7 = Ok ih ∧
    CreateInitiation (L := toy_aead) (C := toy_curve) (H := toy_hash) 1234 ih = (Ok m1, ih1) ∧
    ConsumeInitiation (L := toy_aead) (C := toy_curve) (H := toy_hash) (Ok (demo_key 1)) m1
      (NewResponderHandshake (C := toy_curve) (H := toy_hash) (demo_key 90) 9) =
      (Ok (m2, server), rh) ∧
    ConsumeResponse (L := toy_aead) (C := toy_curve) (H := toy_hash) m2 ih1 = (Ok client, ih2) ∧
    SendKey client = RecvKey server ∧ PeerID client = 9.
Proof.
  destruct (handshake_agreement (H := toy_hash) (C := toy_curve) (L := toy_aead)
    (demo_key 40) (demo_key 90) (demo_key 5) (demo_key 1) (clamp (demo_key 5))
    (clamp (demo_key 1)) 7 9 1234)
    as (ih & m1 & ih1 & m2 & server & rh & client & ih2 & ? & ? & _ & ? & _ & ? & ? & _ & _ & ? & _);
    [lia|lia|reflexivity|reflexivity|split; vm_compute; discriminate|].
  by exists m1, ih1, m2, server, rh, client, ih2, ih.
Defined.

(** A concrete initiation and what a responder makes of it. *)
Definition demo_init : list byte :=
  match NewInitiatorHandshake (C := toy_curve) (H := toy_hash) (Ok (demo_key 5)) (demo_key 40)
          (PublicKey (C := toy_curve) (demo_key 90)) 7 with
  | Ok ih =>
      match (CreateInitiation (L := toy_aead) (C := toy_curve) (H := toy_hash) 1234 ih).1 with
      | Ok m => m | Err _ => [] end
  | Err _ => []
  end.
Definition demo_responder (si : Z) : ResponderHandshake :=
  NewResponderHandshake (C := toy_curve) (H := toy_hash) (demo_key 90) si.
Definition demo_accept (r si : Z) : result (list byte * SessionKeys) * ResponderHandshake :=
  ConsumeInitiation (L := toy_aead) (C := toy_curve) (H := toy_hash) (Ok (demo_key r)) demo_init
    (demo_responder si).
Definition accepted_reply (x : result (list byte * SessionKeys) * ResponderHandshake)
    : list byte * SessionKeys :=
  match x.1 with Ok p => p | Err _ => ([], mkSessionKeys [] [] 0 0) end.

Example ConsumeInitiation_sound_witness :
  zlen (PeerStaticKey (demo_accept 1 9).2) = 32 ∧ PeerID (accepted_reply (demo_accept 1 9)).2 = 7.
Proof.
  destruct (ConsumeInitiation_sound (H := toy_hash) (C := toy_curve) (L := toy_aead)
    (Ok (demo_key 1)) demo_init (demo_key 90) 9 (accepted_reply (demo_accept 1 9)).1
    (accepted_reply (demo_accept 1 9)).2 (demo_accept 1 9).2)
    as (a1 & a2 & pay & _ & Hz & _); [vm_compute; reflexivity|].
  split; [exact Hz|vm_compute; reflexivity].
Defined.

Example initiation_replay_witness :
  ∃ resp sk rh, demo_accept 3 10 = (Ok (resp, sk), rh) ∧
    PeerStaticKey rh = PublicKey (C := toy_curve) (demo_key 40) ∧ SenderID sk = 10.
Proof.
  destruct (initiation_replay (H := toy_hash) (C := toy_curve) (L := toy_aead)
    (Ok (demo_key 1)) demo_init (demo_key 90) 9 (accepted_reply (demo_accept 1 9)).1
    (accepted_reply (demo_accept 1 9)).2 (demo_accept 1 9).2 (demo_key 3)
    (clamp (demo_key 3)) 10) as (resp & sk & rh & Hr & _ & Hp & _ & Hs);
    [vm_compute; reflexivity|vm_compute; reflexivity|reflexivity
    |vm_compute; discriminate|vm_compute; discriminate|].
  exists resp, sk, rh. split; [exact Hr|]. split; [|exact Hs].
  rewrite Hp. vm_compute. reflexivity.
Defined.
