(* ===== verification/Session.v ===== *)
(** * Sessions and the session table (pkg/protocol/session.go)

    [Session] is the tunnel state of one peer: two ciphers, the send counter, the
    replay window.  [SessionManager] keeps pointers to sessions under their local
    index; the sessions themselves live in an explicit store, because a session
    removed from the table is wiped and stays reachable through other pointers.
    The theorems follow packets from [EncryptPacket] through the header to
    [DecryptPacket] under loss, reordering, duplication and forgery. *)

From S2P Require Import Prelude Buffer Wire Replay Cipher Encoding Keys Noise.
Local Open Scope Z_scope.

Definition RekeyTime : Z := 2 * 3600 * 10 ^ 9.
Definition KeepaliveInterval : Z := 15 * 10 ^ 9.

(** [net.Addr]: what its two methods return. *)
Record Addr := mkAddr {
  Network : string;
  addr_string : string
}.
#[global] Instance Addr_eq_dec : EqDecision Addr.
Proof. solve_decision. Defined.

Section Session.
Context `{L : AeadLib}.

Record Session := mkSession {
  LocalIndex : Z;
  RemoteIndex : Z;
  SendCipher : option AEADCipher;      (* a pointer: None is nil *)
  RecvCipher : option AEADCipher;
  sendCounter : Z;                     (* atomic.Uint64 *)
  replay : ReplayWindow;
  RemoteAddr : option Addr;            (* an interface: None is nil *)
  LastActive : Z;
  CreatedAt : Z
}.

Definition set_counter (c : Z) (s : Session) : Session :=
  mkSession (LocalIndex s) (RemoteIndex s) (SendCipher s) (RecvCipher s) c (replay s)
            (RemoteAddr s) (LastActive s) (CreatedAt s).
Definition set_replay (rw : ReplayWindow) (s : Session) : Session :=
  mkSession (LocalIndex s) (RemoteIndex s) (SendCipher s) (RecvCipher s) (sendCounter s) rw
            (RemoteAddr s) (LastActive s) (CreatedAt s).
Definition set_last_active (now : Z) (s : Session) : Session :=
  mkSession (LocalIndex s) (RemoteIndex s) (SendCipher s) (RecvCipher s) (sendCounter s)
            (replay s) (RemoteAddr s) now (CreatedAt s).
Definition set_remote_addr (a : option Addr) (s : Session) : Session :=
  mkSession (LocalIndex s) (RemoteIndex s) (SendCipher s) (RecvCipher s) (sendCounter s)
            (replay s) a (LastActive s) (CreatedAt s).

(** [now] is the clock, in nanoseconds. *)
Definition NewSession (keys : SessionKeys) (addr : option Addr) (suite now : Z)
    : result Session :=
  sendCipher ← NewAEADCipher suite (SendKey keys);
  recvCipher ← NewAEADCipher suite (RecvKey keys);
  Ok (mkSession (SenderID keys) (PeerID keys) (Some sendCipher) (Some recvCipher) 0
        zero_window addr now now).

(** [EncodeHeader(h, ad[:])] on a fresh [HeaderSize]-byte array. *)
Definition header_ad (h : Header) : outcome (list byte) :=
  ad ← EncodeHeader h (make_slice HeaderSize); Ret (arr ad).

(** The counter is taken before anything can fail, and is not given back. *)
Definition EncryptPacket (now : Z) (s : Session) (buf : PacketBuffer) (msgType flags : Z)
    : outcome (Session * PacketBuffer * option error) :=
  let next := u64 (sendCounter s + 1) in
  let s := set_counter next s in
  let counter := u64 (next - 1) in
  let h := mkHeader msgType flags (RemoteIndex s) counter in
  ad ← header_ad h;
  '(buf, err) ← EncryptInPlace (SendCipher s) buf counter ad;
  match err with
  | Some e => Ret (s, buf, Some e)
  | None =>
      '(buf, err) ← PrependHeader buf h;
      match err with
      | Some e => Ret (s, buf, Some e)
      | None => Ret (set_last_active now s, buf, None)
      end
  end.

Definition err_replayed : error := ErrNew "packet rejected by anti-replay window".

(** The window is updated before the packet is authenticated. *)
Definition DecryptPacket (now : Z) (s : Session) (buf : PacketBuffer) (h : Header)
    : outcome (Session * PacketBuffer * option error) :=
  let '(fresh, rw) := CheckAndSet (replay s) (Counter h) in
  let s := set_replay rw s in
  if fresh then
    ad ← header_ad h;
    '(buf, err) ← DecryptInPlace (RecvCipher s) buf (Counter h) ad;
    match err with
    | Some e => Ret (s, buf, Some e)
    | None => Ret (set_last_active now s, buf, None)
    end
  else Ret (s, buf, Some err_replayed).

Definition Wipe (s : Session) : Session :=
  mkSession (LocalIndex s) (RemoteIndex s) None None (sendCounter s)
    (mkWindow (maxSeq (replay s)) 0 0) (RemoteAddr s) (LastActive s) (CreatedAt s).

(** The keys and indices of a session: what packets in flight depend on.  Packets
    change the counter, which stays a 64-bit number, and the window. *)
Record same_keys (x x' : Session) : Prop := {
  sk_send : SendCipher x' = SendCipher x;
  sk_recv : RecvCipher x' = RecvCipher x;
  sk_local : LocalIndex x' = LocalIndex x;
  sk_remote : RemoteIndex x' = RemoteIndex x;
  sk_range : 0 ≤ sendCounter x < 2 ^ 64 → 0 ≤ sendCounter x' < 2 ^ 64
}.
#[global] Instance same_keys_preorder : PreOrder same_keys.
Proof.
  split; [by constructor|]. intros x y z [] []. constructor; [congruence..|auto].
Qed.

Lemma EncryptPacket_same now x buf t f x' buf' err :
  EncryptPacket now x buf t f = Ret (x', buf', err) → same_keys x x'.
Proof.
  unfold EncryptPacket. destruct (header_ad _) as [ad|]; [|done]. gsimpl.
  destruct (EncryptInPlace _ _ _ _) as [[b1 e1]|]; [|done]. gsimpl.
  pose proof (Z.mod_pos_bound (sendCounter x + 1) (2 ^ 64) ltac:(done)) as Hr.
  destruct e1; [by intros [= <- _ _]|].
  destruct (PrependHeader _ _) as [[b2 e2]|]; [|done]. gsimpl. by destruct e2; intros [= <- _ _].
Qed.
Lemma DecryptPacket_same now x buf h x' buf' err :
  DecryptPacket now x buf h = Ret (x', buf', err) → same_keys x x'.
Proof.
  unfold DecryptPacket. destruct (CheckAndSet _ _) as [[] rw]; [|by intros [= <- _ _]].
  destruct (header_ad _) as [ad|]; [|done]. gsimpl.
  destruct (DecryptInPlace _ _ _ _) as [[b1 e1]|]; [|done]. gsimpl. by destruct e1; intros [= <- _ _].
Qed.

(** ** SessionManager

    [sess_store] is the memory the session pointers point into. *)
Record SessionManager := mkManager {
  sess_store : gmap loc Session;
  sessions : gmap Z loc
}.

Definition NewSessionManager (store : gmap loc Session) : SessionManager :=
  mkManager store ∅.

Definition Register (sm : SessionManager) (p : loc) : SessionManager :=
  match sess_store sm !! p with
  | Some s => mkManager (sess_store sm) (<[LocalIndex s := p]> (sessions sm))
  | None => sm
  end.

Definition Get_session (sm : SessionManager) (index : Z) : option loc := sessions sm !! index.

Definition wipe_at (sm : SessionManager) (p : loc) : SessionManager :=
  mkManager (alter Wipe p (sess_store sm)) (sessions sm).
Definition delete_index (sm : SessionManager) (index : Z) : SessionManager :=
  mkManager (sess_store sm) (delete index (sessions sm)).

Definition Remove (sm : SessionManager) (index : Z) : SessionManager :=
  match sessions sm !! index with
  | Some p => delete_index (wipe_at sm p) index
  | None => sm
  end.

(** [order] is the order in which the range loop visits the entries, which Go
    leaves open. *)
Definition Clear (sm : SessionManager) (order : list (Z * loc)) : SessionManager :=
  foldl (λ sm '(idx, p), delete_index (wipe_at sm p) idx) sm order.
End Session.

#[global] Arguments Session : clear implicits.
#[global] Arguments Session {L}.
#[global] Arguments SessionManager : clear implicits.
#[global] Arguments SessionManager {L}.

(** ** One packet *)

Section Packets.
Context `{L : AeadLib, !AeadLaws L}.
Implicit Types (s : Session) (c : AEADCipher) (buf : PacketBuffer).

(** A data packet on the wire: the header, then the payload sealed under the
    header's counter with the header as additional data. *)
Definition wire_packet c (h : Header) (payload : list byte) : list byte :=
  header_bytes h ++
  Seal (cipher_aead c) (EncodeNonce (Counter h)) payload (header_bytes h).

(** Room for the tag and the header around the payload. *)
Definition tunnel_room buf : Prop :=
  Offset buf + Length buf + TagSize ≤ cap (Data buf) ∧
  (HeaderSize ≤ Offset buf ∨ Length buf + TagSize + HeaderSize ≤ len (Data buf)).

Definition u8_range (z : Z) : Prop := 0 ≤ z < 256.

(** The header of the next packet of a session. *)
Definition next_header s (t f : Z) : Header := mkHeader t f (RemoteIndex s) (sendCounter s).

Lemma header_ad_ok h : header_ad h = Ret (header_bytes h).
Proof.
  unfold header_ad.
  rewrite EncodeHeader_ok by (unfold slice_wf, HeaderSize; simpl; vm_compute; intuition congruence).
  gsimpl. rewrite splice_full by (rewrite zlen_header_bytes; done). done.
Qed.

Lemma counter_round z : u64_range z → u64 (u64 (z + 1) - 1) = z.
Proof.
  intros Hz. rewrite wrap_sub_l. replace (z + 1 - 1) with z by lia. by apply wrap_small.
Qed.

Lemma EncryptPacket_ok now s c buf t f :
  SendCipher s = Some c → u64_range (sendCounter s) → wf buf → tunnel_room buf →
  ∃ buf',
    EncryptPacket now s buf t f =
      Ret (set_last_active now (set_counter (u64 (sendCounter s + 1)) s), buf', None) ∧
    wf buf' ∧ contents buf' = wire_packet c (next_header s t f) (contents buf) ∧
    len (Data buf') = len (Data buf) ∧ cap (Data buf') = cap (Data buf).
Proof.
  intros Hc Hctr Hwf [Hcap Hroom]. unfold EncryptPacket.
  cbn [set_counter sendCounter RemoteIndex SendCipher].
  rewrite counter_round by done. fold (next_header s t f).
  rewrite header_ad_ok. gsimpl. rewrite Hc.
  destruct (EncryptInPlace_ok c buf (sendCounter s) (header_bytes (next_header s t f)))
    as (b1 & -> & Hwf1 & Hc1 & Hl1 & Ho1 & Hlen1 & Hcap1); [done..|]. gsimpl.
  destruct (PrependHeader_ok b1 (next_header s t f))
    as (b2 & -> & Hwf2 & Hc2 & Hlen2 & Hcap2); [done|unfold can_prepend; lia|]. gsimpl.
  exists b2. split; [done|]. split; [done|]. split; [|lia].
  by rewrite Hc2, Hc1.
Qed.

(** The receiving path of the server and of the client. *)
Definition receive (now : Z) s buf : outcome (Session * PacketBuffer * option error) :=
  '(buf, r) ← StripHeader buf;
  match r with
  | Err e => Ret (s, buf, Some e)
  | Ok h => DecryptPacket now s buf h
  end.

Lemma DecryptPacket_ok now s c buf h p w :
  RecvCipher s = Some c → wf buf → u64_range (Counter h) → refines (replay s) w →
  contents buf = Seal (cipher_aead c) (EncodeNonce (Counter h)) p (header_bytes h) →
  ∃ s' buf' e, DecryptPacket now s buf h = Ret (s', buf', e) ∧
    wf buf' ∧ RecvCipher s' = Some c ∧ refines (replay s') (spec_check w (Counter h)).2 ∧
    if (spec_check w (Counter h)).1 then e = None ∧ contents buf' = p
    else e = Some err_replayed.
Proof.
  intros Hc Hwf Hctr Href Hcont. unfold DecryptPacket.
  destruct (CheckAndSet_refines (replay s) w (Counter h) Href Hctr) as [Hv Href'].
  destruct (CheckAndSet (replay s) (Counter h)) as [v rw]. simpl in Hv, Href'.
  rewrite <- Hv. destruct v; [|by eauto 10].
  rewrite header_ad_ok. gsimpl. cbn [set_replay RecvCipher]. rewrite Hc.
  destruct (DecryptInPlace_ok c buf (Counter h) (header_bytes h) p)
    as (b & -> & Hwf' & Hp & _); [done|by rewrite Hcont, Open_Seal|]. gsimpl.
  eexists _, _, _. split; [reflexivity|]. done.
Qed.

Lemma receive_ok now s c buf h p w :
  RecvCipher s = Some c → wf buf → header_wf h → refines (replay s) w →
  contents buf = wire_packet c h p →
  ∃ s' buf' e, receive now s buf = Ret (s', buf', e) ∧
    RecvCipher s' = Some c ∧ refines (replay s') (spec_check w (Counter h)).2 ∧
    if (spec_check w (Counter h)).1 then e = None ∧ contents buf' = p
    else e = Some err_replayed.
Proof.
  intros Hc Hwf Hh Href Hcont. unfold receive.
  destruct (strip_header_bytes buf h _ Hwf Hh Hcont) as (b & -> & Hwf' & Hb & _). gsimpl.
  destruct (DecryptPacket_ok now s c b h p w) as (s' & b' & e & ? & _ & ? & ? & ?);
    [done|done|apply Hh|done|done|]. eauto 10.
Qed.
End Packets.

(** ** Many packets *)

Section Flows.
Context `{L : AeadLib}.

(** Encrypt a list of packets, each with its message type and flags. *)
Fixpoint send_all (now : Z) (s : Session) (pkts : list (PacketBuffer * (Z * Z)))
    : outcome (Session * list (PacketBuffer * option error)) :=
  match pkts with
  | [] => Ret (s, [])
  | (buf, (t, f)) :: pkts =>
      '(s, buf, e) ← EncryptPacket now s buf t f;
      '(s, out) ← send_all now s pkts;
      Ret (s, (buf, e) :: out)
  end.

Fixpoint receive_all (now : Z) (s : Session) (bufs : list PacketBuffer)
    : outcome (Session * list (PacketBuffer * option error)) :=
  match bufs with
  | [] => Ret (s, [])
  | buf :: bufs =>
      '(s, buf, e) ← receive now s buf;
      '(s, out) ← receive_all now s bufs;
      Ret (s, (buf, e) :: out)
  end.

(** The payloads handed to the layer above: the packets without an error. *)
Fixpoint delivered (outs : list (PacketBuffer * option error)) : list (list byte) :=
  match outs with
  | [] => []
  | (b, None) :: outs => contents b :: delivered outs
  | (_, Some _) :: outs => delivered outs
  end.

(** The counters of the packets that were sent without an error. *)
Definition sent_counter (out : PacketBuffer * option error) : option Z :=
  match out with
  | (b, None) => Some (Counter (header_of_bytes (sub 0 HeaderSize (contents b))))
  | (_, Some _) => None
  end.
End Flows.

Section FlowFacts.
Context `{L : AeadLib, !AeadLaws L}.
Implicit Types (s : Session) (c : AEADCipher) (buf : PacketBuffer).

(** A sendable packet: a buffer with room, and field values in their width. *)
Definition sendable (pkt : PacketBuffer * (Z * Z)) : Prop :=
  wf pkt.1 ∧ tunnel_room pkt.1 ∧ u8_range pkt.2.1 ∧ u8_range pkt.2.2.

Lemma send_all_ok now c pkts s :
  SendCipher s = Some c → u64_range (sendCounter s) →
  sendCounter s + zlen pkts ≤ 2 ^ 64 → Forall sendable pkts →
  ∃ s' outs, send_all now s pkts = Ret (s', outs) ∧ length outs = length pkts ∧
    ∀ (i : nat) b t f, pkts !! i = Some (b, (t, f)) →
      ∃ b', outs !! i = Some (b', None) ∧
        contents b' = wire_packet c
          (mkHeader t f (RemoteIndex s) (sendCounter s + Z.of_nat i)) (contents b).
Proof.
  revert s. induction pkts as [|[b [t f]] pkts IH]; intros s Hc Hctr Hn Hf.
  { eexists _, []. by repeat split. }
  apply Forall_cons in Hf as [(Hwf & Hroom & _) Hf]. simpl in Hwf, Hroom.
  rewrite zlen_cons in Hn. pose proof (zlen_nonneg pkts). simpl send_all.
  destruct (EncryptPacket_ok now s c b t f Hc Hctr Hwf Hroom) as (b1 & -> & _ & Hb1 & _).
  gsimpl. set (s1 := set_last_active _ _).
  destruct (decide (pkts = [])) as [->|Hne].
  { eexists _, _. split; [reflexivity|]. split; [done|].
    intros [|i] b' t' f' Hi; [|done]. injection Hi as <- <- <-. exists b1.
    simpl. split; [done|]. by rewrite Z.add_0_r. }
  assert (1 ≤ zlen pkts) by (destruct pkts; [done|rewrite zlen_cons; pose proof (zlen_nonneg pkts); lia]).
  assert (sendCounter s1 = sendCounter s + 1) as Hs1.
  { simpl. apply wrap_small. unfold u64_range in *. lia. }
  destruct (IH s1) as (s' & outs & -> & Hlen & Hi); try done;
    [rewrite Hs1; unfold u64_range in *; lia|lia|]. gsimpl.
  eexists _, _. split; [reflexivity|]. split; [simpl; congruence|].
  intros [|i] b' t' f' Hlk; simpl in Hlk.
  - injection Hlk as <- <- <-. exists b1. split; [done|]. by rewrite Z.add_0_r.
  - destruct (Hi i b' t' f' Hlk) as (b2 & ? & Hb2). exists b2. split; [done|].
    rewrite Hb2, Hs1. do 2 f_equal. lia.
Qed.

(** The receiver's side, for packets with known headers and payloads. *)
Lemma receive_all_ok now c (rx : list (Header * list byte)) bufs s w :
  RecvCipher s = Some c → refines (replay s) w →
  Forall2 (λ hp b, wf b ∧ header_wf hp.1 ∧ contents b = wire_packet c hp.1 hp.2) rx bufs →
  let verdicts := (spec_all w (map (Counter ∘ fst) rx)).1 in
  ∃ s' outs, receive_all now s bufs = Ret (s', outs) ∧
    delivered outs = omap (λ p, if p.1 : bool then Some p.2 else None)
                       (zip verdicts (map snd rx)).
Proof.
  intros Hc Href HF. revert s w Hc Href.
  induction HF as [|[h p] b rx bufs (Hwf & Hh & Hb) HF IH]; intros s w Hc Href.
  { by eexists _, []. }
  simpl in *. destruct (receive_ok now s c b h p w) as (s1 & b1 & e & -> & Hc1 & Href1 & Hv);
    [done..|]. gsimpl.
  destruct (IH s1 (spec_check w (Counter h)).2 Hc1 Href1) as (s' & outs & -> & Hd). gsimpl.
  eexists _, _. split; [reflexivity|].
  destruct (spec_check w (Counter h)) as [v w1]. simpl in *.
  destruct (spec_all w1 _) as [vs w2]. simpl in *.
  destruct v; [destruct Hv as [-> <-]|subst e]; simpl; by rewrite Hd.
Qed.
End FlowFacts.

(** ** Adversarial packets *)

Section Adversary.
Context `{L : AeadLib, !AeadLaws L}.
Implicit Types (s : Session) (c : AEADCipher) (buf : PacketBuffer).

(** The header a packet starts with. *)
Definition packet_header buf : Header := header_of_bytes (sub 0 HeaderSize (contents buf)).

Lemma header_of_wire_packet c h p :
  header_wf h → header_of_bytes (sub 0 HeaderSize (wire_packet c h p)) = h.
Proof.
  intros Hh. unfold wire_packet. rewrite sub_app_front by (by rewrite zlen_header_bytes).
  by apply header_of_bytes_bytes.
Qed.

(** One arbitrary packet: no panic, the window makes at most one step, and an
    accepted packet is authentic and fresh. *)
Lemma receive_any now s c buf w :
  RecvCipher s = Some c → wf buf → refines (replay s) w →
  ∃ s' buf' e w', receive now s buf = Ret (s', buf', e) ∧
    RecvCipher s' = Some c ∧ refines (replay s') w' ∧ seen w ⊆ seen w' ∧
    (e = None →
       contents buf = wire_packet c (packet_header buf) (contents buf') ∧
       u64_range (Counter (packet_header buf)) ∧
       Counter (packet_header buf) ∉ seen w ∧ Counter (packet_header buf) ∈ seen w').
Proof.
  intros Hc Hwf Href. unfold receive.
  destruct (decide (Length buf < HeaderSize)).
  { rewrite StripHeader_short by done. gsimpl. eexists s, buf, _, w. by split_and!. }
  destruct (StripHeader_ok buf) as (b1 & -> & Hwf1 & Hb1 & _ & _); [done|lia|]. gsimpl.
  fold (packet_header buf). pose proof (zlen_contents _ Hwf) as Hz.
  assert (header_wf (packet_header buf)) as Hh.
  { apply header_of_bytes_wf. apply zlen_sub; unfold HeaderSize in *; lia. }
  assert (contents buf = header_bytes (packet_header buf) ++ contents b1) as Hsplit.
  { unfold packet_header. rewrite header_bytes_of_bytes
      by (apply zlen_sub; unfold HeaderSize in *; lia).
    rewrite Hb1, <- sub_cat by (unfold HeaderSize in *; lia). by rewrite <- Hz, sub_full. }
  set (h := packet_header buf) in *. unfold DecryptPacket.
  destruct (CheckAndSet_refines (replay s) w (Counter h) Href (counter_range _ Hh)) as [Hv Href'].
  unfold spec_check in Hv, Href'.
  destruct (CheckAndSet (replay s) (Counter h)) as [v rw]. simpl in Hv, Href'.
  case_decide as Hd; simpl in Hv, Href'; subst v.
  { eexists _, b1, _, w. by split_and!. }
  rewrite header_ad_ok. gsimpl. cbn [set_replay RecvCipher]. rewrite Hc.
  destruct (DecryptInPlace_total c b1 (Counter h) (header_bytes h) Hwf1)
    as (b2 & e & HD & _). rewrite HD. gsimpl.
  set (w' := mkSpec _ _) in Href'.
  assert (seen w ⊆ seen w') as Hsub by (unfold w'; simpl; set_solver).
  destruct e as [e|].
  { eexists _, b2, _, w'. by split_and!. }
  eexists _, b2, None, w'. split; [reflexivity|]. split; [done|]. split; [done|].
  split; [done|]. intros _.
  destruct (Open (cipher_aead c) (EncodeNonce (Counter h)) (contents b1) (header_bytes h))
    as [p|e'] eqn:HO.
  - destruct (DecryptInPlace_ok c b1 (Counter h) (header_bytes h) p) as (b3 & HD' & _ & Hp & _);
      [done..|]. rewrite HD in HD'. injection HD' as <-.
    apply Open_sound in HO. rewrite Hsplit, HO, Hp. split; [done|].
    split; [by apply Hh|]. split; [tauto|]. unfold w'. simpl. set_solver.
  - destruct (decide (Length b1 < TagSize)).
    + by rewrite DecryptInPlace_short in HD.
    + destruct (DecryptInPlace_bad c b1 (Counter h) (header_bytes h) e') as (b3 & HD' & _);
        [done|lia|done|]. rewrite HD in HD'. discriminate.
Qed.

Lemma receive_all_any now c bufs s w :
  RecvCipher s = Some c → Forall wf bufs → refines (replay s) w →
  ∃ s' outs, receive_all now s bufs = Ret (s', outs) ∧ length outs = length bufs ∧
    (∀ (i : nat) b b', bufs !! i = Some b → outs !! i = Some (b', None) →
       contents b = wire_packet c (packet_header b) (contents b') ∧
       u64_range (Counter (packet_header b)) ∧ Counter (packet_header b) ∉ seen w) ∧
    (∀ (i j : nat) bi bj bi' bj', bufs !! i = Some bi → bufs !! j = Some bj →
       outs !! i = Some (bi', None) → outs !! j = Some (bj', None) → (i < j)%nat →
       Counter (packet_header bi) ≠ Counter (packet_header bj)).
Proof.
  revert s w. induction bufs as [|b bufs IH]; intros s w Hc Hf Href.
  { by eexists _, []. }
  apply Forall_cons in Hf as [Hwf Hf]. simpl.
  destruct (receive_any now s c b w Hc Hwf Href)
    as (s1 & b1 & e & w1 & -> & Hc1 & Href1 & Hsub & Hacc). gsimpl.
  destruct (IH s1 w1 Hc1 Hf Href1) as (s2 & outs & -> & Hlen & Hauth & Hdist). gsimpl.
  eexists _, _. split; [reflexivity|]. split; [simpl; congruence|]. split.
  - intros [|i] bi bo; simpl.
    + intros [= <-] [= <- ->]. destruct (Hacc eq_refl) as (? & ? & ? & _). done.
    + intros Hi Ho. destruct (Hauth i bi bo Hi Ho) as (? & ? & ?).
      split_and!; auto.
  - intros [|i] [|j] bi bj bi' bj' Hi Hj Hoi Hoj Hij; simpl in *; try lia.
    + injection Hi as <-. injection Hoi as <- ->.
      destruct (Hacc eq_refl) as (_ & _ & _ & Hin).
      destruct (Hauth j bj bj' Hj Hoj) as (_ & _ & Hnin). intros E. by rewrite E in Hin.
    + eapply Hdist; eauto. lia.
Qed.
End Adversary.

(** ** The session table *)

Section Table.
Context `{L : AeadLib}.
Implicit Types (s : Session) (sm : SessionManager).

(** A wiped session: no cipher, and an empty bitmap. *)
Definition wiped s : Prop :=
  SendCipher s = None ∧ RecvCipher s = None ∧
  bitmap0 (replay s) = 0 ∧ bitmap1 (replay s) = 0.

Lemma Wipe_wiped s : wiped (Wipe s).
Proof. done. Qed.

Lemma Wipe_wiped_id s : wiped s → Wipe s = s.
Proof. destruct s as [? ? ? ? ? []]. intros (?&?&?&?). simpl in *. by subst. Qed.

(** A wiped session panics on the first packet it is asked to encrypt. *)
Lemma EncryptPacket_wiped now s buf t f :
  SendCipher s = None → wf buf → Offset buf + Length buf + TagSize ≤ cap (Data buf) →
  EncryptPacket now s buf t f = Panic NilDeref.
Proof.
  intros Hs Hwf Hcap. unfold EncryptPacket. rewrite header_ad_ok. gsimpl.
  cbn [set_counter SendCipher]. rewrite Hs. unfold EncryptInPlace.
  rewrite decide_False by lia. by rewrite Bytes_wf.
Qed.

(** What a range loop of wipes and deletes leaves, entry by entry. *)
Lemma Clear_spec sm order :
  sessions (Clear sm order) = foldr delete (sessions sm) order.*1 ∧
  ∀ p, sess_store (Clear sm order) !! p =
         if decide (p ∈ order.*2) then Wipe <$> sess_store sm !! p else sess_store sm !! p.
Proof.
  revert sm. induction order as [|[i q] order IH]; intros sm.
  { split; [done|]. intros p. case_decide; [set_solver|done]. }
  unfold Clear in IH |- *. cbn [foldl fmap list_fmap fst snd foldr]. destruct (IH (delete_index (wipe_at sm q) i)) as [E1 E2].
  split.
  - rewrite E1. simpl. clear. induction order.*1 as [|j js IHj]; [done|].
    simpl. by rewrite IHj, delete_delete.
  - intros p. rewrite E2. cbn [sess_store delete_index wipe_at].
    destruct (decide (p = q)) as [->|Hpq].
    + rewrite lookup_alter_eq. repeat case_decide; try set_solver.
      destruct (sess_store sm !! q) as [s|]; [|done].
      simpl. by rewrite (Wipe_wiped_id (Wipe s)) by apply Wipe_wiped.
    + rewrite lookup_alter_ne by done. repeat case_decide; set_solver.
Qed.

Lemma foldr_delete_None {V} (m : gmap Z V) ks k :
  k ∈ ks → foldr delete m ks !! k = None.
Proof.
  induction ks as [|j ks IH]; [set_solver|]. simpl. intros Hk.
  destruct (decide (k = j)) as [->|]; [apply lookup_delete_eq|].
  rewrite lookup_delete_ne by done. apply IH. set_solver.
Qed.

(** Clearing visits every entry once, in some order. *)
Lemma Clear_all sm order :
  order ≡ₚ map_to_list (sessions sm) →
  sessions (Clear sm order) = ∅ ∧
  ∀ i q sq, Get_session sm i = Some q → sess_store sm !! q = Some sq →
    ∃ sq', sess_store (Clear sm order) !! q = Some sq' ∧ wiped sq'.
Proof.
  intros Ho. destruct (Clear_spec sm order) as [E1 E2].
  assert (∀ i q, sessions sm !! i = Some q → i ∈ order.*1 ∧ q ∈ order.*2) as Hin.
  { intros i q Hi. rewrite Ho.
    split; apply list_elem_of_fmap; exists (i, q); (split; [done|]); by apply elem_of_map_to_list. }
  split.
  - rewrite E1. apply map_empty. intros i.
    destruct (decide (i ∈ order.*1)) as [Hi|Hi]; [by apply foldr_delete_None|].
    apply eq_None_not_Some. intros [q Hq]. apply Hi, (Hin i q).
    revert Hq. clear. induction order.*1 as [|j js IH]; [done|]. simpl.
    rewrite lookup_delete_Some. naive_solver.
  - intros i q sq Hi Hq. exists (Wipe sq). split; [|done].
    rewrite E2, decide_True, Hq by by apply (Hin i q). done.
Qed.
End Table.

(** ** Properties *)

Section SessionProperties.
Context `{L : AeadLib, !AeadLaws L}.
Implicit Types (s : Session) (c : AEADCipher) (buf : PacketBuffer).

Lemma accepted_zip (f : Z → option (list byte)) vs (rx : list (Header * list byte)) :
  length vs = length rx →
  (∀ hp, hp ∈ rx → f (Counter hp.1) = Some hp.2) →
  omap (λ p, if p.1 : bool then Some p.2 else None) (zip vs (map snd rx)) =
  omap f (accepted vs (map (Counter ∘ fst) rx)).
Proof.
  revert vs. induction rx as [|[h p] rx IH]; intros [|v vs] Hlen Hf; try done.
  assert (f (Counter h) = Some p) as E by (apply (Hf (h, p)); set_solver).
  specialize (IH vs ltac:(simpl in Hlen; lia) ltac:(set_solver)).
  destruct v; simpl; [rewrite E; f_equal|]; exact IH.
Qed.

Lemma length_spec_all w seqs : length (spec_all w seqs).1 = length seqs.
Proof.
  revert w. induction seqs as [|x seqs IH]; intros w; [done|]. simpl.
  destruct (spec_check w x) as [v w']. specialize (IH w').
  destruct (spec_all w' seqs). simpl in *. congruence.
Qed.

Lemma NewSession_ok keys addr suite now s :
  NewSession keys addr suite now = Ok s →
  ∃ sc rc, NewAEADCipher suite (SendKey keys) = Ok sc ∧
    NewAEADCipher suite (RecvKey keys) = Ok rc ∧
    s = mkSession (SenderID keys) (PeerID keys) (Some sc) (Some rc) 0 zero_window addr now now.
Proof.
  unfold NewSession. destruct (NewAEADCipher suite (SendKey keys)); [|done].
  destruct (NewAEADCipher suite (RecvKey keys)); [|done]. intros [= <-]. eauto.
Qed.

(** What the layer above gets for the [i]-th packet sent. *)
Definition payload_of (pkts : list (PacketBuffer * (Z * Z))) (i : Z) : option (list byte) :=
  contents ∘ fst <$> pkts !! Z.to_nat i.

(** C23: the tunnel delivers.  Two sessions are made from key pairs that agree
    (the sender's send key is the receiver's receive key).  Any number of
    packets up to 2^64 is encrypted without an error.  Whatever subset of them
    then arrives, in whatever order and with whatever repetitions, the receiver
    does not panic and hands up exactly the payloads of the arrivals that the
    abstract replay window accepts, in the order they arrive. *)
Theorem tunnel_delivery now now' suite ka kb aa ab ta tb sa sb pkts :
  SendKey ka = RecvKey kb →
  NewSession ka aa suite ta = Ok sa → NewSession kb ab suite tb = Ok sb →
  0 ≤ PeerID ka < 2 ^ 32 → Forall sendable pkts → zlen pkts ≤ 2 ^ 64 →
  ∃ sa' sent, send_all now sa pkts = Ret (sa', sent) ∧
    ∀ (order : list nat) rx,
      Forall2 (λ i b, wf b ∧ ∃ p, sent !! i = Some (p, None) ∧ contents b = contents p)
        order rx →
      ∃ sb' outs, receive_all now' sb rx = Ret (sb', outs) ∧
        let arrivals := map Z.of_nat order in
        delivered outs =
          omap (payload_of pkts) (accepted (spec_all spec_zero arrivals).1 arrivals).
Proof.
  intros Hk Ha Hb Hid Hf Hn.
  apply NewSession_ok in Ha as (c & rc & Hc & _ & ->).
  apply NewSession_ok in Hb as (sc & c' & _ & Hc' & ->).
  rewrite Hk, Hc' in Hc. injection Hc as ->.
  destruct (send_all_ok now c pkts (mkSession (SenderID ka) (PeerID ka) (Some c) (Some rc) 0
    zero_window aa ta ta)) as (sa' & sent & Hs & Hlen & Hsent); try done.
  exists sa', sent. split; [done|]. intros order rx HF. simpl in Hsent.
  set (hdr := λ (i : nat), match pkts !! i with
    | Some (_, (t, f)) => mkHeader t f (PeerID ka) (Z.of_nat i)
    | None => mkHeader 0 0 0 0 end).
  set (rxs := map (λ i : nat, (hdr i, default [] (payload_of pkts (Z.of_nat i)))) order).
  assert (∀ (i : nat) p, sent !! i = Some (p, None) → ∃ b t f, pkts !! i = Some (b, (t, f)))
    as Hin.
  { intros i p Hi. apply lookup_lt_Some in Hi. rewrite Hlen in Hi.
    apply lookup_lt_is_Some_2 in Hi as [[b [t f]] ->]. eauto. }
  assert (map (Counter ∘ fst) rxs = map Z.of_nat order) as Hctr.
  { unfold rxs. rewrite map_map. apply map_ext_in. intros i Hi. simpl. unfold hdr.
    apply list_elem_of_In, list_elem_of_lookup in Hi as [k Hk'].
    destruct (Forall2_lookup_l _ _ _ _ _ HF Hk') as (b & _ & _ & p & Hp & _).
    by destruct (Hin i p Hp) as (? & ? & ? & ->). }
  destruct (receive_all_ok now' c rxs rx (mkSession (SenderID kb) (PeerID kb) (Some sc) (Some c)
    0 zero_window ab tb tb) spec_zero) as (sb' & outs & Hr & Hd);
    [done|apply zero_refines| |].
  - unfold rxs. apply Forall2_fmap_l. eapply Forall2_impl; [exact HF|].
    intros i b (Hwf & p & Hp & Hcont). split; [done|]. simpl.
    destruct (Hin i p Hp) as (b0 & t & f & Hpk).
    pose proof (lookup_lt_Some _ _ _ Hpk) as Hlt.
    destruct (Hsent i b0 t f Hpk) as (b1 & Hb1 & Hw).
    rewrite Hp in Hb1. injection Hb1 as <-.
    unfold hdr, payload_of. rewrite Nat2Z.id, Hpk. simpl. split; [|by rewrite Hcont, Hw].
    destruct (Forall_lookup_1 _ _ _ _ Hf Hpk) as (_ & _ & Ht & Hfl).
    simpl in Ht, Hfl. constructor; simpl; auto. unfold zlen in Hn. lia.
  - exists sb', outs. split; [done|]. cbv zeta. rewrite Hd, <- Hctr.
    apply accepted_zip; [by rewrite length_spec_all, length_map|].
    intros hp Hhp. unfold rxs in Hhp. apply list_elem_of_fmap in Hhp as (i & -> & Hi).
    apply list_elem_of_lookup in Hi as [k Hk'].
    destruct (Forall2_lookup_l _ _ _ _ _ HF Hk') as (b & _ & _ & p & Hp & _).
    destruct (Hin i p Hp) as (b0 & t & f & Hpk). simpl.
    unfold hdr. rewrite Hpk. simpl. unfold payload_of. by rewrite Nat2Z.id, Hpk.
Qed.

(** One call with a live cipher: no panic, one counter used, and on success a
    packet sealed under that counter. *)
Lemma EncryptPacket_any now s c buf t f :
  SendCipher s = Some c → u64_range (sendCounter s) → wf buf →
  ∃ s' buf' e, EncryptPacket now s buf t f = Ret (s', buf', e) ∧ SendCipher s' = Some c ∧
    sendCounter s' = u64 (sendCounter s + 1) ∧ RemoteIndex s' = RemoteIndex s ∧
    (e = None → ∃ p, contents buf' = wire_packet c (next_header s t f) p).
Proof.
  intros Hc Hctr Hwf. unfold EncryptPacket.
  cbn [set_counter sendCounter RemoteIndex SendCipher].
  rewrite counter_round by done. fold (next_header s t f).
  rewrite header_ad_ok. gsimpl. rewrite Hc.
  destruct (decide (Offset buf + Length buf + TagSize ≤ cap (Data buf))).
  - destruct (EncryptInPlace_ok c buf (sendCounter s) (header_bytes (next_header s t f)))
      as (b1 & -> & Hwf1 & Hc1 & _); [done..|]. gsimpl.
    destruct (decide (can_prepend b1)) as [Hp|Hp].
    + destruct (PrependHeader_ok b1 (next_header s t f) Hwf1 Hp) as (b2 & -> & _ & Hc2 & _).
      gsimpl. eexists _, _, _. split; [reflexivity|]. split_and!; try done.
      intros _. eexists. rewrite Hc2, Hc1. done.
    + rewrite PrependHeader_full by done. gsimpl. eexists _, _, _. by split_and!.
  - rewrite EncryptInPlace_full by lia. gsimpl. eexists _, _, _. by split_and!.
Qed.

Lemma send_all_any now c pkts s :
  SendCipher s = Some c → u64_range (sendCounter s) → Forall (wf ∘ fst) pkts →
  ∃ s' outs, send_all now s pkts = Ret (s', outs) ∧ length outs = length pkts ∧
    ∀ (i : nat) b, outs !! i = Some (b, None) →
      ∃ h p, contents b = wire_packet c h p ∧
        Counter h = u64 (sendCounter s + Z.of_nat i).
Proof.
  revert s. induction pkts as [|[b [t f]] pkts IH]; intros s Hc Hctr Hf.
  { eexists _, []. by repeat split. }
  apply Forall_cons in Hf as [Hwf Hf]. simpl in Hwf. simpl send_all.
  destruct (EncryptPacket_any now s c b t f Hc Hctr Hwf)
    as (s1 & b1 & e & -> & Hc1 & Hs1 & _ & Hp). gsimpl.
  destruct (IH s1 Hc1) as (s2 & outs & -> & Hlen & Hi); [rewrite Hs1; by apply wrap_range|done|].
  gsimpl. eexists _, _. split; [reflexivity|]. split; [simpl; congruence|].
  intros [|i] b' Hlk; simpl in Hlk.
  - injection Hlk as <- ->. destruct (Hp eq_refl) as [p Hcont].
    exists (next_header s t f), p. split; [done|]. simpl.
    rewrite Z.add_0_r. symmetry. by apply wrap_small.
  - destruct (Hi i b' Hlk) as (h & p & ? & Hh). exists h, p. split; [done|].
    rewrite Hh, Hs1, wrap_add_l. f_equal. lia.
Qed.

Lemma u64_add_inj (n i j : Z) :
  0 ≤ i < 2 ^ 64 → 0 ≤ j < 2 ^ 64 → u64 (n + i) = u64 (n + j) → i = j.
Proof.
  intros Hi Hj E. unfold wrap in E.
  assert ((i - j) mod 2 ^ 64 = 0) as Hm.
  { replace (i - j) with (n + i - (n + j)) by lia. rewrite Zminus_mod, E, Z.sub_diag. done. }
  apply Z.mod_divide in Hm as [q Hq]; [|lia]. lia.
Qed.

(** C27: no nonce is used twice.  Whatever the packets (some may be too large
    and be refused, and a refused packet uses up its counter too), whatever
    value the counter starts from, as long as a session is asked to encrypt at
    most 2^64 packets, it never panics and any two packets it produced are
    sealed under different nonces. *)
Theorem nonce_unique now c s pkts :
  SendCipher s = Some c → u64_range (sendCounter s) → Forall (wf ∘ fst) pkts →
  zlen pkts ≤ 2 ^ 64 →
  ∃ s' outs, send_all now s pkts = Ret (s', outs) ∧
    ∀ (i j : nat) bi bj, i ≠ j → outs !! i = Some (bi, None) → outs !! j = Some (bj, None) →
      ∃ hi pi hj pj, contents bi = wire_packet c hi pi ∧ contents bj = wire_packet c hj pj ∧
        EncodeNonce (Counter hi) ≠ EncodeNonce (Counter hj).
Proof.
  intros Hc Hctr Hf Hn. destruct (send_all_any now c pkts s Hc Hctr Hf)
    as (s' & outs & Hs & Hlen & Hout). exists s', outs. split; [done|].
  intros i j bi bj Hij Hi Hj.
  destruct (Hout i bi Hi) as (hi & pi & Hci & Hhi), (Hout j bj Hj) as (hj & pj & Hcj & Hhj).
  exists hi, pi, hj, pj. split_and!; [done..|]. intros E.
  apply lookup_lt_Some in Hi, Hj. unfold zlen in Hn.
  apply EncodeNonce_inj in E; [|rewrite Hhi|rewrite Hhj]; try (by apply wrap_range).
  rewrite Hhi, Hhj in E. apply u64_add_inj in E; lia.
Qed.

(** C24: the receiver is safe against any input.  Whatever well-formed buffers
    arrive at a fresh session (truncated, forged, replayed, reordered), nothing
    panics, every payload handed up was sealed by a holder of the key under the
    header its packet carried, and no two packets handed up share a counter. *)
Theorem tunnel_security now suite keys addr t s c bufs :
  NewSession keys addr suite t = Ok s → RecvCipher s = Some c → Forall wf bufs →
  ∃ s' outs, receive_all now s bufs = Ret (s', outs) ∧ length outs = length bufs ∧
    (∀ (i : nat) b b', bufs !! i = Some b → outs !! i = Some (b', None) →
       contents b = wire_packet c (packet_header b) (contents b')) ∧
    (∀ (i j : nat) bi bj bi' bj', bufs !! i = Some bi → bufs !! j = Some bj →
       outs !! i = Some (bi', None) → outs !! j = Some (bj', None) → i ≠ j →
       Counter (packet_header bi) ≠ Counter (packet_header bj)).
Proof.
  intros Hs Hc Hf. apply NewSession_ok in Hs as (sc & rc & _ & _ & ->).
  destruct (receive_all_any now c bufs _ spec_zero Hc Hf zero_refines)
    as (s' & outs & Hr & Hlen & Hauth & Hdist).
  exists s', outs. split_and!; try done.
  - intros i b b' Hi Ho. by destruct (Hauth i b b' Hi Ho).
  - intros i j bi bj bi' bj' Hi Hj Hoi Hoj Hij E.
    destruct (decide (i < j)%nat); [eapply (Hdist i j)|eapply (Hdist j i)]; eauto. lia.
Qed.

(** Forged packets block genuine ones.  The window moves before the packet
    is authenticated: a packet that carries a new counter and does not
    authenticate is refused, but from then on every packet whose counter is 128
    or more below the forged one is refused as a replay, whoever sent it. *)
Theorem forged_packet_blocks_tunnel now s c buf h :
  RecvCipher s = Some c → wf buf → u64_range (maxSeq (replay s)) → u64_range (Counter h) →
  maxSeq (replay s) < Counter h →
  (∀ p, contents buf ≠ Seal (cipher_aead c) (EncodeNonce (Counter h)) p (header_bytes h)) →
  ∃ s' buf' e, DecryptPacket now s buf h = Ret (s', buf', Some e) ∧
    ∀ now2 buf2 h2, u64_range (Counter h2) → Counter h2 + WindowSize ≤ Counter h →
      DecryptPacket now2 s' buf2 h2 = Ret (s', buf2, Some err_replayed).
Proof.
  intros Hc Hwf Hm Hh Hlt Hforged. unfold DecryptPacket at 1.
  rewrite CheckAndSet_forward by done. rewrite header_ad_ok. gsimpl.
  cbn [set_replay RecvCipher]. rewrite Hc. set (rw := mkWindow _ _ _).
  assert (∃ b e, DecryptInPlace (Some c) buf (Counter h) (header_bytes h) = Ret (b, Some e))
    as (b & e & ->).
  { destruct (decide (Length buf < TagSize)).
    { rewrite DecryptInPlace_short by done. eauto. }
    destruct (Open (cipher_aead c) (EncodeNonce (Counter h)) (contents buf) (header_bytes h))
      as [p|e] eqn:HO; [by apply Open_sound, Hforged in HO|].
    destruct (DecryptInPlace_bad c buf (Counter h) (header_bytes h) e) as (b & ? & _);
      [done|lia|done|]. eauto. }
  gsimpl. eexists _, _, _. split; [reflexivity|].
  intros now2 buf2 h2 Hh2 Hold. unfold DecryptPacket. cbn [replay].
  by rewrite CheckAndSet_old.
Qed.

(** The session table.  [Register] makes the session available under its
    local index and touches no other index.  [Remove] forgets the index and
    wipes the session, so that whoever still holds the pointer panics when it
    encrypts a packet that fits; other sessions keep their state.  [Clear]
    empties the table and wipes every session in it, in whatever order the map
    is visited. *)
Theorem session_table sm p s order :
  sess_store sm !! p = Some s → order ≡ₚ map_to_list (sessions sm) →
  (let sm' := Register sm p in
   Get_session sm' (LocalIndex s) = Some p ∧ sess_store sm' = sess_store sm ∧
   ∀ i, i ≠ LocalIndex s → Get_session sm' i = Get_session sm i) ∧
  (∀ index, Get_session sm index = Some p →
     let sm' := Remove sm index in
     Get_session sm' index = None ∧
     (∀ i, i ≠ index → Get_session sm' i = Get_session sm i) ∧
     (∀ q, q ≠ p → sess_store sm' !! q = sess_store sm !! q) ∧
     ∃ s', sess_store sm' !! p = Some s' ∧ wiped s' ∧
       ∀ now buf t f, wf buf → Offset buf + Length buf + TagSize ≤ cap (Data buf) →
         EncryptPacket now s' buf t f = Panic NilDeref) ∧
  (let sm' := Clear sm order in
   sessions sm' = ∅ ∧
   ∀ i q sq, Get_session sm i = Some q → sess_store sm !! q = Some sq →
     ∃ sq', sess_store sm' !! q = Some sq' ∧ wiped sq').
Proof.
  intros Hp Ho. split_and!.
  - unfold Register, Get_session. rewrite Hp. simpl. split_and!; [apply lookup_insert_eq|done|].
    intros i Hi. by rewrite lookup_insert_ne.
  - intros index Hi. unfold Remove. unfold Get_session in *. rewrite Hi. simpl.
    split_and!; [apply lookup_delete_eq|intros i Hne; by rewrite lookup_delete_ne| |].
    + intros q Hq. by rewrite lookup_alter_ne.
    + exists (Wipe s). rewrite lookup_alter_eq, Hp. split_and!; try done.
      intros now buf t f Hwf Hcap. by apply EncryptPacket_wiped.
  - by apply Clear_all.
Qed.
End SessionProperties.

(** ** Concrete sessions *)

Definition demo_keys : SessionKeys := mkSessionKeys (demo_key 3) (demo_key 200) 7 9.
Definition demo_keys' : SessionKeys := mkSessionKeys (demo_key 200) (demo_key 3) 9 7.
Definition demo_session (k : SessionKeys) : Session (L := toy_aead) :=
  mkSession (L := toy_aead) (SenderID k) (PeerID k)
    (Some (mkCipher (L := toy_aead) (SendKey k) 1))
    (Some (mkCipher (L := toy_aead) (RecvKey k) 1)) 0 zero_window None 5 5.
Definition demo_pkt (s : string) : PacketBuffer :=
  load (mkBuf (make_slice 64) 0 0) (bytes_of s).
Definition demo_pkts : list (PacketBuffer * (Z * Z)) :=
  [(demo_pkt "first", (3, 0)); (demo_pkt "second", (3, 0)); (demo_pkt "third", (3, 1))].
Definition demo_sent : list (PacketBuffer * option error) :=
  match send_all (L := toy_aead) 6 (demo_session demo_keys) demo_pkts with
  | Ret (_, outs) => outs
  | Panic _ => []
  end.
Definition demo_arrival (i : nat) : PacketBuffer :=
  match demo_sent !! i with Some (b, _) => b | None => demo_pkt "" end.

Ltac demo_wf := constructor; vm_compute; intuition discriminate.

Lemma demo_pkts_sendable : Forall sendable demo_pkts.
Proof.
  assert (∀ s t f, zlen (bytes_of s) ≤ 16 → 0 ≤ t < 256 → 0 ≤ f < 256 →
    sendable (demo_pkt s, (t, f))) as H.
  { intros s t f Hs Ht Hf. assert (cap (make_slice 64) = 64) as Hcap by done.
    assert (cap (Data (demo_pkt s)) = 64) as Hc
      by (unfold demo_pkt; simpl; by rewrite cap_copy_to by (unfold slice_wf; simpl; lia)).
    split; [apply load_wf; simpl; [unfold slice_wf; simpl; lia|done|lia]|].
    split; [|done]. unfold tunnel_room, HeaderSize, TagSize. cbn [fst]. rewrite Hc. simpl. lia. }
  repeat apply Forall_cons_2; [apply H; vm_compute; intuition discriminate..|constructor].
Qed.

Lemma demo_arrival_wf i : (i < 3)%nat → wf (demo_arrival i).
Proof. intros Hi. destruct i as [|[|[|i]]]; [demo_wf..|lia]. Qed.

Lemma demo_arrival_sent i :
  (i < 3)%nat →
  wf (demo_arrival i) ∧
  ∃ p, demo_sent !! i = Some (p, None) ∧ contents (demo_arrival i) = contents p.
Proof.
  intros Hi. split; [by apply demo_arrival_wf|]. exists (demo_arrival i). split; [|done].
  destruct i as [|[|[|i]]]; [vm_compute; reflexivity..|lia].
Qed.

Example tunnel_delivery_witness :
  ∃ sb outs, receive_all (L := toy_aead) 8 (demo_session demo_keys')
      (map demo_arrival [2; 0; 2; 1]%nat) = Ret (sb, outs) ∧
    delivered outs = map bytes_of ["third"; "first"; "second"]%string.
Proof.
  destruct (tunnel_delivery (L := toy_aead) 6 8 1 demo_keys demo_keys' None None 5 5
    (demo_session demo_keys) (demo_session demo_keys') demo_pkts)
    as (sa & sent & Hs & Hrx);
    [reflexivity|reflexivity|reflexivity|split; vm_compute; intuition discriminate
    |apply demo_pkts_sendable|vm_compute; discriminate|].
  assert (sent = demo_sent) as -> by (unfold demo_sent; rewrite Hs; reflexivity).
  destruct (Hrx [2; 0; 2; 1]%nat (map demo_arrival [2; 0; 2; 1]%nat)) as (sb & outs & Hr & Hd).
  - repeat apply Forall2_cons_2; [..|constructor]; apply demo_arrival_sent; lia.
  - exists sb, outs. split; [exact Hr|]. rewrite Hd. vm_compute. reflexivity.
Defined.

Example nonce_unique_witness :
  ∃ s outs, send_all (L := toy_aead) 6 (demo_session demo_keys) demo_pkts = Ret (s, outs) ∧
    length outs = 3%nat.
Proof.
  destruct (nonce_unique (L := toy_aead) 6 (mkCipher (L := toy_aead) (demo_key 3) 1)
    (demo_session demo_keys) demo_pkts) as (s & outs & Hs & _);
    [reflexivity|split; vm_compute; intuition discriminate| |vm_compute; discriminate|].
  - eapply Forall_impl; [apply demo_pkts_sendable|]. by intros x [? _].
  - exists s, outs. split; [exact Hs|].
    assert (outs = demo_sent) as -> by (unfold demo_sent; rewrite Hs; reflexivity).
    vm_compute. reflexivity.
Defined.

Example tunnel_security_witness :
  ∃ s outs, receive_all (L := toy_aead) 8 (demo_session demo_keys')
    [demo_arrival 1; demo_pkt "too short"; demo_arrival 1] = Ret (s, outs) ∧
    length outs = 3%nat.
Proof.
  destruct (tunnel_security (L := toy_aead) 8 1 demo_keys' None 5 (demo_session demo_keys')
    (mkCipher (L := toy_aead) (demo_key 3) 1)
    [demo_arrival 1; demo_pkt "too short"; demo_arrival 1]) as (s & outs & Hr & Hl & _).
  - reflexivity.
  - reflexivity.
  - constructor; [by apply demo_arrival_wf; lia|]. constructor; [demo_wf|].
    constructor; [by apply demo_arrival_wf; lia|constructor].
  - exists s, outs. split; [exact Hr|exact Hl].
Defined.

Example forged_packet_blocks_tunnel_witness :
  ∃ s buf e, DecryptPacket (L := toy_aead) 8 (demo_session demo_keys') (demo_pkt "forged")
      (mkHeader 3 0 9 (2 ^ 40)) = Ret (s, buf, Some e) ∧
    DecryptPacket (L := toy_aead) 9 s (demo_pkt "genuine") (mkHeader 3 0 9 0) =
      Ret (s, demo_pkt "genuine", Some err_replayed).
Proof.
  destruct (forged_packet_blocks_tunnel (L := toy_aead) 8 (demo_session demo_keys')
    (mkCipher (L := toy_aead) (demo_key 3) 1) (demo_pkt "forged") (mkHeader 3 0 9 (2 ^ 40)))
    as (s & b & e & HD & Hall).
  - reflexivity.
  - demo_wf.
  - split; vm_compute; intuition discriminate.
  - split; vm_compute; intuition discriminate.
  - reflexivity.
  - intros p E. apply (f_equal zlen) in E. rewrite Seal_length in E.
    unfold TagSize in E. pose proof (zlen_nonneg p). vm_compute zlen in E at 1. lia.
  - exists s, b, e. split; [exact HD|]. apply Hall.
    + split; vm_compute; intuition discriminate.
    + vm_compute. discriminate.
Defined.

Example session_table_witness :
  let sm := mkManager (L := toy_aead) {[1%positive := demo_session demo_keys]}
              {[7 := 1%positive]} in
  Get_session (Remove sm 7) 7 = None ∧ sessions (Clear sm [(7, 1%positive)]) = ∅.
Proof.
  destruct (session_table (L := toy_aead)
    (mkManager (L := toy_aead) {[1%positive := demo_session demo_keys]} {[7 := 1%positive]})
    1%positive (demo_session demo_keys) [(7, 1%positive)]) as (_ & HR & HC & _).
  - apply lookup_singleton_eq.
  - simpl. by rewrite map_to_list_singleton.
  - split; [|exact HC]. destruct (HR 7) as [Hn _]; [apply lookup_singleton_eq|exact Hn].
Defined.
