(* ===== verification/Address.v ===== *)
(** * Addresses and connection strings

    The string functions of Go's standard library the program uses, on byte
    lists; [net.SplitHostPort], [net.JoinHostPort] and [net.ParseIP]; and what the
    program builds from them: [sanitizeAddress] (cmd/ant-daemon/main.go), the
    address and server name of the TLS client (pkg/transport/tls.go) and
    [ParseURL] for ant:// connection strings (cmd/antclient/main.go). *)

From Stdlib Require Ascii.
From stdpp Require Import pretty.
From S2P Require Import Prelude.
Local Open Scope Z_scope.

(** A Go string: its bytes. *)
Abbreviation gostring := (list byte).

(** ** Package strings *)

Definition HasPrefix (s p : gostring) : bool := bool_decide (p `prefix_of` s).
Definition HasSuffix (s p : gostring) : bool := bool_decide (p `suffix_of` s).

(** [strings.Index] as an option. *)
Fixpoint Index (s p : gostring) : option nat :=
  if HasPrefix s p then Some O
  else match s with
       | [] => None
       | _ :: s => i ← Index s p; Some (S i)
       end.
Definition Contains (s p : gostring) : bool := bool_decide (is_Some (Index s p)).

(** [strings.LastIndexByte]. *)
Fixpoint LastIndexByte (s : gostring) (c : byte) : option nat :=
  match s with
  | [] => None
  | b :: s =>
      match LastIndexByte s c with
      | Some i => Some (S i)
      | None => if decide (b = c) then Some O else None
      end
  end.

(** [strings.Split] and [strings.ReplaceAll] for a separator of at least one
    byte; every round consumes at least one byte. *)
Fixpoint split_fuel (fuel : nat) (s sep : gostring) : list gostring :=
  match fuel with
  | O => [s]
  | S fuel =>
      match Index s sep with
      | None => [s]
      | Some i => take i s :: split_fuel fuel (drop (i + length sep) s) sep
      end
  end.
Definition Split (s sep : gostring) : list gostring := split_fuel (S (length s)) s sep.

Fixpoint join (parts : list gostring) (sep : gostring) : gostring :=
  match parts with
  | [] => []
  | [p] => p
  | p :: parts => p ++ sep ++ join parts sep
  end.
Definition ReplaceAll (s old new : gostring) : gostring := join (Split s old) new.

Definition TrimPrefix (s p : gostring) : gostring :=
  if HasPrefix s p then drop (length p) s else s.

(** The encodings of the characters [unicode.IsSpace] accepts. *)
Definition spaces : list gostring :=
  [[x09]; [x0a]; [x0b]; [x0c]; [x0d]; [x20]; [xc2; x85]; [xc2; xa0]; [xe1; x9a; x80];
   [xe2; x80; x80]; [xe2; x80; x81]; [xe2; x80; x82]; [xe2; x80; x83]; [xe2; x80; x84];
   [xe2; x80; x85]; [xe2; x80; x86]; [xe2; x80; x87]; [xe2; x80; x88]; [xe2; x80; x89];
   [xe2; x80; x8a]; [xe2; x80; xa8]; [xe2; x80; xa9]; [xe2; x80; xaf]; [xe2; x81; x9f];
   [xe3; x80; x80]].

Fixpoint trim_fuel (fuel : nat) (sps : list gostring) (s : gostring) : gostring :=
  match fuel with
  | O => s
  | S fuel =>
      match list_find (λ p, p `prefix_of` s) sps with
      | Some (_, p) => trim_fuel fuel sps (drop (length p) s)
      | None => s
      end
  end.
Definition TrimSpace (s : gostring) : gostring :=
  let s := trim_fuel (length s) spaces s in
  reverse (trim_fuel (length s) (map reverse spaces) (reverse s)).

(** ** Package net *)

Definition colon : byte := x3a.
Definition lbrack : byte := x5b.
Definition rbrack : byte := x5d.

Definition JoinHostPort (host port : gostring) : gostring :=
  if decide (colon ∈ host) then [lbrack] ++ host ++ [rbrack; colon] ++ port
  else host ++ [colon] ++ port.

Definition addr_error (why : string) : error := ErrStr "address error: %s" why.

(** Position of the first occurrence of a byte. *)
Definition IndexByte (s : gostring) (c : byte) : option nat := fst <$> list_find (λ b, b = c) s.

Definition SplitHostPort (hostport : gostring) : result (gostring * gostring) :=
  match LastIndexByte hostport colon with
  | None => Err (addr_error "missing port in address")
  | Some i =>
      let finish host j k : result (gostring * gostring) :=
        if decide (lbrack ∈ drop j hostport) then Err (addr_error "unexpected '[' in address")
        else if decide (rbrack ∈ drop k hostport) then Err (addr_error "unexpected ']' in address")
        else Ok (host, drop (S i) hostport) in
      if decide (hostport !! 0%nat = Some lbrack) then
        match IndexByte hostport rbrack with
        | None => Err (addr_error "missing ']' in address")
        | Some end_ =>
            if decide (S end_ = length hostport) then Err (addr_error "missing port in address")
            else if decide (S end_ = i) then finish (take (end_ - 1) (drop 1 hostport)) 1%nat (S end_)
            else if decide (hostport !! S end_ = Some colon) then
              Err (addr_error "too many colons in address")
            else Err (addr_error "missing port in address")
        end
      else
        let host := take i hostport in
        if decide (colon ∈ host) then Err (addr_error "too many colons in address")
        else finish host 0%nat 0%nat
  end.

(** ** IP addresses

    [net.IP]: four or sixteen bytes. *)
Definition IP := list byte.

(** [net.IP(b).String()] for four bytes. *)
Definition ip4_string (b : list byte) : string :=
  let d i := pretty (byte_to_Z (b !!! i)) in
  d 0%nat +:+ "." +:+ d 1%nat +:+ "." +:+ d 2%nat +:+ "." +:+ d 3%nat.

Definition v4_prefix : list byte := replicate 10 x00 ++ [xff; xff].

Definition To4 (ip : IP) : option IP :=
  if decide (length ip = 4%nat) then Some ip
  else if decide (length ip = 16%nat ∧ take 12 ip = v4_prefix) then Some (drop 12 ip)
  else None.

Definition IsLoopback (ip : IP) : bool :=
  match To4 ip with
  | Some ip4 => bool_decide (ip4 !! 0%nat = Some x7f)
  | None => bool_decide (ip = replicate 15 x00 ++ [x01])
  end.

(** One decimal field of an IPv4 literal: one to three digits, no leading zero,
    at most 255. *)
Definition digit (b : byte) : option Z :=
  let z := byte_to_Z b - 48 in if decide (0 ≤ z < 10) then Some z else None.
Definition parse_field (s : gostring) : option byte :=
  ds ← mapM digit s;
  let v := foldl (λ v d, 10 * v + d) 0 ds in
  if decide ((0 < length ds ≤ 3)%nat ∧ (head ds = Some 0 → length ds = 1%nat) ∧ v ≤ 255)
  then Some (byte_of_Z v) else None.
Definition parse_ip4 (s : gostring) : option IP :=
  bs ← mapM parse_field (Split s (bytes_of "."));
  if decide (length bs = 4%nat) then Some bs else None.

(** ** The program's functions *)

Definition default_port : gostring := bytes_of "8443".

(** The daemon's. *)
Definition sanitizeAddress (raw : gostring) : gostring :=
  let raw := TrimSpace raw in
  let raw := if Contains raw (bytes_of "::") && negb (HasPrefix raw (bytes_of "["))
             then ReplaceAll raw (bytes_of "::") (bytes_of ":") else raw in
  if HasSuffix raw (bytes_of ":") then raw ++ default_port
  else if negb (Contains raw (bytes_of ":")) then JoinHostPort raw default_port
  else raw.

(** The address [NewTLSClientTransport] dials: the two corrections are applied
    one after the other, where the daemon returns after the first. *)
Definition tls_dial_address (serverAddr : gostring) : gostring :=
  let a := TrimSpace serverAddr in
  let a := if Contains a (bytes_of "::") && negb (HasPrefix a (bytes_of "["))
           then ReplaceAll a (bytes_of "::") (bytes_of ":") else a in
  let a := if HasSuffix a (bytes_of ":") then a ++ default_port else a in
  if negb (Contains a (bytes_of ":")) then JoinHostPort a default_port else a.

(** The server name it sends. *)
Definition tls_server_name (serverAddr sni : gostring) : gostring :=
  if decide (sni = []) then
    match SplitHostPort (tls_dial_address serverAddr) with
    | Ok (host, _) => host
    | Err _ => tls_dial_address serverAddr
    end
  else sni.

Record ParsedURL := mkURL {
  url_pubKey : gostring;
  url_host : gostring;
  url_transportMode : gostring;
  url_sni : gostring
}.

(** One [key=value] pair of the query. *)
Definition query_pair (ms : gostring * gostring) (q : gostring) : gostring * gostring :=
  match Split q (bytes_of "=") with
  | [k; v] =>
      if decide (k = bytes_of "obfs") then (v, ms.2)
      else if decide (k = bytes_of "sni") then (ms.1, v)
      else ms
  | _ => ms
  end.

(** The host part is put in order by the same statements as in
    [NewTLSClientTransport]. *)
Definition ParseURL (url : gostring) : result ParsedURL :=
  if negb (HasPrefix url (bytes_of "ant://")) then
    Err (ErrNew "invalid URL scheme: must start with ant://")
  else
    let trimmed := TrimPrefix url (bytes_of "ant://") in
    match Split trimmed (bytes_of "@") with
    | [pubKey; rest] =>
        let '(hostPart, (transportMode, sni)) :=
          match Index rest (bytes_of "?") with
          | Some idx =>
              (take idx rest,
               foldl query_pair (bytes_of "tls", []) (Split (drop (S idx) rest) (bytes_of "&")))
          | None => (rest, (bytes_of "tls", []))
          end in
        Ok (mkURL pubKey (tls_dial_address hostPart) transportMode sni)
    | _ => Err (ErrNew "invalid URL format: expected ant://pubkey@host:port")
    end.

(** ** Facts about the string functions *)

Section StringFacts.
Implicit Types (s p a sep : gostring) (c : byte).

Lemma HasPrefix_true s p : HasPrefix s p = true ↔ p `prefix_of` s.
Proof. apply bool_decide_eq_true. Qed.

Lemma HasPrefix_app p s : HasPrefix (p ++ s) p = true.
Proof. apply HasPrefix_true. by exists s. Qed.

Lemma TrimPrefix_app p s : TrimPrefix (p ++ s) p = s.
Proof. unfold TrimPrefix. by rewrite HasPrefix_app, drop_app_length. Qed.

Lemma HasPrefix_head c p s : head s ≠ Some c → HasPrefix s (c :: p) = false.
Proof.
  intros Hs. apply bool_decide_eq_false. intros [k ->]. by apply Hs.
Qed.

Lemma Index_notin c p s : c ∉ s → Index s (c :: p) = None.
Proof.
  induction s as [|b s IH]; intros Hs; simpl; [done|].
  apply not_elem_of_cons in Hs as [Hb Hs].
  rewrite HasPrefix_head by (simpl; congruence). by rewrite IH.
Qed.

Lemma Index_app c p a (b : gostring) : c ∉ a → Index (a ++ (c :: p) ++ b) (c :: p) = Some (length a).
Proof.
  induction a as [|x a IH]; intros Ha.
  - pose proof (HasPrefix_app (c :: p) b) as H. simpl in *. by rewrite H.
  - apply not_elem_of_cons in Ha as [Hx Ha]. specialize (IH Ha). simpl in *.
    rewrite HasPrefix_head by (simpl; congruence). by rewrite IH.
Qed.

Lemma Contains_notin c p s : c ∉ s → Contains s (c :: p) = false.
Proof. intros Hs. unfold Contains. rewrite Index_notin by done. by apply bool_decide_eq_false_2, is_Some_None. Qed.

Lemma Contains_app c p a (b : gostring) : c ∉ a → Contains (a ++ (c :: p) ++ b) (c :: p) = true.
Proof. intros Ha. unfold Contains. by rewrite Index_app by done. Qed.

Lemma split_fuel_enough sep fuel s :
  sep ≠ [] → (length s < fuel)%nat → split_fuel fuel s sep = Split s sep.
Proof.
  intros Hsep. unfold Split.
  assert (∀ f1 f2 s, (length s < f1)%nat → (length s < f2)%nat →
    split_fuel f1 s sep = split_fuel f2 s sep) as Hall; [|intros; apply Hall; lia].
  clear fuel s. induction f1 as [|f1 IH]; intros [|f2] s H1 H2; try lia. simpl.
  destruct (Index s sep) as [i|] eqn:E; [|done]. f_equal.
  assert (s ≠ []) as Hs.
  { intros ->. destruct sep; [done|]. by rewrite Index_notin in E by apply not_elem_of_nil. }
  assert (0 < length s ∧ 0 < length sep)%nat by (destruct s, sep; simpl; (done || lia)).
  apply IH; rewrite length_drop; lia.
Qed.

Lemma Split_notin c p s : c ∉ s → Split s (c :: p) = [s].
Proof. intros Hs. unfold Split. simpl. by rewrite Index_notin. Qed.

Lemma Split_app c p a (b : gostring) :
  c ∉ a → Split (a ++ (c :: p) ++ b) (c :: p) = a :: Split b (c :: p).
Proof.
  intros Ha. unfold Split at 1. cbn [split_fuel]. rewrite Index_app by done.
  rewrite take_app_length. f_equal.
  rewrite <- drop_drop, drop_app_length, drop_app_length.
  apply split_fuel_enough; [done|]. rewrite !length_app. simpl. lia.
Qed.

Lemma LastIndexByte_notin c s : c ∉ s → LastIndexByte s c = None.
Proof.
  induction s as [|b s IH]; intros Hs; simpl; [done|].
  apply not_elem_of_cons in Hs as [Hb Hs]. rewrite IH by done. by rewrite decide_False.
Qed.

Lemma LastIndexByte_app c a (b : gostring) : c ∉ b → LastIndexByte (a ++ [c] ++ b) c = Some (length a).
Proof.
  intros Hb. induction a as [|x a IH].
  - simpl. rewrite LastIndexByte_notin by done. by rewrite decide_True.
  - simpl in *. by rewrite IH.
Qed.

Lemma IndexByte_app c a (b : gostring) : c ∉ a → IndexByte (a ++ [c] ++ b) c = Some (length a).
Proof.
  intros Ha. unfold IndexByte. rewrite list_find_app_r.
  - simpl. rewrite decide_True by done. simpl. f_equal.
  - apply list_find_None, Forall_forall. intros x Hx ->. done.
Qed.

(** Visible ASCII characters. *)
Definition graphic (b : byte) : bool := bool_decide (33 ≤ byte_to_Z b ≤ 126).

Lemma trim_none sps s :
  Forall (λ p, p ≠ [] ∧ head p ≠ head s) sps → trim_fuel (length s) sps s = s.
Proof.
  intros Hs. destruct s as [|b s]; [done|]. simpl trim_fuel.
  destruct (list_find _ sps) as [[i p]|] eqn:E; [|done].
  apply list_find_Some in E as (Hi & Hp & _).
  eapply Forall_lookup_1 in Hs as [Hn Hh]; [|exact Hi]. destruct Hp as [k Hk].
  destruct p as [|x p]; [done|]. injection Hk as -> _. done.
Qed.

Lemma spaces_head (b : byte) :
  graphic b = true → Forall (λ p, p ≠ [] ∧ head p ≠ Some b) (spaces ++ map reverse spaces).
Proof.
  intros Hb. apply bool_decide_eq_true in Hb. apply Forall_forall. intros p Hp.
  assert (match p with x :: _ => negb (graphic x) | [] => false end = true) as Hx.
  { revert p Hp. apply Forall_forall. vm_compute. repeat constructor. }
  destruct p as [|x p]; [done|]. split; [done|]. intros [= ->].
  unfold graphic in Hx. by rewrite bool_decide_eq_true_2 in Hx.
Qed.

Definition all_graphic s : Prop := Forall (λ b, graphic b = true) s.

Lemma trim_graphic sps s :
  all_graphic s → sps ⊆ spaces ++ map reverse spaces →
  trim_fuel (length s) sps s = s.
Proof.
  intros Hs Hsub. apply trim_none, Forall_forall. intros p Hp%Hsub. revert p Hp.
  apply Forall_forall. destruct s as [|b s].
  - vm_compute. repeat constructor; discriminate.
  - apply Forall_cons in Hs as [Hb _]. by apply spaces_head.
Qed.

Lemma TrimSpace_graphic s : all_graphic s → TrimSpace s = s.
Proof.
  intros Hs. unfold TrimSpace. rewrite (trim_graphic spaces) by (done || set_solver).
  rewrite <- length_reverse, trim_graphic, reverse_involutive; [done| |set_solver].
  by apply Forall_reverse.
Qed.

(** One separator is not two. *)
Lemma Contains_pair c a (b : gostring) :
  c ∉ a → c ∉ b → Contains (a ++ [c] ++ b) [c; c] = false.
Proof.
  intros Ha Hb. apply bool_decide_eq_false. induction a as [|x a IH].
  - simpl. rewrite Index_notin by done.
    assert (HasPrefix (c :: b) [c; c] = false) as ->; [|by intros [? ?]].
    apply bool_decide_eq_false. intros [k [= ->]]. set_solver.
  - apply not_elem_of_cons in Ha as [Hx Ha]. specialize (IH Ha). simpl in *.
    rewrite HasPrefix_head by (simpl; congruence).
    destruct (Index _ _); [|by intros [? ?]]. intros _. by apply IH.
Qed.

Lemma Contains_elem c s : c ∈ s → Contains s [c] = true.
Proof. intros (a & k & -> & Ha)%list_elem_of_split_l. by apply (Contains_app c [] a k). Qed.

Lemma HasSuffix_app s p : HasSuffix (s ++ p) p = true.
Proof. apply bool_decide_eq_true. by exists s. Qed.

Lemma HasSuffix_notin c s : c ∉ s → HasSuffix s [c] = false.
Proof. intros Hs. apply bool_decide_eq_false. intros [k ->]. apply Hs. set_solver. Qed.

Lemma HasSuffix_last s b c : b ≠ c → HasSuffix (s ++ [b]) [c] = false.
Proof.
  intros Hb. apply bool_decide_eq_false. intros [k E]. apply app_inj_tail in E as [_ ?]. done.
Qed.

Lemma HasSuffix_back s c k : k ≠ [] → c ∉ k → HasSuffix (s ++ k) [c] = false.
Proof.
  intros Hk Hc. destruct k as [|b k] using rev_ind; [done|]. rewrite app_assoc.
  apply HasSuffix_last. intros ->. apply Hc. set_solver.
Qed.
End StringFacts.

(** ** Properties *)

(** A host name, port, mode or server name: visible ASCII, no character with a
    meaning in an address or a connection string. *)
Definition reserved : list byte := bytes_of ":@?&=[]".
Record plain (s : gostring) : Prop := {
  plain_nonempty : s ≠ [];
  plain_graphic : all_graphic s;
  plain_free : Forall (λ b, b ∉ reserved) s
}.
Definition plainb (s : gostring) : bool :=
  bool_decide (s ≠ [] ∧ Forall (λ b, graphic b = true) s ∧ Forall (λ b, b ∉ reserved) s).

(** The separators as bytes. *)
Ltac colons :=
  change (bytes_of ":") with [colon]; change (bytes_of "::") with [colon; colon];
  change (bytes_of "[") with [lbrack].

Section AddressFacts.
Implicit Types (host port s : gostring).

Lemma plainb_plain s : plainb s = true → plain s.
Proof.
  intros (? & ? & ?)%bool_decide_eq_true. by constructor.
Qed.

Lemma plain_notin s c : plain s → c ∈ reserved → c ∉ s.
Proof. intros Hs Hc Hin. pose proof (plain_free s Hs) as Hf. rewrite Forall_forall in Hf. by eapply Hf. Qed.

Lemma colon_reserved : colon ∈ reserved.
Proof. by left. Qed.

Lemma byte_in (c : byte) s : bool_decide (c ∈ s) = true → c ∈ s.
Proof. apply bool_decide_eq_true. Qed.
Lemma byte_notin (c : byte) s : bool_decide (c ∈ s) = false → c ∉ s.
Proof. apply bool_decide_eq_false. Qed.
Lemma reserved_in c : bool_decide (c ∈ reserved) = true → c ∈ reserved.
Proof. apply bool_decide_eq_true. Qed.

Lemma port_free : plain default_port.
Proof. by apply plainb_plain. Qed.

Lemma graphic_colon : graphic colon = true.
Proof. done. Qed.

(** The two functions correct an address in the same way. *)
Lemma sanitize_dial s : sanitizeAddress s = tls_dial_address s.
Proof.
  unfold sanitizeAddress, tls_dial_address.
  generalize (if Contains (TrimSpace s) (bytes_of "::") &&
      negb (HasPrefix (TrimSpace s) (bytes_of "["))
    then ReplaceAll (TrimSpace s) (bytes_of "::") (bytes_of ":") else TrimSpace s) as a.
  intros a. destruct (HasSuffix a (bytes_of ":")) eqn:E; [|done].
  assert (Contains (a ++ default_port) (bytes_of ":") = true) as ->; [|done].
  apply (Contains_elem colon). apply bool_decide_eq_true in E as [k ->].
  apply elem_of_app. left. apply elem_of_app. right. by apply list_elem_of_singleton.
Qed.

(** The four ways to write a host. *)
Lemma all_graphic_app s k : all_graphic s → all_graphic k → all_graphic (s ++ k).
Proof. by apply Forall_app_2. Qed.

Lemma end_port host port :
  plain host → plain port →
  (if HasSuffix (host ++ [colon] ++ port) [colon] then (host ++ [colon] ++ port) ++ default_port
   else if negb (Contains (host ++ [colon] ++ port) [colon])
        then JoinHostPort (host ++ [colon] ++ port) default_port
        else host ++ [colon] ++ port) = host ++ [colon] ++ port.
Proof.
  intros Hh Hp. pose proof (plain_notin host colon Hh colon_reserved) as Hc.
  pose proof (plain_notin port colon Hp colon_reserved) as Hc'.
  rewrite (Contains_app colon [] host port) by done. rewrite app_assoc.
  by rewrite (HasSuffix_back (host ++ [colon]) colon port) by (apply Hp || done).
Qed.

Lemma sanitize_host host : plain host → sanitizeAddress host = host ++ [colon] ++ default_port.
Proof.
  intros Hh. pose proof (plain_notin host colon Hh colon_reserved) as Hc.
  unfold sanitizeAddress. colons. rewrite TrimSpace_graphic by apply Hh.
  rewrite (Contains_notin colon [colon]) by done. simpl andb. cbv iota.
  rewrite (HasSuffix_notin colon), (Contains_notin colon []) by done. simpl negb. cbv iota.
  unfold JoinHostPort. by rewrite decide_False.
Qed.

Lemma sanitize_port host port :
  plain host → plain port → sanitizeAddress (host ++ [colon] ++ port) = host ++ [colon] ++ port.
Proof.
  intros Hh Hp. pose proof (plain_notin host colon Hh colon_reserved) as Hc.
  pose proof (plain_notin port colon Hp colon_reserved) as Hc'.
  unfold sanitizeAddress. colons. rewrite TrimSpace_graphic
    by (apply all_graphic_app; [apply Hh|constructor; [done|apply Hp]]).
  assert (Contains (host ++ [colon] ++ port) [colon; colon] = false) as ->.
  { by apply (Contains_pair colon). }
  by apply end_port.
Qed.

Lemma sanitize_colon host : plain host → sanitizeAddress (host ++ [colon]) = host ++ [colon] ++ default_port.
Proof.
  intros Hh. pose proof (plain_notin host colon Hh colon_reserved) as Hc.
  unfold sanitizeAddress. colons. rewrite TrimSpace_graphic
    by (apply all_graphic_app; [apply Hh|by repeat constructor]).
  assert (Contains (host ++ [colon]) [colon; colon] = false) as ->
    by (apply (Contains_pair colon host []); [done|apply not_elem_of_nil]).
  cbn [andb]. by rewrite (HasSuffix_app host [colon]), <- app_assoc.
Qed.

(** A doubled colon in front of the port is one colon. *)
Lemma sanitize_double host port :
  plain host → plain port →
  sanitizeAddress (host ++ [colon; colon] ++ port) = host ++ [colon] ++ port.
Proof.
  intros Hh Hp. pose proof (plain_notin host colon Hh colon_reserved) as Hc.
  pose proof (plain_notin port colon Hp colon_reserved) as Hc'.
  unfold sanitizeAddress. colons. rewrite TrimSpace_graphic
    by (apply all_graphic_app; [apply Hh|repeat (constructor; [done|]); apply Hp]).
  rewrite (Contains_app colon [colon] host port) by done.
  rewrite HasPrefix_head by (destruct host as [|x host]; [done|]; simpl; intros [= ->];
    by eapply (plain_notin _ lbrack Hh); [apply reserved_in|left]).
  cbn [andb negb]. unfold ReplaceAll.
  rewrite (Split_app colon [colon] host port), (Split_notin colon [colon] port) by done.
  change (join [host; port] (bytes_of ":")) with (host ++ [colon] ++ port).
  by apply end_port.
Qed.

Lemma SplitHostPort_join host port :
  lbrack ∉ host → rbrack ∉ host → plain port →
  SplitHostPort (JoinHostPort host port) = Ok (host, port).
Proof.
  intros Hl Hr Hp. assert (colon ∉ port ∧ lbrack ∉ port ∧ rbrack ∉ port) as (Hpc & Hpl & Hpr).
  { split_and!; apply (plain_notin port _ Hp); by apply reserved_in. }
  unfold JoinHostPort, SplitHostPort. destruct (decide (colon ∈ host)) as [Hc|Hc].
  - set (hp := [lbrack] ++ host ++ [rbrack; colon] ++ port).
    assert (hp = (lbrack :: host ++ [rbrack]) ++ [colon] ++ port) as E1
      by (unfold hp; simpl; by rewrite <- app_assoc).
    assert (LastIndexByte hp colon = Some (length host + 2)%nat) as ->.
    { rewrite E1, LastIndexByte_app by done. f_equal. simpl. rewrite length_app. simpl. lia. }
    assert (IndexByte hp rbrack = Some (S (length host))) as ->.
    { apply (IndexByte_app rbrack (lbrack :: host) (colon :: port)).
      apply not_elem_of_cons. done. }
    assert (drop (S (S (length host))) hp = colon :: port) as Hd1.
    { rewrite E1, drop_app_length'; [done|]. simpl. rewrite length_app. simpl. lia. }
    assert (drop (S (length host + 2)) hp = port) as Hd2.
    { replace (S (length host + 2)) with (S (S (length host)) + 1)%nat by lia.
      by rewrite <- drop_drop, Hd1. }
    assert (length hp = length host + length port + 3)%nat as Hlen.
    { unfold hp. simpl. rewrite length_app. simpl. lia. }
    rewrite decide_True by done. rewrite decide_False by lia. rewrite decide_True by lia.
    rewrite Hd1, Hd2. replace (S (length host) - 1)%nat with (length host) by lia.
    change (drop 1 hp) with (host ++ [rbrack; colon] ++ port).
    rewrite decide_False by (rewrite !not_elem_of_app; set_solver).
    rewrite decide_False by set_solver. by rewrite take_app_length.
  - rewrite LastIndexByte_app by done. 
    assert ((host ++ [colon] ++ port) !! 0%nat ≠ Some lbrack) as Hn.
    { destruct host as [|x host]; simpl; intros [= E]. set_solver. }
    rewrite decide_False by done. rewrite take_app_length, decide_False by done.
    rewrite drop_0. rewrite !decide_False by (rewrite !not_elem_of_app, list_elem_of_singleton; done).
    f_equal. f_equal. replace (S (length host)) with (length host + 1)%nat by lia.
    by rewrite <- drop_drop, drop_app_length.
Qed.
End AddressFacts.

Section AddressProperties.
Implicit Types (host port pk mode sni : gostring).

Definition host_port host port : gostring := host ++ [colon] ++ port.

Lemma host_port_free host port c :
  plain host → plain port → c ∈ reserved → c ≠ colon → c ∉ host_port host port.
Proof.
  intros Hh Hp Hc Hne. pose proof (plain_notin host c Hh Hc). pose proof (plain_notin port c Hp Hc).
  unfold host_port. set_solver.
Qed.

Lemma JoinHostPort_plain host port : plain host → JoinHostPort host port = host_port host port.
Proof.
  intros Hh. unfold JoinHostPort. rewrite decide_False; [done|].
  apply plain_notin; [done|apply colon_reserved].
Qed.

Lemma Split_host_port host port :
  plain host → plain port → SplitHostPort (host_port host port) = Ok (host, port).
Proof.
  intros Hh Hp. rewrite <- JoinHostPort_plain by done.
  apply SplitHostPort_join; [by apply plain_notin, reserved_in..|done].
Qed.

(** C36: an address is understood however it is written.  The daemon and the TLS
    client correct every address in the same way; a host without a port, with a
    bare colon, with a port, and with a doubled colon in front of the port all
    become the host and port one dials, which split into their parts again; an
    IPv6 address in brackets is left alone.  An IPv6 address without brackets is
    changed into something else. *)
Theorem sanitizeAddress_forms host port :
  plain host → plain port →
  (∀ a, sanitizeAddress a = tls_dial_address a) ∧
  sanitizeAddress host = host_port host default_port ∧
  sanitizeAddress (host ++ [colon]) = host_port host default_port ∧
  sanitizeAddress (host_port host port) = host_port host port ∧
  sanitizeAddress (host ++ [colon; colon] ++ port) = host_port host port ∧
  SplitHostPort (host_port host port) = Ok (host, port) ∧
  (∀ v6, colon ∈ v6 → all_graphic v6 → lbrack ∉ v6 → rbrack ∉ v6 →
     let a := JoinHostPort v6 port in
     sanitizeAddress a = a ∧ SplitHostPort a = Ok (v6, port)) ∧
  sanitizeAddress (bytes_of "2001:db8::1") = bytes_of "2001:db8:1" ∧
  sanitizeAddress (bytes_of "::1") = bytes_of ":1".
Proof.
  intros Hh Hp. split_and!; [apply sanitize_dial|by apply sanitize_host|by apply sanitize_colon
    |by apply sanitize_port|by apply sanitize_double|by apply Split_host_port| |done|done].
  intros v6 Hc Hg Hl Hr a. split; [|by apply SplitHostPort_join].
  pose proof (plain_notin port colon Hp colon_reserved) as Hc'.
  assert (a = [lbrack] ++ v6 ++ [rbrack; colon] ++ port) as Ha
    by (unfold a, JoinHostPort; by rewrite decide_True).
  unfold sanitizeAddress. colons. rewrite TrimSpace_graphic.
  2:{ rewrite Ha. constructor; [done|]. apply all_graphic_app; [done|].
      repeat (constructor; [done|]). apply Hp. }
  rewrite Ha, (HasPrefix_app [lbrack]), andb_false_r.
  rewrite Contains_elem by set_solver.
  replace ([lbrack] ++ v6 ++ [rbrack; colon] ++ port)
    with (([lbrack] ++ v6 ++ [rbrack; colon]) ++ port) by (simpl; by rewrite <- app_assoc).
  by rewrite HasSuffix_back by (apply Hp || done).
Qed.

Lemma query_pair_obfs mode ms :
  plain mode → query_pair ms (bytes_of "obfs=" ++ mode) = (mode, ms.2).
Proof.
  intros Hm. unfold query_pair. change (bytes_of "obfs=" ++ mode) with (bytes_of "obfs" ++ [x3d] ++ mode).
  change (bytes_of "=") with [x3d]. rewrite Split_app, Split_notin; [done| |by apply byte_notin].
  by apply plain_notin, reserved_in.
Qed.

Lemma query_pair_sni sni ms :
  plain sni → query_pair ms (bytes_of "sni=" ++ sni) = (ms.1, sni).
Proof.
  intros Hm. unfold query_pair. change (bytes_of "sni=" ++ sni) with (bytes_of "sni" ++ [x3d] ++ sni).
  change (bytes_of "=") with [x3d]. rewrite Split_app, Split_notin; [done| |by apply byte_notin].
  by apply plain_notin, reserved_in.
Qed.

(** A connection string with a query. *)
Lemma ParseURL_query pk host query :
  x40 ∉ pk → x40 ∉ host → x40 ∉ query → x3f ∉ host →
  ParseURL (bytes_of "ant://" ++ pk ++ [x40] ++ host ++ [x3f] ++ query) =
    let ms := foldl query_pair (bytes_of "tls", []) (Split query (bytes_of "&")) in
    Ok (mkURL pk (tls_dial_address host) ms.1 ms.2).
Proof.
  intros H1 H2 H3 H4. unfold ParseURL. rewrite HasPrefix_app, TrimPrefix_app. cbn [negb].
  change (bytes_of "@") with [x40]. rewrite Split_app by done.
  rewrite Split_notin by (rewrite !not_elem_of_app, list_elem_of_singleton; done).
  change (bytes_of "?") with [x3f]. rewrite Index_app by done.
  rewrite take_app_length. replace (S (length host)) with (length host + 1)%nat by lia.
  rewrite <- drop_drop, drop_app_length. cbn [drop app].
  by destruct (foldl query_pair _ _).
Qed.

Lemma ParseURL_bare pk host :
  x40 ∉ pk → x40 ∉ host → x3f ∉ host →
  ParseURL (bytes_of "ant://" ++ pk ++ [x40] ++ host) =
    Ok (mkURL pk (tls_dial_address host) (bytes_of "tls") []).
Proof.
  intros H1 H2 H3. unfold ParseURL. rewrite HasPrefix_app, TrimPrefix_app. cbn [negb].
  change (bytes_of "@") with [x40]. rewrite Split_app, Split_notin by done.
  change (bytes_of "?") with [x3f]. by rewrite Index_notin.
Qed.

(** A connection string gives back what it was made of.  For a key without
    an at sign (so for every base64 key) and plain parts, parsing
    ant://key@host:port?obfs=mode&sni=name returns the key, the host with its
    port, the mode and the name; without a query the mode is tls, and without a
    port the port is 8443; a string without the scheme is refused. *)
Theorem ParseURL_parts pk host port mode sni :
  x40 ∉ pk → plain host → plain port → plain mode → plain sni →
  let base := bytes_of "ant://" ++ pk ++ [x40] ++ host in
  ParseURL (base ++ [colon] ++ port ++ bytes_of "?obfs=" ++ mode ++ bytes_of "&sni=" ++ sni) =
    Ok (mkURL pk (host_port host port) mode sni) ∧
  ParseURL base = Ok (mkURL pk (host_port host default_port) (bytes_of "tls") []) ∧
  ∀ url, ¬ bytes_of "ant://" `prefix_of` url → ∃ e, ParseURL url = Err e.
Proof.
  intros Hpk Hh Hp Hm Hs base.
  assert (∀ s c, plain s → bool_decide (c ∈ reserved) = true → c ∉ s) as Hfree.
  { intros s c Hs' Hc. by apply plain_notin, reserved_in. }
  split_and!.
  - replace (base ++ [colon] ++ port ++ bytes_of "?obfs=" ++ mode ++ bytes_of "&sni=" ++ sni)
      with (bytes_of "ant://" ++ pk ++ [x40] ++ host_port host port ++ [x3f] ++
            (bytes_of "obfs=" ++ mode) ++ [x26] ++ (bytes_of "sni=" ++ sni)).
    2:{ unfold base, host_port. rewrite <- !app_assoc. done. }
    assert (∀ c, bool_decide (c ∈ bytes_of "obfs=&sni=") = false → c ∉ mode → c ∉ sni →
      c ∉ (bytes_of "obfs=" ++ mode) ++ [x26] ++ (bytes_of "sni=" ++ sni)) as Hq.
    { intros c Hc%bool_decide_eq_false H1 H2. rewrite !not_elem_of_app.
      assert (bytes_of "obfs=&sni=" = bytes_of "obfs=" ++ [x26] ++ bytes_of "sni=") as Hb by done.
      rewrite Hb, !not_elem_of_app in Hc. tauto. }
    rewrite ParseURL_query; [|done|apply host_port_free; [done|done|by apply reserved_in|done]| |apply host_port_free; [done|done|by apply reserved_in|done]].
    2:{ apply Hq; [done|by apply Hfree..]. }
    change (bytes_of "&") with [x26]. rewrite Split_app, Split_notin.
    + cbn [foldl]. rewrite query_pair_obfs, query_pair_sni by done. cbv zeta. cbn [fst snd].
      rewrite <- sanitize_dial. unfold host_port. by rewrite sanitize_port.
    + pose proof (Hfree sni x26 Hs eq_refl). set_solver.
    + pose proof (Hfree mode x26 Hm eq_refl). set_solver.
  - unfold base. rewrite ParseURL_bare by (done || by apply Hfree).
    by rewrite <- sanitize_dial, sanitize_host.
  - intros url Hn. unfold ParseURL. assert (HasPrefix url (bytes_of "ant://") = false) as ->
      by by apply bool_decide_eq_false. by eexists.
Qed.
End AddressProperties.

Example sanitizeAddress_forms_witness :
  sanitizeAddress (bytes_of "vpn.example::443") = bytes_of "vpn.example:443" ∧
  SplitHostPort (bytes_of "[2001:db8::1]:443") = Ok (bytes_of "2001:db8::1", bytes_of "443").
Proof.
  destruct (sanitizeAddress_forms (bytes_of "vpn.example") (bytes_of "443"))
    as (_ & _ & _ & _ & Hd & _ & Hv6 & _); [apply plainb_plain; reflexivity..|].
  split; [exact Hd|].
  destruct (Hv6 (bytes_of "2001:db8::1")) as [_ Hs].
  - apply byte_in. reflexivity.
  - vm_compute. repeat constructor.
  - apply byte_notin. reflexivity.
  - apply byte_notin. reflexivity.
  - exact Hs.
Defined.

Example ParseURL_parts_witness :
  ParseURL (bytes_of "ant://a+b/c=@vpn.example:443?obfs=udp&sni=cdn.example") =
    Ok (mkURL (bytes_of "a+b/c=") (bytes_of "vpn.example:443") (bytes_of "udp")
          (bytes_of "cdn.example")).
Proof.
  destruct (ParseURL_parts (bytes_of "a+b/c=") (bytes_of "vpn.example") (bytes_of "443")
    (bytes_of "udp") (bytes_of "cdn.example")) as (Hq & _);
    [apply byte_notin; reflexivity|apply plainb_plain; reflexivity..|].
  exact Hq.
Defined.
