(* ===== verification/Transport.v ===== *)
(** * Transports (pkg/transport/transport.go, tls.go, websocket.go, udp.go)

    The interface [Transport] with what its clients rely on, and its three
    implementations: TLS with a two-byte length prefix and a decoy for probes,
    WebSocket messages, UDP datagrams.  The sockets are the interface [Net]; what
    the program writes is kept in a log.  A connection's incoming bytes are a list:
    how the stack cuts them into reads is invisible to [io.ReadFull]. *)

From Stdlib Require Ascii.
From stdpp Require Import pretty.
From S2P Require Import Prelude Buffer Wire Encoding Cipher Keys Noise Session.
Local Open Scope Z_scope.

Definition ModeUDP : string := "udp".
Definition ModeTLS : string := "tls".
Definition ModeWebSocket : string := "ws".

(** ** The network *)

(** A connection handle ([net.Conn], [*websocket.Conn]). *)
Definition conn := loc.

(** What was written, oldest first. *)
Abbreviation log := (list (conn * list byte)).

Class Net := {
  conn_remote : conn → Addr;
  (** [ws.RemoteAddr()] and [ws.Request().RemoteAddr]. *)
  ws_remote : conn → Addr;
  ws_request_addr : conn → string;
  (** [c.Write(b)] after the writes in the log: bytes written and error. *)
  conn_write : log → conn → list byte → Z * option error;
  (** [websocket.Message.Send(c, b)]. *)
  msg_send : log → conn → list byte → option error;
  (** [conn.WriteToUDP(b, addr)] and [net.ResolveUDPAddr("udp", s)]. *)
  udp_write : list (Addr * list byte) → list byte → Addr → Z * option error;
  resolve_udp : string → result Addr
}.

(** [io.Writer]: a write that reports no error has written everything. *)
Class NetLaws (N : Net) := {
  write_full h c b : (conn_write h c b).2 = None → (conn_write h c b).1 = zlen b
}.

(** The bytes a connection carries. *)
Definition stream_of (h : log) (c : conn) : list byte :=
  concat (map snd (filter (λ p, p.1 = c) h)).

(** ** The interface *)

(** The two operations the packet loops use.  [Receive] takes the branch the
    runtime picks when both the queue and the close signal are ready; [None] is a
    call that blocks. *)
Class Transport (T : Type) := {
  Send : T → PacketBuffer → option Addr → outcome (T * option error);
  Receive : bool → T → PacketBuffer → option (T * PacketBuffer * result Addr);
  Mode : T → string
}.

(** What the packet loops rely on: sending a well-formed buffer to an address
    does not panic; receiving into a pooled buffer gives a well-formed one, and
    keeps its storage. *)
Class TransportSend (T : Type) `{Transport T} := {
  Send_safe t buf a : wf buf → returns (Send t buf (Some a))
}.
Class TransportReceive (T : Type) `{Transport T} (inv : T → Prop) := {
  Receive_wf pick t buf t' buf' r n :
    inv t → 2048 ≤ n → pooled n buf → Receive pick t buf = Some (t', buf', Ok r) →
    wf buf' ∧ pooled n buf' ∧ inv t';
  Receive_err pick t buf t' buf' e n :
    inv t → pooled n buf → Receive pick t buf = Some (t', buf', Err e) →
    pooled n buf' ∧ inv t';
  Send_keeps t buf a t' e : inv t → Send t buf a = Ret (t', e) → inv t'
}.

(** What a message longer than the buffer leaves: a length the storage has not. *)
Definition overlong (b : PacketBuffer) : Prop :=
  slice_wf (Data b) ∧ Offset b = 0 ∧ cap (Data b) < Length b.

(** The weaker promise of a transport whose messages may be of any length:
    [over pick t] says that this [Receive] takes a message that does not fit. *)
Class TransportStorage (T : Type) `{Transport T} (inv : T → Prop) (over : bool → T → bool) := {
  Receive_stored pick t buf t' buf' r :
    inv t → pooled DefaultBufferSize buf → Receive pick t buf = Some (t', buf', r) →
    pooled DefaultBufferSize buf' ∧ inv t' ∧
    if over pick t then (∃ a, r = Ok a) ∧ overlong buf' else ∀ a, r = Ok a → wf buf';
  Send_stored t buf a t' e : inv t → Send t buf a = Ret (t', e) → inv t'
}.
#[global] Instance receive_storage {T} `{Transport T} inv :
  TransportReceive T inv → TransportStorage T inv (λ _ _, false).
Proof.
  intros HT. constructor.
  - intros pick t buf t' buf' [a|e] Ht Hp HR.
    + destruct (Receive_wf pick t buf t' buf' a _ Ht (Z.le_refl _) Hp HR) as (? & ? & ?).
      split_and!; [done..|]. by intros a' _.
    + destruct (Receive_err pick t buf t' buf' e _ Ht Hp HR) as [? ?]. by split_and!.
  - apply Send_keeps.
Qed.

(** ** TLS *)

Definition crlf : string := String (Ascii.ascii_of_nat 13) (String (Ascii.ascii_of_nat 10) EmptyString).

Definition DecoyHTML : string :=
  "<!DOCTYPE html><html><head><title>System Status</title></head><body><h1>Relay Service</h1><p>Node operational.</p></body></html>"
  +:+ crlf.

Definition decoy_response : list byte :=
  bytes_of ("HTTP/1.1 200 OK" +:+ crlf +:+ "Content-Type: text/html" +:+ crlf +:+
            "Content-Length: " +:+ pretty (zlen (bytes_of DecoyHTML)) +:+ crlf +:+
            "Connection: close" +:+ crlf +:+ crlf +:+ DecoyHTML).

Record incomingPacket := mkIncoming {
  in_addr : Addr;
  in_data : list byte
}.

Record TLSTransport := mkTLS {
  tls_isServer : bool;
  tls_clientConn : option conn;
  tls_connections : gmap string conn;
  tls_incoming : list incomingPacket;    (* the channel, capacity 1024 *)
  tls_closed : bool;
  tls_log : log
}.

(** [io.ReadFull(conn, buf[:n])] on the bytes still to come: on success the bytes
    and the rest; on failure everything that came was consumed. *)
Definition read_conn (n : Z) (stream : list byte) : option (list byte * list byte) :=
  if decide (n ≤ zlen stream) then Some (take (Z.to_nat n) stream, drop (Z.to_nat n) stream)
  else None.

Definition valid_length (n : Z) : bool := bool_decide (0 < n ∧ n ≤ DefaultBufferSize).

(** The framed read loop of both sides.  [open k] is false when the [k]-th
    packet finds the transport closed. *)
Fixpoint read_frames (fuel : nat) (open : nat → bool) (stream : list byte) : list (list byte) :=
  match fuel with
  | O => []
  | S fuel =>
      match read_conn 2 stream with
      | None => []
      | Some (lenBuf, stream) =>
          let length := le_decode lenBuf in
          if valid_length length then
            match read_conn length stream with
            | None => []
            | Some (data, stream) =>
                if open O then data :: read_frames fuel (λ k, open (S k)) stream else []
            end
          else []
      end
  end.

Definition clientReadLoop (open : nat → bool) (stream : list byte) : list (list byte) :=
  read_frames (length stream) open stream.

(** What the server makes of a connection. *)
Inductive conn_result :=
  | Dropped                            (* no header within the deadline *)
  | Decoy (response : list byte)
  | Tunnel (packets : list (list byte)).

Definition is_probe (header : list byte) : bool :=
  let b i := header !!! i in
  bool_decide (b 0%nat = x47 ∧ b 1%nat = x45) ||     (* GE *)
  bool_decide (b 0%nat = x50 ∧ b 1%nat = x4f) ||     (* PO *)
  bool_decide (b 0%nat = x48 ∧ b 1%nat = x45).       (* HE *)

Definition handleServerConn (open : nat → bool) (stream : list byte) : conn_result :=
  match read_conn 2 stream with
  | None => Dropped
  | Some (header, stream) =>
      if is_probe header then Decoy decoy_response
      else
        let pktLen := le_decode header in
        if valid_length pktLen then
          match read_conn pktLen stream with
          | Some (pktBuf, stream) => Tunnel (pktBuf :: read_frames (length stream) open stream)
          | None => Tunnel []
          end
        else Tunnel (read_frames (length stream) open stream)
  end.

(** Packets the connection puts into the queue. *)
Definition packets (r : conn_result) : list (list byte) :=
  match r with Tunnel ps => ps | _ => [] end.

Section TLS.
Context `{N : Net}.

Definition tls_write (t : TLSTransport) (c : conn) (b : list byte) : TLSTransport * option error :=
  let '(n, err) := conn_write (tls_log t) c b in
  (mkTLS (tls_isServer t) (tls_clientConn t) (tls_connections t) (tls_incoming t) (tls_closed t)
     (tls_log t ++ [(c, take (Z.to_nat n) b)]), err).

(** Two writes: the length prefix, then the packet. *)
Definition tls_send_on (t : TLSTransport) (c : conn) (buf : PacketBuffer)
    : outcome (TLSTransport * option error) :=
  let lenBuf := le_encode 2 (u16 (Length buf)) in
  let '(t, err) := tls_write t c lenBuf in
  match err with
  | Some e => Ret (t, Some e)
  | None => b ← Bytes buf; Ret (tls_write t c b)
  end.

Definition tls_Send (t : TLSTransport) (buf : PacketBuffer) (target : option Addr)
    : outcome (TLSTransport * option error) :=
  if negb (tls_isServer t) then
    match tls_clientConn t with
    | None => Ret (t, Some (ErrNew "tls client disconnected"))
    | Some c => tls_send_on t c buf
    end
  else
    match target with
    | None => Panic NilDeref
    | Some a =>
        match tls_connections t !! addr_string a with
        | None => Ret (t, Some (ErrStr "no active tls connection for target %s" (addr_string a)))
        | Some c => tls_send_on t c buf
        end
    end.

Definition tls_Receive (pick : bool) (t : TLSTransport) (buf : PacketBuffer)
    : option (TLSTransport * PacketBuffer * result Addr) :=
  match tls_incoming t with
  | pkt :: rest =>
      if tls_closed t && pick then Some (t, buf, Err (ErrNew "tls transport closed"))
      else
        Some (mkTLS (tls_isServer t) (tls_clientConn t) (tls_connections t) rest (tls_closed t)
                (tls_log t), load (Reset buf) (in_data pkt), Ok (in_addr pkt))
  | [] =>
      if tls_closed t then Some (t, buf, Err (ErrNew "tls transport closed")) else None
  end.

(** Registration, the queue and the end of a connection. *)
Definition tls_register (t : TLSTransport) (c : conn) : TLSTransport :=
  mkTLS (tls_isServer t) (tls_clientConn t)
    (<[addr_string (conn_remote c) := c]> (tls_connections t)) (tls_incoming t)
    (tls_closed t) (tls_log t).
Definition tls_unregister (t : TLSTransport) (c : conn) : TLSTransport :=
  mkTLS (tls_isServer t) (tls_clientConn t)
    (delete (addr_string (conn_remote c)) (tls_connections t)) (tls_incoming t)
    (tls_closed t) (tls_log t).
Definition tls_enqueue (t : TLSTransport) (c : conn) (data : list byte) : TLSTransport :=
  mkTLS (tls_isServer t) (tls_clientConn t) (tls_connections t)
    (tls_incoming t ++ [mkIncoming (conn_remote c) data]) (tls_closed t) (tls_log t).

(** [Close]: the connections it closes, in map order; a second call does nothing. *)
Definition tls_Close (t : TLSTransport) : TLSTransport * list conn :=
  if tls_closed t then (t, [])
  else
    (mkTLS (tls_isServer t) (tls_clientConn t) (tls_connections t) (tls_incoming t) true (tls_log t),
     if tls_isServer t then (map_to_list (tls_connections t)).*2
     else match tls_clientConn t with Some c => [c] | None => [] end).

#[global] Instance tls_transport : Transport TLSTransport := {|
  Send := tls_Send;
  Receive := tls_Receive;
  Mode := λ _, ModeTLS
|}.

(** ** WebSocket *)

Record WSTransport := mkWS {
  ws_isServer : bool;
  ws_clientConn : option conn;
  ws_connections : gmap string conn;
  ws_incoming : list incomingPacket;
  ws_closed : bool;
  ws_log : log
}.

(** Both read loops: empty messages are skipped. *)
Fixpoint ws_read (open : nat → bool) (msgs : list (list byte)) : list (list byte) :=
  match msgs with
  | [] => []
  | data :: msgs =>
      if decide (zlen data = 0) then ws_read open msgs
      else if open O then data :: ws_read (λ k, open (S k)) msgs
      else []
  end.

(** [handleWSConn] registers the connection, queues its messages, and at its end
    removes it. *)
Definition ws_register (t : WSTransport) (c : conn) : WSTransport :=
  mkWS (ws_isServer t) (ws_clientConn t) (<[ws_request_addr c := c]> (ws_connections t))
    (ws_incoming t) (ws_closed t) (ws_log t).
Definition ws_unregister (t : WSTransport) (c : conn) : WSTransport :=
  mkWS (ws_isServer t) (ws_clientConn t) (delete (ws_request_addr c) (ws_connections t))
    (ws_incoming t) (ws_closed t) (ws_log t).
Definition ws_enqueue (t : WSTransport) (c : conn) (data : list byte) : WSTransport :=
  mkWS (ws_isServer t) (ws_clientConn t) (ws_connections t)
    (ws_incoming t ++ [mkIncoming (ws_remote c) data]) (ws_closed t) (ws_log t).

Definition ws_send_on (t : WSTransport) (c : conn) (buf : PacketBuffer)
    : outcome (WSTransport * option error) :=
  b ← Bytes buf;
  let err := msg_send (ws_log t) c b in
  Ret (mkWS (ws_isServer t) (ws_clientConn t) (ws_connections t) (ws_incoming t) (ws_closed t)
         (match err with None => ws_log t ++ [(c, b)] | Some _ => ws_log t end), err).

Definition ws_Send (t : WSTransport) (buf : PacketBuffer) (target : option Addr)
    : outcome (WSTransport * option error) :=
  if negb (ws_isServer t) then
    match ws_clientConn t with
    | None => Ret (t, Some (ErrNew "ws client disconnected"))
    | Some c => ws_send_on t c buf
    end
  else
    match target with
    | None => Panic NilDeref
    | Some a =>
        match ws_connections t !! addr_string a with
        | None => Ret (t, Some (ErrStr "no active ws connection for %s" (addr_string a)))
        | Some c => ws_send_on t c buf
        end
    end.

Definition ws_Receive (pick : bool) (t : WSTransport) (buf : PacketBuffer)
    : option (WSTransport * PacketBuffer * result Addr) :=
  match ws_incoming t with
  | pkt :: rest =>
      if ws_closed t && pick then Some (t, buf, Err (ErrNew "ws transport closed"))
      else
        Some (mkWS (ws_isServer t) (ws_clientConn t) (ws_connections t) rest (ws_closed t)
                (ws_log t), load (Reset buf) (in_data pkt), Ok (in_addr pkt))
  | [] =>
      if ws_closed t then Some (t, buf, Err (ErrNew "ws transport closed")) else None
  end.

Definition ws_Close (t : WSTransport) : WSTransport * list conn :=
  if ws_closed t then (t, [])
  else
    (mkWS (ws_isServer t) (ws_clientConn t) (ws_connections t) (ws_incoming t) true (ws_log t),
     if ws_isServer t then (map_to_list (ws_connections t)).*2
     else match ws_clientConn t with Some c => [c] | None => [] end).

#[global] Instance ws_transport : Transport WSTransport := {|
  Send := ws_Send;
  Receive := ws_Receive;
  Mode := λ _, ModeWebSocket
|}.

(** ** UDP *)

Definition SocketBufferSize : Z := 4 * 1024 * 1024.

Record UDPTransport := mkUDP {
  udp_queue : list (Addr * list byte);       (* datagrams waiting in the socket *)
  udp_error : option error;                  (* the next read fails with this *)
  udp_closed : bool;
  udp_log : list (Addr * list byte)
}.

Definition err_closed : error := ErrNew "use of closed network connection".

(** The assertion that [target] is a UDPAddr pointer: the addresses of package net whose network is udp. *)
Definition as_udp (target : option Addr) : option Addr :=
  match target with
  | Some a => if decide (Network a = "udp"%string) then Some a else None
  | None => None
  end.

Definition udp_send_to (t : UDPTransport) (buf : PacketBuffer) (a : Addr)
    : outcome (UDPTransport * option error) :=
  b ← Bytes buf;
  let '(n, err) := if udp_closed t then (0, Some err_closed) else udp_write (udp_log t) b a in
  let t := match err with
           | None => mkUDP (udp_queue t) (udp_error t) (udp_closed t) (udp_log t ++ [(a, take (Z.to_nat n) b)])
           | Some _ => t end in
  match err with
  | Some e => Ret (t, Some e)
  | None => Ret (t, if decide (n ≠ Length buf) then Some (ErrNew "short udp write") else None)
  end.

Definition udp_Send (t : UDPTransport) (buf : PacketBuffer) (target : option Addr)
    : outcome (UDPTransport * option error) :=
  match as_udp target with
  | Some a => udp_send_to t buf a
  | None =>
      match target with
      | None => Panic NilDeref
      | Some a =>
          match resolve_udp (addr_string a) with
          | Err e => Ret (t, Some e)
          | Ok a => udp_send_to t buf a
          end
      end
  end.

(** [ReadFromUDP(buf.Data)]: a longer datagram is cut off. *)
Definition udp_Receive (pick : bool) (t : UDPTransport) (buf : PacketBuffer)
    : option (UDPTransport * PacketBuffer * result Addr) :=
  let buf := Reset buf in
  match (if udp_closed t then Some err_closed else udp_error t) with
  | Some e => Some (t, buf, Err e)
  | None =>
      match udp_queue t with
      | [] => None
      | (raddr, d) :: rest =>
          Some (mkUDP rest None (udp_closed t) (udp_log t),
                load buf (take (Z.to_nat (len (Data buf))) d), Ok raddr)
      end
  end.

Definition udp_Close (t : UDPTransport) : UDPTransport :=
  mkUDP (udp_queue t) (udp_error t) true (udp_log t).

#[global] Instance udp_transport : Transport UDPTransport := {|
  Send := udp_Send;
  Receive := udp_Receive;
  Mode := λ _, ModeUDP
|}.
End TLS.

(** ** Framing *)

Section Framing.
Definition frame (p : list byte) : list byte := le_encode 2 (zlen p) ++ p.
Definition frames (ps : list (list byte)) : list byte := concat (map frame ps).
Definition valid_packet (p : list byte) : Prop := 0 < zlen p ∧ zlen p ≤ DefaultBufferSize.

Lemma valid_length_spec n : valid_length n = true ↔ 0 < n ∧ n ≤ DefaultBufferSize.
Proof. unfold valid_length. by rewrite bool_decide_eq_true. Qed.

Lemma read_conn_Some n stream a b :
  0 ≤ n → read_conn n stream = Some (a, b) → stream = a ++ b ∧ zlen a = n.
Proof.
  unfold read_conn. intros Hn. case_decide; [|done]. intros [= <- <-].
  split; [by rewrite take_drop|]. unfold zlen in *. rewrite length_take. lia.
Qed.

Lemma read_conn_app n a b : zlen a = n → read_conn n (a ++ b) = Some (a, b).
Proof.
  intros Ha. unfold read_conn. rewrite decide_True
    by (rewrite zlen_app; pose proof (zlen_nonneg b); lia).
  rewrite take_app_length', drop_app_length' by (unfold zlen in Ha; lia). done.
Qed.

(** Reading from a connection that was cut off somewhere inside [a ++ b]. *)
Lemma read_conn_prefix n st a b :
  zlen a = n → st `prefix_of` a ++ b →
  read_conn n st = None ∨ ∃ st', read_conn n st = Some (a, st') ∧ st' `prefix_of` b.
Proof.
  intros Ha [k Hk]. unfold read_conn. case_decide as Hn; [right|by left].
  assert (take (Z.to_nat n) st = a) as ->.
  { apply (f_equal (take (Z.to_nat n))) in Hk.
    rewrite take_app_length' in Hk by (unfold zlen in Ha; lia).
    rewrite take_app_le in Hk by (unfold zlen in Hn; lia). done. }
  eexists. split; [done|]. exists k. apply (f_equal (drop (Z.to_nat n))) in Hk.
  rewrite drop_app_length' in Hk by (unfold zlen in Ha; lia).
  rewrite drop_app_le in Hk by (unfold zlen in Hn; lia). done.
Qed.

Lemma frame_length_valid p :
  valid_packet p → le_decode (le_encode 2 (zlen p)) = zlen p ∧ valid_length (zlen p) = true.
Proof.
  intros [H1 H2]. unfold DefaultBufferSize in H2. split; [|by apply valid_length_spec].
  apply le_decode_encode_small. simpl. lia.
Qed.

Lemma frames_cons p ps : frames (p :: ps) = le_encode 2 (zlen p) ++ p ++ frames ps.
Proof. change (frame p ++ frames ps = le_encode 2 (zlen p) ++ p ++ frames ps).
  unfold frame. by rewrite <- app_assoc.
Qed.

Lemma read_frames_prefix fuel open st ps :
  Forall valid_packet ps → st `prefix_of` frames ps → read_frames fuel open st `prefix_of` ps.
Proof.
  intros Hv. revert fuel open st. induction Hv as [|p ps Hp Hv IH]; intros [|fuel] open st Hst;
    simpl; try apply prefix_nil.
  - apply prefix_nil_inv in Hst as ->. done.
  - rewrite frames_cons in Hst. destruct (frame_length_valid p Hp) as [Hd Hl].
    destruct (read_conn_prefix 2 st _ _ (zlen_le_encode 2 _) Hst) as [->|(st1 & -> & H1)]; [apply prefix_nil|].
    rewrite Hd, Hl.
    destruct (read_conn_prefix (zlen p) st1 p _ eq_refl H1) as [->|(st2 & -> & H2)];
      [apply prefix_nil|].
    destruct (open 0%nat); [|apply prefix_nil]. by apply prefix_cons, IH.
Qed.

Lemma read_frames_all fuel open ps :
  Forall valid_packet ps → (∀ k, open k = true) → (length ps ≤ fuel)%nat →
  read_frames fuel open (frames ps) = ps.
Proof.
  intros Hv. revert fuel open. induction Hv as [|p ps Hp Hv IH]; intros [|fuel] open Ho Hf;
    simpl in *; try lia; try done.
  rewrite frames_cons. destruct (frame_length_valid p Hp) as [Hd Hl].
  rewrite read_conn_app by done. rewrite Hd, Hl. rewrite read_conn_app by done.
  rewrite Ho. f_equal. apply IH; [auto|lia].
Qed.

(** A frame of impossible length ends the loop; nothing after it is read. *)
Lemma read_frames_bad fuel open ps bad rest :
  Forall valid_packet ps → (∀ k, open k = true) → (length ps ≤ fuel)%nat →
  0 ≤ bad < 2 ^ 16 → valid_length bad = false →
  read_frames fuel open (frames ps ++ le_encode 2 bad ++ rest) = ps.
Proof.
  intros Hv Ho Hf Hb Hbad. revert fuel open Ho Hf. induction Hv as [|p ps Hp Hv IH]; intros [|fuel] open Ho Hf;
    simpl in Hf; try lia; try done.
  - change (frames [] ++ le_encode 2 bad ++ rest) with (le_encode 2 bad ++ rest). cbn [read_frames].
    rewrite read_conn_app by done. rewrite le_decode_encode_small by (simpl; lia). by rewrite Hbad.
  - rewrite frames_cons, <- !app_assoc. destruct (frame_length_valid p Hp) as [Hd Hl]. cbn [read_frames].
    rewrite read_conn_app by done. rewrite Hd, Hl. rewrite read_conn_app by done.
    rewrite Ho. f_equal. apply IH; [auto|lia].
Qed.

Lemma length_frames ps : (length ps ≤ length (frames ps))%nat.
Proof.
  induction ps as [|p ps IH]; [done|]. rewrite frames_cons, !length_app, length_le_encode.
  simpl. lia.
Qed.

(** Whatever the bytes, the packets read have a valid length, and the fuel is
    enough: more of it changes nothing. *)
Lemma read_frames_valid fuel open st : Forall valid_packet (read_frames fuel open st).
Proof.
  revert open st. induction fuel as [|fuel IH]; intros open st; simpl; [constructor|].
  destruct (read_conn 2 st) as [[lb st1]|] eqn:E1; [|constructor].
  destruct (valid_length (le_decode lb)) eqn:Ev; [|constructor].
  destruct (read_conn (le_decode lb) st1) as [[d st2]|] eqn:E2; [|constructor].
  destruct (open 0%nat); [|constructor]. constructor; [|apply IH].
  apply valid_length_spec in Ev. apply read_conn_Some in E2 as [_ Hd]; [|lia].
  unfold valid_packet. by rewrite Hd.
Qed.

Lemma read_frames_fuel f1 f2 open st :
  (length st ≤ f1)%nat → (length st ≤ f2)%nat →
  read_frames f1 open st = read_frames f2 open st.
Proof.
  revert f2 open st. induction f1 as [|f1 IH]; intros f2 open st H1 H2.
  { destruct st; [|simpl in H1; lia]. by destruct f2. }
  destruct f2 as [|f2]; [destruct st; [done|simpl in H2; lia]|]. simpl.
  destruct (read_conn 2 st) as [[lb st1]|] eqn:E1; [|done].
  destruct (valid_length (le_decode lb)) eqn:Ev; [|done].
  destruct (read_conn (le_decode lb) st1) as [[d st2]|] eqn:E2; [|done].
  destruct (open 0%nat); [|done]. f_equal.
  apply valid_length_spec in Ev. apply read_conn_Some in E1 as [-> Hlb]; [|lia].
  apply read_conn_Some in E2 as [-> Hd]; [|lia].
  unfold zlen in *. rewrite !length_app in *. apply IH; lia.
Qed.

(** The length prefix of a valid packet is never taken for a probe. *)
Lemma frame_not_probe p : valid_packet p → is_probe (le_encode 2 (zlen p)) = false.
Proof.
  intros [H1 H2]. unfold DefaultBufferSize in H2. unfold is_probe.
  assert (byte_to_Z (le_encode 2 (zlen p) !!! 1%nat) ≤ 8) as Hb.
  { change (byte_to_Z (byte_of_Z (zlen p / 256)) ≤ 8). rewrite byte_to_of_Z.
    assert (zlen p / 256 ≤ 8) by (apply Z.div_le_upper_bound; lia).
    assert (0 ≤ zlen p / 256) by (apply Z.div_pos; lia).
    rewrite Z.mod_small; lia. }
  rewrite !bool_decide_eq_false_2; [done|..]; intros [_ E]; rewrite E in Hb;
    vm_compute in Hb; by apply Hb.
Qed.

Lemma handleServerConn_frames open p ps :
  Forall valid_packet (p :: ps) → (∀ k, open k = true) →
  handleServerConn open (frames (p :: ps)) = Tunnel (p :: ps).
Proof.
  intros [Hp Hps]%Forall_cons Ho. unfold handleServerConn. rewrite frames_cons.
  rewrite read_conn_app by done. rewrite frame_not_probe by done.
  destruct (frame_length_valid p Hp) as [-> ->]. rewrite read_conn_app by done.
  by rewrite read_frames_all by (done || apply length_frames).
Qed.

Lemma handleServerConn_prefix open st ps :
  Forall valid_packet ps → st `prefix_of` frames ps →
  packets (handleServerConn open st) `prefix_of` ps.
Proof.
  intros Hv Hst. unfold handleServerConn. destruct ps as [|p ps].
  { apply prefix_nil_inv in Hst as ->. apply prefix_nil. }
  apply Forall_cons in Hv as [Hp Hv]. rewrite frames_cons in Hst.
  destruct (frame_length_valid p Hp) as [Hd Hl].
  destruct (read_conn_prefix 2 st _ _ (zlen_le_encode 2 _) Hst) as [->|(st1 & -> & H1)]; [apply prefix_nil|].
  rewrite frame_not_probe, Hd, Hl by done.
  destruct (read_conn_prefix (zlen p) st1 p _ eq_refl H1) as [->|(st2 & -> & H2)];
    simpl; [apply prefix_nil|]. by apply prefix_cons, read_frames_prefix.
Qed.

Lemma handleServerConn_valid open st : Forall valid_packet (packets (handleServerConn open st)).
Proof.
  unfold handleServerConn. destruct (read_conn 2 st) as [[h st1]|] eqn:E1; [|constructor].
  destruct (is_probe h); [constructor|].
  destruct (valid_length (le_decode h)) eqn:Ev; [|apply read_frames_valid].
  destruct (read_conn (le_decode h) st1) as [[d st2]|] eqn:E2; [|constructor].
  simpl. constructor; [|apply read_frames_valid].
  apply valid_length_spec in Ev. apply read_conn_Some in E2 as [_ Hd]; [|lia].
  unfold valid_packet. by rewrite Hd.
Qed.
End Framing.

(** ** The implementations keep the promises of the interface *)

Section Promises.
Context `{N : Net}.

Lemma tls_send_on_returns t c buf : wf buf → returns (tls_send_on t c buf).
Proof.
  intros Hwf. unfold tls_send_on, returns. destruct (tls_write t c _) as [t1 [e|]]; [eauto|].
  rewrite Bytes_wf by done. gsimpl. eauto.
Qed.

#[global] Instance tls_send_safe : TransportSend TLSTransport.
Proof.
  constructor. intros t buf a Hwf. simpl. unfold tls_Send.
  destruct (negb (tls_isServer t)).
  - destruct (tls_clientConn t); [by apply tls_send_on_returns|eexists; done].
  - destruct (tls_connections t !! addr_string a); [by apply tls_send_on_returns|eexists; done].
Qed.

#[global] Instance ws_send_safe : TransportSend WSTransport.
Proof.
  assert (∀ t c buf, wf buf → returns (ws_send_on t c buf)) as Hon.
  { intros t c buf Hwf. unfold ws_send_on. rewrite Bytes_wf by done. eexists. reflexivity. }
  constructor. intros t buf a Hwf. simpl. unfold ws_Send.
  destruct (negb (ws_isServer t)).
  - destruct (ws_clientConn t); [by apply Hon|eexists; done].
  - destruct (ws_connections t !! addr_string a); [by apply Hon|eexists; done].
Qed.

#[global] Instance udp_send_safe : TransportSend UDPTransport.
Proof.
  assert (∀ t buf a, wf buf → returns (udp_send_to t buf a)) as Hto.
  { intros t buf a Hwf. unfold udp_send_to. rewrite Bytes_wf by done. gsimpl.
    destruct (if udp_closed t then _ else _) as [n [e|]]; eexists; reflexivity. }
  constructor. intros t buf a Hwf. simpl. unfold udp_Send.
  destruct (as_udp (Some a)); [by apply Hto|].
  destruct (resolve_udp (addr_string a)); [by apply Hto|eexists; done].
Qed.

(** Loading into a pooled buffer what fits. *)
Lemma pooled_load n buf d :
  0 ≤ n → pooled n buf → zlen d ≤ n →
  wf (load (Reset buf) d) ∧ pooled n (load (Reset buf) d) ∧ contents (load (Reset buf) d) = d.
Proof.
  intros Hn [Hl Hc] Hd. assert (slice_wf (Data (Reset buf))) as Hs
    by (unfold slice_wf; simpl; lia).
  split_and!; [apply load_wf; simpl; (done || lia)| |apply load_contents; simpl; (done || lia)].
  split; simpl; [done|]. by rewrite cap_copy_to.
Qed.

(** The queue of a TLS transport holds packets of valid length only. *)
Definition tls_queue_valid (t : TLSTransport) : Prop :=
  Forall (λ p, valid_packet (in_data p)) (tls_incoming t).

(** Sending leaves the queue alone. *)
Lemma tls_send_on_incoming t c buf t' e :
  tls_send_on t c buf = Ret (t', e) → tls_incoming t' = tls_incoming t.
Proof.
  unfold tls_send_on, tls_write. destruct (conn_write _ _ _) as [n [e1|]].
  { by intros [= <- _]. }
  destruct (Bytes buf) as [b|]; [|done]. simpl.
  destruct (conn_write _ _ _) as [n2 e2]. by intros [= <- _].
Qed.

#[global] Instance tls_receive_safe : TransportReceive TLSTransport tls_queue_valid.
Proof.
  constructor.
  - intros pick t buf t' buf' r n Hq Hn Hp. simpl. unfold tls_Receive.
    unfold tls_queue_valid in Hq. destruct (tls_incoming t) as [|pkt rest].
    { by destruct (tls_closed t). }
    apply Forall_cons in Hq as [[_ Hv] Hq].
    destruct (tls_closed t && pick); [done|]. intros [= <- <- _].
    unfold DefaultBufferSize in Hv.
    destruct (pooled_load n buf (in_data pkt)) as (? & ? & _); [lia|done|lia|]. done.
  - intros pick t buf t' buf' e n Hq Hp. simpl. unfold tls_Receive.
    destruct (tls_incoming t) as [|pkt rest].
    { destruct (tls_closed t); [|done]. by intros [= <- <- _]. }
    destruct (tls_closed t && pick); [|done]. by intros [= <- <- _].
  - intros t buf a t' e Hq. simpl. unfold tls_Send, tls_queue_valid in *.
    destruct (negb (tls_isServer t)).
    + destruct (tls_clientConn t); [|by intros [= <- _]].
      by intros ->%tls_send_on_incoming.
    + destruct a as [a|]; [|done]. destruct (tls_connections t !! _); [|by intros [= <- _]].
      by intros ->%tls_send_on_incoming.
Qed.

(** A WebSocket message may be longer than a buffer. *)
Definition ws_over (pick : bool) (t : WSTransport) : bool :=
  match ws_incoming t with
  | pkt :: _ => negb (ws_closed t && pick) && bool_decide (DefaultBufferSize < zlen (in_data pkt))
  | [] => false
  end.

Lemma load_overlong n buf d : pooled n buf → 0 ≤ n < zlen d → overlong (load (Reset buf) d).
Proof.
  intros [Hl Hc] Hd. assert (slice_wf (Data buf)) as Hs by (unfold slice_wf; lia).
  split_and!; simpl; [by apply slice_wf_copy_to|done|]. rewrite cap_copy_to, Hc by done. lia.
Qed.

(** No byte of such a buffer can be had. *)
Lemma overlong_Bytes b : overlong b → Bytes b = Panic SliceBounds.
Proof.
  intros (_ & Ho & Hl). unfold Bytes, slice_expr. by rewrite Ho, decide_False by lia.
Qed.
Lemma overlong_StripHeader b :
  overlong b → HeaderSize ≤ cap (Data b) → StripHeader b = Panic SliceBounds.
Proof.
  intros (_ & Ho & Hl) Hh. unfold StripHeader, subslice, slice_expr.
  by rewrite Ho, decide_False, decide_False by lia.
Qed.

#[global] Instance ws_receive_storage : TransportStorage WSTransport (λ _, True) ws_over.
Proof.
  constructor; [|done]. intros pick t buf t' buf' r _ Hp. simpl. unfold ws_Receive, ws_over.
  destruct (ws_incoming t) as [|pkt rest].
  { destruct (ws_closed t); [|done]. by intros [= <- <- <-]. }
  destruct (ws_closed t && pick); simpl; [by intros [= <- <- <-]|].
  intros [= <- <- <-]. case_bool_decide as Hd.
  - split; [|split; [done|split; [by eexists|]]].
    + destruct Hp as [Hl Hc]. split; simpl; [done|]. rewrite cap_copy_to; [done|].
      unfold slice_wf, DefaultBufferSize in *. simpl. lia.
    + by apply (load_overlong DefaultBufferSize).
  - destruct (pooled_load DefaultBufferSize buf (in_data pkt)) as (? & ? & _); [done|done|lia|].
    split_and!; [done..|]. by intros a _.
Qed.

#[global] Instance udp_receive_safe : TransportReceive UDPTransport (λ _, True).
Proof.
  constructor; [| |done].
  - intros pick t buf t' buf' r n _ Hn Hp. simpl. unfold udp_Receive.
    destruct (if udp_closed t then _ else _); [done|]. destruct (udp_queue t) as [|[a d] rest]; [done|].
    intros [= <- <- _]. destruct (pooled_load n buf (take (Z.to_nat (len (Data buf))) d))
      as (? & ? & _); [lia|done| |done].
    destruct Hp as [-> _]. unfold zlen. rewrite length_take. lia.
  - intros pick t buf t' buf' e n _ Hp. simpl. unfold udp_Receive.
    destruct (if udp_closed t then _ else _); [by intros [= <- <- _]|]. by destruct (udp_queue t) as [|[]].
Qed.
End Promises.

(** ** Connections of a TLS server

    The accept loop and the connection handlers as steps: a connection is
    registered, puts packets of its stream into the queue, and ends; the packet
    loop takes packets out; [Close] may come at any time. *)

Section Connections.
Context `{N : Net}.

Inductive tls_step : TLSTransport * gset conn → TLSTransport * gset conn → Prop :=
  | step_accept t live c :
      c ∉ live →
      (∀ c', c' ∈ live → addr_string (conn_remote c') ≠ addr_string (conn_remote c)) →
      tls_step (t, live) (tls_register t c, {[c]} ∪ live)
  | step_packet t live c st open p :
      c ∈ live → p ∈ packets (handleServerConn open st) → (length (tls_incoming t) < 1024)%nat →
      tls_step (t, live) (tls_enqueue t c p, live)
  | step_end t live c :
      c ∈ live → tls_step (t, live) (tls_unregister t c, live ∖ {[c]})
  | step_receive t live pick buf t' buf' r :
      tls_Receive pick t buf = Some (t', buf', r) → tls_step (t, live) (t', live)
  | step_close t live : tls_step (t, live) ((tls_Close t).1, live).

Record tls_inv (t : TLSTransport) (live : gset conn) : Prop := {
  tls_inv_queue : tls_queue_valid t;
  tls_inv_size : (length (tls_incoming t) ≤ 1024)%nat;
  tls_inv_table : ∀ a c, tls_connections t !! a = Some c ↔
                    c ∈ live ∧ addr_string (conn_remote c) = a
}.

Lemma tls_inv_accept t live c :
  tls_inv t live → c ∉ live →
  (∀ c', c' ∈ live → addr_string (conn_remote c') ≠ addr_string (conn_remote c)) →
  tls_inv (tls_register t c) ({[c]} ∪ live).
Proof.
  intros [Hq Hs Ht] Hc Hd. constructor; try done. intros a c'. simpl.
  rewrite elem_of_union, elem_of_singleton.
  destruct (decide (a = addr_string (conn_remote c))) as [->|Ha].
  - rewrite lookup_insert_eq. split; [intros [= <-]; auto|]. intros [[->|Hl] E]; [done|].
    by apply Hd in Hl.
  - rewrite lookup_insert_ne by done. rewrite Ht. naive_solver.
Qed.

Lemma tls_inv_end t live c :
  tls_inv t live → c ∈ live → tls_inv (tls_unregister t c) (live ∖ {[c]}).
Proof.
  intros [Hq Hs Ht] Hc. constructor; try done. intros a c'. simpl.
  rewrite lookup_delete_Some, Ht, elem_of_difference, elem_of_singleton.
  split; [naive_solver|]. intros [[Hl Hne] <-]. split; [|done]. intros E. apply Hne.
  assert (tls_connections t !! addr_string (conn_remote c) = Some c) as H1 by by apply Ht.
  assert (tls_connections t !! addr_string (conn_remote c) = Some c') as H2 by by apply Ht.
  congruence.
Qed.

Lemma tls_inv_step t live t' live' :
  tls_inv t live → tls_step (t, live) (t', live') → tls_inv t' live'.
Proof.
  intros Hinv Hstep. inversion Hstep; subst.
  - by apply tls_inv_accept.
  - destruct Hinv as [Hq Hs Ht]. constructor; try done; simpl.
    + apply Forall_app. split; [done|]. constructor; [|constructor]. simpl.
      eapply Forall_forall; [apply handleServerConn_valid|done].
    + rewrite length_app. simpl. lia.
  - by apply tls_inv_end.
  - destruct Hinv as [Hq Hs Ht]. revert H0. unfold tls_Receive.
    unfold tls_queue_valid in Hq. destruct (tls_incoming t) as [|pkt rest] eqn:E.
    + destruct (tls_closed t); [|done]. intros [= <- <- <-].
      constructor; unfold tls_queue_valid; rewrite ?E; done.
    + destruct (tls_closed t && pick); intros [= <- <- <-].
      * constructor; unfold tls_queue_valid; rewrite ?E; done.
      * apply Forall_cons in Hq as [_ Hq]. constructor; simpl in *; [done|lia|done].
  - destruct Hinv as [Hq Hs Ht]. unfold tls_Close. destruct (tls_closed t); done.
Qed.

(** The state after [NewTLSServerTransport]. *)
Definition NewTLSServer : TLSTransport := mkTLS true None ∅ [] false [].
(** The state after [NewTLSClientTransport] has dialled. *)
Definition NewTLSClient (c : conn) : TLSTransport := mkTLS false (Some c) ∅ [] false [].

Lemma tls_inv_reachable t live :
  rtc tls_step (NewTLSServer, ∅) (t, live) → tls_inv t live.
Proof.
  intros Hr. apply (rtc_ind_r (λ s, tls_inv s.1 s.2) (NewTLSServer, ∅)) in Hr; [done| |].
  - constructor; simpl; [constructor|lia|]. intros a c. rewrite lookup_empty. set_solver.
  - intros [t1 l1] [t2 l2] _ Hs IH. by eapply tls_inv_step.
Qed.
End Connections.

(** ** Sending *)

Section Sending.
Context `{N : Net, !NetLaws N}.

(** Receiving [n] packets, each into the buffer [buf]. *)
Fixpoint tls_receives (n : nat) (t : TLSTransport) (buf : PacketBuffer)
    : option (list (list byte) * TLSTransport) :=
  match n with
  | O => Some ([], t)
  | S n =>
      '(t, b, r) ← tls_Receive false t buf;
      match r with
      | Ok _ => '(ps, t) ← tls_receives n t buf; Some (contents b :: ps, t)
      | Err _ => None
      end
  end.

Fixpoint tls_send_list (t : TLSTransport) (bufs : list PacketBuffer) (target : option Addr)
    : outcome (TLSTransport * list (option error)) :=
  match bufs with
  | [] => Ret (t, [])
  | buf :: bufs =>
      '(t, e) ← tls_Send t buf target;
      '(t, es) ← tls_send_list t bufs target;
      Ret (t, e :: es)
  end.

(** The two writes of one [Send]. *)
Definition send_writes (p : list byte) : list (list byte) := [le_encode 2 (zlen p); p].

Definition write_ok (c : conn) : Prop := ∀ h b, (conn_write h c b).2 = None.

Lemma tls_write_ok t c b :
  write_ok c →
  tls_write t c b =
    (mkTLS (tls_isServer t) (tls_clientConn t) (tls_connections t) (tls_incoming t) (tls_closed t)
       (tls_log t ++ [(c, b)]), None).
Proof.
  intros Hw. unfold tls_write. pose proof (Hw (tls_log t) b) as He.
  pose proof (write_full _ _ _ He) as Hn. destruct (conn_write _ c b) as [n e]. simpl in *.
  subst. by rewrite take_ge by (unfold zlen; lia).
Qed.

Lemma stream_of_app h k c : stream_of (h ++ k) c = stream_of h c ++ stream_of k c.
Proof. unfold stream_of. by rewrite filter_app, map_app, concat_app. Qed.

Lemma stream_of_one c b : stream_of [(c, b)] c = b.
Proof. unfold stream_of. rewrite filter_cons_True by done. simpl. by rewrite app_nil_r. Qed.

Lemma tls_send_on_ok t c buf :
  write_ok c → wf buf → valid_packet (contents buf) →
  ∃ t', tls_send_on t c buf = Ret (t', None) ∧
    tls_log t' = tls_log t ++ map (pair c) (send_writes (contents buf)) ∧
    tls_isServer t' = tls_isServer t ∧ tls_clientConn t' = tls_clientConn t ∧
    tls_connections t' = tls_connections t.
Proof.
  intros Hw Hwf [H1 H2]. unfold tls_send_on, DefaultBufferSize in *.
  pose proof (zlen_contents _ Hwf) as Hz.
  rewrite tls_write_ok by done. rewrite Bytes_wf by done. gsimpl. rewrite tls_write_ok by done.
  eexists. split; [reflexivity|]. simpl. rewrite <- app_assoc, wrap_small by lia.
  rewrite Hz. done.
Qed.

Lemma stream_of_send h c p :
  stream_of (h ++ map (pair c) (send_writes p)) c = stream_of h c ++ frame p.
Proof.
  rewrite stream_of_app. f_equal. change (stream_of ([(c, le_encode 2 (zlen p))] ++ [(c, p)]) c = frame p).
  by rewrite stream_of_app, !stream_of_one.
Qed.

Lemma tls_send_list_ok t c bufs target :
  write_ok c → tls_isServer t = false → tls_clientConn t = Some c →
  Forall (λ b, wf b ∧ valid_packet (contents b)) bufs →
  ∃ t', tls_send_list t bufs target = Ret (t', replicate (length bufs) None) ∧
    stream_of (tls_log t') c = stream_of (tls_log t) c ++ frames (map contents bufs).
Proof.
  intros Hw Hs Hc Hf. revert t Hs Hc. induction Hf as [|b bufs [Hwf Hv] Hf IH]; intros t Hs Hc.
  { exists t. split; [done|]. simpl. by rewrite app_nil_r. }
  simpl. unfold tls_Send. rewrite Hs, Hc. simpl.
  destruct (tls_send_on_ok t c b Hw Hwf Hv) as (t1 & -> & Hl & Hs1 & Hc1 & _). gsimpl.
  destruct (IH t1) as (t2 & -> & Hst); [congruence..|]. gsimpl.
  eexists. split; [reflexivity|]. rewrite Hst, Hl, stream_of_send, <- app_assoc. done.
Qed.
End Sending.

(** ** Interleaved writes *)

(** The order two goroutines' writes may reach the connection in. *)
Inductive interleave {A} : list A → list A → list A → Prop :=
  | inter_nil : interleave [] [] []
  | inter_l x l k m : interleave l k m → interleave (x :: l) k (x :: m)
  | inter_r x l k m : interleave l k m → interleave l (x :: k) (x :: m).

(** ** Properties *)

(** C32: which probes get the decoy page.  The server answers a connection with
    the decoy if and only if its first two bytes are those of GET, POST or HEAD,
    and the answer is always the same page.  Every other HTTP method, and the
    HTTP/2 preface although h2 is offered in the handshake, is taken for a tunnel
    and gets no answer. *)
Theorem decoy_exact open st :
  (∀ resp, handleServerConn open st = Decoy resp ↔
     resp = decoy_response ∧
     ∃ p, p ∈ ["GE"; "PO"; "HE"]%string ∧ bytes_of p `prefix_of` st) ∧
  ∀ m, m ∈ ["PUT "; "DELETE "; "CONNECT "; "OPTIONS "; "TRACE "; "PATCH "; "PRI * HTTP/2.0"]%string →
    ∃ ps, handleServerConn open (bytes_of m ++ st) = Tunnel ps.
Proof.
  split.
  - intros resp. unfold handleServerConn. destruct (read_conn 2 st) as [[h st1]|] eqn:E.
    + apply read_conn_Some in E as [-> Hh]; [|lia].
      destruct h as [|b0 [|b1 [|]]]; unfold zlen in Hh; simpl in Hh; try lia.
      assert (is_probe [b0; b1] = true ↔
        ∃ p, p ∈ ["GE"; "PO"; "HE"]%string ∧ bytes_of p `prefix_of` [b0; b1] ++ st1) as Hprobe.
      { unfold is_probe. rewrite !orb_true_iff, !bool_decide_eq_true. simpl. split.
        - intros [[[-> ->]|[-> ->]]|[-> ->]].
          + exists "GE"%string. split; [set_solver|]. by exists st1.
          + exists "PO"%string. split; [set_solver|]. by exists st1.
          + exists "HE"%string. split; [set_solver|]. by exists st1.
        - intros (p & Hp & k & Hk). rewrite !elem_of_cons, elem_of_nil in Hp.
          destruct Hp as [->|[->|[->|[]]]]; simpl in Hk; injection Hk as -> -> _; auto. }
      destruct (is_probe [b0; b1]) eqn:Ep.
      * split; [intros [= <-]; split; [done|by apply Hprobe]|by intros [-> _]].
      * split; [|intros [_ Hx]; apply Hprobe in Hx; discriminate].
        destruct (valid_length _); [|done]. by destruct (read_conn _ st1) as [[]|].
    + split; [done|]. intros [_ (p & Hp & k & ->)]. exfalso.
      unfold read_conn in E. case_decide as Hd; [done|]. rewrite zlen_app in Hd.
      pose proof (zlen_nonneg k). rewrite !elem_of_cons, elem_of_nil in Hp.
      destruct Hp as [->|[->|[->|[]]]]; unfold zlen in Hd; simpl in Hd; lia.
  - intros m Hm. rewrite !elem_of_cons, elem_of_nil in Hm.
    assert (∀ b0 b1 rest, is_probe [b0; b1] = false → valid_length (le_decode [b0; b1]) = false →
      ∃ ps, handleServerConn open ([b0; b1] ++ rest) = Tunnel ps) as H.
    { intros b0 b1 rest H1 H2. unfold handleServerConn. rewrite read_conn_app by done.
      rewrite H1, H2. eauto. }
    destruct Hm as [->|[->|[->|[->|[->|[->|[->|[]]]]]]]]; apply H; vm_compute; done.
Qed.

Section TransportProperties.
Context `{N : Net, !NetLaws N}.

(** C29: the TLS framing carries packets.  A client sends any list of well-formed
    buffers of 1 to 2048 bytes over a connection whose writes succeed: every send
    succeeds, and the server's handler, reading the connection's bytes however
    they are cut, takes the connection for a tunnel and queues exactly those
    packets in order; the client's read loop does the same in the other
    direction.  If the connection breaks off at any byte, what was queued is a
    prefix of what was sent. *)
Theorem tls_tunnel t c bufs target :
  write_ok c → tls_isServer t = false → tls_clientConn t = Some c → tls_log t = [] →
  Forall (λ b, wf b ∧ valid_packet (contents b)) bufs →
  ∃ t', tls_send_list t bufs target = Ret (t', replicate (length bufs) None) ∧
    let stream := stream_of (tls_log t') c in
    (bufs ≠ [] → handleServerConn (λ _, true) stream = Tunnel (map contents bufs)) ∧
    clientReadLoop (λ _, true) stream = map contents bufs ∧
    ∀ open st, st `prefix_of` stream →
      packets (handleServerConn open st) `prefix_of` map contents bufs ∧
      clientReadLoop open st `prefix_of` map contents bufs.
Proof.
  intros Hw Hs Hc Hl Hf.
  destruct (tls_send_list_ok t c bufs target Hw Hs Hc Hf) as (t' & Hsend & Hst).
  rewrite Hl in Hst. change (stream_of [] c) with (@nil byte) in Hst. rewrite app_nil_l in Hst.
  assert (Forall valid_packet (map contents bufs)) as Hv.
  { apply Forall_fmap. eapply Forall_impl; [exact Hf|]. by intros b [_ ?]. }
  exists t'. split; [done|]. cbv zeta. rewrite Hst. split_and!.
  - destruct bufs as [|b bufs]; [done|]. intros _. by apply handleServerConn_frames.
  - apply read_frames_all; [done|done|]. apply length_frames.
  - intros open st Hpre. split; [by apply handleServerConn_prefix|by apply read_frames_prefix].
Qed.

(** A broken tunnel is silent.  When the server's stream ends, or has a frame of
    impossible length, the client's reader stops without closing the transport: what
    came before is received, and from then on every receive blocks. *)
Lemma tls_break_unnoticed t c ps bad rest buf :
  Forall valid_packet ps → 0 ≤ bad < 2 ^ 16 → valid_length bad = false → wf buf →
  pooled DefaultBufferSize buf → tls_closed t = false → tls_incoming t = [] →
  clientReadLoop (λ _, true) (frames ps) = ps ∧
  clientReadLoop (λ _, true) (frames ps ++ le_encode 2 bad ++ rest) = ps ∧
  ∃ t', tls_receives (length ps) (foldl (λ t p, tls_enqueue t c p) t ps) buf = Some (ps, t') ∧
    ∀ pick b, tls_Receive pick t' b = None.
Proof.
  intros Hv Hb Hbad Hwf [Hbl Hbc] Hcl Hin. pose proof (length_frames ps) as Hlen.
  split; [by apply read_frames_all|]. split; [apply read_frames_bad; [done..| |done|done]|].
  { rewrite length_app. lia. }
  assert (∀ ps t0, foldl (λ t p, tls_enqueue t c p) t0 ps =
    mkTLS (tls_isServer t0) (tls_clientConn t0) (tls_connections t0)
      (tls_incoming t0 ++ map (mkIncoming (conn_remote c)) ps) (tls_closed t0) (tls_log t0)) as Hq.
  { clear. induction ps as [|p ps IH]; intros t0; simpl; [rewrite app_nil_r; by destruct t0|].
    rewrite IH. simpl. by rewrite <- app_assoc. }
  rewrite Hq, Hcl, Hin. simpl. clear Hin Hq Hlen.
  exists (mkTLS (tls_isServer t) (tls_clientConn t) (tls_connections t) [] false (tls_log t)).
  split; [|done]. induction Hv as [|p ps [Hp1 Hp2] Hv IH]; [done|]. simpl. rewrite IH. simpl.
  rewrite (load_contents (Reset buf) p); [done|unfold slice_wf; simpl; lia|done|simpl; lia].
Qed.

(** Two goroutines that send on one TLS connection can garble the stream.
    [Send] writes the length and the packet separately and nothing orders the
    writes of different goroutines (the client sends from its TUN loop and its
    keepalive loop).  For any two packets that do not happen to start with the
    length of the second, there is an order of the four writes after which the
    first packet the server queues is neither of the two. *)
Theorem tls_interleaved_sends a b :
  valid_packet a → valid_packet b → 2 ≤ zlen a →
  ¬ le_encode 2 (zlen b) `prefix_of` a → ¬ le_encode 2 (zlen b) `prefix_of` b →
  ∃ writes, interleave (send_writes a) (send_writes b) writes ∧
    ∃ first rest, handleServerConn (λ _, true) (concat writes) = Tunnel (first :: rest) ∧
      first ≠ a ∧ first ≠ b.
Proof.
  intros Ha Hb H2 Hna Hnb.
  exists [le_encode 2 (zlen a); le_encode 2 (zlen b); a; b].
  split; [repeat constructor|].
  set (l := le_encode 2 (zlen b)) in *. assert (zlen l = 2) as Hl by apply zlen_le_encode.
  pose proof (zlen_nonneg b) as Hb0.
  change (concat [le_encode 2 (zlen a); l; a; b]) with (le_encode 2 (zlen a) ++ l ++ a ++ b ++ []).
  unfold handleServerConn. rewrite read_conn_app by done. rewrite frame_not_probe by done.
  destruct (frame_length_valid a Ha) as [-> ->].
  destruct (read_conn (zlen a) (l ++ a ++ b ++ [])) as [[first rest]|] eqn:E.
  - apply read_conn_Some in E as [E Hz]; [|lia].
    eexists first, _. split; [reflexivity|].
    assert (l `prefix_of` first) as Hp.
    { exists (drop 2 first). rewrite <- (take_drop 2 first) at 1. f_equal.
      apply (f_equal (take 2)) in E.
      rewrite take_app_le in E by (unfold zlen in *; lia).
      rewrite take_ge in E by (unfold zlen in *; lia).
      rewrite take_app_le in E by (unfold zlen in *; lia). done. }
    split; intros ->; auto.
  - unfold read_conn in E. case_decide as Hd; [done|]. rewrite !zlen_app in Hd.
    change (zlen (@nil byte)) with 0 in Hd. lia.
Qed.

(** C31: the TLS server's state, in every order of connections opening, sending,
    ending and of packets being taken out.  Every queued packet has 1 to 2048
    bytes, so that receiving into a pooled buffer gives a well-formed buffer with
    exactly the packet's bytes; and sending to an address writes to the one live
    connection from that address, or fails with an error when there is none. *)
Theorem tls_server_reachable t live :
  rtc tls_step (NewTLSServer, ∅) (t, live) →
  (∀ pick buf t' buf' r n, 2048 ≤ n → pooled n buf →
     tls_Receive pick t buf = Some (t', buf', Ok r) →
     wf buf' ∧ valid_packet (contents buf') ∧
     ∃ p, head (tls_incoming t) = Some p ∧ contents buf' = in_data p ∧ r = in_addr p) ∧
  ∀ a buf, tls_isServer t = true →
    (∃ c, c ∈ live ∧ addr_string (conn_remote c) = addr_string a ∧
       (∀ c', c' ∈ live → addr_string (conn_remote c') = addr_string a → c' = c) ∧
       tls_Send t buf (Some a) = tls_send_on t c buf) ∨
    ((∀ c, c ∈ live → addr_string (conn_remote c) ≠ addr_string a) ∧
       ∃ e, tls_Send t buf (Some a) = Ret (t, Some e)).
Proof.
  intros Hr. apply tls_inv_reachable in Hr as [Hq _ Ht]. split.
  - intros pick buf t' buf' r n Hn Hp. unfold tls_Receive. unfold tls_queue_valid in Hq.
    destruct (tls_incoming t) as [|pkt rest]; [by destruct (tls_closed t)|].
    apply Forall_cons in Hq as [Hv Hq]. destruct (tls_closed t && pick); [done|].
    intros [= <- <- <-]. pose proof Hv as [_ Hle]. unfold DefaultBufferSize in Hle.
    destruct (pooled_load n buf (in_data pkt)) as (Hwf & _ & Hc); [lia|done|lia|].
    rewrite Hc. split_and!; eauto.
  - intros a buf Hs. unfold tls_Send. rewrite Hs. simpl.
    destruct (tls_connections t !! addr_string a) as [c|] eqn:E; [left|right].
    + apply Ht in E as Hc. destruct Hc as [Hc Ha]. exists c. split_and!; try done.
      intros c' Hc' Ha'. assert (tls_connections t !! addr_string a = Some c') by by apply Ht.
      congruence.
    + split; [|eauto]. intros c Hc Ha.
      assert (tls_connections t !! addr_string a = Some c) by by apply Ht. congruence.
Qed.

(** The WebSocket transport does not bound what it receives.  A message that
    fits the buffer is delivered as it is; a message longer than the buffer is
    reported with its full length, and the next access to the buffer's bytes, or
    to its header, panics and ends the process. *)
Theorem ws_receive_overflow t pick buf n pkt rest :
  ws_incoming t = pkt :: rest → ws_closed t = false → pooled n buf → HeaderSize ≤ n →
  ∃ t' buf', ws_Receive pick t buf = Some (t', buf', Ok (in_addr pkt)) ∧
    (zlen (in_data pkt) ≤ n → wf buf' ∧ contents buf' = in_data pkt) ∧
    (n < zlen (in_data pkt) → Bytes buf' = Panic SliceBounds ∧ StripHeader buf' = Panic SliceBounds).
Proof.
  intros Hq Hcl Hp Hn. unfold ws_Receive. rewrite Hq, Hcl. simpl.
  eexists _, _. split; [reflexivity|]. split.
  - intros Hle. unfold HeaderSize in Hn. destruct (pooled_load n buf (in_data pkt)) as (? & _ & ?);
      auto; lia.
  - intros Hgt. destruct Hp as [Hl Hc].
    assert (slice_wf (Data buf)) as Hs by (unfold slice_wf, HeaderSize in *; lia).
    assert (overlong (load (Reset buf) (in_data pkt))) as Ho by (apply (load_overlong n); [done|unfold HeaderSize in *; lia]).
    split; [by apply overlong_Bytes|]. apply overlong_StripHeader; [done|].
    simpl. rewrite cap_copy_to by done. lia.
Qed.

(** The address the WebSocket server reports for a packet is the connection's
    Origin, while the table is keyed by the request's remote address: a reply to
    the reported address finds no connection unless the two happen to agree. *)
Lemma ws_reply_lost t c data buf :
  ws_isServer t = true →
  ws_connections t !! addr_string (ws_remote c) = None →
  ws_Send (ws_enqueue t c data) buf (Some (in_addr (mkIncoming (ws_remote c) data))) =
    Ret (ws_enqueue t c data,
         Some (ErrStr "no active ws connection for %s" (addr_string (ws_remote c)))).
Proof. intros Hs Hc. unfold ws_Send. simpl. by rewrite Hs, Hc. Qed.
End TransportProperties.

(** ** A concrete network *)

Definition toy_net : Net := {|
  conn_remote := λ c, mkAddr "tcp" ("10.0.0.1:" +:+ pretty (Npos c));
  ws_remote := λ c, mkAddr "websocket" "https://www.example.com";
  ws_request_addr := λ c, "10.0.0.1:" +:+ pretty (Npos c);
  conn_write := λ _ _ b, (zlen b, None);
  msg_send := λ _ _ _, None;
  udp_write := λ _ b _, (zlen b, None);
  resolve_udp := λ s, Ok (mkAddr "udp" s)
|}.
#[global] Instance toy_net_laws : NetLaws toy_net.
Proof. by split. Qed.

Lemma demo_pkt_valid s :
  0 < zlen (bytes_of s) ≤ 64 → wf (demo_pkt s) ∧ valid_packet (contents (demo_pkt s)).
Proof.
  intros Hs. assert (cap (make_slice 64) = 64) as Hcap by done.
  assert (pooled 64 (mkBuf (make_slice 64) 0 0)) as Hp by done.
  destruct (pooled_load 64 (mkBuf (make_slice 64) 0 0) (bytes_of s)) as (Hwf & _ & Hc);
    [lia|done|lia|]. split; [exact Hwf|]. unfold demo_pkt, Reset in *. simpl in *.
  rewrite Hc. unfold valid_packet, DefaultBufferSize. lia.
Qed.

Example tls_tunnel_witness :
  ∃ t', tls_send_list (N := toy_net) (NewTLSClient 5%positive) [demo_pkt "GET"; demo_pkt "second"] None
      = Ret (t', [None; None]) ∧
    handleServerConn (λ _, true) (stream_of (tls_log t') 5%positive) =
      Tunnel [bytes_of "GET"; bytes_of "second"].
Proof.
  destruct (tls_tunnel (N := toy_net) (NewTLSClient 5%positive) 5%positive
    [demo_pkt "GET"; demo_pkt "second"] None) as (t' & Hs & Hh & _);
    [done|done|done|done| |].
  - repeat apply Forall_cons_2; [apply demo_pkt_valid; vm_compute; intuition discriminate..
                                |constructor].
  - exists t'. split; [exact Hs|]. rewrite Hh by done. vm_compute. reflexivity.
Defined.

Example decoy_exact_witness :
  handleServerConn (λ _, true) (bytes_of "GET / HTTP/1.1") = Decoy decoy_response ∧
  ∃ ps, handleServerConn (λ _, true) (bytes_of "PUT " ++ bytes_of "/x HTTP/1.1") = Tunnel ps.
Proof.
  destruct (decoy_exact (λ _, true) (bytes_of "GET / HTTP/1.1")) as [Hd _].
  destruct (decoy_exact (λ _, true) (bytes_of "/x HTTP/1.1")) as [_ Ht].
  split; [|apply Ht; by left].
  apply Hd. split; [reflexivity|]. exists "GE"%string. split; [by left|].
  by exists (bytes_of "T / HTTP/1.1").
Defined.

Example tls_interleaved_sends_witness :
  ∃ writes first rest,
    interleave (send_writes (bytes_of "alpha")) (send_writes (bytes_of "omega!")) writes ∧
    handleServerConn (λ _, true) (concat writes) = Tunnel (first :: rest) ∧
    first ≠ bytes_of "alpha".
Proof.
  destruct (tls_interleaved_sends (bytes_of "alpha") (bytes_of "omega!"))
    as (w & Hi & f & r & Hh & Hf & _);
    [split; vm_compute; intuition discriminate|split; vm_compute; intuition discriminate
    |vm_compute; discriminate|intros [k Hk]; vm_compute in Hk; discriminate
    |intros [k Hk]; vm_compute in Hk; discriminate|].
  by exists w, f, r.
Defined.

Lemma toy_accept :
  rtc (tls_step (N := toy_net)) (NewTLSServer, ∅)
    (tls_enqueue (N := toy_net) (tls_register (N := toy_net) NewTLSServer 5%positive) 5%positive
       (bytes_of "hello"), {[5%positive]} ∪ ∅).
Proof.
  eapply rtc_l; [apply (step_accept (N := toy_net) NewTLSServer ∅ 5%positive); set_solver|].
  eapply rtc_l; [|apply rtc_refl].
  apply (step_packet (N := toy_net)) with (st := frames [bytes_of "hello"]) (open := λ _, true).
  - set_solver.
  - vm_compute. by left.
  - simpl. lia.
Qed.

Example tls_server_reachable_witness :
  ∃ t' buf', tls_Receive false
      (tls_enqueue (N := toy_net) (tls_register (N := toy_net) NewTLSServer 5%positive) 5%positive
         (bytes_of "hello")) (mkBuf (make_slice 2048) 0 0) =
      Some (t', buf', Ok (conn_remote (Net := toy_net) 5%positive)) ∧
    wf buf' ∧ valid_packet (contents buf').
Proof.
  destruct (tls_server_reachable (N := toy_net) _ _ toy_accept) as [HR _].
  assert (pooled 2048 (mkBuf (make_slice 2048) 0 0)) as Hp by (split; vm_compute; reflexivity).
  eexists _, _. split; [reflexivity|].
  destruct (HR false (mkBuf (make_slice 2048) 0 0) _ _ _ 2048 (Z.le_refl _) Hp eq_refl)
    as (H1 & H2 & _).
  split; [exact H1|exact H2].
Defined.

Example ws_receive_overflow_witness :
  ∃ t' buf', ws_Receive false
      (mkWS true None ∅ [mkIncoming (mkAddr "websocket" "o") (zeros 65)] false [])
      (mkBuf (make_slice 64) 0 0) = Some (t', buf', Ok (mkAddr "websocket" "o")) ∧
    Bytes buf' = Panic SliceBounds.
Proof.
  destruct (ws_receive_overflow
    (mkWS true None ∅ [mkIncoming (mkAddr "websocket" "o") (zeros 65)] false []) false
    (mkBuf (make_slice 64) 0 0) 64 (mkIncoming (mkAddr "websocket" "o") (zeros 65)) [])
    as (t' & b & HR & _ & Hb);
    [reflexivity|reflexivity|split; vm_compute; reflexivity|vm_compute; discriminate|].
  exists t', b. split; [exact HR|]. apply Hb. vm_compute. reflexivity.
Defined.
