(* ===== verification/System.v ===== *)
(** * The operating system as the program uses it

    The program configures the system by running command-line tools and ignoring
    most of their results.  [Shell] is what runs them; [Routing] and [Netfilter]
    state what the manuals of ip(8), route(8), networksetup(8) and iptables(8)
    say about the commands the program uses. *)

From S2P Require Import Prelude Address.
Local Open Scope Z_scope.

(** [runtime.GOOS], as far as the program distinguishes. *)
Inductive goos := Darwin | Linux | Windows | OtherOS (name : string).
#[global] Instance goos_eq_dec : EqDecision goos.
Proof. solve_decision. Defined.

(** A command line. *)
Definition words (ws : list string) : list gostring := map bytes_of ws.

(** [exec.Command(args...).CombinedOutput()], and the temporary files that hand
    rules to a tool. *)
Class Shell (Sys : Type) := {
  exec : list gostring → Sys → Sys * (gostring * option error);
  create_temp : Sys → Sys * result gostring;
  write_file : gostring → gostring → Sys → Sys * option error;
  remove_file : gostring → Sys → Sys
}.

(** [_ = exec.Command(args...).Run()] *)
Definition run `{Shell Sys} (cmd : list gostring) (s : Sys) : Sys := (exec cmd s).1.

(** The command succeeds in the state [s]. *)
Definition ok `{Shell Sys} (cmd : list gostring) (s : Sys) : bool :=
  bool_decide ((exec cmd s).2.2 = None).

(** Commands one after another, and whether every one of them succeeds. *)
Definition runs `{Shell Sys} (cmds : list (list gostring)) (s : Sys) : Sys :=
  foldl (λ s cmd, run cmd s) s cmds.
Fixpoint all_ok `{Shell Sys} (cmds : list (list gostring)) (s : Sys) : bool :=
  match cmds with
  | [] => true
  | cmd :: cmds => ok cmd s && all_ok cmds (run cmd s)
  end.

(** ** Rules of the packet filter *)

(** A rule of the OUTPUT chain: the arguments after the chain's name. *)
Definition rule := list gostring.

Definition iptables (op : string) (r : rule) : list gostring := words ["iptables"; op; "OUTPUT"] ++ r.

(** The rules the program writes. *)
Definition accept_server (tun srv : gostring) : rule :=
  words ["!"; "-o"] ++ [tun] ++ words ["-d"] ++ [srv] ++ words ["-j"; "ACCEPT"].
Definition accept_out (iface : gostring) : rule := words ["-o"] ++ [iface] ++ words ["-j"; "ACCEPT"].
Definition drop_all : rule := words ["-j"; "DROP"].

(** Names and addresses for which these rules mean what they say: no wildcards, no
    host names that stand for several addresses. *)
Definition alphanumeric (b : byte) : bool :=
  let n := byte_to_Z b in
  bool_decide ((48 ≤ n ∧ n ≤ 57) ∨ (65 ≤ n ∧ n ≤ 90) ∨ (97 ≤ n ∧ n ≤ 122)).
Definition iface_name (n : gostring) : bool :=
  bool_decide (n ≠ [] ∧ zlen n ≤ 15) && forallb alphanumeric n.
Definition ip4_literal (a : gostring) : bool := bool_decide (is_Some (parse_ip4 a)).

Inductive ours : rule → Prop :=
  | ours_server tun srv : iface_name tun = true → ip4_literal srv = true → ours (accept_server tun srv)
  | ours_out iface : iface_name iface = true → ours (accept_out iface)
  | ours_drop : ours drop_all.

(** ** Routes *)

Inductive hop := Via (gateway : gostring) | Dev (name : gostring).
#[global] Instance hop_eq_dec : EqDecision hop.
Proof. solve_decision. Defined.

(** What a routing command asks for; a deletion may leave the hop open. *)
Inductive route_op :=
  | AddRoute (dest : gostring) (h : hop)
  | DelRoute (dest : gostring) (h : option hop).

(** The command lines of ip(8) on Linux and route(8) on macOS. *)
Definition route_op_of (cmd : list gostring) : option route_op :=
  match cmd with
  | [a; b; c; d; e; f] =>
      if decide ([a; b; c; e] = words ["ip"; "route"; "add"; "via"]) then Some (AddRoute d (Via f))
      else if decide ([a; b; c; e] = words ["ip"; "route"; "add"; "dev"]) then Some (AddRoute d (Dev f))
      else if decide ([a; b; c; e] = words ["ip"; "route"; "del"; "via"]) then
        Some (DelRoute d (Some (Via f)))
      else if decide ([a; b; c; e] = words ["ip"; "route"; "del"; "dev"]) then
        Some (DelRoute d (Some (Dev f)))
      else None
  | [a; b; c; d; e] =>
      if decide ([a; b; c] = words ["route"; "add"; "-host"]) then Some (AddRoute d (Via e))
      else if decide ([a; b; d] = words ["route"; "add"; "-interface"]) then Some (AddRoute c (Dev e))
      else if decide ([a; b; d] = words ["route"; "delete"; "-interface"]) then
        Some (DelRoute c (Some (Dev e)))
      else None
  | [a; b; c; d] =>
      if decide ([a; b; c] = words ["route"; "delete"; "-host"]) then Some (DelRoute d None)
      else None
  | _ => None
  end.

Definition removes (oh : option hop) (h : hop) : Prop :=
  match oh with Some h' => h = h' | None => True end.

(** Commands the program runs that do not concern routes: its rules, and the question
    for the default route. *)
Inductive no_routes : list gostring → Prop :=
  | nr_rule op r : op ∈ ["-I"; "-A"; "-D"]%string → ours r → no_routes (iptables op r)
  | nr_default : no_routes (words ["route"; "-n"; "get"; "default"]).

(** The routing table: the routes of the main table with the default metric, which are
    the ones the program adds and the first that a deletion finds.  An addition that
    succeeds adds the route, one that fails changes nothing; after a deletion there is
    no such route, whether there was one before or the command failed for want of one
    (the program runs as root).  DNS servers are kept per network service. *)
Class Routing (Sys : Type) `{Shell Sys} (routes : Sys → gostring → hop → Prop)
    (dns : Sys → gostring → list gostring) := {
  add_route cmd d h s : route_op_of cmd = Some (AddRoute d h) →
    ∀ d' h', routes (run cmd s) d' h' ↔ routes s d' h' ∨ (ok cmd s = true ∧ d' = d ∧ h' = h);
  del_route cmd d oh s : route_op_of cmd = Some (DelRoute d oh) →
    ∀ d' h', routes (run cmd s) d' h' ↔ routes s d' h' ∧ ¬ (d' = d ∧ removes oh h');
  other_route cmd s : no_routes cmd → ∀ d' h', routes (run cmd s) d' h' ↔ routes s d' h';
  set_dns svc servers s : servers ≠ words ["Empty"] →
    dns (run (words ["networksetup"; "-setdnsservers"] ++ svc :: servers) s) svc = servers;
  clear_dns svc s :
    dns (run (words ["networksetup"; "-setdnsservers"] ++ [svc; bytes_of "Empty"]) s) svc = []
}.

(** ** Packet filter *)

Fixpoint remove_first (r : rule) (chain : list rule) : list rule :=
  match chain with
  | [] => []
  | r' :: chain => if decide (r' = r) then chain else r' :: remove_first r chain
  end.

(** A command that fails changes nothing, and a rule that is not there cannot be
    deleted; deleting removes the first rule that is the same; routing commands do not
    concern the chain.  [verdict r out dst] is what a rule says about a packet that
    leaves through [out] to [dst]. *)
Class Netfilter (Sys : Type) `{Shell Sys} (chain : Sys → list rule)
    (verdict : rule → gostring → gostring → option bool) := {
  ipt_insert r s : ours r → chain (run (iptables "-I" r) s) =
    if ok (iptables "-I" r) s then r :: chain s else chain s;
  ipt_append r s : ours r → chain (run (iptables "-A" r) s) =
    if ok (iptables "-A" r) s then chain s ++ [r] else chain s;
  ipt_delete r s : ours r → chain (run (iptables "-D" r) s) =
    if ok (iptables "-D" r) s then remove_first r (chain s) else chain s;
  ipt_absent r s : ours r → r ∉ chain s → ok (iptables "-D" r) s = false;
  ipt_routing cmd s : is_Some (route_op_of cmd) → chain (run cmd s) = chain s;
  verdict_server tun srv out dst : iface_name tun = true → ip4_literal srv = true →
    verdict (accept_server tun srv) out dst =
      if decide (out ≠ tun ∧ dst = srv) then Some true else None;
  verdict_out iface out dst : iface_name iface = true →
    verdict (accept_out iface) out dst = if decide (out = iface) then Some true else None;
  verdict_drop out dst : verdict drop_all out dst = Some false
}.

(** The first rule that matches decides, else the chain's policy. *)
Fixpoint accepts (verdict : rule → gostring → gostring → option bool) (policy : bool)
    (chain : list rule) (out dst : gostring) : bool :=
  match chain with
  | [] => policy
  | r :: chain =>
      match verdict r out dst with Some v => v | None => accepts verdict policy chain out dst end
  end.

(** ** A toy system

    It interprets the commands above.  Adding a route to a destination that has one,
    deleting a route or a rule that is not there, and what [toy_fails] says, fail. *)
Record ToySys := mkToy {
  toy_routes : list (gostring * hop);
  toy_dns : gostring → list gostring;
  toy_chain : list rule;
  toy_fails : list gostring → bool
}.

Definition toy_error : error := ErrNew "exit status 1".

(** The table after a routing command; [None] is a failure. *)
Definition toy_route (op : route_op) (s : ToySys) : option (list (gostring * hop)) :=
  match op with
  | AddRoute d h => if decide (d ∈ (toy_routes s).*1) then None else Some ((d, h) :: toy_routes s)
  | DelRoute d (Some h) =>
      if decide ((d, h) ∈ toy_routes s) then Some (filter (λ r, ¬ (r = (d, h))) (toy_routes s)) else None
  | DelRoute d None =>
      if decide (d ∈ (toy_routes s).*1) then Some (filter (λ r, ¬ (r.1 = d)) (toy_routes s)) else None
  end.

Definition is_delete (op : route_op) : bool :=
  match op with DelRoute _ _ => true | AddRoute _ _ => false end.

(** The chain after a change; [None] is a failure. *)
Definition toy_rules (op : gostring) (r : rule) (l : list rule) : option (list rule) :=
  if decide (op = bytes_of "-I") then Some (r :: l)
  else if decide (op = bytes_of "-A") then Some (l ++ [r])
  else if decide (op = bytes_of "-D") then if decide (r ∈ l) then Some (remove_first r l) else None
  else None.

Definition toy_exec (cmd : list gostring) (s : ToySys) : ToySys * (gostring * option error) :=
  let failed := (s, ([], Some toy_error)) in
  match route_op_of cmd with
  | Some op =>
      if toy_fails s cmd && negb (is_delete op) then failed
      else
        match toy_route op s with
        | Some rs => (mkToy rs (toy_dns s) (toy_chain s) (toy_fails s), ([], None))
        | None => failed
        end
  | None =>
      match cmd with
      | a :: b :: svc :: args =>
          if decide ([a; b] = words ["networksetup"; "-setdnsservers"]) then
            (mkToy (toy_routes s)
               (λ x, if decide (x = svc) then if decide (args = words ["Empty"]) then [] else args
                     else toy_dns s x) (toy_chain s) (toy_fails s), ([], None))
          else if toy_fails s cmd then failed
          else if decide ([a; svc] = words ["iptables"; "OUTPUT"]) then
            match toy_rules b args (toy_chain s) with
            | Some l => (mkToy (toy_routes s) (toy_dns s) l (toy_fails s), ([], None))
            | None => failed
            end
          else (s, ([], None))
      | _ => (s, ([], None))
      end
  end.

#[global] Instance toy_shell : Shell ToySys := {|
  exec := toy_exec;
  create_temp := λ s, (s, Ok (bytes_of "/tmp/ant-pf-1.conf"));
  write_file := λ _ _ s, (s, None);
  remove_file := λ _ s, s
|}.

Definition toy_verdict (r : rule) (out dst : gostring) : option bool :=
  match r with
  | [_; _; tun; _; srv; _; _] => if decide (out ≠ tun ∧ dst = srv) then Some true else None
  | [_; iface; _; _] => if decide (out = iface) then Some true else None
  | [_; _] => Some false
  | _ => None
  end.

Lemma iptables_no_route op r : route_op_of (iptables op r) = None.
Proof.
  unfold iptables. simpl. destruct r as [|a [|b [|c [|d r]]]]; try done.
Qed.

(** A rule command on the toy system. *)
Lemma toy_iptables op r s :
  toy_exec (iptables op r) s =
    if toy_fails s (iptables op r) then (s, ([], Some toy_error))
    else match toy_rules (bytes_of op) r (toy_chain s) with
         | Some l => (mkToy (toy_routes s) (toy_dns s) l (toy_fails s), ([], None))
         | None => (s, ([], Some toy_error))
         end.
Proof. unfold toy_exec. rewrite iptables_no_route. done. Qed.

#[global] Instance toy_netfilter : Netfilter ToySys toy_chain toy_verdict.
Proof.
  split; try done.
  - intros r s _. unfold run, ok. cbn [exec toy_shell]. rewrite toy_iptables.
    by destruct (toy_fails s _).
  - intros r s _. unfold run, ok. cbn [exec toy_shell]. rewrite toy_iptables.
    by destruct (toy_fails s _).
  - intros r s _. unfold run, ok. cbn [exec toy_shell]. rewrite toy_iptables.
    destruct (toy_fails s _); [done|]. unfold toy_rules.
    rewrite !(decide_False (P := bytes_of "-D" = _)), decide_True by done. by case_decide.
  - intros r s _ Hr. unfold ok. cbn [exec toy_shell]. rewrite toy_iptables.
    destruct (toy_fails s _); [done|]. unfold toy_rules.
    by rewrite !(decide_False (P := bytes_of "-D" = _)), decide_True, decide_False by done.
  - intros cmd s [op Hop]. unfold run. simpl. unfold toy_exec. rewrite Hop.
    destruct (_ && _); [done|]. by destruct (toy_route op s).
Qed.

Lemma elem_fst {A B} (l : list (A * B)) a b : (a, b) ∈ l → a ∈ l.*1.
Proof. intros H. apply list_elem_of_fmap. by exists (a, b). Qed.

#[global] Instance toy_routing :
  Routing ToySys (λ s d h, (d, h) ∈ toy_routes s) toy_dns.
Proof.
  split.
  - intros cmd d h s Hop d' h'. unfold run, ok. simpl. unfold toy_exec. rewrite Hop.
    simpl. rewrite andb_true_r. destruct (toy_fails s cmd); simpl; [naive_solver|].
    case_decide; simpl; [naive_solver|]. rewrite elem_of_cons. naive_solver.
  - intros cmd d oh s Hop d' h'. unfold run. simpl. unfold toy_exec. rewrite Hop.
    simpl. rewrite andb_false_r. destruct oh as [h|]; simpl; case_decide; simpl;
      rewrite ?list_elem_of_filter; pose proof (elem_fst (toy_routes s) d' h'); naive_solver.
  - intros cmd s Hno d' h'. unfold run. cbn [exec toy_shell]. destruct Hno as [op r _ _|];
      [|unfold toy_exec; simpl; by destruct (toy_fails s _)].
    rewrite toy_iptables. destruct (toy_fails s _); [done|]. by destruct (toy_rules _ _ _).
  - intros svc servers s Hne. unfold run. simpl. unfold toy_exec.
    destruct (route_op_of _) eqn:E.
    { exfalso. revert E. simpl. by destruct servers as [|a [|b [|c [|d servers]]]]. }
    simpl. rewrite !decide_True by done. by rewrite decide_False.
  - intros svc s. unfold run. simpl. unfold toy_exec. simpl. by rewrite !decide_True.
Qed.
