(* ===== verification/Tun.v ===== *)
(** * TUN devices (pkg/tun/tun.go, tun_linux.go, tun_darwin.go)

    The interface [Device] with what the packet loops rely on, and the Linux,
    macOS and Windows devices: opening and configuring a device, reading a packet
    into a buffer, writing one, with the four-byte family prefix macOS wants.  What
    the operating system does with a write is the interface [Kernel]; the results
    of the system calls that open a device are arguments. *)

From stdpp Require Import pretty.
From S2P Require Import Prelude Buffer Address System.
Local Open Scope Z_scope.

Definition DefaultMTU : Z := 1420.

(** ** The interface *)

(** [ReadPacket] is [None] while no packet is there. *)
Class Device (D : Type) := {
  ReadPacket : D → PacketBuffer → option (D * PacketBuffer * option error);
  WritePacket : D → PacketBuffer → outcome (D * PacketBuffer * option error)
}.

(** What the packet loops rely on.  [emitted] is what the device has handed to
    the operating system; [willing] says that the system accepts every write. *)
Class DeviceLaws (D : Type) `{Device D} (emitted : D → list (list byte)) (willing : D → Prop) := {
  ReadPacket_wf d buf d' buf' n :
    4 ≤ n → pooled n buf → ReadPacket d buf = Some (d', buf', None) → wf buf' ∧ pooled n buf';
  ReadPacket_err d buf d' buf' e n :
    pooled n buf → ReadPacket d buf = Some (d', buf', Some e) → pooled n buf';
  WritePacket_safe d buf n :
    wf buf → pooled n buf →
    ∃ d' buf' e, WritePacket d buf = Ret (d', buf', e) ∧ pooled n buf';
  WritePacket_emits d buf :
    wf buf → willing d → 0 < Length buf →
    ∃ d' buf', WritePacket d buf = Ret (d', buf', None) ∧
      emitted d' = emitted d ++ [contents buf] ∧ willing d'
}.

(** ** The operating system *)

Class Kernel := {
  (** [write(fd, b)] after the writes in the history. *)
  tun_write : list (list byte) → list byte → Z * option error
}.

Record TunState := mkTunState {
  tun_in : list (list byte);      (* packets waiting to be read *)
  tun_error : option error;       (* the next read fails with this *)
  tun_out : list (list byte);     (* what was written *)
  tun_open : bool                 (* the file is open *)
}.
Definition mkTun (i : list (list byte)) (e : option error) (o : list (list byte)) : TunState :=
  mkTunState i e o true.

Definition err_file_closed : error := ErrNew "file already closed".
Definition tun_fails (t : TunState) : option error :=
  if tun_open t then tun_error t else Some err_file_closed.
Definition tun_shut (t : TunState) : TunState :=
  mkTunState (tun_in t) (tun_error t) (tun_out t) false.

Section Devices.
Context `{K : Kernel}.

(** [file.Read(buf.Data)]: at most [len(buf.Data)] bytes of the packet. *)
Definition tun_read (t : TunState) (buf : PacketBuffer)
    : option (TunState * PacketBuffer * result Z) :=
  match tun_fails t with
  | Some e => Some (t, buf, Err e)
  | None =>
      match tun_in t with
      | [] => None
      | p :: rest =>
          let d := take (Z.to_nat (len (Data buf))) p in
          Some (mkTunState rest None (tun_out t) (tun_open t),
                mkBuf (copy_to (Data buf) d) (Length buf) (Offset buf), Ok (zlen d))
      end
  end.

Definition tun_os_write (t : TunState) (b : list byte) : TunState * Z * option error :=
  if tun_open t then
    let '(n, err) := tun_write (tun_out t) b in
    (mkTunState (tun_in t) (tun_error t)
       (match err with None => tun_out t ++ [b] | Some _ => tun_out t end) true, n, err)
  else (t, 0, Some err_file_closed).

(** *** Linux *)

Record LinuxTUN := mkLinuxTUN {
  linux_state : TunState;
  linux_name : gostring;
  linux_mtu : Z
}.
Definition linux_with (st : TunState) (t : LinuxTUN) : LinuxTUN :=
  mkLinuxTUN st (linux_name t) (linux_mtu t).

Definition linux_ReadPacket (t : LinuxTUN) (buf : PacketBuffer)
    : option (LinuxTUN * PacketBuffer * option error) :=
  let buf := Reset buf in
  '(st, buf, r) ← tun_read (linux_state t) buf;
  match r with
  | Err e => Some (linux_with st t, buf, Some e)
  | Ok n => Some (linux_with st t, mkBuf (Data buf) n (Offset buf), None)
  end.

Definition linux_WritePacket (t : LinuxTUN) (buf : PacketBuffer)
    : outcome (LinuxTUN * PacketBuffer * option error) :=
  if decide (Length buf = 0) then Ret (t, buf, None)
  else
    b ← Bytes buf;
    let '(st, n, err) := tun_os_write (linux_state t) b in
    Ret (linux_with st t, buf,
         match err with
         | Some e => Some e
         | None => if decide (n ≠ Length buf) then Some (ErrNew "short tun write") else None
         end).

#[global] Instance linux_device : Device LinuxTUN := {|
  ReadPacket := linux_ReadPacket;
  WritePacket := linux_WritePacket
|}.

(** *** macOS *)

Record DarwinTUN := mkDarwinTUN {
  darwin_state : TunState;
  darwin_name : gostring;
  darwin_mtu : Z
}.
Definition darwin_with (st : TunState) (t : DarwinTUN) : DarwinTUN :=
  mkDarwinTUN st (darwin_name t) (darwin_mtu t).

Definition AF_INET : Z := 2.
Definition AF_INET6 : Z := 30.

(** [binary.BigEndian.PutUint32] *)
Definition be_encode4 (z : Z) : list byte := reverse (le_encode 4 z).

Definition darwin_ReadPacket (t : DarwinTUN) (buf : PacketBuffer)
    : option (DarwinTUN * PacketBuffer * option error) :=
  let buf := Reset buf in
  '(st, buf, r) ← tun_read (darwin_state t) buf;
  match r with
  | Err e => Some (darwin_with st t, buf, Some e)
  | Ok n =>
      if decide (n < 4) then
        Some (darwin_with st t, buf, Some (ErrNew "read short packet on utun"))
      else Some (darwin_with st t, mkBuf (Data buf) (n - 4) 4, None)
  end.

(** [buf.Bytes()[0] >> 4] *)
Definition ip_version (buf : PacketBuffer) : outcome Z :=
  b ← Bytes buf;
  match b with
  | [] => Panic IndexBounds
  | x :: _ => Ret (Z.shiftr (byte_to_Z x) 4)
  end.

Definition darwin_WritePacket (t : DarwinTUN) (buf : PacketBuffer)
    : outcome (DarwinTUN * PacketBuffer * option error) :=
  if decide (Length buf = 0) then Ret (t, buf, None)
  else
    version ← ip_version buf;
    let family := if decide (version = 6) then AF_INET6 else AF_INET in
    if decide (4 ≤ Offset buf) then
      let off := Offset buf - 4 in
      let n := Length buf + 4 in
      _ ← slice_expr (Data buf) off (off + 4);
      let buf := mkBuf (write_at (Data buf) off (be_encode4 family)) n off in
      b ← Bytes buf;
      let '(st, _, err) := tun_os_write (darwin_state t) b in
      Ret (darwin_with st t, buf, err)
    else
      b ← Bytes buf;
      let out := splice 4 (take (Z.to_nat (Length buf)) b)
                   (splice 0 (be_encode4 family) (zeros (Z.to_nat (Length buf + 4)))) in
      let '(st, _, err) := tun_os_write (darwin_state t) out in
      Ret (darwin_with st t, buf, err).

#[global] Instance darwin_device : Device DarwinTUN := {|
  ReadPacket := darwin_ReadPacket;
  WritePacket := darwin_WritePacket
|}.

(** *** Windows: every read and every write fails. *)

Record WindowsTUN := mkWindowsTUN {
  windows_name : gostring;
  windows_mtu : Z
}.

Definition windows_ReadPacket (t : WindowsTUN) (buf : PacketBuffer)
    : option (WindowsTUN * PacketBuffer * option error) :=
  Some (t, buf, Some (ErrNew
    "wintun runtime packet reading is initialized via WintunReceivePacket API")).
Definition windows_WritePacket (t : WindowsTUN) (buf : PacketBuffer)
    : outcome (WindowsTUN * PacketBuffer * option error) :=
  Ret (t, buf, Some (ErrNew
    "wintun runtime packet writing is initialized via WintunSendPacket API")).

#[global] Instance windows_device : Device WindowsTUN := {|
  ReadPacket := windows_ReadPacket;
  WritePacket := windows_WritePacket
|}.
End Devices.

(** ** Opening, configuring and closing *)

Class TunDevice (D Sys : Type) `{Device D} := {
  Name : D → gostring;
  MTU : D → Z;
  CloseTun : D → D;
  CreateTUN : gostring → Z → Sys → outcome (Sys * result D);
  ConfigureIP : gostring → gostring → gostring → Sys → Sys * option error
}.

(** After closing, reading fails, and the name stays. *)
Class TunLaws (D Sys : Type) `{TunDevice D Sys} := {
  CloseTun_read d buf : ∃ d' buf' e, ReadPacket (CloseTun d) buf = Some (d', buf', Some e);
  CreateTUN_returns name mtu s : returns (CreateTUN name mtu s)
}.

Definition mtu_or_default (mtu : Z) : Z := if decide (mtu <= 0) then DefaultMTU else mtu.

(** The bytes up to the first zero byte. *)
Definition c_string (name : list byte) : gostring :=
  match list_find (λ b, b = x00) name with Some (i, _) => take i name | None => name end.

(** The results of the system calls that open a device.  [ifr_name] is the name
    the kernel writes back; [utun_name] the name and its length. *)
Class TunCalls := {
  open_tun : option error;
  tunsetiff : option error;
  ifr_name : list byte → list byte;
  open_socket : option error;
  ctliocginfo : option error;
  connect_utun : option error;
  utun_name : result (list byte * Z)
}.

Section Opening.
Context `{K : Kernel, O : TunCalls, Sh : Shell Sys}.
Implicit Types (s : Sys).

Definition linux_CreateTUN (preferredName : gostring) (mtu : Z) s : outcome (Sys * result LinuxTUN) :=
  let mtu := mtu_or_default mtu in
  match open_tun with
  | Some e => Ret (s, Err (ErrWrap "failed to open /dev/net/tun: %w" e))
  | None =>
      match tunsetiff with
      | Some errno => Ret (s, Err (ErrWrap "ioctl TUNSETIFF failed: %w" errno))
      | None =>
          let actualName := c_string (ifr_name (take 16 (preferredName ++ zeros 16))) in
          let s := run (words ["ip"; "link"; "set"; "dev"] ++ [actualName; bytes_of "mtu";
                        bytes_of (pretty mtu); bytes_of "up"]) s in
          Ret (s, Ok (mkLinuxTUN (mkTun [] None []) actualName mtu))
      end
  end.

Definition linux_ConfigureIP (ifName localIP remoteIP : gostring) s : Sys * option error :=
  let s := run (words ["ip"; "addr"; "add"] ++ [localIP ++ bytes_of "/24"; bytes_of "peer"; remoteIP;
                bytes_of "dev"; ifName]) s in
  let '(s, (_, err)) := exec (words ["ip"; "link"; "set"; "dev"] ++ [ifName; bytes_of "up"]) s in
  (s, err).

Definition linux_Close (t : LinuxTUN) : LinuxTUN := linux_with (tun_shut (linux_state t)) t.

#[global] Instance linux_tun : TunDevice LinuxTUN Sys := {|
  Name := linux_name;
  MTU := linux_mtu;
  CloseTun := linux_Close;
  CreateTUN := linux_CreateTUN;
  ConfigureIP := linux_ConfigureIP
|}.

(** The name is sliced from a 64-byte array with an unsigned length. *)
Definition darwin_CreateTUN (preferredName : gostring) (mtu : Z) s : outcome (Sys * result DarwinTUN) :=
  let mtu := mtu_or_default mtu in
  match open_socket with
  | Some e => Ret (s, Err (ErrWrap "failed to open af_system socket: %w" e))
  | None =>
      match ctliocginfo with
      | Some e => Ret (s, Err (ErrWrap "ioctl CTLIOCGINFO failed: %w" e))
      | None =>
          match connect_utun with
          | Some e => Ret (s, Err (ErrWrap "connect to utun failed: %w" e))
          | None =>
              match utun_name with
              | Err e => Ret (s, Err (ErrWrap "failed to get utun name: %w" e))
              | Ok (nameBuf, nameLen) =>
                  if decide (wrap 32 (nameLen - 1) <= 64) then
                    let ifName := take (Z.to_nat (wrap 32 (nameLen - 1))) nameBuf in
                    let s := run (words ["ifconfig"] ++ [ifName; bytes_of "mtu";
                                  bytes_of (pretty mtu)]) s in
                    Ret (s, Ok (mkDarwinTUN (mkTun [] None []) ifName mtu))
                  else Panic SliceBounds
              end
          end
      end
  end.

Definition darwin_ConfigureIP (ifName localIP remoteIP : gostring) s : Sys * option error :=
  let '(s, (out, err)) := exec (words ["ifconfig"] ++ [ifName; localIP; remoteIP; bytes_of "up"]) s in
  (s, match err with Some e => Some (ErrWrap "ifconfig failed: %s: %w" e) | None => None end).

Definition darwin_Close (t : DarwinTUN) : DarwinTUN := darwin_with (tun_shut (darwin_state t)) t.

#[global] Instance darwin_tun : TunDevice DarwinTUN Sys := {|
  Name := darwin_name;
  MTU := darwin_mtu;
  CloseTun := darwin_Close;
  CreateTUN := darwin_CreateTUN;
  ConfigureIP := darwin_ConfigureIP
|}.

Definition windows_CreateTUN (preferredName : gostring) (mtu : Z) s
    : outcome (Sys * result WindowsTUN) :=
  let name := if decide (preferredName = []) then bytes_of "AnonymousAnt" else preferredName in
  Ret (s, Ok (mkWindowsTUN name (mtu_or_default mtu))).

#[global] Instance windows_tun : TunDevice WindowsTUN Sys := {|
  Name := windows_name;
  MTU := windows_mtu;
  CloseTun := λ t, t;
  CreateTUN := windows_CreateTUN;
  ConfigureIP := λ _ _ _ s, (s, None)
|}.

#[global] Instance linux_tun_laws : TunLaws LinuxTUN Sys.
Proof.
  split.
  - intros d buf. by eexists _, _, _.
  - intros name mtu s. simpl. unfold linux_CreateTUN.
    destruct open_tun, tunsetiff; by eexists.
Qed.

#[global] Instance windows_tun_laws : TunLaws WindowsTUN Sys.
Proof. split; [intros d buf; by eexists _, _, _|intros name mtu s; by eexists]. Qed.

(** A name that fits is the device's name, if the kernel keeps it. *)
Lemma linux_CreateTUN_name name mtu s s' t :
  (∀ n, ifr_name n = n) → x00 ∉ name → (length name < 16)%nat → 0 < mtu →
  linux_CreateTUN name mtu s = Ret (s', Ok t) → Name t = name ∧ MTU t = mtu.
Proof.
  intros Hk Hz Hl Hm. unfold linux_CreateTUN. destruct open_tun, tunsetiff; try done.
  intros [= _ <-]. simpl. unfold mtu_or_default. rewrite decide_False by lia. split; [|done].
  rewrite Hk, take_app, take_ge by lia. unfold c_string.
  destruct (list_find _ _) as [[i b]|] eqn:E.
  - apply list_find_app_Some in E as [(Hi & -> & _)%list_find_Some|(Hi & Hn & E)].
    { exfalso. apply Hz. by eapply list_elem_of_lookup_2. }
    assert (i - length name = 0)%nat as E0.
    { destruct (16 - length name)%nat eqn:En; [lia|]. simpl in E. by injection E. }
    replace i with (length name) by lia. by rewrite take_app_length.
  - exfalso. apply list_find_None in E. rewrite Forall_app in E. destruct E as [_ E].
    destruct (16 - length name)%nat eqn:En; [lia|]. simpl in E. by inversion E.
Qed.
End Opening.

(** ** The devices keep the promises of the interface *)

Section DeviceFacts.
Context `{K : Kernel}.

Definition kernel_willing : Prop := ∀ h b, tun_write h b = (zlen b, None).

(** The file is open and the system takes every write. *)
Definition tun_willing (t : TunState) : Prop := tun_open t = true ∧ kernel_willing.

Lemma tun_os_write_ok t b :
  tun_willing t →
  tun_os_write t b = (mkTunState (tun_in t) (tun_error t) (tun_out t ++ [b]) true, zlen b, None).
Proof. intros [Ho Hw]. unfold tun_os_write. by rewrite Ho, Hw. Qed.

Lemma zlen_be_encode4 z : zlen (be_encode4 z) = 4.
Proof. unfold zlen, be_encode4. by rewrite length_reverse, length_le_encode. Qed.

Lemma ip_version_ok buf :
  wf buf → 0 < Length buf → ∃ v, ip_version buf = Ret v.
Proof.
  intros Hwf Hl. unfold ip_version. rewrite Bytes_wf by done. gsimpl.
  pose proof (zlen_contents _ Hwf) as Hz. destruct (contents buf); [|eauto].
  change (zlen (@nil byte)) with 0 in Hz. lia.
Qed.

(** What a read leaves in a pooled buffer. *)
Lemma tun_read_ok t buf n t' buf' k :
  0 ≤ n → pooled n buf → Offset buf = 0 → tun_read t buf = Some (t', buf', Ok k) →
  0 ≤ k ≤ n ∧ pooled n buf' ∧ Offset buf' = 0 ∧
  ∃ p rest, tun_in t = p :: rest ∧ tun_in t' = rest ∧ tun_out t' = tun_out t ∧
    sub 0 k (arr (Data buf')) = take (Z.to_nat n) p ∧ k = zlen (take (Z.to_nat n) p).
Proof.
  intros Hn Hp Ho. pose proof Hp as [Hl Hc]. unfold tun_read. destruct (tun_fails t); [done|].
  destruct (tun_in t) as [|p rest]; [done|]. intros [= <- <- <-]. rewrite Hl.
  set (d := take (Z.to_nat n) p). assert (zlen d ≤ n) as Hd
    by (pose proof (zlen_take_le (Z.to_nat n) p) as Hd; fold d in Hd; lia).
  pose proof (zlen_nonneg d).
  assert (slice_wf (Data buf)) as Hs by (unfold slice_wf; lia).
  split; [lia|]. split; [split; simpl; [done|by rewrite cap_copy_to]|]. split; [done|].
  exists p, rest. split_and!; try done. cbn [Data].
  unfold copy_to. rewrite (take_ge d) by (rewrite Hl; unfold zlen in Hd; lia).
  rewrite arr_write_at. apply (sub_splice_eq 0); unfold cap in *; fold d; lia.
Qed.

Lemma tun_read_pooled t buf n t' buf' r :
  pooled n buf → 0 ≤ n → tun_read t buf = Some (t', buf', r) → pooled n buf'.
Proof.
  intros [Hl Hc] Hn. unfold tun_read. destruct (tun_fails t); [by intros [= <- <- <-]|].
  destruct (tun_in t); [done|]. intros [= <- <- <-]. split; simpl; [done|].
  rewrite cap_copy_to; [done|]. unfold slice_wf. lia.
Qed.

Lemma pooled_nonneg n buf : pooled n buf → 0 ≤ n.
Proof. intros [_ <-]. apply zlen_nonneg. Qed.

(** Both writes of the macOS device send the family and then the packet. *)
Lemma darwin_WritePacket_ok t buf :
  wf buf → 0 < Length buf →
  ∃ v buf', ip_version buf = Ret v ∧
    (len (Data buf') = len (Data buf) ∧ cap (Data buf') = cap (Data buf)) ∧
    darwin_WritePacket t buf =
      (let '(st, _, err) := tun_os_write (darwin_state t)
         (be_encode4 (if decide (v = 6) then AF_INET6 else AF_INET) ++ contents buf) in
       Ret (darwin_with st t, buf', err)).
Proof.
  intros Hwf Hl. pose proof Hwf as [Ho Hn Hf Hs]. pose proof (zlen_contents _ Hwf) as Hz.
  destruct (ip_version_ok buf Hwf Hl) as [v Hv]. exists v. unfold darwin_WritePacket.
  rewrite decide_False, Hv by lia. cbn [mbind outcome_bind].
  set (fam := if decide (v = 6) then AF_INET6 else AF_INET).
  pose proof (zlen_be_encode4 fam) as Hb.
  case_decide as Ho4.
  - rewrite slice_expr_ok by lia. gsimpl.
    set (b1 := mkBuf _ _ _). exists b1. split; [done|].
    assert (cap (write_at (Data buf) (Offset buf - 4) (be_encode4 fam)) = cap (Data buf)) as Hcap
      by (apply cap_write_at; lia).
    split; [done|].
    assert (wf b1) as Hwf1.
    { constructor; simpl; try lia. apply slice_wf_write; auto; lia. }
    rewrite Bytes_wf by done. gsimpl.
    assert (contents b1 = be_encode4 fam ++ contents buf) as ->; [|done].
    unfold contents, b1. gsimpl. rewrite (sub_cat _ (Offset buf)) by (unfold cap in *; size).
    rewrite sub_splice_eq' by (unfold cap in *; lia).
    rewrite sub_splice_ne by (unfold cap in *; lia). do 2 f_equal. lia.
  - rewrite Bytes_wf by done. gsimpl. exists buf. split; [done|]. split; [done|].
    rewrite take_ge by (unfold zlen in *; lia).
    assert (zlen (zeros (Z.to_nat (Length buf + 4))) = Length buf + 4) as Hzz.
    { unfold zlen, zeros. rewrite length_replicate. lia. }
    rewrite (splice_splice' 0 4 (be_encode4 fam) (contents buf)) by lia.
    rewrite splice_full; [done|]. rewrite zlen_app. lia.
Qed.

#[global] Instance linux_laws :
  DeviceLaws LinuxTUN (λ t, tun_out (linux_state t)) (λ t, tun_willing (linux_state t)).
Proof.
  constructor.
  - intros t buf t' buf' n Hn Hp. simpl. unfold linux_ReadPacket.
    destruct (tun_read (linux_state t) (Reset buf)) as [[[st b] [k|e]]|] eqn:E; simpl; [|done..].
    intros [= <- <-]. destruct (tun_read_ok _ (Reset buf) n _ _ _ ltac:(lia) Hp eq_refl E)
      as (Hk & Hp' & Ho & _). pose proof Hp' as [Hl Hc]. split; [|done].
    constructor; simpl; unfold slice_wf; lia.
  - intros t buf t' buf' e n Hp. simpl. unfold linux_ReadPacket.
    destruct (tun_read (linux_state t) (Reset buf)) as [[[st b] [k|e']]|] eqn:E; simpl; [done| |done].
    intros [= <- <- _]. eapply (tun_read_pooled _ (Reset buf)); [exact Hp| |exact E].
    by eapply pooled_nonneg.
  - intros t buf n Hwf Hp. simpl. unfold linux_WritePacket. case_decide; [by eauto 6|].
    rewrite Bytes_wf by done. gsimpl. destruct (tun_os_write _ _) as [[st k] err]. by eauto 6.
  - intros t buf Hwf Hw Hl. simpl. unfold linux_WritePacket. rewrite decide_False by lia.
    rewrite Bytes_wf by done. gsimpl. rewrite tun_os_write_ok by done.
    rewrite zlen_contents by done. rewrite decide_False by auto.
    destruct Hw as [Ho Hw]. by eexists _, _.
Qed.

#[global] Instance darwin_laws :
  DeviceLaws DarwinTUN (λ t, map (drop 4) (tun_out (darwin_state t)))
    (λ t, tun_willing (darwin_state t)).
Proof.
  constructor.
  - intros t buf t' buf' n Hn Hp. simpl. unfold darwin_ReadPacket.
    destruct (tun_read (darwin_state t) (Reset buf)) as [[[st b] [k|e]]|] eqn:E; simpl; [|done..].
    case_decide; [done|]. intros [= <- <-].
    destruct (tun_read_ok _ (Reset buf) n _ _ _ ltac:(lia) Hp eq_refl E) as (Hk & Hp' & Ho & _).
    pose proof Hp' as [Hl Hc]. split; [|done]. constructor; simpl; unfold slice_wf; lia.
  - intros t buf t' buf' e n Hp. pose proof (pooled_nonneg _ _ Hp) as Hn. simpl.
    unfold darwin_ReadPacket.
    destruct (tun_read (darwin_state t) (Reset buf)) as [[[st b] r]|] eqn:E; simpl; [|done].
    apply (tun_read_pooled _ (Reset buf) n) in E; [|done..].
    destruct r as [k|e']; [case_decide|]; intros ?; simplify_eq; done.
  - intros t buf n Hwf [Hpl Hpc]. simpl. destruct (decide (Length buf = 0)).
    { unfold darwin_WritePacket. rewrite decide_True by done. eexists _, _, _. split; [reflexivity|done]. }
    destruct (darwin_WritePacket_ok t buf) as (v & b & _ & [Hl Hc] & ->);
      [done|pose proof (wf_len _ Hwf); lia|].
    destruct (tun_os_write _ _) as [[st k] err]. eexists _, b, _. split; [reflexivity|].
    unfold pooled. by rewrite Hl, Hc.
  - intros t buf Hwf Hw Hl. simpl.
    destruct (darwin_WritePacket_ok t buf) as (v & b & _ & _ & ->); [done..|].
    rewrite tun_os_write_ok by done. destruct Hw as [Ho Hw]. eexists _, _. split; [reflexivity|].
    split; [simpl; by rewrite map_app|done].
Qed.

#[global] Instance windows_laws : DeviceLaws WindowsTUN (λ _, []) (λ _, False).
Proof.
  split; [done|by intros d buf d' buf' e n Hp [= <- <- <-]| |done].
  intros d buf n Hwf Hp. by eexists _, _, _.
Qed.
End DeviceFacts.

(** ** Properties *)

Section TunProperties.
Context `{K : Kernel}.

(** A macOS device frames packets and unframes them.  A packet the system
    delivers as four prefix bytes and at most 2044 payload bytes is read as
    exactly the payload, at offset 4.  A non-empty buffer is written as the family
    (30 when the version nibble is 6, else 2) in network byte order and then its
    contents, by the in-place path and by the copying path alike. *)
Theorem darwin_framing t buf :
  (∀ p prefix payload rest t' buf' n,
     tun_in (darwin_state t) = p :: rest → p = prefix ++ payload → zlen prefix = 4 →
     zlen p ≤ n → pooled n buf →
     darwin_ReadPacket t buf = Some (t', buf', None) →
     contents buf' = payload ∧ Offset buf' = 4 ∧ wf buf') ∧
  (tun_willing (darwin_state t) → wf buf → 0 < Length buf →
     ∃ t' buf' version, darwin_WritePacket t buf = Ret (t', buf', None) ∧
       ip_version buf = Ret version ∧
       tun_out (darwin_state t') = tun_out (darwin_state t) ++
         [[x00; x00; x00; if decide (version = 6) then x1e else x02] ++ contents buf]).
Proof.
  split.
  - intros p prefix payload rest t' buf' n Hin -> Hpre Hle Hp. unfold darwin_ReadPacket.
    destruct (tun_read (darwin_state t) (Reset buf)) as [[[st b] [k|e]]|] eqn:E; simpl; [|done..].
    case_decide; [done|]. intros [= <- <-]. pose proof (zlen_nonneg payload).
    rewrite zlen_app in Hle.
    destruct (tun_read_ok _ (Reset buf) n _ _ _ ltac:(lia) Hp eq_refl E)
      as (Hk & Hp' & Ho & p' & rest' & Hin' & _ & _ & Hsub & Hk').
    rewrite Hin in Hin'. injection Hin' as <- <-.
    rewrite take_ge in Hsub, Hk' by (unfold zlen in *; rewrite length_app; lia).
    pose proof Hp' as [Hl Hc]. split_and!; [|done|constructor; simpl; unfold slice_wf; lia].
    unfold contents. cbn [Data Offset Length].
    replace (4 + (k - 4)) with k by lia.
    replace (sub 4 k (arr (Data b))) with (sub 4 k (sub 0 k (arr (Data b))))
      by (rewrite sub_sub by lia; f_equal; lia).
    rewrite Hsub. apply sub_app_back; [done|]. rewrite Hk', zlen_app. lia.
  - intros Hw Hwf Hl. destruct (darwin_WritePacket_ok t buf Hwf Hl) as (v & b & Hv & _ & ->).
    rewrite tun_os_write_ok by done. eexists _, _, v. split; [reflexivity|]. split; [done|].
    simpl. by case_decide.
Qed.
End TunProperties.

(** ** A concrete system *)

Definition toy_kernel : Kernel := {| tun_write := λ _ b, (zlen b, None) |}.

Definition toy_tun_calls : TunCalls := {|
  open_tun := None; tunsetiff := None; ifr_name := λ n, n;
  open_socket := None; ctliocginfo := None; connect_utun := None;
  utun_name := Ok (bytes_of "utun3", 6)
|}.

(** An open Linux device. *)
Definition mkLinux (st : TunState) : LinuxTUN := mkLinuxTUN st (bytes_of "ant0") 1420.

Definition demo_tun : DarwinTUN :=
  mkDarwinTUN (mkTun [zeros 3 ++ [x02] ++ bytes_of "Epacket"] None []) (bytes_of "utun3") 1420.
Definition demo_read : DarwinTUN * PacketBuffer :=
  match darwin_ReadPacket demo_tun (mkBuf (make_slice 64) 0 0) with
  | Some (t, b, _) => (t, b)
  | None => (demo_tun, mkBuf (make_slice 64) 0 0)
  end.

Example darwin_framing_witness :
  darwin_ReadPacket demo_tun (mkBuf (make_slice 64) 0 0) = Some (demo_read.1, demo_read.2, None) ∧
  contents demo_read.2 = bytes_of "Epacket" ∧
  ∃ t buf, darwin_WritePacket (K := toy_kernel) demo_read.1 demo_read.2 = Ret (t, buf, None).
Proof.
  destruct (darwin_framing (K := toy_kernel) demo_tun (mkBuf (make_slice 64) 0 0)) as [HR _].
  destruct (HR _ (zeros 3 ++ [x02]) (bytes_of "Epacket") [] demo_read.1 demo_read.2 64 eq_refl)
    as (Hc & _ & Hwf); [reflexivity|reflexivity|vm_compute; discriminate
    |split; vm_compute; reflexivity|vm_compute; reflexivity|].
  split; [vm_compute; reflexivity|]. split; [exact Hc|].
  destruct (darwin_framing (K := toy_kernel) demo_read.1 demo_read.2) as [_ HW].
  destruct HW as (t2 & b2 & v & HW & _); [by split; [reflexivity|intros h b]|exact Hwf|vm_compute; reflexivity|].
  exists t2, b2. exact HW.
Defined.
