(* ===== verification/Router.v ===== *)
(** * Routes and DNS (pkg/router)

    The interface [Router] and its three platforms, as command sequences on the
    system of System: what [SetupRoutes] adds, what [RestoreRoutes] takes away, and
    on macOS the discovery of the default gateway from the output of route(8). *)

From S2P Require Import Prelude Address System.
Local Open Scope Z_scope.

(** The resolver, and the IPv6 part of [net.ParseIP] and [net.IP.String]. *)
Class Resolver := {
  lookup_ip : gostring → result (list IP);
  parse_ip6 : gostring → option IP;
  ip6_string : IP → gostring
}.

Section Addresses.
Context `{R : Resolver}.

(** [net.ParseIP]: the first dot or colon decides the kind. *)
Definition ParseIP (s : gostring) : option IP :=
  match list_find (λ b, b ∈ bytes_of ".:%") s with
  | Some (_, b) =>
      if decide (b = x2e) then app v4_prefix <$> parse_ip4 s
      else if decide (b = colon) then parse_ip6 s
      else None
  | None => None
  end.

Definition IP_String (ip : IP) : gostring :=
  match To4 ip with Some b => bytes_of (ip4_string b) | None => ip6_string ip end.

(** The statements both [SetupRoutes] share: the first IPv4 address the resolver
    gives, else the host as a literal. *)
Definition target_ip (host : gostring) : option IP :=
  let looked := match lookup_ip host with Ok ips => head (omap To4 ips) | Err _ => None end in
  match looked with Some ip => Some ip | None => ParseIP host end.

Definition host_of (vpnServerIP : gostring) : gostring :=
  match SplitHostPort vpnServerIP with Ok (h, _) => h | Err _ => vpnServerIP end.

Definition server_name (target : option IP) (host : gostring) : gostring :=
  match target with Some ip => IP_String ip | None => host end.

(** [targetIP != nil && !targetIP.IsLoopback()] *)
Definition remote (target : option IP) : bool :=
  match target with Some ip => negb (IsLoopback ip) | None => false end.
End Addresses.

(** The interface. *)
Class Router (Rt Sys : Type) := {
  NewPlatformRouter : Rt;
  SetupRoutes : gostring → gostring → gostring → Rt → Sys → Rt * Sys * option error;
  RestoreRoutes : Rt → Sys → Rt * Sys * option error;
  SetupDNS : list gostring → Rt → Sys → Rt * Sys * option error;
  RestoreDNS : Rt → Sys → Rt * Sys * option error
}.

Section Platforms.
Context `{R : Resolver, Shell Sys}.
Implicit Types (s : Sys) (tunName vpnServerIP physicalGateway : gostring).

(** ** Linux *)

Record LinuxRouter := mkLinuxRouter {
  lr_tunName : gostring;
  lr_vpnServerIP : gostring;
  lr_physicalGateway : gostring
}.

Definition ip_route (op : string) (dest : gostring) (kind : string) (arg : gostring) : list gostring :=
  words ["ip"; "route"; op] ++ [dest; bytes_of kind; arg].

Definition linux_SetupRoutes tunName vpnServerIP physicalGateway (r : LinuxRouter) s
    : LinuxRouter * Sys * option error :=
  let host := host_of vpnServerIP in
  let targetIP := target_ip host in
  let r := mkLinuxRouter tunName (server_name targetIP host) physicalGateway in
  let s :=
    if remote targetIP then
      let s := if decide (physicalGateway ≠ []) then
                 run (ip_route "add" (lr_vpnServerIP r) "via" physicalGateway) s else s in
      let s := run (ip_route "add" (bytes_of "0.0.0.0/1") "dev" tunName) s in
      run (ip_route "add" (bytes_of "128.0.0.0/1") "dev" tunName) s
    else run (ip_route "add" (bytes_of "10.8.0.0/24") "dev" tunName) s in
  (r, s, None).

Definition linux_RestoreRoutes (r : LinuxRouter) s : LinuxRouter * Sys * option error :=
  let tun := lr_tunName r in
  let s :=
    if decide (tun ≠ []) then
      let s := run (ip_route "del" (bytes_of "0.0.0.0/1") "dev" tun) s in
      let s := run (ip_route "del" (bytes_of "128.0.0.0/1") "dev" tun) s in
      run (ip_route "del" (bytes_of "10.8.0.0/24") "dev" tun) s
    else s in
  let s :=
    if decide (lr_vpnServerIP r ≠ [] ∧ lr_physicalGateway r ≠ []) then
      run (ip_route "del" (lr_vpnServerIP r) "via" (lr_physicalGateway r)) s
    else s in
  (r, s, None).

(** Left to resolvconf or systemd-resolved. *)
Definition linux_SetupDNS (dnsServers : list gostring) (r : LinuxRouter) s
    : LinuxRouter * Sys * option error := (r, s, None).
Definition linux_RestoreDNS (r : LinuxRouter) s : LinuxRouter * Sys * option error := (r, s, None).

#[global] Instance linux_router : Router LinuxRouter Sys := {|
  NewPlatformRouter := mkLinuxRouter [] [] [];
  SetupRoutes := linux_SetupRoutes;
  RestoreRoutes := linux_RestoreRoutes;
  SetupDNS := linux_SetupDNS;
  RestoreDNS := linux_RestoreDNS
|}.

(** ** macOS *)

Record DarwinRouter := mkDarwinRouter {
  dr_tunName : gostring;
  dr_vpnServerIP : gostring;
  dr_physicalGateway : gostring;
  dr_origDNSServers : list gostring;      (* never used *)
  dr_primaryService : gostring
}.

(** [bufio.Scanner] in its default mode: lines without their end and without a
    carriage return in front of it; a last line that is empty is not a line.
    Lines of 64 KiB and more, which end the scan, do not occur. *)
Definition scan_lines (out : gostring) : list gostring :=
  let chomp l := if HasSuffix l [x0d] then take (length l - 1) l else l in
  let ls := Split out [x0a] in
  map chomp (if decide (last ls = Some []) then take (length ls - 1) ls else ls).

(** The loop of [GetDefaultGateway]: later lines overwrite earlier ones. *)
Definition gateway_line (gi : gostring * gostring) (text : gostring) : gostring * gostring :=
  let line := TrimSpace text in
  if HasPrefix line (bytes_of "gateway:") then
    (TrimSpace (TrimPrefix line (bytes_of "gateway:")), gi.2)
  else if HasPrefix line (bytes_of "interface:") then
    (gi.1, TrimSpace (TrimPrefix line (bytes_of "interface:")))
  else gi.

Definition GetDefaultGateway s : Sys * result (gostring * gostring) :=
  let '(s, (out, err)) := exec (words ["route"; "-n"; "get"; "default"]) s in
  match err with
  | Some e => (s, Err (ErrWrap "failed to get default gateway: %w" e))
  | None =>
      let '(gateway, iface) := foldl gateway_line ([], []) (scan_lines out) in
      if decide (gateway = []) then (s, Err (ErrNew "no default gateway found in route output"))
      else (s, Ok (gateway, iface))
  end.

Definition set_gateway physicalGateway (r : DarwinRouter) : DarwinRouter :=
  mkDarwinRouter (dr_tunName r) (dr_vpnServerIP r) physicalGateway (dr_origDNSServers r)
    (dr_primaryService r).

(** The commands once the gateway is known. *)
Definition darwin_add_routes tunName physicalGateway (targetIP : option IP) (r : DarwinRouter) s
    : Sys * option error :=
  if remote targetIP then
    let s := run (words ["route"; "add"; "-host"] ++ [dr_vpnServerIP r; physicalGateway]) s in
    let '(s, (out, err)) := exec (words ["route"; "add"; "0.0.0.0/1"; "-interface"] ++ [tunName]) s in
    match err with
    | Some e => (s, Some (ErrWrap "failed to add 0.0.0.0/1 route: %s: %w" e))
    | None =>
        let '(s, (out, err)) := exec (words ["route"; "add"; "128.0.0.0/1"; "-interface"] ++ [tunName]) s in
        match err with
        | Some e => (s, Some (ErrWrap "failed to add 128.0.0.0/1 route: %s: %w" e))
        | None => (s, None)
        end
    end
  else (run (words ["route"; "add"; "10.8.0.0/24"; "-interface"] ++ [tunName]) s, None).

Definition darwin_SetupRoutes tunName vpnServerIP physicalGateway (r : DarwinRouter) s
    : DarwinRouter * Sys * option error :=
  let host := host_of vpnServerIP in
  let targetIP := target_ip host in
  let r := mkDarwinRouter tunName (server_name targetIP host) (dr_physicalGateway r)
             (dr_origDNSServers r) (dr_primaryService r) in
  let '(s, gw) :=
    if decide (physicalGateway = []) then GetDefaultGateway s else (s, Ok (physicalGateway, [])) in
  match gw with
  | Err e => (r, s, Some e)
  | Ok (gw, _) =>
      let r := set_gateway gw r in
      let '(s, err) := darwin_add_routes tunName gw targetIP r s in
      (r, s, err)
  end.

Definition darwin_RestoreRoutes (r : DarwinRouter) s : DarwinRouter * Sys * option error :=
  let tun := dr_tunName r in
  let s :=
    if decide (tun ≠ []) then
      let s := run (words ["route"; "delete"; "0.0.0.0/1"; "-interface"] ++ [tun]) s in
      let s := run (words ["route"; "delete"; "128.0.0.0/1"; "-interface"] ++ [tun]) s in
      run (words ["route"; "delete"; "10.8.0.0/24"; "-interface"] ++ [tun]) s
    else s in
  let s :=
    if decide (dr_vpnServerIP r ≠ [] ∧ dr_physicalGateway r ≠ []) then
      run (words ["route"; "delete"; "-host"] ++ [dr_vpnServerIP r]) s
    else s in
  (r, s, None).

(** The first service that is not disabled. *)
Definition primary_service (out : gostring) : option gostring :=
  snd <$> list_find (λ svc, svc ≠ [] ∧ ¬ x2a ∈ svc) (map TrimSpace (Split out [x0a])).

Definition darwin_SetupDNS (dnsServers : list gostring) (r : DarwinRouter) s
    : DarwinRouter * Sys * option error :=
  let dnsServers := if decide (dnsServers = []) then words ["1.1.1.1"; "1.0.0.1"] else dnsServers in
  let '(s, (out, err)) := exec (words ["networksetup"; "-listallnetworkservices"]) s in
  match err with
  | Some _ => (r, s, None)
  | None =>
      match primary_service out with
      | None => (r, s, None)
      | Some svc =>
          (mkDarwinRouter (dr_tunName r) (dr_vpnServerIP r) (dr_physicalGateway r)
             (dr_origDNSServers r) svc,
           run (words ["networksetup"; "-setdnsservers"] ++ svc :: dnsServers) s, None)
      end
  end.

Definition darwin_RestoreDNS (r : DarwinRouter) s : DarwinRouter * Sys * option error :=
  let s :=
    if decide (dr_primaryService r ≠ []) then
      run (words ["networksetup"; "-setdnsservers"] ++ [dr_primaryService r; bytes_of "Empty"]) s
    else s in
  (r, s, None).

#[global] Instance darwin_router : Router DarwinRouter Sys := {|
  NewPlatformRouter := mkDarwinRouter [] [] [] [] [];
  SetupRoutes := darwin_SetupRoutes;
  RestoreRoutes := darwin_RestoreRoutes;
  SetupDNS := darwin_SetupDNS;
  RestoreDNS := darwin_RestoreDNS
|}.

(** ** Windows *)

Record WindowsRouter := mkWindowsRouter {
  wr_tunName : gostring;
  wr_vpnServerIP : gostring
}.

Definition windows_SetupRoutes tunName vpnServerIP physicalGateway (r : WindowsRouter) s
    : WindowsRouter * Sys * option error :=
  let s := run (words ["route"; "add"; "0.0.0.0"; "mask"; "128.0.0.0"; "0.0.0.0"; "if"] ++ [tunName]) s in
  let s := run (words ["route"; "add"; "128.0.0.0"; "mask"; "128.0.0.0"; "0.0.0.0"; "if"] ++ [tunName]) s in
  (mkWindowsRouter tunName vpnServerIP, s, None).

Definition windows_RestoreRoutes (r : WindowsRouter) s : WindowsRouter * Sys * option error :=
  let s := run (words ["route"; "delete"; "0.0.0.0"; "mask"; "128.0.0.0"]) s in
  let s := run (words ["route"; "delete"; "128.0.0.0"; "mask"; "128.0.0.0"]) s in
  (r, s, None).

#[global] Instance windows_router : Router WindowsRouter Sys := {|
  NewPlatformRouter := mkWindowsRouter [] [];
  SetupRoutes := windows_SetupRoutes;
  RestoreRoutes := windows_RestoreRoutes;
  SetupDNS := λ _ r s, (r, s, None);
  RestoreDNS := λ r s, (r, s, None)
|}.
End Platforms.

(** ** What the commands do to the routing table *)

Section RouterFacts.
Context `{R : Resolver, Sh : Shell Sys} {routes : Sys → gostring → hop → Prop}
        {dns : Sys → gostring → list gostring} `{!Routing Sys routes dns}.
Implicit Types (s : Sys) (tun srv gw name d : gostring) (h : hop).

Definition adds (cmd : list gostring) (a : gostring * hop) : Prop :=
  route_op_of cmd = Some (AddRoute a.1 a.2).
Definition dels (cmd : list gostring) (o : gostring * option hop) : Prop :=
  route_op_of cmd = Some (DelRoute o.1 o.2).

Lemma runs_add cmds ads s :
  Forall2 adds cmds ads →
  (∀ d h, routes s d h → routes (runs cmds s) d h) ∧
  (∀ d h, routes (runs cmds s) d h → routes s d h ∨ (d, h) ∈ ads) ∧
  (all_ok cmds s = true → ∀ d h, (d, h) ∈ ads → routes (runs cmds s) d h).
Proof.
  intros HF. revert s. induction HF as [|cmd [d0 h0] cmds ads Hop HF IH]; intros s.
  - split_and!; [done|by left|]. by intros _ d h ?%elem_of_nil.
  - pose proof (add_route cmd d0 h0 s Hop) as Ha. simpl.
    destruct (IH (run cmd s)) as (I1 & I2 & I3). split_and!.
    + intros d h Hr. apply I1, Ha. by left.
    + intros d h [Hr|Hr]%I2; [|right; by right]. apply Ha in Hr as [?|(_ & -> & ->)]; [by left|].
      right. by left.
    + intros [Hok Hoks]%andb_true_iff d h Hin.
      apply elem_of_cons in Hin as [[= -> ->]|Hin]; [|by apply I3].
      apply I1, Ha. by right.
Qed.

Lemma runs_del cmds os s :
  Forall2 dels cmds os →
  ∀ d h, routes (runs cmds s) d h ↔ routes s d h ∧ Forall (λ o, ¬ (d = o.1 ∧ removes o.2 h)) os.
Proof.
  intros HF. revert s. induction HF as [|cmd [d0 h0] cmds os Hop HF IH]; intros s d h.
  - rewrite Forall_nil. tauto.
  - simpl. rewrite IH, Forall_cons, (del_route cmd d0 h0 s Hop). simpl. tauto.
Qed.

(** *** Linux *)

(** The commands [SetupRoutes] runs, what they add and what [RestoreRoutes] removes. *)
Definition linux_setup_cmds tun srv gw : list (list gostring) :=
  let target := target_ip (host_of srv) in
  if remote target then
    (if decide (gw ≠ []) then [ip_route "add" (server_name target (host_of srv)) "via" gw] else []) ++
    [ip_route "add" (bytes_of "0.0.0.0/1") "dev" tun; ip_route "add" (bytes_of "128.0.0.0/1") "dev" tun]
  else [ip_route "add" (bytes_of "10.8.0.0/24") "dev" tun].
Definition linux_adds tun srv gw : list (gostring * hop) :=
  let target := target_ip (host_of srv) in
  if remote target then
    (if decide (gw ≠ []) then [(server_name target (host_of srv), Via gw)] else []) ++
    [(bytes_of "0.0.0.0/1", Dev tun); (bytes_of "128.0.0.0/1", Dev tun)]
  else [(bytes_of "10.8.0.0/24", Dev tun)].

(** The networks that go through the tunnel. *)
Definition vpn_nets : list gostring := words ["0.0.0.0/1"; "128.0.0.0/1"; "10.8.0.0/24"].

Definition linux_dels (r : LinuxRouter) : list (gostring * option hop) :=
  (if decide (lr_tunName r ≠ []) then map (λ d, (d, Some (Dev (lr_tunName r)))) vpn_nets else []) ++
  (if decide (lr_vpnServerIP r ≠ [] ∧ lr_physicalGateway r ≠ [])
   then [(lr_vpnServerIP r, Some (Via (lr_physicalGateway r)))] else []).

Lemma linux_setup_spec tun srv gw r s :
  linux_SetupRoutes tun srv gw r s =
    (mkLinuxRouter tun (server_name (target_ip (host_of srv)) (host_of srv)) gw,
     runs (linux_setup_cmds tun srv gw) s, None) ∧
  Forall2 adds (linux_setup_cmds tun srv gw) (linux_adds tun srv gw).
Proof.
  unfold linux_SetupRoutes, linux_setup_cmds, linux_adds. destruct (remote _).
  - destruct (decide (gw ≠ [])); split; [done|by repeat constructor|done|by repeat constructor].
  - split; [done|by repeat constructor].
Qed.

Lemma linux_restore_spec r s :
  ∃ cmds, linux_RestoreRoutes r s = (r, runs cmds s, None) ∧ Forall2 dels cmds (linux_dels r).
Proof.
  unfold linux_RestoreRoutes, linux_dels.
  destruct (decide (lr_tunName r ≠ [])), (decide (lr_vpnServerIP r ≠ [] ∧ lr_physicalGateway r ≠ [])).
  - eexists [_; _; _; _]. split; [reflexivity|by repeat constructor].
  - eexists [_; _; _]. split; [reflexivity|by repeat constructor].
  - eexists [_]. split; [reflexivity|by repeat constructor].
  - exists []. split; [reflexivity|constructor].
Qed.

(** They are routing commands, so they touch nothing else. *)
Lemma adds_routes cmds ads : Forall2 adds cmds ads → Forall (λ cmd, is_Some (route_op_of cmd)) cmds.
Proof. intros HF. eapply Forall2_Forall_l; [exact HF|]. apply Forall_true. intros a cmd Hc. by eexists. Qed.
Lemma dels_routes cmds os : Forall2 dels cmds os → Forall (λ cmd, is_Some (route_op_of cmd)) cmds.
Proof. intros HF. eapply Forall2_Forall_l; [exact HF|]. apply Forall_true. intros a cmd Hc. by eexists. Qed.

(** *** macOS *)






(** The commands that were run, and where packets go when the setup reports success. *)

End RouterFacts.

(** ** Properties *)

Section RouterProperties.
Context `{R : Resolver, Sh : Shell Sys} {routes : Sys → gostring → hop → Prop}
        {dns : Sys → gostring → list gostring} `{!Routing Sys routes dns}.
Implicit Types (s : Sys) (tun srv gw d : gostring) (h : hop).


Lemma linux_adds_cases tun srv gw d h :
  (d, h) ∈ linux_adds tun srv gw →
  (d ∈ vpn_nets ∧ h = Dev tun) ∨
  (gw ≠ [] ∧ d = server_name (target_ip (host_of srv)) (host_of srv) ∧ h = Via gw).
Proof.
  unfold linux_adds, vpn_nets, words. simpl. destruct (remote _); [case_decide|]; set_solver.
Qed.

(** Setting up, and restoring from any state in which the table is still the same. *)
Lemma linux_routes_run tun srv gw r s :
  let name := server_name (target_ip (host_of srv)) (host_of srv) in
  tun ≠ [] → (gw ≠ [] → name ≠ [] ∧ ¬ routes s name (Via gw)) →
  (∀ d, d ∈ vpn_nets → ¬ routes s d (Dev tun)) →
  let cmds := linux_setup_cmds tun srv gw in
  ∃ r', linux_SetupRoutes tun srv gw r s = (r', runs cmds s, None) ∧
    Forall (λ cmd, is_Some (route_op_of cmd)) cmds ∧
    (∀ s1, (∀ d h, routes s1 d h ↔ routes (runs cmds s) d h) →
     ∃ cmds', linux_RestoreRoutes r' s1 = (r', runs cmds' s1, None) ∧
       Forall (λ cmd, is_Some (route_op_of cmd)) cmds' ∧
       ∀ d h, routes (runs cmds' s1) d h ↔ routes s d h) ∧
    (remote (target_ip (host_of srv)) = true → all_ok cmds s = true →
       routes (runs cmds s) (bytes_of "0.0.0.0/1") (Dev tun) ∧
       routes (runs cmds s) (bytes_of "128.0.0.0/1") (Dev tun) ∧
       (gw ≠ [] → routes (runs cmds s) name (Via gw))) ∧
    (gw = [] → ∀ d h, routes (runs cmds s) d h → routes s d h ∨ h = Dev tun).
Proof.
  intros name Htun Hgw Hfree cmds.
  destruct (linux_setup_spec tun srv gw r s) as [HS HF]. fold cmds in HS, HF.
  set (r' := mkLinuxRouter _ _ _) in HS.
  destruct (runs_add cmds _ s HF) as (Hold & Hnew & Hall).
  exists r'. split_and!; [done|by eapply adds_routes|..].
  - intros s1 Hs1. destruct (linux_restore_spec r' s1) as (cmds' & HR & HF').
    exists cmds'. split; [done|]. split; [by eapply dels_routes|].
    intros d h. rewrite (runs_del cmds' _ _ HF'), Hs1. unfold linux_dels. rewrite Forall_app.
    rewrite decide_True by done. cbn [lr_tunName lr_vpnServerIP lr_physicalGateway r'].
    rewrite Forall_map, Forall_forall. fold name. split.
    + intros (Hr & Hd & Hh). apply Hnew in Hr as [Hr|Hr]; [done|exfalso].
      apply linux_adds_cases in Hr as [[Hd' ->]|(Hg & -> & ->)]; [by eapply Hd|].
      rewrite decide_True in Hh by naive_solver. apply Forall_cons in Hh as [Hh _]. by apply Hh.
    + intros Hr. split_and!; [by apply Hold| |].
      * intros d' Hd' [-> Hh]. simpl in Hh. subst h. by eapply Hfree.
      * case_decide as Hc; [|constructor]. constructor; [|constructor]. intros [-> Hh].
        simpl in Hh. subst h. destruct Hc as [_ Hc]. by apply Hgw in Hc as [_ ?].
  - intros Hrem Hok. specialize (Hall Hok). unfold linux_adds in Hall. rewrite Hrem in Hall.
    split_and!; [apply Hall; set_solver..|]. intros Hg. apply Hall. rewrite decide_True by done.
    set_solver.
  - intros -> d h Hr. apply Hnew in Hr as [Hr|Hr]; [by left|]. right.
    apply linux_adds_cases in Hr as [[_ ?]|[? _]]; done.
Qed.

(** Routing on Linux.  Setting up never fails, and restoring gives back the
    routing table as it was, if it had none of the routes before.  For a remote
    server, if the commands succeed, both halves of the address space go to the
    tunnel.  The route that
    keeps the tunnel's own packets out of the tunnel is added when a gateway is
    given; with an empty one, which is what the client and the daemon pass, every
    route that is added leads into the tunnel. *)
Theorem linux_routes tun srv gw r s :
  let name := server_name (target_ip (host_of srv)) (host_of srv) in
  tun ≠ [] → (gw ≠ [] → name ≠ [] ∧ ¬ routes s name (Via gw)) →
  (∀ d, d ∈ vpn_nets → ¬ routes s d (Dev tun)) →
  ∃ r' s' s'', linux_SetupRoutes tun srv gw r s = (r', s', None) ∧
    linux_RestoreRoutes r' s' = (r', s'', None) ∧
    (∀ d h, routes s'' d h ↔ routes s d h) ∧
    (remote (target_ip (host_of srv)) = true → all_ok (linux_setup_cmds tun srv gw) s = true →
       routes s' (bytes_of "0.0.0.0/1") (Dev tun) ∧ routes s' (bytes_of "128.0.0.0/1") (Dev tun) ∧
       (gw ≠ [] → routes s' name (Via gw))) ∧
    (gw = [] → ∀ d h, routes s' d h → routes s d h ∨ h = Dev tun).
Proof.
  intros name Htun Hgw Hfree.
  destruct (linux_routes_run tun srv gw r s Htun Hgw Hfree) as (r' & HS & _ & Hback & Hon & Hin).
  set (s1 := runs (linux_setup_cmds tun srv gw) s) in *.
  destruct (Hback s1) as (cmds' & HR & _ & Hs); [done|].
  by exists r', s1, (runs cmds' s1).
Qed.




End RouterProperties.

(** ** A concrete system *)

Definition toy_resolver : Resolver := {|
  lookup_ip := λ host, Err (ErrStr "lookup %s: no such host" "?");
  parse_ip6 := λ _, None;
  ip6_string := λ _, []
|}.

Definition demo_sys : ToySys :=
  mkToy [(bytes_of "default", Via (bytes_of "192.168.1.1"))] (λ _, words ["9.9.9.9"]) [] (λ _, false).

Example linux_routes_witness :
  ∃ r' s' s'', linux_SetupRoutes (R := toy_resolver) (bytes_of "ant0") (bytes_of "203.0.113.9") [] (mkLinuxRouter [] [] []) demo_sys
      = (r', s', None) ∧
    linux_RestoreRoutes r' s' = (r', s'', None) ∧
    (∀ d h, (d, h) ∈ toy_routes s'' ↔ (d, h) ∈ toy_routes demo_sys) ∧
    ∀ d h, (d, h) ∈ toy_routes s' → (d, h) ∈ toy_routes demo_sys ∨ h = Dev (bytes_of "ant0").
Proof.
  destruct (linux_routes (R := toy_resolver) (Sys := ToySys) (bytes_of "ant0")
    (bytes_of "203.0.113.9") [] (mkLinuxRouter [] [] []) demo_sys)
    as (r' & s' & s'' & H1 & H2 & H3 & _ & H4).
  - discriminate.
  - intros H. destruct (H eq_refl).
  - intros d _ Hd. apply elem_of_cons in Hd as [Hd|Hd]; [discriminate|by apply elem_of_nil in Hd].
  - exists r', s', s''. split; [exact H1|]. split; [exact H2|]. split; [exact H3|].
    by apply H4.
Defined.

