(* ===== verification/KillSwitch.v ===== *)
(** * The kill switch (pkg/security/killswitch.go)

    The firewall rules set and removed on Linux (iptables) and macOS (pf), over the
    system of System. *)

From stdpp Require Import pretty.
From S2P Require Import Prelude Address System.
Local Open Scope Z_scope.

Record KillSwitch := mkKillSwitch {
  enabled : bool;
  tunName : gostring;
  serverIP : gostring;
  serverPort : Z;
  anchorFile : gostring              (* never used *)
}.

Definition NewKillSwitch (tunName serverIP : gostring) (serverPort : Z) : KillSwitch :=
  mkKillSwitch false tunName serverIP serverPort [].

Definition set_enabled (b : bool) (ks : KillSwitch) : KillSwitch :=
  mkKillSwitch b (tunName ks) (serverIP ks) (serverPort ks) (anchorFile ks).

Section KillSwitch.
Context `{Sh : Shell Sys}.
Implicit Types (ks : KillSwitch) (s : Sys).

(** ** macOS *)

Definition newline : gostring := [x0a].

(** The rules that are loaded into the anchor. *)
Definition pf_rules ks : gostring :=
  let port := bytes_of (pretty (serverPort ks)) in
  newline ++
  bytes_of "set block-policy drop" ++ newline ++
  bytes_of "set skip on lo0" ++ newline ++
  bytes_of "pass out quick on " ++ tunName ks ++ bytes_of " all" ++ newline ++
  bytes_of "pass out quick proto udp to " ++ serverIP ks ++ bytes_of " port " ++ port ++ newline ++
  bytes_of "pass out quick proto tcp to " ++ serverIP ks ++ bytes_of " port " ++ port ++ newline ++
  bytes_of "block out all" ++ newline.

Definition anchor : list gostring := words ["pfctl"; "-a"; "com.anonymousant.killswitch"].

(** The temporary file is removed on every way out. *)
Definition enableDarwin ks s : KillSwitch * Sys * option error :=
  let '(s, f) := create_temp s in
  match f with
  | Err e => (ks, s, Some e)
  | Ok name =>
      let '(s, err) := write_file name (pf_rules ks) s in
      match err with
      | Some e => (ks, remove_file name s, Some e)
      | None =>
          let '(s, (out, err)) := exec (anchor ++ words ["-f"] ++ [name]) s in
          match err with
          | Some e => (ks, remove_file name s, Some (ErrWrap "pfctl anchor load failed: %s: %w" e))
          | None =>
              let s := run (words ["pfctl"; "-e"]) s in
              (set_enabled true ks, remove_file name s, None)
          end
      end
  end.

Definition disableDarwin ks s : KillSwitch * Sys * option error :=
  let s := run (anchor ++ words ["-F"; "all"]) s in
  (set_enabled false ks, s, None).

(** ** Linux *)

Definition enableLinux ks s : KillSwitch * Sys * option error :=
  let s := run (iptables "-I" (accept_server (tunName ks) (serverIP ks))) s in
  let s := run (iptables "-A" (accept_out (bytes_of "lo"))) s in
  let s := run (iptables "-A" (accept_out (tunName ks))) s in
  let s := run (iptables "-A" drop_all) s in
  (set_enabled true ks, s, None).

Definition disableLinux ks s : KillSwitch * Sys * option error :=
  let s := run (iptables "-D" drop_all) s in
  (set_enabled false ks, s, None).

(** ** The exported methods *)

Definition Enable (os : goos) ks s : KillSwitch * Sys * option error :=
  match os with
  | Darwin => enableDarwin ks s
  | Linux => enableLinux ks s
  | Windows => (ks, s, Some (ErrStr "killswitch not implemented for OS %s" "windows"))
  | OtherOS name => (ks, s, Some (ErrStr "killswitch not implemented for OS %s" name))
  end.

Definition Disable (os : goos) ks s : KillSwitch * Sys * option error :=
  match os with
  | Darwin => disableDarwin ks s
  | Linux => disableLinux ks s
  | _ => (ks, s, None)
  end.

Definition IsEnabled ks : bool := enabled ks.
End KillSwitch.

(** ** Properties *)

Section KillSwitchFacts.
Context `{Sh : Shell Sys} {chain : Sys → list rule}
        {verdict : rule → gostring → gostring → option bool} `{!Netfilter Sys chain verdict}.
Implicit Types (ks : KillSwitch) (s : Sys) (l : list rule) (r : rule).

(** The rules of the chain [l] once the switch is on. *)
Definition switched_on ks l : list rule :=
  accept_server (tunName ks) (serverIP ks) :: l ++
  [accept_out (bytes_of "lo"); accept_out (tunName ks); drop_all].

Lemma remove_first_app r l k : r ∉ l → remove_first r (l ++ r :: k) = l ++ k.
Proof.
  induction l as [|x l IH]; intros Hr; simpl; [by rewrite decide_True|].
  apply not_elem_of_cons in Hr as [Hx Hr]. rewrite decide_False by done. by rewrite IH.
Qed.

Lemma accepts_app policy l k out dst :
  accepts verdict policy (l ++ k) out dst =
    accepts verdict (accepts verdict policy k out dst) l out dst.
Proof. induction l as [|r l IH]; simpl; [done|]. by destruct (verdict r out dst). Qed.

Lemma accepts_policy policy policy' l out dst :
  (policy = true → policy' = true) →
  accepts verdict policy l out dst = true → accepts verdict policy' l out dst = true.
Proof. intros Hp. induction l as [|r l IH]; simpl; [done|]. by destruct (verdict r out dst). Qed.

(** Rules none of which drops [out]'s packet leave a packet that is let out alone. *)
Lemma accepting_true l policy out dst :
  Forall (λ r, ∀ out dst, verdict r out dst ≠ Some false) l → policy = true →
  accepts verdict policy l out dst = true.
Proof.
  intros HF Hp. induction HF as [|r l Hr HF IH]; simpl; [done|]. specialize (Hr out dst).
  by destruct (verdict r out dst) as [[]|].
Qed.

(** The commands that switch it on. *)
Definition enable_cmds ks : list (list gostring) :=
  [iptables "-I" (accept_server (tunName ks) (serverIP ks)); iptables "-A" (accept_out (bytes_of "lo"));
   iptables "-A" (accept_out (tunName ks)); iptables "-A" drop_all].

Lemma enableLinux_runs ks s : enableLinux ks s = (set_enabled true ks, runs (enable_cmds ks) s, None).
Proof. done. Qed.

Lemma lo_name : iface_name (bytes_of "lo") = true.
Proof. vm_compute. reflexivity. Qed.

(** Names and addresses the rules are meant for. *)
Definition plain_switch ks : Prop :=
  iface_name (tunName ks) = true ∧ ip4_literal (serverIP ks) = true.

Lemma plain_rules ks :
  plain_switch ks →
  ours (accept_server (tunName ks) (serverIP ks)) ∧ ours (accept_out (bytes_of "lo")) ∧
  ours (accept_out (tunName ks)) ∧ ours drop_all.
Proof.
  intros [Ht Hs]. split_and!; [by apply ours_server|apply ours_out, lo_name|by apply ours_out|apply ours_drop].
Qed.

Lemma enableLinux_chain ks s :
  plain_switch ks → all_ok (enable_cmds ks) s = true →
  chain (runs (enable_cmds ks) s) = switched_on ks (chain s).
Proof.
  intros Hp. destruct (plain_rules ks Hp) as (R1 & R2 & R3 & R4).
  unfold enable_cmds, runs. cbn [all_ok foldl].
  intros (O1 & (O2 & (O3 & (O4 & _)%andb_true_iff)%andb_true_iff)%andb_true_iff)%andb_true_iff.
  rewrite !ipt_append, ipt_insert by done. rewrite O1, O2, O3, O4.
  unfold switched_on. simpl. by rewrite <- !app_assoc.
Qed.

(** Whatever the commands do, the chain grows by rules that accept at both ends, and
    by the drop rule if that command succeeds. *)
Lemma enableLinux_grows ks s :
  plain_switch ks →
  let accepting := Forall (λ r, ∀ out dst, verdict r out dst ≠ Some false) in
  let s3 := runs (take 3 (enable_cmds ks)) s in
  ∃ l1 l2, accepting l1 ∧ accepting l2 ∧
    chain (runs (enable_cmds ks) s) =
      l1 ++ chain s ++ l2 ++ (if ok (iptables "-A" drop_all) s3 then [drop_all] else []).
Proof.
  intros Hp accepting s3. destruct (plain_rules ks Hp) as (R1 & R2 & R3 & R4). destruct Hp as [Ht Hs].
  assert (∀ out dst, verdict (accept_server (tunName ks) (serverIP ks)) out dst ≠ Some false) as V1
    by (intros out dst; rewrite verdict_server by done; by case_decide).
  assert (∀ n out dst, iface_name n = true → verdict (accept_out n) out dst ≠ Some false) as V2
    by (intros n out dst Hn; rewrite verdict_out by done; by case_decide).
  set (c1 := iptables "-I" (accept_server (tunName ks) (serverIP ks))).
  set (c2 := iptables "-A" (accept_out (bytes_of "lo"))). set (c3 := iptables "-A" (accept_out (tunName ks))).
  exists (if ok c1 s then [accept_server (tunName ks) (serverIP ks)] else []),
    ((if ok c2 (run c1 s) then [accept_out (bytes_of "lo")] else []) ++
     (if ok c3 (run c2 (run c1 s)) then [accept_out (tunName ks)] else [])).
  split; [case_match; repeat constructor; done|].
  split; [apply Forall_app; split; case_match; repeat constructor; eauto using lo_name|].
  unfold enable_cmds, runs in *. cbn [foldl] in *.
  rewrite !ipt_append, ipt_insert by done. subst c1 c2 c3 s3. cbn [take foldl].
  repeat case_match; rewrite ?app_nil_r, <- ?app_assoc; done.
Qed.

(** What is let out once the switch is on. *)
Lemma switched_accepts ks l policy out dst :
  plain_switch ks →
  accepts verdict policy (switched_on ks l) out dst =
    if decide (out ≠ tunName ks ∧ dst = serverIP ks) then true
    else accepts verdict (bool_decide (out = bytes_of "lo" ∨ out = tunName ks)) l out dst.
Proof.
  intros [Ht Hs]. unfold switched_on. cbn [accepts].
  rewrite verdict_server by done. case_decide; [done|]. rewrite accepts_app. f_equal.
  cbn [accepts]. rewrite !verdict_out, verdict_drop by (done || apply lo_name).
  case_bool_decide; repeat case_decide; naive_solver.
Qed.

(** What the switch leaves behind. *)
Definition left_over ks l : list rule :=
  accept_server (tunName ks) (serverIP ks) :: l ++ [accept_out (bytes_of "lo"); accept_out (tunName ks)].

(** Switching off with a drop rule of somebody else's in the chain, and without. *)
Lemma remove_foreign ks l1 l2 :
  drop_all ∉ l1 → remove_first drop_all (switched_on ks (l1 ++ drop_all :: l2)) = switched_on ks (l1 ++ l2).
Proof.
  intros Hd. unfold switched_on. simpl. f_equal. rewrite <- app_assoc. simpl.
  rewrite remove_first_app by done. by rewrite <- app_assoc.
Qed.
Lemma remove_own ks l : drop_all ∉ l → remove_first drop_all (switched_on ks l) = left_over ks l.
Proof.
  intros Hd. unfold switched_on, left_over. simpl. f_equal.
  replace (l ++ [accept_out (bytes_of "lo"); accept_out (tunName ks); drop_all])
    with ((l ++ [accept_out (bytes_of "lo"); accept_out (tunName ks)]) ++ [drop_all])
    by (by rewrite <- app_assoc).
  rewrite remove_first_app, app_nil_r; [done|]. rewrite not_elem_of_app. split; [done|].
  rewrite !not_elem_of_cons. split_and!; [done|done|apply not_elem_of_nil].
Qed.

Lemma disableLinux_chain ks s :
  chain (disableLinux ks s).1.2 =
    if ok (iptables "-D" drop_all) s then remove_first drop_all (chain s) else chain s.
Proof. unfold disableLinux. cbn [fst snd]. apply ipt_delete, ours_drop. Qed.

(** C35: the kill switch on Linux, for an interface name and an address that iptables
    takes literally.  When its four commands succeed, a packet to the server that does
    not enter the tunnel is let out; every other packet is judged by the rules that
    were there before, and where these do not decide it is let out exactly through the
    loopback or the tunnel, whatever the chain's policy.  When the drop rule was
    refused, everything that was let out before is let out still, and the switch says
    that it is on all the same.  Switching off deletes one drop rule: the switch's own
    if there was no other, and then its three accept rules stay, so that every cycle
    adds three rules; otherwise the foreign one goes and the switch's keeps blocking.
    When even that deletion fails the chain stays as it is, and the switch says that
    it is off. *)
Theorem killswitch_linux ks s :
  plain_switch ks →
  let on := enableLinux ks s in
  let off := disableLinux on.1.1 on.1.2 in
  let deleted := ok (iptables "-D" drop_all) on.1.2 in
  (all_ok (enable_cmds ks) s = true →
   (∀ policy out dst, accepts verdict policy (chain on.1.2) out dst =
      if decide (out ≠ tunName ks ∧ dst = serverIP ks) then true
      else accepts verdict (bool_decide (out = bytes_of "lo" ∨ out = tunName ks)) (chain s) out dst) ∧
   (deleted = true → drop_all ∉ chain s → chain off.1.2 = left_over ks (chain s)) ∧
   (deleted = true → ∀ l1 l2, chain s = l1 ++ drop_all :: l2 → drop_all ∉ l1 →
      chain off.1.2 = switched_on ks (l1 ++ l2))) ∧
  (ok (iptables "-A" drop_all) (runs (take 3 (enable_cmds ks)) s) = false →
   IsEnabled on.1.1 = true ∧
   ∀ policy out dst, accepts verdict policy (chain s) out dst = true →
     accepts verdict policy (chain on.1.2) out dst = true) ∧
  (deleted = false → IsEnabled off.1.1 = false ∧ chain off.1.2 = chain on.1.2).
Proof.
  intros Hp on off deleted.
  assert (chain off.1.2 = if deleted then remove_first drop_all (chain on.1.2) else chain on.1.2) as Hoff
    by apply disableLinux_chain.
  split; [|split].
  - intros Hok. pose proof (enableLinux_chain ks s Hp Hok : chain on.1.2 = _) as Hon.
    rewrite Hoff, Hon. split_and!.
    + intros policy out dst. by apply switched_accepts.
    + intros ->. apply remove_own.
    + intros -> l1 l2 ->. apply remove_foreign.
  - intros Hdrop. split; [done|]. intros policy out dst Hacc.
    destruct (enableLinux_grows ks s Hp) as (l1 & l2 & H1 & H2 & E).
    change (chain on.1.2) with (chain (runs (enable_cmds ks) s)). rewrite E, Hdrop, app_nil_r.
    rewrite !accepts_app. apply accepting_true; [done|]. revert Hacc. apply accepts_policy.
    intros Hpol. by apply accepting_true.
  - intros Hno. split; [done|]. by rewrite Hoff, Hno.
Qed.

(** The rules are loaded before the switch says it is on, and a switch that is on
    on macOS has loaded them. *)
Lemma enableDarwin_loaded ks s ks' s' err :
  enabled ks = false → enableDarwin ks s = (ks', s', err) →
  (IsEnabled ks' = true ↔ err = None).
Proof.
  intros Hk. unfold enableDarwin. destruct (create_temp s) as [s1 [name|e]].
  - destruct (write_file name _ s1) as [s2 [e|]].
    + intros [= <- _ <-]. unfold IsEnabled. rewrite Hk. done.
    + destruct (exec _ s2) as [s3 [out [e|]]]; intros [= <- _ <-]; [|done].
      unfold IsEnabled. rewrite Hk. done.
  - intros [= <- _ <-]. unfold IsEnabled. rewrite Hk. done.
Qed.
End KillSwitchFacts.

Definition demo_killswitch : KillSwitch :=
  NewKillSwitch (bytes_of "ant0") (bytes_of "203.0.113.9") 8443.

(** A system on which the drop rule is refused. *)
Definition no_drop (cmd : list gostring) : bool := bool_decide (cmd = iptables "-A" drop_all).

Example killswitch_linux_witness :
  let s := mkToy [] (λ _, []) [] (λ _, false) in
  let on := enableLinux demo_killswitch s in
  let leaky := enableLinux demo_killswitch (mkToy [] (λ _, []) [] no_drop) in
  accepts toy_verdict true (toy_chain on.1.2) (bytes_of "eth0") (bytes_of "198.51.100.1") = false ∧
  accepts toy_verdict false (toy_chain on.1.2) (bytes_of "eth0") (bytes_of "203.0.113.9") = true ∧
  toy_chain (disableLinux on.1.1 on.1.2).1.2 =
    [accept_server (bytes_of "ant0") (bytes_of "203.0.113.9");
     accept_out (bytes_of "lo"); accept_out (bytes_of "ant0")] ∧
  IsEnabled leaky.1.1 = true ∧
  accepts toy_verdict true (toy_chain leaky.1.2) (bytes_of "eth0") (bytes_of "198.51.100.1") = true.
Proof.
  intros s on leaky.
  assert (plain_switch demo_killswitch) as Hp by (split; vm_compute; reflexivity).
  destruct (killswitch_linux demo_killswitch s Hp) as (Hk & _ & _).
  destruct Hk as (Hacc & Hoff & _); [vm_compute; reflexivity|]. fold on in Hacc, Hoff.
  destruct (killswitch_linux demo_killswitch (mkToy [] (λ _, []) [] no_drop) Hp) as (_ & Hl & _).
  destruct Hl as [Hl1 Hl2]; [vm_compute; reflexivity|]. fold leaky in Hl1, Hl2.
  split; [rewrite Hacc; vm_compute; reflexivity|]. split; [rewrite Hacc; vm_compute; reflexivity|].
  split; [rewrite Hoff; [reflexivity|vm_compute; reflexivity|apply not_elem_of_nil]|].
  split; [exact Hl1|]. by apply Hl2.
Defined.
