(* ===== verification/Platform.v ===== *)
(** * The system side of a tunnel endpoint (cmd/antclient/main.go,
    cmd/ant-daemon/main.go)

    What the client and the daemon do to the system once the handshake is done:
    create and configure the TUN device, redirect the routes and the name servers,
    switch the kill switch on; and how they take it back. *)

From S2P Require Import Prelude Buffer Address System Tun Router KillSwitch.
Local Open Scope Z_scope.

(** [strconv.Atoi] with the error dropped: 0 on a syntax error, the nearest bound
    when the number does not fit. *)
Fixpoint atoi_digits (acc : Z) (s : gostring) : option Z :=
  match s with
  | [] => Some acc
  | b :: s =>
      match digit b with
      | None => None
      | Some n =>
          if decide (2 ^ 64 <= acc * 10 + n) then Some (2 ^ 64 - 1) else atoi_digits (acc * 10 + n) s
      end
  end.
Definition Atoi (s : gostring) : Z :=
  let '(neg, ds) :=
    match s with
    | x2d :: r => (true, r)
    | x2b :: r => (false, r)
    | _ => (false, s)
    end in
  if decide (ds = []) then 0
  else
    match atoi_digits 0 ds with
    | None => 0
    | Some v => if (neg : bool) then - Z.min v (2 ^ 63) else Z.min v (2 ^ 63 - 1)
    end.

Example Atoi_port : Atoi (bytes_of "8443") = 8443.
Proof. reflexivity. Qed.
Example Atoi_bad : Atoi (bytes_of "84x3") = 0.
Proof. reflexivity. Qed.

(** Host and port of the server for the routes and the kill switch. *)
Definition server_host_port (serverAddr : gostring) : gostring * Z :=
  match SplitHostPort serverAddr with
  | Ok (host, portStr) => (host, Atoi portStr)
  | Err _ => (serverAddr, Atoi (bytes_of "8443"))
  end.

Definition dns_servers : list gostring := words ["1.1.1.1"; "1.0.0.1"].

Section Platform.
Context {D Rt Sys : Type} `{!Device D, !TunDevice D Sys, !Shell Sys, !Router Rt Sys}.
Implicit Types (s : Sys).

(** A device that cannot be created is no device; its address is set otherwise. *)
Definition open_tun_device (name localIP remoteIP : gostring) s : outcome (Sys * option D) :=
  '(s, r) ← CreateTUN name DefaultMTU s;
  match r with
  | Err _ => Ret (s, None)
  | Ok t => Ret ((ConfigureIP (Name t) localIP remoteIP s).1, Some t)
  end.

(** Routes, name servers and, when asked for, the kill switch. *)
Definition setup_system (os : goos) (enableKillSwitch : bool) (t : D) (serverAddr : gostring) s
    : Rt * option KillSwitch * Sys :=
  let '(host, port) := server_host_port serverAddr in
  let '(r, s, _) := SetupRoutes (Name t) host [] NewPlatformRouter s in
  let '(r, s, _) := SetupDNS dns_servers r s in
  if enableKillSwitch then
    let '(ks, s, _) := Enable os (NewKillSwitch (Name t) host port) s in (r, Some ks, s)
  else (r, None, s).

(** The client does so only when told to redirect routes. *)
Definition client_system (os : goos) (enableRoutes enableKillSwitch : bool) (tun : option D)
    (serverAddr : gostring) s : option (Rt * option KillSwitch) * Sys :=
  match tun with
  | Some t =>
      if enableRoutes then
        let '(r, ks, s) := setup_system os enableKillSwitch t serverAddr s in (Some (r, ks), s)
      else (None, s)
  | None => (None, s)
  end.

(** The deferred calls, last one first: kill switch, name servers, routes, device. *)
Definition client_deferred (os : goos) (sys : option (Rt * option KillSwitch)) (tun : option D) s
    : Sys * option D :=
  let s :=
    match sys with
    | None => s
    | Some (r, ks) =>
        let s := match ks with Some ks => let '(_, s, _) := Disable os ks s in s | None => s end in
        let '(r, s, _) := RestoreDNS r s in
        let '(_, s, _) := RestoreRoutes r s in s
    end in
  (s, CloseTun <$> tun).
End Platform.

(** ** The system while the tunnel is up, and after *)

Section LinuxEndpoint.
Context `{R : Resolver, Sh : Shell Sys} {routes : Sys → gostring → hop → Prop}
        {dns : Sys → gostring → list gostring} `{!Routing Sys routes dns}.
Context {chain : Sys → list rule} {verdict : rule → gostring → gostring → option bool}
        `{!Netfilter Sys chain verdict}.
Context {D : Type} `{!Device D, !TunDevice D Sys}.
Implicit Types (s : Sys) (ks : KillSwitch).

(** The two kinds of commands do not touch each other's state. *)
Lemma runs_chain cmds s : Forall (λ cmd, is_Some (route_op_of cmd)) cmds → chain (runs cmds s) = chain s.
Proof.
  intros HF. revert s. induction HF as [|cmd cmds Hop HF IH]; intros s; [done|].
  cbn [runs foldl]. unfold runs in IH. rewrite IH. by apply ipt_routing.
Qed.
Lemma runs_routes cmds s d h : Forall no_routes cmds → routes (runs cmds s) d h ↔ routes s d h.
Proof.
  intros HF. revert s. induction HF as [|cmd cmds Hop HF IH]; intros s; [done|].
  cbn [runs foldl]. unfold runs in IH. rewrite IH. by apply other_route.
Qed.

Lemma enable_routes ks s d h : plain_switch ks → routes (enableLinux ks s).1.2 d h ↔ routes s d h.
Proof.
  intros Hp. destruct (plain_rules ks Hp) as (R1 & R2 & R3 & R4). rewrite enableLinux_runs.
  apply runs_routes. unfold enable_cmds. repeat apply Forall_cons_2; [apply nr_rule; [set_solver|done]..|constructor].
Qed.
Lemma disable_routes ks s d h : routes (disableLinux ks s).1.2 d h ↔ routes s d h.
Proof. unfold disableLinux. simpl. apply other_route, nr_rule; [set_solver|apply ours_drop]. Qed.

(** The two directions, in terms of the router and the switch. *)
Lemma client_up kb (t : D) addr s host port :
  server_host_port addr = (host, port) →
  client_system (Rt := LinuxRouter) Linux true kb (Some t) addr s =
    let '(r, s1, _) := linux_SetupRoutes (Name t) host [] (mkLinuxRouter [] [] []) s in
    let on := enableLinux (NewKillSwitch (Name t) host port) s1 in
    if kb then (Some (r, Some on.1.1), on.1.2) else (Some (r, None), s1).
Proof.
  intros E. unfold client_system, setup_system. rewrite E.
  cbn [SetupRoutes NewPlatformRouter linux_router SetupDNS].
  destruct (linux_SetupRoutes (Name t) host [] (mkLinuxRouter [] [] []) s) as [[r s1] e].
  unfold linux_SetupDNS. destruct kb; [|done]. unfold Enable.
  by destruct (enableLinux _ s1) as [[ks' s'] e'].
Qed.
Lemma client_down r (ko : option KillSwitch) (t : D) s :
  client_deferred Linux (Some (r, ko)) (Some t) s =
    ((linux_RestoreRoutes r (match ko with Some ks => (disableLinux ks s).1.2 | None => s end)).1.2,
     Some (CloseTun t)).
Proof.
  unfold client_deferred, Disable. cbn [RestoreDNS RestoreRoutes linux_router].
  unfold linux_RestoreDNS. destruct ko as [ks|].
  - destruct (disableLinux ks s) as [[ks' s1] e1]. cbn [fst snd].
    by destruct (linux_RestoreRoutes r s1) as [[r' s'] e].
  - by destruct (linux_RestoreRoutes r s) as [[r' s'] e].
Qed.

(** C33: on Linux the client gives back the routes it took, and not all of the rules.
    Told to redirect routes, with a device: while it runs, every route it added leads
    into the tunnel, and for a remote server, if the commands succeed, both halves of
    the address space do, so that the tunnel's own packets have no way around it.  With
    the kill switch, if its commands succeed and the chain was empty, a packet leaves
    exactly through the loopback or the tunnel or to the server; without it, the chain
    is as it was.  After the deferred calls the routing table is as it was, whichever
    commands failed; the chain is as it was without the kill switch, and with it, if
    there was no drop rule and the switch's could be deleted, it has the switch's three
    accept rules in addition.  Without a device, or not told to, the client leaves the
    system alone. *)
Theorem client_system_linux (enableKillSwitch : bool) (t : D) addr s :
  let '(host, port) := server_host_port addr in
  let ks := NewKillSwitch (Name t) host port in
  let setup := linux_setup_cmds (Name t) host [] in
  let up := client_system (Rt := LinuxRouter) Linux true enableKillSwitch (Some t) addr s in
  let down := client_deferred Linux up.1 (Some t) up.2 in
  Name t ≠ [] → (enableKillSwitch = true → plain_switch ks) →
  (∀ d, d ∈ vpn_nets → ¬ routes s d (Dev (Name t))) →
  (∀ d h, routes up.2 d h → routes s d h ∨ h = Dev (Name t)) ∧
  (remote (target_ip (host_of host)) = true → all_ok setup s = true →
     routes up.2 (bytes_of "0.0.0.0/1") (Dev (Name t)) ∧ routes up.2 (bytes_of "128.0.0.0/1") (Dev (Name t))) ∧
  (∀ d h, routes down.1 d h ↔ routes s d h) ∧
  (if enableKillSwitch then
     all_ok (enable_cmds ks) (runs setup s) = true →
     (chain s = [] → ∀ policy out dst, accepts verdict policy (chain up.2) out dst = true ↔
        out = bytes_of "lo" ∨ out = Name t ∨ dst = host) ∧
     (ok (iptables "-D" drop_all) up.2 = true → drop_all ∉ chain s →
        chain down.1 = left_over ks (chain s))
   else chain up.2 = chain s ∧ chain down.1 = chain s) ∧
  down.2 = Some (CloseTun t) ∧
  (∀ er ek, client_system (Rt := LinuxRouter) Linux er ek (None : option D) addr s = (None, s)) ∧
  client_system (Rt := LinuxRouter) Linux false enableKillSwitch (Some t) addr s = (None, s).
Proof.
  destruct (server_host_port addr) as [host port] eqn:Ehp. intros ks setup up down Htun Hplain Hfree.
  destruct (linux_routes_run (Name t) host [] (mkLinuxRouter [] [] []) s Htun)
    as (r' & HS & Hrc & Hback & Hon & Hin); [done|done|]. fold setup in HS, Hrc, Hback, Hon, Hin.
  pose proof (client_up enableKillSwitch t addr s host port Ehp) as Hup. fold up in Hup.
  rewrite HS in Hup. fold ks in Hup. set (s1 := runs setup s) in *. cbv zeta in Hup.
  pose proof (runs_chain setup s Hrc : chain s1 = chain s) as Hc1.
  set (s2 := if enableKillSwitch then (disableLinux (enableLinux ks s1).1.1 (enableLinux ks s1).1.2).1.2
             else s1).
  assert (∀ d h, routes s2 d h ↔ routes s1 d h) as Hr2.
  { intros d h. unfold s2. destruct enableKillSwitch; [|done].
    rewrite disable_routes. by apply enable_routes, Hplain. }
  destruct (Hback s2 Hr2) as (cmds' & HR & Hrc' & Hs').
  assert (down = (runs cmds' s2, Some (CloseTun t))) as Hdown.
  { unfold down. rewrite Hup. destruct enableKillSwitch; cbn [fst snd]; rewrite client_down;
      fold s2; by rewrite HR. }
  assert (∀ d h, routes up.2 d h ↔ routes s1 d h) as Hru.
  { intros d h. rewrite Hup. destruct enableKillSwitch; [by apply enable_routes, Hplain|done]. }
  rewrite Hdown. cbn [fst snd]. split_and!; try done.
  - intros d h Hr%Hru. by apply Hin.
  - intros Hrem Hok. destruct (Hon Hrem Hok) as (H1 & H2 & _). by rewrite !Hru.
  - rewrite (runs_chain cmds') by done. unfold s2. destruct enableKillSwitch; rewrite Hup; cbn [snd]; [|done].
    intros Hok. pose proof (enableLinux_chain ks s1 (Hplain eq_refl) Hok) as Hen. rewrite Hc1 in Hen.
    change (runs (enable_cmds ks) s1) with (enableLinux ks s1).1.2 in Hen. split.
    + intros He policy out dst. rewrite Hen, switched_accepts, He by auto. simpl.
      case_decide; [naive_solver|]. rewrite bool_decide_eq_true. destruct (decide (out = Name t)); naive_solver.
    + intros Hdel Hd. rewrite disableLinux_chain, Hdel, Hen. by apply remove_own.
Qed.
End LinuxEndpoint.

Section PlatformDemo.
#[local] Existing Instance toy_resolver.
#[local] Existing Instance toy_kernel.
#[local] Existing Instance toy_tun_calls.

Example client_system_linux_witness :
  let t := mkLinux (mkTun [] None []) in
  let up := client_system (Rt := LinuxRouter) Linux true true (Some t)
    (bytes_of "203.0.113.9:8443") demo_sys in
  let down := client_deferred Linux up.1 (Some t) up.2 in
  (bytes_of "0.0.0.0/1", Dev (bytes_of "ant0")) ∈ toy_routes up.2 ∧
  accepts toy_verdict true (toy_chain up.2) (bytes_of "eth0") (bytes_of "198.51.100.1") = false ∧
  (∀ d h, (d, h) ∈ toy_routes down.1 ↔ (d, h) ∈ toy_routes demo_sys) ∧ length (toy_chain down.1) = 3%nat.
Proof.
  intros t up down.
  destruct (client_system_linux (Sys := ToySys) (verdict := toy_verdict) true
    t (bytes_of "203.0.113.9:8443") demo_sys) as (_ & Hon & Hr & Hks & _).
  - discriminate.
  - intros _. split; vm_compute; reflexivity.
  - intros d _ [E|H]%elem_of_cons; [discriminate E|]. by apply elem_of_nil in H.
  - destruct Hks as [Hacc Hl]; [vm_compute; reflexivity|].
    split; [apply Hon; vm_compute; reflexivity|]. split; [|split; [exact Hr|]].
    + apply not_true_is_false. intros Ha. apply (Hacc eq_refl) in Ha.
      destruct Ha as [E|[E|E]]; vm_compute in E; discriminate E.
    + assert (drop_all ∉ toy_chain demo_sys) as Hd by apply not_elem_of_nil.
      refine (f_equal length (Hl _ Hd)). vm_compute. reflexivity.
Defined.
End PlatformDemo.
