(* ===== verification/Server.v ===== *)
(** * The exit node (cmd/antserver/main.go)

    The peer table with its shared peer objects, the handler of incoming packets,
    the ingress loops and the egress loop, over the interfaces of the transports
    and of the TUN device.  The server's state is one record; the two loops are
    steps on it.  Key setup, flags, NAT commands and signals are not modelled. *)

From S2P Require Import Prelude Buffer Wire Replay Cipher Encoding Keys Noise Session Address Transport Tun.
Local Open Scope Z_scope.

(** ** PeerTable *)

Record ClientPeer := mkPeer {
  peer_session : option loc;        (* *protocol.Session *)
  peer_transport : option nat;      (* which of the server's transports *)
  peer_addr : option Addr;
  VirtualIP : string;
  peer_last_active : Z
}.

(** The map and [lastActive] hold pointers to the same objects. *)
Record PeerTable := mkPeers {
  peer_store : gmap loc ClientPeer;
  peersByIP : gmap string loc;
  lastActive : option loc
}.

Definition NewPeerTable : PeerTable := mkPeers ∅ ∅ None.

Definition peer_entry (pt : PeerTable) (ip : string) : loc * PeerTable :=
  match peersByIP pt !! ip with
  | Some p => (p, pt)
  | None =>
      let p := fresh (dom (peer_store pt)) in
      (p, mkPeers (<[p := mkPeer None None None ip 0]> (peer_store pt))
                  (<[ip := p]> (peersByIP pt)) (lastActive pt))
  end.

Definition Register_peer (pt : PeerTable) (ip : string) (session : loc) (tr : nat)
    (raddr : Addr) (now : Z) : PeerTable :=
  let '(p, pt) := peer_entry pt ip in
  mkPeers (alter (λ peer, mkPeer (Some session) (Some tr) (Some raddr) (VirtualIP peer) now)
             p (peer_store pt))
          (peersByIP pt) (Some p).

Definition Lookup (pt : PeerTable) (ip : string) : option loc :=
  match peersByIP pt !! ip with
  | Some p => Some p
  | None => lastActive pt
  end.

(** ** The server *)

(** What one call takes from outside: the clock, the random bytes of the index
    and of the ephemeral key, and the pool's choice. *)
Record Env := mkEnv {
  now : Z;
  index_rnd : list byte;
  ephem_rnd : result (list byte);
  pool_choice : option nat
}.

Record Config := mkConfig {
  serverPriv : list byte;
  defaultPeerIP : string
}.

Section Server.
Context `{L : AeadLib, H : HashLib, C : Curve25519}.
Context {T : Type} `{!Transport T} {D : Type} `{!Device D}.

Record Server := mkServer {
  srv_pool : Pool;
  srv_mgr : SessionManager;
  srv_peers : PeerTable;
  srv_transports : list T;
  srv_tun : option D
}.

Definition set_pool (p : Pool) (s : Server) : Server :=
  mkServer p (srv_mgr s) (srv_peers s) (srv_transports s) (srv_tun s).
Definition set_mgr (m : SessionManager) (s : Server) : Server :=
  mkServer (srv_pool s) m (srv_peers s) (srv_transports s) (srv_tun s).
Definition set_peers (pt : PeerTable) (s : Server) : Server :=
  mkServer (srv_pool s) (srv_mgr s) pt (srv_transports s) (srv_tun s).
Definition set_transport (i : nat) (t : T) (s : Server) : Server :=
  mkServer (srv_pool s) (srv_mgr s) (srv_peers s) (<[i := t]> (srv_transports s)) (srv_tun s).
Definition set_tun (d : option D) (s : Server) : Server :=
  mkServer (srv_pool s) (srv_mgr s) (srv_peers s) (srv_transports s) d.

(** Dereferencing a pointer. *)
Definition deref {A} (m : gmap loc A) (p : loc) : outcome A :=
  match m !! p with Some a => Ret a | None => Panic NilDeref end.

Definition store_session (p : loc) (sess : Session) (s : Server) : Server :=
  set_mgr (mkManager (<[p := sess]> (sess_store (srv_mgr s))) (sessions (srv_mgr s))) s.
Definition set_buf (l : loc) (b : PacketBuffer) (s : Server) : Server :=
  set_pool (mkPool (<[l := b]> (heap (srv_pool s))) (free (srv_pool s)) (pool_size (srv_pool s))) s.
Definition put_buf (l : loc) (s : Server) : Server := set_pool (Put (srv_pool s) (Some l)) s.
Definition register_peer (e : Env) (ip : string) (p : loc) (tr : nat) (raddr : Addr)
    (s : Server) : Server :=
  set_peers (Register_peer (srv_peers s) ip p tr raddr (now e)) s.

(** [_ = tr.Send(buf, addr)] *)
Definition send_on (tr : nat) (b : PacketBuffer) (a : option Addr) (s : Server) : outcome Server :=
  match srv_transports s !! tr with
  | None => Panic NilDeref
  | Some t => '(t, _) ← Send t b a; Ret (set_transport tr t s)
  end.

(** The handshake branch of [handleIncomingPacket]. *)
Definition handle_initiation (e : Env) (cfg : Config) (tr : nat) (raddr : Addr)
    (buf : PacketBuffer) (s : Server) : outcome Server :=
  let serverIndex := GenerateIndex (index_rnd e) in
  let responder := NewResponderHandshake (serverPriv cfg) serverIndex in
  msg ← Bytes buf;
  match (ConsumeInitiation (ephem_rnd e) msg responder).1 with
  | Err _ => Ret s
  | Ok (respMsg, sessionKeys) =>
      match NewSession sessionKeys (Some raddr) CipherChaCha20Poly1305 (now e) with
      | Err _ => Ret s
      | Ok session =>
          let p := fresh (dom (sess_store (srv_mgr s))) in
          let s := store_session p session s in
          let s := set_mgr (Register (srv_mgr s) p) s in
          let s := register_peer e (defaultPeerIP cfg) p tr raddr s in
          let '(l, pool) := Get (srv_pool s) (pool_choice e) in
          let s := set_pool pool s in
          respBuf ← deref (heap pool) l;
          let respBuf := load respBuf respMsg in
          let s := set_buf l respBuf s in
          s ← send_on tr respBuf (Some raddr) s;
          Ret (put_buf l s)
      end
  end.

(** The address a data packet's sender is registered under. *)
Definition source_ip (cfg : Config) (buf : PacketBuffer) : outcome string :=
  if decide (20 ≤ Length buf) then
    v ← ip_version buf;
    if decide (v = 4) then b ← Bytes buf; Ret (ip4_string (sub 12 16 b))
    else Ret (defaultPeerIP cfg)
  else Ret (defaultPeerIP cfg).

(** The switch on the message type, after the packet was authenticated. *)
Definition dispatch (e : Env) (cfg : Config) (tr : nat) (raddr : Addr) (h : Header) (p : loc)
    (buf : PacketBuffer) (s : Server) : outcome (Server * PacketBuffer) :=
  if decide (Type_ h = TypeData) then
    ip ← source_ip cfg buf;
    let s := register_peer e ip p tr raddr s in
    match srv_tun s with
    | None => Ret (s, buf)
    | Some d => '(d, buf, _) ← WritePacket d buf; Ret (set_tun (Some d) s, buf)
    end
  else if decide (Type_ h = TypeKeepalive) then
    sess ← deref (sess_store (srv_mgr s)) p;
    let s := store_session p (set_last_active (now e) sess) s in
    Ret (register_peer e (defaultPeerIP cfg) p tr raddr s, buf)
  else if decide (Type_ h = TypeDisconnect) then
    Ret (set_mgr (Remove (srv_mgr s) (ReceiverIndex h)) s, buf)
  else Ret (s, buf).

Definition handle_tunnel (e : Env) (cfg : Config) (tr : nat) (raddr : Addr)
    (buf : PacketBuffer) (s : Server) : outcome (Server * PacketBuffer) :=
  '(buf, r) ← StripHeader buf;
  match r with
  | Err _ => Ret (s, buf)
  | Ok h =>
      match Get_session (srv_mgr s) (ReceiverIndex h) with
      | None => Ret (s, buf)
      | Some p =>
          sess ← deref (sess_store (srv_mgr s)) p;
          '(sess, buf, err) ← DecryptPacket (now e) sess buf h;
          let s := store_session p sess s in
          match err with
          | Some _ => Ret (s, buf)
          | None => dispatch e cfg tr raddr h p buf s
          end
      end
  end.

(** [buf] is a pointer into the pool's heap; the deferred [Put] returns it. *)
Definition handleIncomingPacket (e : Env) (cfg : Config) (tr : nat) (raddr : Addr) (l : loc)
    (s : Server) : outcome Server :=
  buf ← deref (heap (srv_pool s)) l;
  if decide (Length buf = NoiseHandshakeInitSize) then
    s ← handle_initiation e cfg tr raddr buf s;
    Ret (put_buf l s)
  else
    '(s, buf) ← handle_tunnel e cfg tr raddr buf s;
    Ret (put_buf l (set_buf l buf s)).

(** One round of an ingress loop; [None] while the transport blocks.  [e] serves
    the handler, [choice] the loop's own [Get]. *)
Definition ingress (e : Env) (cfg : Config) (tr : nat) (pick : bool) (choice : option nat)
    (s : Server) : option (outcome Server) :=
  let '(l, pool) := Get (srv_pool s) choice in
  let s := set_pool pool s in
  match heap pool !! l, srv_transports s !! tr with
  | Some buf, Some t =>
      '(t, buf, r) ← Receive pick t buf;
      let s := set_buf l buf (set_transport tr t s) in
      match r with
      | Err _ => Some (Ret (put_buf l s))
      | Ok raddr => Some (handleIncomingPacket e cfg tr raddr l s)
      end
  | _, _ => Some (Panic NilDeref)
  end.

(** ** Egress *)

(** The peer a packet from the TUN device goes to. *)
Definition route (buf : PacketBuffer) (pt : PeerTable) : outcome (option loc) :=
  if decide (20 ≤ Length buf) then
    v ← ip_version buf;
    if decide (v = 4) then b ← Bytes buf; Ret (Lookup pt (ip4_string (sub 16 20 b)))
    else Ret (Lookup pt "")
  else Ret (Lookup pt "").

Definition egress_packet (e : Env) (buf : PacketBuffer) (s : Server)
    : outcome (Server * PacketBuffer) :=
  r ← route buf (srv_peers s);
  match r with
  | None => Ret (s, buf)
  | Some q =>
      peer ← deref (peer_store (srv_peers s)) q;
      match peer_session peer, peer_transport peer with
      | Some p, Some tr =>
          sess ← deref (sess_store (srv_mgr s)) p;
          '(sess, buf, err) ← EncryptPacket (now e) sess buf TypeData 0;
          let s := store_session p sess s in
          match err with
          | None => s ← send_on tr buf (peer_addr peer) s; Ret (s, buf)
          | Some _ => Ret (s, buf)
          end
      | _, _ => Ret (s, buf)
      end
  end.

Definition egress (e : Env) (choice : option nat) (s : Server) : option (outcome Server) :=
  match srv_tun s with
  | None => None
  | Some d =>
      let '(l, pool) := Get (srv_pool s) choice in
      let s := set_pool pool s in
      match heap pool !! l with
      | None => Some (Panic NilDeref)
      | Some buf =>
          '(d, buf, err) ← ReadPacket d buf;
          let s := set_buf l buf (set_tun (Some d) s) in
          match err with
          | Some _ => Some (Ret (put_buf l s))
          | None =>
              Some ('(s, buf) ← egress_packet e buf s; Ret (put_buf l (set_buf l buf s)))
          end
      end
  end.
End Server.

#[global] Arguments Server {L} T D.

(** ** The invariant *)

Section Invariant.
Context `{L : AeadLib, !AeadLaws L, H : HashLib, !HashLaws H, C : Curve25519, !CurveLaws C}.
Context {T : Type} `{!Transport T, !TransportSend T} (invT : T → Prop) `{!TransportReceive T invT}.
Context {D : Type} `{!Device D} {emitted : D → list (list byte)} {willing : D → Prop}
        `{!DeviceLaws D emitted willing}.
Implicit Types (s : Server T D) (buf : PacketBuffer) (x : Session).

(** A session that can still encrypt and decrypt. *)
Definition live x : Prop := is_Some (SendCipher x) ∧ is_Some (RecvCipher x).

Record sessions_ok (m : SessionManager) : Prop := {
  so_entry : ∀ i p, sessions m !! i = Some p →
    ∃ x, sess_store m !! p = Some x ∧ LocalIndex x = i ∧ live x
}.

(** Every peer object is complete: a session object, a transport, an address. *)
Definition peer_ok (store : gmap loc Session) (n : nat) (peer : ClientPeer) : Prop :=
  ∃ p tr a, peer_session peer = Some p ∧ is_Some (store !! p) ∧
    peer_transport peer = Some tr ∧ (tr < n)%nat ∧ peer_addr peer = Some a.

Record peers_ok (pt : PeerTable) (store : gmap loc Session) (n : nat) : Prop := {
  po_byip : ∀ ip q, peersByIP pt !! ip = Some q → is_Some (peer_store pt !! q);
  po_last : ∀ q, lastActive pt = Some q → is_Some (peer_store pt !! q);
  po_peer : ∀ q peer, peer_store pt !! q = Some peer → peer_ok store n peer
}.

(** [held] are the buffers the loops hold. *)
Record server_inv s (held : gset loc) : Prop := {
  si_pool : pool_inv (srv_pool s) held;
  si_size : pool_size (srv_pool s) = DefaultBufferSize;
  si_transports : Forall invT (srv_transports s);
  si_sessions : sessions_ok (srv_mgr s);
  si_peers : peers_ok (srv_peers s) (sess_store (srv_mgr s)) (length (srv_transports s))
}.

(** *** Buffers *)

Lemma inv_get s held choice l pool :
  server_inv s held → Get (srv_pool s) choice = (l, pool) →
  server_inv (set_pool pool s) ({[l]} ∪ held) ∧ l ∉ held ∧
  ∃ buf, heap pool !! l = Some buf ∧ pooled DefaultBufferSize buf ∧ wf buf ∧
    Length buf = 0 ∧ Offset buf = 0.
Proof.
  intros [Hp Hs Ht Hm Hpe] HG. pose proof (pool_inv_get _ _ _ _ _ Hp HG) as Hp'.
  destruct (Get_fresh_or_free _ _ _ _ _ Hp HG) as [Hl [b Hb]].
  pose proof (Get_size _ _ _ _ HG) as Hsz. pose proof (inv_pooled _ _ Hp' _ _ Hb) as Hpb.
  rewrite Hsz, Hs in Hpb.
  split; [constructor; try done; simpl; congruence|]. split; [done|].
  exists (Reset b). split; [done|]. split; [done|].
  split; [apply (pooled_reset_wf DefaultBufferSize); [done|apply Hpb]|done].
Qed.

Lemma inv_set_buf s held l buf :
  server_inv s held → l ∈ held → pooled DefaultBufferSize buf → server_inv (set_buf l buf s) held.
Proof.
  intros [Hp Hs Ht Hm Hpe] Hl Hb. constructor; try done. simpl.
  destruct (inv_held_dom _ _ Hp l Hl) as [b0 Hb0].
  eapply pool_inv_step; [exact Hp|]. rewrite <- Hs in Hb. by eapply step_use.
Qed.

Lemma inv_put s held l :
  server_inv s held → l ∈ held → server_inv (put_buf l s) (held ∖ {[l]}).
Proof.
  intros [Hp Hs Ht Hm Hpe] Hl. constructor; try done. simpl.
  eapply pool_inv_step; [exact Hp|]. by apply step_put.
Qed.

(** *** Transports and the TUN device *)

Lemma inv_send_on s held tr buf a :
  server_inv s held → (tr < length (srv_transports s))%nat → wf buf →
  ∃ t t' e, srv_transports s !! tr = Some t ∧ Send t buf (Some a) = Ret (t', e) ∧
    send_on tr buf (Some a) s = Ret (set_transport tr t' s) ∧
    server_inv (set_transport tr t' s) held.
Proof.
  intros [Hp Hs Ht Hm Hpe] Htr Hwf. apply lookup_lt_is_Some_2 in Htr as [t Hlk].
  destruct (Send_safe t buf a Hwf) as [[t' e] HS]. exists t, t', e.
  split; [done|]. split; [done|]. unfold send_on. rewrite Hlk, HS. split; [done|].
  constructor; try done; simpl.
  - apply Forall_insert; [done|]. eapply Send_keeps; [|exact HS].
    by eapply Forall_lookup_1.
  - by rewrite length_insert.
Qed.

Lemma inv_set_tun s held d : server_inv s held → server_inv (set_tun d s) held.
Proof. by intros []. Qed.

(** *** Sessions *)

Lemma store_session_ok m p x x' :
  sessions_ok m → sess_store m !! p = Some x → LocalIndex x' = LocalIndex x →
  (live x → live x') → sessions_ok (mkManager (<[p := x']> (sess_store m)) (sessions m)).
Proof.
  intros [He] Hp Hi Hl. constructor. intros i q Hq. simpl in *.
  destruct (He i q Hq) as (y & Hy & Hyi & Hyl). destruct (decide (q = p)) as [->|Hne].
  - exists x'. rewrite lookup_insert_eq. rewrite Hp in Hy. injection Hy as <-.
    split_and!; [done|congruence|auto].
  - exists y. by rewrite lookup_insert_ne.
Qed.

Lemma peers_ok_store pt store store' n :
  peers_ok pt store n → (∀ p, is_Some (store !! p) → is_Some (store' !! p)) →
  peers_ok pt store' n.
Proof.
  intros [Hb Hl Hpe] Hs. constructor; try done. intros q peer Hq.
  destruct (Hpe q peer Hq) as (p & tr & a & ? & ? & ?). exists p, tr, a. naive_solver.
Qed.

Lemma inv_store_session s held p x x' :
  server_inv s held → sess_store (srv_mgr s) !! p = Some x → LocalIndex x' = LocalIndex x →
  (live x → live x') → server_inv (store_session p x' s) held.
Proof.
  intros [Hp Hs Ht Hm Hpe] Hx Hi Hl. constructor; try done; simpl.
  - by eapply store_session_ok.
  - eapply peers_ok_store; [exact Hpe|]. intros q Hq. apply lookup_insert_is_Some'. auto.
Qed.

(** A new session object, registered under its index. *)
Lemma inv_new_session s held x :
  server_inv s held → live x →
  let p := fresh (dom (sess_store (srv_mgr s))) in
  let s1 := store_session p x s in
  server_inv (set_mgr (Register (srv_mgr s1) p) s1) held ∧
  sess_store (Register (srv_mgr s1) p) = <[p := x]> (sess_store (srv_mgr s)) ∧
  sessions (Register (srv_mgr s1) p) = <[LocalIndex x := p]> (sessions (srv_mgr s)).
Proof.
  intros [Hp Hs Ht [Hm] Hpe] Hl p s1.
  assert (sess_store (srv_mgr s) !! p = None) as Hf by apply not_elem_of_dom, is_fresh.
  assert (Register (srv_mgr s1) p =
            mkManager (<[p := x]> (sess_store (srv_mgr s)))
              (<[LocalIndex x := p]> (sessions (srv_mgr s)))) as ->.
  { unfold Register, s1. simpl. by rewrite lookup_insert_eq. }
  split; [|done]. constructor; try done; simpl.
  - constructor. intros i q. simpl. destruct (decide (i = LocalIndex x)) as [->|Hi].
    + rewrite lookup_insert_eq. intros [= <-]. exists x. by rewrite lookup_insert_eq.
    + rewrite lookup_insert_ne by done. intros Hq. destruct (Hm i q Hq) as (y & Hy & ? & ?).
      exists y. rewrite lookup_insert_ne; [done|]. intros <-. congruence.
  - eapply peers_ok_store; [exact Hpe|]. intros q Hq. apply lookup_insert_is_Some'. auto.
Qed.

Lemma inv_remove s held i :
  server_inv s held → server_inv (set_mgr (Remove (srv_mgr s) i) s) held.
Proof.
  intros [Hp Hs Ht [Hm] Hpe]. unfold Remove.
  destruct (sessions (srv_mgr s) !! i) as [p|] eqn:E; [|by destruct s].
  destruct (Hm i p E) as (x & Hx & Hxi & _).
  constructor; try done; simpl.
  - constructor. intros j q. simpl. rewrite lookup_delete_Some. intros [Hne Hq].
    destruct (Hm j q Hq) as (y & Hy & Hyj & Hyl). exists y. split; [|done].
    rewrite lookup_alter_ne; [done|]. intros ->. congruence.
  - eapply peers_ok_store; [exact Hpe|]. intros q Hq. by rewrite lookup_alter_is_Some.
Qed.

(** *** Peers *)

Lemma peer_entry_ok pt ip q pt' :
  peer_entry pt ip = (q, pt') →
  (∀ ip' q', peersByIP pt !! ip' = Some q' → is_Some (peer_store pt !! q')) →
  is_Some (peer_store pt' !! q) ∧ peersByIP pt' = <[ip := q]> (peersByIP pt) ∧
  lastActive pt' = lastActive pt ∧
  ∀ q', q' ≠ q → peer_store pt' !! q' = peer_store pt !! q'.
Proof.
  unfold peer_entry. destruct (peersByIP pt !! ip) as [q0|] eqn:E; intros [= <- <-] Hb.
  - split_and!; [by eapply Hb|by rewrite insert_id|done|done].
  - simpl. rewrite lookup_insert_eq. split_and!; eauto. intros q' Hq'.
    by rewrite lookup_insert_ne.
Qed.

(** [Register] points the address, and the default route, at one complete peer. *)
Lemma Register_peer_spec pt ip p tr a t store n :
  peers_ok pt store n → is_Some (store !! p) → (tr < n)%nat →
  let pt' := Register_peer pt ip p tr a t in
  peers_ok pt' store n ∧
  ∃ q peer, peersByIP pt' = <[ip := q]> (peersByIP pt) ∧ lastActive pt' = Some q ∧
    peer_store pt' !! q = Some peer ∧ peer_session peer = Some p ∧
    peer_transport peer = Some tr ∧ peer_addr peer = Some a ∧
    ∀ q', q' ≠ q → peer_store pt' !! q' = peer_store pt !! q'.
Proof.
  intros [Hb Hl Hpe] Hp Htr pt'. unfold pt', Register_peer.
  destruct (peer_entry pt ip) as [q pt1] eqn:E.
  destruct (peer_entry_ok _ _ _ _ E Hb) as ([peer1 Hq] & Hby & Hla & Hne). split.
  - constructor; simpl.
    + intros ip' q'. rewrite Hby, lookup_alter_is_Some, lookup_insert_Some.
      intros [[_ <-]|[_ Hq']]; [eauto|].
      destruct (decide (q' = q)) as [->|]; [eauto|]. rewrite Hne by done. eauto.
    + intros q' [= <-]. rewrite lookup_alter_is_Some. eauto.
    + intros q' peer'. destruct (decide (q' = q)) as [->|Hq'].
      * rewrite lookup_alter_eq, Hq. simpl. intros [= <-]. by exists p, tr, a.
      * rewrite lookup_alter_ne, Hne by done. apply Hpe.
  - exists q. eexists. simpl. rewrite lookup_alter_eq, Hq. split_and!; try done.
    intros q' Hq'. by rewrite lookup_alter_ne, Hne.
Qed.

Lemma inv_register_peer s held e ip p tr a :
  server_inv s held → is_Some (sess_store (srv_mgr s) !! p) →
  (tr < length (srv_transports s))%nat → server_inv (register_peer e ip p tr a s) held.
Proof.
  intros [Hp Hs Ht Hm Hpe] Hx Htr. constructor; try done. by apply Register_peer_spec.
Qed.

(** *** The handlers *)

Lemma NewSession_chacha keys addr t :
  zlen (SendKey keys) = 32 → zlen (RecvKey keys) = 32 →
  ∃ x, NewSession keys addr CipherChaCha20Poly1305 t = Ok x ∧ live x ∧
    LocalIndex x = SenderID keys ∧ RemoteIndex x = PeerID keys ∧
    sendCounter x = 0 ∧ replay x = zero_window.
Proof.
  intros Hs Hr. destruct (NewAEADCipher_chacha _ Hs) as (a & _ & Ha).
  destruct (NewAEADCipher_chacha _ Hr) as (b & _ & Hb).
  unfold NewSession. rewrite Ha, Hb. simpl. eexists. split; [reflexivity|].
  repeat split; eexists; done.
Qed.

(** Sessions whose keys agree have the same cipher in that direction. *)
Lemma NewSession_match ka kb aa ab suite ta tb xa xb :
  NewSession ka aa suite ta = Ok xa → NewSession kb ab suite tb = Ok xb →
  SendKey ka = RecvKey kb → SendCipher xa = RecvCipher xb.
Proof.
  intros Ha Hb E. apply NewSession_ok in Ha as (sc & rc & Hsc & _ & ->).
  apply NewSession_ok in Hb as (sc' & rc' & _ & Hrc & ->). simpl. congruence.
Qed.

Lemma handle_initiation_ok e cfg tr raddr buf s held :
  server_inv s held → wf buf → (tr < length (srv_transports s))%nat →
  ∃ s', handle_initiation e cfg tr raddr buf s = Ret s' ∧ server_inv s' held ∧
    length (srv_transports s') = length (srv_transports s) ∧ srv_tun s' = srv_tun s.
Proof.
  intros Hinv Hwf Htr. unfold handle_initiation. rewrite Bytes_wf by done. gsimpl.
  set (rh := NewResponderHandshake _ _).
  destruct (ConsumeInitiation (ephem_rnd e) (contents buf) rh) as [[[resp keys]|err] rh'] eqn:EC;
    simpl; [|by eauto].
  destruct (ConsumeInitiation_inv _ _ _ _ _ _ EC) as
    (es & cpub & ss & a1 & a2 & pay & _ & _ & _ & _ & _ & _ & _ & _ & _ & _ & _ & _ & _ & _ & _ &
     Hresp & Hk1 & Hk2); [done|].
  destruct (NewSession_chacha keys (Some raddr) (now e) Hk1 Hk2) as (x & -> & Hlive & _).
  destruct (inv_new_session s held x Hinv Hlive) as (Hinv1 & Hstore & _).
  set (p := fresh _) in *. set (s1 := store_session p x s) in *.
  set (s2 := set_mgr (Register (srv_mgr s1) p) s1) in *.
  assert (server_inv (register_peer e (defaultPeerIP cfg) p tr raddr s2) held) as Hinv2.
  { apply inv_register_peer; [done| |done]. unfold s2. cbn [srv_mgr set_mgr].
    rewrite Hstore, lookup_insert_eq. eauto. }
  set (s3 := register_peer _ _ _ _ _ _) in *.
  destruct (Get (srv_pool s3) (pool_choice e)) as [l pool] eqn:EG.
  destruct (inv_get s3 held _ l pool Hinv2 EG) as (Hinv3 & Hl & b & Hb & Hpb & Hwb & _ & Hob).
  cbv zeta. fold p s1 s2 s3. change (srv_pool s3) with (srv_pool s) in EG. rewrite EG. unfold deref at 1. rewrite Hb. gsimpl.
  unfold DefaultBufferSize, NoiseHandshakeRespSize in *.
  assert (wf (load b resp) ∧ pooled 2048 (load b resp)) as [Hwl Hpl].
  { destruct Hpb as [Hlen Hcap]. assert (slice_wf (Data b)) by (unfold slice_wf; lia).
    split; [apply load_wf; simpl; (done || lia)|]. split; simpl; [done|]. by rewrite cap_copy_to. }
  assert (server_inv (set_buf l (load b resp) (set_pool pool s3)) ({[l]} ∪ held)) as Hinv4
    by (apply inv_set_buf; [done|set_solver|done]).
  destruct (inv_send_on _ _ tr (load b resp) raddr Hinv4) as (t & t' & e' & _ & _ & -> & Hinv5);
    [done|done|]. gsimpl.
  eexists. split; [reflexivity|]. split; [|split; [simpl; apply length_insert|done]].
  replace held with (({[l]} ∪ held) ∖ {[l]}) by set_solver.
  apply inv_put; [done|set_solver].
Qed.

(** Existing session objects are not touched. *)
Lemma handle_initiation_store e cfg tr raddr buf s s' p x :
  handle_initiation e cfg tr raddr buf s = Ret s' →
  sess_store (srv_mgr s) !! p = Some x → sess_store (srv_mgr s') !! p = Some x.
Proof.
  unfold handle_initiation. destruct (Bytes buf) as [msg|]; [|done]. gsimpl.
  destruct (ConsumeInitiation _ _ _) as [[[resp keys]|err] rh']; simpl; [|by intros [= <-]].
  destruct (NewSession _ _ _ _) as [y|]; [|by intros [= <-]].
  destruct (Get _ _) as [l pool]. unfold deref. destruct (heap pool !! l) as [b|]; [|done]. gsimpl.
  unfold send_on. simpl. destruct (srv_transports s !! tr) as [t|]; [|done].
  destruct (Send t _ _) as [[t' e']|]; [|done]. gsimpl. intros [= <-] Hx. simpl.
  assert (p ≠ fresh (dom (sess_store (srv_mgr s)))) as Hne.
  { intros ->. apply elem_of_dom_2 in Hx. by apply is_fresh in Hx. }
  unfold Register. simpl. rewrite lookup_insert_eq. simpl. by rewrite lookup_insert_ne.
Qed.

Lemma source_ip_ok cfg buf : wf buf → ∃ ip, source_ip cfg buf = Ret ip.
Proof.
  intros Hwf. unfold source_ip. case_decide; [|eauto].
  destruct (ip_version_ok buf Hwf) as [v ->]; [lia|]. gsimpl.
  case_decide; [|eauto]. rewrite Bytes_wf by done. gsimpl. eauto.
Qed.

Lemma dispatch_ok e cfg tr raddr h p buf s held :
  server_inv s held → wf buf → pooled DefaultBufferSize buf →
  is_Some (sess_store (srv_mgr s) !! p) → (tr < length (srv_transports s))%nat →
  ∃ s' buf', dispatch e cfg tr raddr h p buf s = Ret (s', buf') ∧ server_inv s' held ∧
    pooled DefaultBufferSize buf' ∧ length (srv_transports s') = length (srv_transports s).
Proof.
  intros Hinv Hwf Hpb Hp Htr. unfold dispatch. case_decide.
  { destruct (source_ip_ok cfg buf Hwf) as [ip ->]. gsimpl.
    pose proof (inv_register_peer s held e ip p tr raddr Hinv Hp Htr) as Hinv1.
    destruct (srv_tun _) as [d|]; [|by eauto 6].
    destruct (WritePacket_safe d buf DefaultBufferSize Hwf Hpb) as (d' & b' & e' & -> & Hpb').
    gsimpl. eexists _, _. split; [reflexivity|]. split; [by apply inv_set_tun|done]. }
  case_decide.
  { destruct Hp as [x Hx]. unfold deref. rewrite Hx. gsimpl. eexists _, _.
    split; [reflexivity|]. split; [|done]. apply inv_register_peer; [|simpl|done].
    - by eapply inv_store_session.
    - rewrite lookup_insert_eq. eauto. }
  case_decide; [|by eauto 6]. eexists _, _. split; [reflexivity|].
  split; [by apply inv_remove|done].
Qed.

(** Decryption by a live session: no panic, and the session stays live. *)
Lemma DecryptPacket_any t x buf h :
  live x → wf buf → pooled DefaultBufferSize buf →
  ∃ x' buf' err, DecryptPacket t x buf h = Ret (x', buf', err) ∧ live x' ∧
    LocalIndex x' = LocalIndex x ∧ wf buf' ∧ pooled DefaultBufferSize buf'.
Proof.
  intros [Hs [c Hc]] Hwf [Hl Hcap]. unfold DecryptPacket.
  destruct (CheckAndSet (replay x) (Counter h)) as [[] rw].
  - rewrite header_ad_ok. gsimpl. cbn [set_replay RecvCipher]. rewrite Hc.
    destruct (DecryptInPlace_total c buf (Counter h) (header_bytes h) Hwf)
      as (b & err & -> & Hwf' & Hl' & Hc'). gsimpl.
    assert (pooled DefaultBufferSize b) by (split; congruence).
    assert (is_Some (RecvCipher x)) as Hr by (rewrite Hc; eauto).
    destruct err; eexists _, _, _; (split; [reflexivity|]); done.
  - eexists _, _, _. split; [reflexivity|]. split; [split; [exact Hs|simpl; eauto]|done].
Qed.

Lemma handle_tunnel_ok e cfg tr raddr buf s held :
  server_inv s held → wf buf → pooled DefaultBufferSize buf →
  (tr < length (srv_transports s))%nat →
  ∃ s' buf', handle_tunnel e cfg tr raddr buf s = Ret (s', buf') ∧ server_inv s' held ∧
    pooled DefaultBufferSize buf' ∧ length (srv_transports s') = length (srv_transports s).
Proof.
  intros Hinv Hwf Hpb Htr. unfold handle_tunnel.
  destruct (StripHeader_total buf Hwf) as (b1 & r & -> & Hwf1 & Hd1). gsimpl.
  assert (pooled DefaultBufferSize b1) as Hpb1 by (unfold pooled; by rewrite Hd1).
  destruct r as [h|]; [|by eauto 6].
  destruct (Get_session (srv_mgr s) (ReceiverIndex h)) as [p|] eqn:EG; [|by eauto 6].
  destruct (so_entry _ (si_sessions _ _ Hinv) _ _ EG) as (x & Hx & Hxi & Hxl).
  unfold deref. rewrite Hx. gsimpl.
  destruct (DecryptPacket_any (now e) x b1 h Hxl Hwf1 Hpb1)
    as (x' & b2 & err & -> & Hl' & Hi' & Hwf2 & Hpb2). gsimpl.
  pose proof (inv_store_session s held p x x' Hinv Hx Hi' (λ _, Hl')) as Hinv1.
  destruct err; [by eauto 6|].
  apply (dispatch_ok e cfg tr raddr h p b2 (store_session p x' s) held); try done. simpl.
  rewrite lookup_insert_eq. eauto.
Qed.

Lemma handleIncomingPacket_ok e cfg tr raddr l buf s held :
  server_inv s held → l ∈ held → heap (srv_pool s) !! l = Some buf → wf buf →
  (tr < length (srv_transports s))%nat →
  ∃ s', handleIncomingPacket e cfg tr raddr l s = Ret s' ∧ server_inv s' (held ∖ {[l]}) ∧
    length (srv_transports s') = length (srv_transports s).
Proof.
  intros Hinv Hl Hb Hwf Htr. unfold handleIncomingPacket, deref. rewrite Hb. gsimpl.
  assert (pooled DefaultBufferSize buf) as Hpb.
  { rewrite <- (si_size _ _ Hinv). by eapply (inv_pooled _ _ (si_pool _ _ Hinv)). }
  case_decide.
  - destruct (handle_initiation_ok e cfg tr raddr buf s held) as (s' & -> & Hinv' & Hlen & _);
      [done..|]. gsimpl. eexists. split; [reflexivity|]. split; [by apply inv_put|done].
  - destruct (handle_tunnel_ok e cfg tr raddr buf s held) as (s' & b' & -> & Hinv' & Hpb' & Hlen);
      [done..|]. gsimpl. eexists. split; [reflexivity|]. split; [|done].
    apply inv_put; [|done]. by apply inv_set_buf.
Qed.

Lemma ingress_ok e cfg tr pick choice s held :
  server_inv s held → (tr < length (srv_transports s))%nat →
  match ingress e cfg tr pick choice s with
  | None => True
  | Some r => ∃ s', r = Ret s' ∧ server_inv s' held ∧
                length (srv_transports s') = length (srv_transports s)
  end.
Proof.
  intros Hinv Htr. unfold ingress. destruct (Get (srv_pool s) choice) as [l pool] eqn:EG.
  destruct (inv_get s held _ l pool Hinv EG) as (Hinv1 & Hl & b & Hb & Hpb & Hwb & _).
  rewrite Hb. apply lookup_lt_is_Some_2 in Htr as Ht. destruct Ht as [t Ht]. simpl. rewrite Ht.
  pose proof (Forall_lookup_1 _ _ _ _ (si_transports _ _ Hinv) Ht) as Hit.
  destruct (Receive pick t b) as [[[t' b'] r]|] eqn:ER; [|done]. simpl.
  assert (∀ b', pooled DefaultBufferSize b' → invT t' →
    server_inv (set_buf l b' (set_transport tr t' (set_pool pool s))) ({[l]} ∪ held)) as Hset.
  { intros b'' Hpb'' Hit'. apply inv_set_buf; [|set_solver|done].
    destruct Hinv1 as [? ? Htr1 ? ?]. constructor; try done; simpl in *.
    - by apply Forall_insert.
    - by rewrite length_insert. }
  assert (({[l]} ∪ held) ∖ {[l]} = held) as Hheld by set_solver.
  destruct r as [raddr|err].
  - destruct (Receive_wf pick t b t' b' raddr DefaultBufferSize Hit) as (Hwf' & Hpb' & Hit');
      [done|done|done|].
    destruct (handleIncomingPacket_ok e cfg tr raddr l b'
      (set_buf l b' (set_transport tr t' (set_pool pool s))) ({[l]} ∪ held))
      as (s' & -> & Hinv' & Hlen); [by apply Hset|set_solver|simpl; by rewrite lookup_insert_eq|done
      |simpl; by rewrite length_insert|].
    exists s'. rewrite Hheld in Hinv'. split_and!; [done|done|]. rewrite Hlen. simpl.
    apply length_insert.
  - destruct (Receive_err pick t b t' b' err DefaultBufferSize Hit Hpb ER) as [Hpb' Hit'].
    eexists. split; [reflexivity|]. split; [|simpl; apply length_insert].
    rewrite <- Hheld. apply inv_put; [by apply Hset|set_solver].
Qed.
End Invariant.

(** ** The loops as steps *)

Section Steps.
Context `{L : AeadLib, !AeadLaws L, H : HashLib, !HashLaws H, C : Curve25519, !CurveLaws C}.
Context {T : Type} `{!Transport T, !TransportSend T} (invT : T → Prop) `{!TransportReceive T invT}.
Context {D : Type} `{!Device D} {emitted : D → list (list byte)} {willing : D → Prop}
        `{!DeviceLaws D emitted willing}.
Implicit Types (s : Server T D) (buf : PacketBuffer) (x : Session).

(** The state [main] builds before the loops start. *)
Definition NewServer (transports : list T) (tunDev : option D) : Server T D :=
  mkServer GlobalPool (NewSessionManager ∅) NewPeerTable transports tunDev.

(** The rounds of the loops, in any order, and what arrives at the transports and
    at the TUN device between them. *)
Inductive server_step (cfg : Config) : Server T D → Server T D → Prop :=
  | step_ingress e tr pick choice s s' :
      (tr < length (srv_transports s))%nat → ingress e cfg tr pick choice s = Some (Ret s') →
      server_step cfg s s'
  | step_egress e choice s s' :
      egress e choice s = Some (Ret s') → server_step cfg s s'
  | step_network tr t s :
      invT t → server_step cfg s (set_transport tr t s)
  | step_tun d d' s :
      srv_tun s = Some d → server_step cfg s (set_tun (Some d') s).

Lemma NewServer_inv transports tunDev :
  Forall invT transports → server_inv invT (NewServer transports tunDev) ∅.
Proof.
  intros Ht. constructor; simpl; try done.
  - apply (pool_inv_init DefaultBufferSize).
Qed.

Lemma EncryptPacket_keeps t x buf ty f x' buf' err n :
  wf buf → pooled n buf → EncryptPacket t x buf ty f = Ret (x', buf', err) →
  wf buf' ∧ pooled n buf' ∧ LocalIndex x' = LocalIndex x ∧ (live x → live x').
Proof.
  intros Hwf [Hl Hc]. unfold EncryptPacket. rewrite header_ad_ok. gsimpl.
  cbn [set_counter SendCipher]. set (h := mkHeader _ _ _ _). set (x1 := set_counter _ x).
  destruct (decide (cap (Data buf) < Offset buf + Length buf + TagSize)).
  { rewrite EncryptInPlace_full by done. gsimpl. by intros [= <- <- <-]. }
  destruct (SendCipher x) as [c|] eqn:Hs.
  - destruct (EncryptInPlace_ok c buf (Counter h) (header_bytes h))
      as (b1 & HE & Hwf1 & _ & _ & _ & Hl1 & Hc1); [done|lia|].
    change (Counter h) with (u64 (u64 (sendCounter x + 1) - 1)) in HE. rewrite HE. gsimpl.
    assert (pooled n b1) as Hp1 by (split; congruence).
    destruct (decide (can_prepend b1)) as [Hp|Hp].
    + destruct (PrependHeader_ok b1 h Hwf1 Hp) as (b2 & -> & Hwf2 & _ & Hl2 & Hc2). gsimpl.
      intros [= <- <- <-]. split_and!; [done|split; congruence|done|].
      unfold live. simpl. by rewrite Hs.
    + rewrite PrependHeader_full by done. gsimpl. intros [= <- <- <-].
      split_and!; [done|done|done|]. unfold live. simpl. by rewrite Hs.
  - unfold EncryptInPlace. rewrite decide_False by done. by rewrite Bytes_wf.
Qed.

(** A session with a send cipher never panics. *)
Lemma EncryptPacket_live t x buf ty f n :
  is_Some (SendCipher x) → wf buf → pooled n buf →
  ∃ x' buf' err, EncryptPacket t x buf ty f = Ret (x', buf', err) ∧
    wf buf' ∧ pooled n buf' ∧ LocalIndex x' = LocalIndex x ∧ (live x → live x').
Proof.
  intros [c Hs] Hwf Hpb. destruct (EncryptPacket t x buf ty f) as [[[x' b'] err]|pn] eqn:EE.
  { exists x', b', err. split; [done|]. by eapply EncryptPacket_keeps. }
  exfalso. revert EE. unfold EncryptPacket. rewrite header_ad_ok. gsimpl.
  cbn [set_counter SendCipher]. rewrite Hs. set (h := mkHeader _ _ _ _).
  destruct (EncryptInPlace_total c buf (Counter h) (header_bytes h) Hwf)
    as (b1 & e1 & HE & Hwf1 & _).
  change (Counter h) with (u64 (u64 (sendCounter x + 1) - 1)) in HE. rewrite HE. gsimpl.
  destruct e1; [done|].
  destruct (PrependHeader_total b1 h Hwf1) as (b2 & e2 & -> & _). gsimpl. by destruct e2.
Qed.

Lemma route_ok buf pt : wf buf → ∃ ip, route buf pt = Ret (Lookup pt ip).
Proof.
  intros Hwf. unfold route. case_decide; [|eauto].
  destruct (ip_version_ok buf Hwf) as [v ->]; [lia|]. gsimpl. case_decide; [|eauto].
  rewrite Bytes_wf by done. gsimpl. eauto.
Qed.

Lemma Lookup_peer pt store n ip q :
  peers_ok pt store n → Lookup pt ip = Some q → ∃ peer, peer_store pt !! q = Some peer.
Proof.
  intros [Hb Hl _]. unfold Lookup. destruct (peersByIP pt !! ip) eqn:E; [intros [= ->]|]; intros;
    [by eapply Hb|by apply Hl].
Qed.

(** Sending one packet from the TUN device: the invariant survives, and the only
    way to panic is a peer whose session was wiped. *)
Lemma egress_packet_cases e buf s held :
  server_inv invT s held → wf buf → pooled DefaultBufferSize buf →
  (∃ s' buf', egress_packet e buf s = Ret (s', buf') ∧ server_inv invT s' held ∧
     pooled DefaultBufferSize buf') ∨
  (egress_packet e buf s = Panic NilDeref ∧
   ∃ q peer p x, peer_store (srv_peers s) !! q = Some peer ∧ peer_session peer = Some p ∧
     sess_store (srv_mgr s) !! p = Some x ∧ SendCipher x = None).
Proof.
  intros Hinv Hwf Hpb. unfold egress_packet. destruct (route_ok buf (srv_peers s) Hwf) as [ip ->].
  gsimpl. destruct (Lookup (srv_peers s) ip) as [q|] eqn:Eq; [|by left; eauto 6].
  destruct (Lookup_peer _ _ _ _ _ (si_peers _ _ _ Hinv) Eq) as [peer Hq].
  destruct (po_peer _ _ _ (si_peers _ _ _ Hinv) q peer Hq)
    as (p & tr & a & Hp & [x Hx] & Htr & Hn & Ha).
  unfold deref. rewrite Hq. gsimpl. rewrite Hp, Htr, Ha, Hx. gsimpl.
  destruct (EncryptPacket (now e) x buf TypeData 0) as [[[x' b'] err]|pn] eqn:EE; gsimpl.
  - left. destruct (EncryptPacket_keeps _ _ _ _ _ _ _ _ _ Hwf Hpb EE) as (Hwf' & Hpb' & Hi & Hlv).
    pose proof (inv_store_session invT s held p x x' Hinv Hx Hi Hlv) as Hinv1.
    destruct err; [by eauto 6|].
    destruct (inv_send_on invT _ _ tr b' a Hinv1 Hn Hwf') as (t & t' & e' & _ & _ & -> & Hinv2).
    gsimpl. by eauto 6.
  - right. destruct (SendCipher x) as [c|] eqn:Hs.
    + exfalso. destruct (EncryptPacket_live (now e) x buf TypeData 0 DefaultBufferSize)
        as (x' & b' & err & HE & _); [by rewrite Hs|done|done|]. by rewrite HE in EE.
    + split; [|by exists q, peer, p, x]. f_equal. revert EE. unfold EncryptPacket.
      rewrite header_ad_ok. gsimpl. cbn [set_counter SendCipher]. rewrite Hs.
      unfold EncryptInPlace. case_decide; [done|]. rewrite Bytes_wf by done. gsimpl.
      by intros [= <-].
Qed.

Lemma egress_ok e choice s s' held :
  server_inv invT s held → egress e choice s = Some (Ret s') → server_inv invT s' held.
Proof.
  intros Hinv. unfold egress. destruct (srv_tun s) as [d|]; [|done].
  destruct (Get (srv_pool s) choice) as [l pool] eqn:EG.
  destruct (inv_get invT s held _ l pool Hinv EG) as (Hinv1 & Hl & b & Hb & Hpb & Hwb & _).
  rewrite Hb. destruct (ReadPacket d b) as [[[d' b'] err]|] eqn:ER; [|done]. simpl.
  assert (({[l]} ∪ held) ∖ {[l]} = held) as Hheld by set_solver.
  assert (∀ b', pooled DefaultBufferSize b' →
    server_inv invT (set_buf l b' (set_tun (Some d') (set_pool pool s))) ({[l]} ∪ held)) as Hset.
  { intros b'' Hpb''. apply inv_set_buf; [by apply inv_set_tun|set_solver|done]. }
  destruct err as [err|].
  - intros [= <-]. apply ReadPacket_err with (n := DefaultBufferSize) in ER; [|done].
    rewrite <- Hheld. apply inv_put; [by apply Hset|set_solver].
  - apply ReadPacket_wf with (n := DefaultBufferSize) in ER as [Hwf' Hpb'];
      [|unfold DefaultBufferSize; lia|done].
    destruct (egress_packet_cases e b' _ _ (Hset b' Hpb') Hwf' Hpb')
      as [(s2 & b2 & -> & Hinv2 & Hpb2)|[-> _]]; [|done].
    gsimpl. intros [= <-]. rewrite <- Hheld. apply inv_put; [|set_solver].
    apply inv_set_buf; [done|set_solver|done].
Qed.

Lemma server_reachable_inv cfg transports tunDev s :
  Forall invT transports → rtc (server_step cfg) (NewServer transports tunDev) s →
  server_inv invT s ∅.
Proof.
  intros Ht Hr. apply (rtc_ind_r (λ s, server_inv invT s ∅) (NewServer transports tunDev)) in Hr;
    [done|by apply NewServer_inv|].
  clear s Hr. intros s s' _ Hstep Hinv. inversion Hstep; subst.
  - pose proof (ingress_ok invT e cfg tr pick choice s ∅ Hinv H0) as Hi. rewrite H1 in Hi.
    destruct Hi as (s2 & [= <-] & ? & _). done.
  - by eapply egress_ok.
  - destruct Hinv as [? ? Htr ? ?]. constructor; try done; simpl.
    + destruct (decide (tr < length (srv_transports s))%nat).
      * by apply Forall_insert.
      * by rewrite list_insert_ge by lia.
    + by rewrite length_insert.
  - by apply inv_set_tun.
Qed.
End Steps.

(** ** Properties *)

Section ServerProperties.
Context `{L : AeadLib, !AeadLaws L, H : HashLib, !HashLaws H, C : Curve25519, !CurveLaws C}.
Context {T : Type} `{!Transport T, !TransportSend T} (invT : T → Prop) `{!TransportReceive T invT}.
Context {D : Type} `{!Device D} {emitted : D → list (list byte)} {willing : D → Prop}
        `{!DeviceLaws D emitted willing}.
Implicit Types (s : Server T D) (buf : PacketBuffer) (x : Session) (c : AEADCipher).

(** A peer object whose session was wiped. *)
Definition stale_peer s : Prop :=
  ∃ q peer p x, peer_store (srv_peers s) !! q = Some peer ∧ peer_session peer = Some p ∧
    sess_store (srv_mgr s) !! p = Some x ∧ SendCipher x = None.

Lemma egress_panics e choice s held pn :
  server_inv invT s held → egress e choice s = Some (Panic pn) → pn = NilDeref ∧ stale_peer s.
Proof.
  intros Hinv. unfold egress. destruct (srv_tun s) as [d|]; [|done].
  destruct (Get (srv_pool s) choice) as [l pool] eqn:EG.
  destruct (inv_get invT s held _ l pool Hinv EG) as (Hinv1 & Hl & b & Hb & Hpb & Hwb & _).
  rewrite Hb. destruct (ReadPacket d b) as [[[d' b'] err]|] eqn:ER; [|done]. simpl.
  destruct err as [err|]; [done|].
  apply ReadPacket_wf with (n := DefaultBufferSize) in ER as [Hwf' Hpb'];
    [|unfold DefaultBufferSize; lia|done].
  destruct (egress_packet_cases invT e b' (set_buf l b' (set_tun (Some d') (set_pool pool s)))
    ({[l]} ∪ held)) as [(s2 & b2 & -> & _)|[-> Hst]];
    [apply inv_set_buf; [by apply inv_set_tun|set_solver|done]|done|done|done|].
  gsimpl. intros [= <-]. split; [done|exact Hst].
Qed.

(** C1: the ingress side of the server never panics.  In every state the server
    reaches, by any interleaving of its ingress and egress rounds and whatever
    arrives at the transports and at the TUN device, a round of any ingress loop
    blocks or returns, for every packet, every random choice and every clock; the
    session table holds only live sessions under their own index; and a round of
    the egress loop can only panic when a peer object points to a session that
    was removed. *)
Theorem server_ingress_safe cfg transports tunDev s :
  Forall invT transports → rtc (server_step invT cfg) (NewServer transports tunDev) s →
  (∀ e tr pick choice r, (tr < length (srv_transports s))%nat →
     ingress e cfg tr pick choice s = Some r → ∃ s', r = Ret s') ∧
  (∀ i p, Get_session (srv_mgr s) i = Some p →
     ∃ x, sess_store (srv_mgr s) !! p = Some x ∧ LocalIndex x = i ∧ live x) ∧
  (∀ e choice pn, egress e choice s = Some (Panic pn) → stale_peer s).
Proof.
  intros Ht Hr. pose proof (server_reachable_inv invT cfg transports tunDev s Ht Hr) as Hinv.
  split_and!.
  - intros e tr pick choice r Htr Hi.
    pose proof (ingress_ok invT e cfg tr pick choice s ∅ Hinv Htr) as Hok. rewrite Hi in Hok.
    destruct Hok as (s' & -> & _). eauto.
  - apply (so_entry _ (si_sessions _ _ _ Hinv)).
  - intros e choice pn He. by eapply egress_panics.
Qed.

(** A packet that is sealed for a session of the table, with a new counter. *)
Record authentic s buf (h : Header) (p : loc) x c (payload : list byte) : Prop := {
  au_wf : wf buf;
  au_header : header_wf h;
  au_entry : Get_session (srv_mgr s) (ReceiverIndex h) = Some p;
  au_session : sess_store (srv_mgr s) !! p = Some x;
  au_cipher : RecvCipher x = Some c;
  au_contents : contents buf = wire_packet c h payload;
  au_fresh : (CheckAndSet (replay x) (Counter h)).1 = true
}.

Lemma handle_tunnel_authentic e cfg tr raddr s buf h p x c payload held :
  server_inv invT s held → authentic s buf h p x c payload → pooled DefaultBufferSize buf →
  ∃ x' buf', handle_tunnel e cfg tr raddr buf s =
      dispatch e cfg tr raddr h p buf' (store_session p x' s) ∧
    wf buf' ∧ pooled DefaultBufferSize buf' ∧ contents buf' = payload ∧
    LocalIndex x' = LocalIndex x ∧ live x' ∧ server_inv invT (store_session p x' s) held.
Proof.
  intros Hinv [Hwf Hh He Hx Hc Hcont Hfresh] Hpb. unfold handle_tunnel.
  destruct (strip_header_bytes buf h _ Hwf Hh Hcont) as (b1 & -> & Hwf1 & Hb1 & _ & Hd1). gsimpl.
  rewrite He. unfold deref at 1. rewrite Hx. gsimpl. unfold DecryptPacket.
  destruct (CheckAndSet (replay x) (Counter h)) as [v rw]. simpl in Hfresh. subst v.
  rewrite header_ad_ok. gsimpl. cbn [set_replay RecvCipher]. rewrite Hc.
  destruct (DecryptInPlace_ok c b1 (Counter h) (header_bytes h) payload)
    as (b2 & -> & Hwf2 & Hb2 & _ & _ & Hl2 & Hc2); [done|by rewrite Hb1, Open_Seal|]. gsimpl.
  destruct (so_entry _ (si_sessions _ _ _ Hinv) _ _ He) as (y & Hy & _ & [Hys Hyr]).
  rewrite Hx in Hy. injection Hy as <-.
  eexists _, b2. split; [reflexivity|].
  assert (pooled DefaultBufferSize b2) as Hpb2.
  { destruct Hpb as [E1 E2]. split; [rewrite Hl2, Hd1|rewrite Hc2, Hd1]; done. }
  split; [done|]. split; [done|]. split; [done|]. split; [done|].
  assert (live (set_last_active (now e) (set_replay rw x))) as Hlv by (split; simpl; eauto).
  split; [exact Hlv|]. by eapply inv_store_session.
Qed.

(** The addresses in an IPv4 packet, as the server reads them. *)
Definition is_ipv4 (pl : list byte) : bool :=
  bool_decide (20 ≤ zlen pl ∧ Z.shiftr (byte_to_Z (pl !!! 0%nat)) 4 = 4).
Definition source_of (cfg : Config) (pl : list byte) : string :=
  if is_ipv4 pl then ip4_string (sub 12 16 pl) else defaultPeerIP cfg.
Definition destination_of (pl : list byte) : string :=
  if is_ipv4 pl then ip4_string (sub 16 20 pl) else "".

Lemma ip_version_contents buf :
  wf buf → 20 ≤ Length buf →
  ip_version buf = Ret (Z.shiftr (byte_to_Z (contents buf !!! 0%nat)) 4).
Proof.
  intros Hwf Hl. unfold ip_version. rewrite Bytes_wf by done. gsimpl.
  pose proof (zlen_contents _ Hwf) as Hz. destruct (contents buf); [|done].
  change (zlen (@nil byte)) with 0 in Hz. lia.
Qed.

Lemma source_ip_of cfg buf : wf buf → source_ip cfg buf = Ret (source_of cfg (contents buf)).
Proof.
  intros Hwf. unfold source_ip, source_of, is_ipv4. rewrite zlen_contents by done.
  destruct (decide (20 ≤ Length buf)).
  - rewrite ip_version_contents by done. gsimpl. case_decide as Hv.
    + rewrite Bytes_wf by done. gsimpl. by rewrite bool_decide_eq_true_2.
    + by rewrite bool_decide_eq_false_2 by tauto.
  - by rewrite bool_decide_eq_false_2 by tauto.
Qed.

Lemma route_of buf pt : wf buf → route buf pt = Ret (Lookup pt (destination_of (contents buf))).
Proof.
  intros Hwf. unfold route, destination_of, is_ipv4. rewrite zlen_contents by done.
  destruct (decide (20 ≤ Length buf)).
  - rewrite ip_version_contents by done. gsimpl. case_decide as Hv.
    + rewrite Bytes_wf by done. gsimpl. by rewrite bool_decide_eq_true_2.
    + by rewrite bool_decide_eq_false_2 by tauto.
  - by rewrite bool_decide_eq_false_2 by tauto.
Qed.

(** The peer a packet to [ip] would be sent to: its session, transport, address. *)
Definition routed_to s (ip : string) (p : loc) (tr : nat) (a : Addr) : Prop :=
  ∃ q peer, Lookup (srv_peers s) ip = Some q ∧ peer_store (srv_peers s) !! q = Some peer ∧
    peer_session peer = Some p ∧ peer_transport peer = Some tr ∧ peer_addr peer = Some a.

Lemma register_peer_routes s held e ip p tr a :
  server_inv invT s held → is_Some (sess_store (srv_mgr s) !! p) →
  (tr < length (srv_transports s))%nat →
  let s' := register_peer e ip p tr a s in
  routed_to s' ip p tr a ∧
  ∀ ip', peersByIP (srv_peers s) !! ip' = None → routed_to s' ip' p tr a.
Proof.
  intros Hinv Hp Htr s'.
  destruct (Register_peer_spec (srv_peers s) ip p tr a (now e) _ _ (si_peers _ _ _ Hinv) Hp Htr)
    as (_ & q & peer & Hby & Hla & Hq & Hps & Hpt & Hpa & _).
  split.
  - exists q, peer. unfold Lookup, s'. simpl. rewrite Hby, lookup_insert_eq. done.
  - intros ip' Hip. exists q, peer. unfold Lookup, s'. simpl. rewrite Hby.
    destruct (decide (ip = ip')) as [->|]; [by rewrite lookup_insert_eq|].
    rewrite lookup_insert_ne, Hip by done. done.
Qed.

(** An authentic data packet through the handler. *)
Lemma forward_run e cfg tr raddr l s held buf h p x c payload d :
  server_inv invT s held → l ∈ held → heap (srv_pool s) !! l = Some buf →
  authentic s buf h p x c payload → Type_ h = TypeData → zlen payload ≠ 78 →
  0 < zlen payload → (tr < length (srv_transports s))%nat →
  srv_tun s = Some d → willing d →
  ∃ s' d', handleIncomingPacket e cfg tr raddr l s = Ret s' ∧ server_inv invT s' (held ∖ {[l]}) ∧
    srv_tun s' = Some d' ∧ emitted d' = emitted d ++ [payload] ∧
    routed_to s' (source_of cfg payload) p tr raddr ∧
    ∀ ip, peersByIP (srv_peers s) !! ip = None → routed_to s' ip p tr raddr.
Proof.
  intros Hinv Hl Hb Ha Hty Hn78 Hpos Htr Hd Hw. pose proof Ha as [Hwf Hh He Hx Hc Hcont Hfr].
  assert (pooled DefaultBufferSize buf) as Hpb.
  { rewrite <- (si_size _ _ _ Hinv). by eapply (inv_pooled _ _ (si_pool _ _ _ Hinv)). }
  assert (Length buf = zlen payload + 30) as Hlen.
  { rewrite <- (zlen_contents buf Hwf), Hcont. unfold wire_packet.
    rewrite zlen_app, Seal_length, zlen_header_bytes. unfold TagSize. lia. }
  unfold handleIncomingPacket, deref. rewrite Hb. gsimpl.
  rewrite decide_False by (rewrite Hlen; unfold NoiseHandshakeInitSize; lia).
  destruct (handle_tunnel_authentic e cfg tr raddr s buf h p x c payload held Hinv Ha Hpb)
    as (x' & b' & -> & Hwf' & Hpb' & Hpl & Hi & Hlv & Hinv1).
  set (s1 := store_session p x' s) in *.
  assert (is_Some (sess_store (srv_mgr s1) !! p)) as Hp1
    by (unfold s1; simpl; rewrite lookup_insert_eq; eauto).
  unfold dispatch. rewrite decide_True by done. rewrite source_ip_of, Hpl by done. gsimpl.
  set (ip := source_of cfg payload).
  pose proof (inv_register_peer invT s1 held e ip p tr raddr Hinv1 Hp1 Htr) as Hinv2.
  destruct (register_peer_routes s1 held e ip p tr raddr Hinv1 Hp1 Htr) as [Hr1 Hr2].
  set (s2 := register_peer e ip p tr raddr s1) in *.
  change (srv_tun s2) with (srv_tun s). rewrite Hd.
  destruct (WritePacket_emits d b' Hwf' Hw) as (d' & b2 & HW & Hem & _);
    [rewrite <- (zlen_contents b' Hwf'), Hpl; lia|].
  destruct (WritePacket_safe d b' DefaultBufferSize Hwf' Hpb') as (d2 & b3 & e3 & HW' & Hpb3).
  rewrite HW in HW'. injection HW' as <- <- <-. rewrite HW. gsimpl.
  eexists _, d'. split; [reflexivity|]. split; [|split; [done|split; [by rewrite Hem, Hpl|done]]].
  apply inv_put; [|done]. apply inv_set_buf; [by apply inv_set_tun|done|done].
Qed.

(** C21: data packets are forwarded, and their source address takes over the
    route.  An authentic, fresh data packet with a non-empty payload (of any size
    but 78 bytes) is written to the TUN device unchanged; from then on packets to
    the payload's source address, and packets to any address nobody claimed
    before, go to the sender.  The theorem has no condition on who the address
    belonged to: any client can claim any client's address. *)
Theorem data_forwarded e cfg tr raddr l s held buf h p x c payload d :
  server_inv invT s held → l ∈ held → heap (srv_pool s) !! l = Some buf →
  authentic s buf h p x c payload → Type_ h = TypeData → zlen payload ≠ 78 →
  0 < zlen payload → (tr < length (srv_transports s))%nat →
  srv_tun s = Some d → willing d →
  ∃ s' d', handleIncomingPacket e cfg tr raddr l s = Ret s' ∧ server_inv invT s' (held ∖ {[l]}) ∧
    srv_tun s' = Some d' ∧ emitted d' = emitted d ++ [payload] ∧
    routed_to s' (source_of cfg payload) p tr raddr ∧
    ∀ ip, peersByIP (srv_peers s) !! ip = None → routed_to s' ip p tr raddr.
Proof. apply forward_run. Qed.

(** C22: a clean disconnect arms a crash of the server.  The handler of an
    authentic disconnect packet removes and wipes the session but leaves it in
    the peer table.  After it, the first packet from the TUN device that is routed
    to that peer object, and that fits with its tag, makes the egress loop
    dereference the wiped session's nil cipher: the process dies for all
    clients. *)
Theorem disconnect_crashes_egress e cfg tr raddr l s held buf h p x c payload q peer :
  server_inv invT s held → l ∈ held → heap (srv_pool s) !! l = Some buf →
  authentic s buf h p x c payload → Type_ h = TypeDisconnect → zlen payload ≠ 78 →
  peer_store (srv_peers s) !! q = Some peer → peer_session peer = Some p →
  ∃ s', handleIncomingPacket e cfg tr raddr l s = Ret s' ∧
    Get_session (srv_mgr s') (ReceiverIndex h) = None ∧ srv_peers s' = srv_peers s ∧
    stale_peer s' ∧
    ∀ e' out, wf out → Offset out + Length out + TagSize ≤ cap (Data out) →
      Lookup (srv_peers s') (destination_of (contents out)) = Some q →
      egress_packet e' out s' = Panic NilDeref.
Proof.
  intros Hinv Hl Hb Ha Hty Hn78 Hq Hqp. pose proof Ha as [Hwf Hh He Hx Hc Hcont Hfr].
  assert (pooled DefaultBufferSize buf) as Hpb.
  { rewrite <- (si_size _ _ _ Hinv). by eapply (inv_pooled _ _ (si_pool _ _ _ Hinv)). }
  assert (Length buf = zlen payload + 30) as Hlen.
  { rewrite <- (zlen_contents buf Hwf), Hcont. unfold wire_packet.
    rewrite zlen_app, Seal_length, zlen_header_bytes. unfold TagSize. lia. }
  unfold handleIncomingPacket, deref. rewrite Hb. gsimpl.
  rewrite decide_False by (rewrite Hlen; unfold NoiseHandshakeInitSize; lia).
  destruct (handle_tunnel_authentic e cfg tr raddr s buf h p x c payload held Hinv Ha Hpb)
    as (x' & b' & -> & _ & _ & _ & _ & _ & Hinv1).
  unfold dispatch. rewrite !decide_False, decide_True
    by (rewrite ?Hty; done). gsimpl.
  set (m := Remove (srv_mgr (store_session p x' s)) (ReceiverIndex h)).
  assert (m = delete_index (wipe_at (srv_mgr (store_session p x' s)) p) (ReceiverIndex h)) as Hm.
  { unfold m, Remove. simpl. unfold Get_session in He. by rewrite He. }
  assert (sess_store m !! p = Some (Wipe x')) as Hwiped.
  { rewrite Hm. simpl. by rewrite lookup_alter_eq, lookup_insert_eq. }
  eexists. split; [reflexivity|]. split_and!.
  - unfold Get_session. simpl. rewrite Hm. simpl. apply lookup_delete_eq.
  - done.
  - by exists q, peer, p, (Wipe x').
  - intros e' out Hwo Hcap Hlk. unfold egress_packet. rewrite route_of by done. gsimpl.
    rewrite Hlk. destruct (po_peer _ _ _ (si_peers _ _ _ Hinv) q peer Hq)
      as (p' & tr' & a & Hp' & _ & Htr' & _ & Ha').
    unfold deref. cbn [srv_peers srv_mgr put_buf set_buf set_pool set_mgr store_session].
    rewrite Hq. gsimpl. rewrite Hqp, Htr'. fold m. rewrite Hwiped. gsimpl.
    by rewrite EncryptPacket_wiped.
Qed.

(** C30: data packets of one size are lost.  A 78-byte payload makes a packet of
    108 bytes, the length of a handshake initiation, and the server tells the two
    apart by length alone: whatever such a packet contains, the handler treats it
    as an initiation, writes nothing to the TUN device, and neither decrypts it
    nor counts it in any existing session. *)
Theorem payload_78_lost :
  (∀ t x c buf ty f, SendCipher x = Some c → u64_range (sendCounter x) → wf buf →
     tunnel_room buf → Length buf = 78 →
     ∃ x' buf', EncryptPacket t x buf ty f = Ret (x', buf', None) ∧
       Length buf' = NoiseHandshakeInitSize) ∧
  ∀ e cfg tr raddr l s held buf,
    server_inv invT s held → l ∈ held → heap (srv_pool s) !! l = Some buf → wf buf →
    Length buf = NoiseHandshakeInitSize → (tr < length (srv_transports s))%nat →
    ∃ s', handleIncomingPacket e cfg tr raddr l s = Ret s' ∧ srv_tun s' = srv_tun s ∧
      ∀ p x, sess_store (srv_mgr s) !! p = Some x → sess_store (srv_mgr s') !! p = Some x.
Proof.
  split.
  - intros t x c buf ty f Hc Hctr Hwf Hroom Hlen.
    destruct (EncryptPacket_ok t x c buf ty f Hc Hctr Hwf Hroom) as (b' & -> & Hwf' & Hcont & _).
    eexists _, b'. split; [reflexivity|]. rewrite <- (zlen_contents b' Hwf'), Hcont.
    unfold wire_packet. rewrite zlen_app, Seal_length, zlen_header_bytes, zlen_contents, Hlen by done.
    done.
  - intros e cfg tr raddr l s held buf Hinv Hl Hb Hwf Hlen Htr.
    unfold handleIncomingPacket, deref. rewrite Hb. gsimpl. rewrite decide_True by done.
    destruct (handle_initiation_ok invT e cfg tr raddr buf s held Hinv Hwf Htr)
      as (s' & Hi & _ & _ & Htun). rewrite Hi. gsimpl.
    eexists. split; [reflexivity|]. split; [done|]. intros p x Hx. simpl.
    by eapply handle_initiation_store.
Qed.

(** A packet from the TUN device through the egress loop. *)
Lemma egress_run e s held buf p tr a x c :
  server_inv invT s held → wf buf → tunnel_room buf →
  routed_to s (destination_of (contents buf)) p tr a →
  sess_store (srv_mgr s) !! p = Some x → SendCipher x = Some c → u64_range (sendCounter x) →
  ∃ t t' err s' buf', srv_transports s !! tr = Some t ∧
    contents buf' = wire_packet c (next_header x TypeData 0) (contents buf) ∧
    Send t buf' (Some a) = Ret (t', err) ∧ egress_packet e buf s = Ret (s', buf') ∧
    srv_transports s' = <[tr := t']> (srv_transports s) ∧
    ∃ x', sess_store (srv_mgr s') !! p = Some x' ∧ sendCounter x' = u64 (sendCounter x + 1) ∧
      SendCipher x' = Some c.
Proof.
  intros Hinv Hwf Hroom (q & peer & Hlk & Hq & Hps & Hpt & Hpa) Hx Hc Hctr.
  destruct (po_peer _ _ _ (si_peers _ _ _ Hinv) q peer Hq)
    as (p' & tr' & a' & Hps' & _ & Hpt' & Htr & _).
  rewrite Hpt in Hpt'. injection Hpt' as <-.
  destruct (EncryptPacket_ok (now e) x c buf TypeData 0 Hc Hctr Hwf Hroom)
    as (b' & HE & Hwf' & Hcont & _).
  apply lookup_lt_is_Some_2 in Htr as [t Ht]. destruct (Send_safe t b' a Hwf') as [[t' err] HS].
  eexists t, t', err, _, b'. split; [done|]. split; [done|]. split; [done|]. split.
  { unfold egress_packet. rewrite route_of by done. gsimpl. rewrite Hlk. unfold deref.
    rewrite Hq. gsimpl. rewrite Hps, Hpt, Hpa, Hx. gsimpl. rewrite HE. gsimpl.
    unfold send_on. simpl. rewrite Ht, HS. gsimpl. reflexivity. }
  split; [done|]. eexists. simpl. rewrite lookup_insert_eq. split; [reflexivity|]. done.
Qed.

(** Return traffic reaches its client.  A packet from the TUN device whose
    destination is routed to a live session, and that leaves room for tag and
    header, is sealed as that session's next data packet and handed to the peer's
    transport for the peer's address, and the session's counter advances by one. *)
Theorem egress_delivers e s held buf p tr a x c :
  server_inv invT s held → wf buf → tunnel_room buf →
  routed_to s (destination_of (contents buf)) p tr a →
  sess_store (srv_mgr s) !! p = Some x → SendCipher x = Some c → u64_range (sendCounter x) →
  ∃ t t' err s' buf', srv_transports s !! tr = Some t ∧
    contents buf' = wire_packet c (next_header x TypeData 0) (contents buf) ∧
    Send t buf' (Some a) = Ret (t', err) ∧ egress_packet e buf s = Ret (s', buf') ∧
    srv_transports s' = <[tr := t']> (srv_transports s) ∧
    ∃ x', sess_store (srv_mgr s') !! p = Some x' ∧ sendCounter x' = u64 (sendCounter x + 1) ∧
      SendCipher x' = Some c.
Proof. apply egress_run. Qed.

(** What an accepted initiation does to the server. *)
Lemma handle_initiation_run e cfg tr raddr buf s held m2 keys x :
  server_inv invT s held → wf buf → (tr < length (srv_transports s))%nat →
  (ConsumeInitiation (ephem_rnd e) (contents buf)
     (NewResponderHandshake (serverPriv cfg) (GenerateIndex (index_rnd e)))).1 = Ok (m2, keys) →
  zlen m2 ≤ DefaultBufferSize →
  NewSession keys (Some raddr) CipherChaCha20Poly1305 (now e) = Ok x → live x →
  ∃ s' t t' err respBuf p, handle_initiation e cfg tr raddr buf s = Ret s' ∧
    srv_transports s !! tr = Some t ∧ Send t respBuf (Some raddr) = Ret (t', err) ∧
    contents respBuf = m2 ∧ srv_transports s' = <[tr := t']> (srv_transports s) ∧
    Get_session (srv_mgr s') (LocalIndex x) = Some p ∧ sess_store (srv_mgr s') !! p = Some x ∧
    routed_to s' (defaultPeerIP cfg) p tr raddr.
Proof.
  intros Hinv Hwf Htr Hc Hz HN Hlive.
  destruct (inv_new_session invT s held x Hinv Hlive) as (Hinv1 & Hstore & Hsess).
  set (p := fresh _) in *. set (s1 := store_session p x s) in *.
  set (s2 := set_mgr (Register (srv_mgr s1) p) s1) in *.
  assert (is_Some (sess_store (srv_mgr s2) !! p)) as Hp2.
  { unfold s2. cbn [srv_mgr set_mgr]. rewrite Hstore, lookup_insert_eq. eauto. }
  pose proof (inv_register_peer invT s2 held e (defaultPeerIP cfg) p tr raddr Hinv1 Hp2 Htr) as Hinv2.
  destruct (register_peer_routes s2 held e (defaultPeerIP cfg) p tr raddr Hinv1 Hp2 Htr) as [Hroute _].
  set (s3 := register_peer _ _ _ _ _ _) in *.
  destruct (Get (srv_pool s) (pool_choice e)) as [l' pool] eqn:EG.
  destruct (inv_get invT s3 held _ l' pool Hinv2 EG) as (_ & _ & b & Hb' & Hpb & _ & _ & Hob).
  pose proof Hpb as [Hlen Hcap]. unfold DefaultBufferSize in *.
  assert (slice_wf (Data b)) as Hsw by (unfold slice_wf; lia).
  assert (wf (load b m2)) as Hwl by (apply load_wf; [done|done|lia]).
  apply lookup_lt_is_Some_2 in Htr as [t Ht].
  destruct (Send_safe t (load b m2) raddr Hwl) as [[t' err] HS].
  eexists _, t, t', err, (load b m2), p. split.
  { unfold handle_initiation. rewrite Bytes_wf by done. gsimpl. rewrite Hc, HN. cbv zeta.
    fold p s1 s2 s3. change (srv_pool s3) with (srv_pool s). rewrite EG. unfold deref. rewrite Hb'.
    gsimpl. unfold send_on. simpl. rewrite Ht, HS. gsimpl. reflexivity. }
  do 2 (split; [done|]). split; [apply load_contents; [done|done|lia]|]. split; [done|].
  split; [|split; [|exact Hroute]].
  - unfold Get_session. change (sessions (Register (srv_mgr s1) p) !! LocalIndex x = Some p).
    rewrite Hsess. apply lookup_insert_eq.
  - change (sess_store (Register (srv_mgr s1) p) !! p = Some x). by rewrite Hstore, lookup_insert_eq.
Qed.

(** A client's initiation that reaches the handler ends with a registered session
    on the server and a session on the client that fits it. *)
Lemma handshake_handled e cfg tr raddr l s held buf cp r1 r2 e1 e2 ci t0 t1 ca :
  server_inv invT s held → l ∈ held → heap (srv_pool s) !! l = Some buf → wf buf →
  (tr < length (srv_transports s))%nat → 0 ≤ ci < 2 ^ 32 →
  GenerateKeyPair (Ok r1) = Ok (e1, PublicKey e1) → ephem_rnd e = Ok r2 →
  GenerateKeyPair (Ok r2) = Ok (e2, PublicKey e2) → good_keys cp (serverPriv cfg) e1 e2 →
  ∃ ih msg ih', NewInitiatorHandshake (Ok r1) cp (PublicKey (serverPriv cfg)) ci = Ok ih ∧
    CreateInitiation t0 ih = (Ok msg, ih') ∧
    (contents buf = msg →
     ∃ s' t t' err respBuf keys ih'' xc p x,
       handleIncomingPacket e cfg tr raddr l s = Ret s' ∧
       srv_transports s !! tr = Some t ∧ Send t respBuf (Some raddr) = Ret (t', err) ∧
       srv_transports s' = <[tr := t']> (srv_transports s) ∧
       ConsumeResponse (contents respBuf) ih' = (Ok keys, ih'') ∧
       NewSession keys ca CipherChaCha20Poly1305 t1 = Ok xc ∧
       Get_session (srv_mgr s') (GenerateIndex (index_rnd e)) = Some p ∧
       sess_store (srv_mgr s') !! p = Some x ∧
       SendCipher x = RecvCipher xc ∧ RecvCipher x = SendCipher xc ∧ live x ∧
       RemoteIndex xc = LocalIndex x ∧ RemoteIndex x = LocalIndex xc ∧
       routed_to s' (defaultPeerIP cfg) p tr raddr ∧ live xc ∧
       LocalIndex x = GenerateIndex (index_rnd e) ∧ LocalIndex xc = ci ∧
       sendCounter x = 0 ∧ sendCounter xc = 0 ∧ replay x = zero_window ∧ replay xc = zero_window).
Proof.
  intros Hinv Hl Hb Hwf Htr Hci Hg1 Hr2 Hg2 Hgood.
  pose proof (GenerateIndex_range (index_rnd e)) as Hsi. set (si := GenerateIndex _) in *.
  destruct (handshake_run cp (serverPriv cfg) r1 r2 e1 e2 ci si t0 Hci ltac:(lia) Hg1 Hg2 Hgood)
    as (ih & m1 & ih1 & m2 & server & rh & client & ih2 & Hih & Hm1 & Hz1 & Hc & Hz2 & Hcr &
        Hk1 & Hk2 & Hi1 & Hi2 & Hi3 & Hi4 & _).
  exists ih, m1, ih1. split; [done|]. split; [done|]. intros Hcont.
  destruct (ConsumeInitiation_inv _ _ _ _ _ _ Hc) as
    (es & cpub & ss & a1 & a2 & pay & _ & _ & _ & _ & _ & _ & _ & _ & _ & _ & _ & _ & _ & _ & _ &
     _ & Hs1 & Hs2); [done|].
  destruct (NewSession_chacha server (Some raddr) (now e) Hs1 Hs2)
    as (x & HN & Hlive & Hxi & Hxr & Hxs & Hxw).
  destruct (NewSession_chacha client ca t1) as (xc & HNc & Hlivec & Hci1 & Hci2 & Hcs & Hcw);
    [congruence..|].
  destruct (handle_initiation_run e cfg tr raddr buf s held m2 server x)
    as (s' & t & t' & err & respBuf & p & HI & Ht & HS & Hm2 & Hts & Hg & Hst & Hrt);
    [done|done|done|by rewrite Hcont, Hr2; fold si; rewrite Hc
    |unfold NoiseHandshakeRespSize, DefaultBufferSize in *; lia|done|done|].
  exists (put_buf l s'), t, t', err, respBuf, client, ih2, xc, p, x. rewrite Hm2. split.
  { unfold handleIncomingPacket, deref. rewrite Hb. gsimpl.
    rewrite decide_True by (rewrite <- (zlen_contents buf Hwf), Hcont; done). by rewrite HI. }
  split_and!; try done; try congruence.
  - by rewrite <- Hi3, <- Hxi.
  - by eapply NewSession_match.
  - symmetry. by eapply NewSession_match.
Qed.
End ServerProperties.

(** ** A concrete server

    One UDP transport, a Linux TUN device, and the toy libraries. *)

Section Demo.
#[local] Existing Instance toy_aead.
#[local] Existing Instance toy_hash.
#[local] Existing Instance toy_curve.
#[local] Existing Instance toy_net.
#[local] Existing Instance toy_kernel.

Abbreviation DemoServer := (Server UDPTransport LinuxTUN).
Definition any_udp : UDPTransport → Prop := λ _, True.

Definition demo_addr : Addr := mkAddr "udp" "192.0.2.7:4000".
Definition demo_cfg : Config := mkConfig (demo_key 90) "10.8.0.2".
Definition demo_env : Env := mkEnv 5 [x09] (Ok (demo_key 1)) None.
Definition demo_srv0 : DemoServer :=
  NewServer [mkUDP [(demo_addr, demo_init)] None false []] (Some (mkLinux (mkTun [] None []))).

(** A packet arrives in a buffer of the pool. *)
Definition demo_arrive (s : DemoServer) (bytes : list byte) : loc * DemoServer :=
  let '(l, pool) := Get (srv_pool s) None in
  let b := default (mkBuf (make_slice 0) 0 0) (heap pool !! l) in
  (l, set_buf l (load b bytes) (set_pool pool s)).

Definition demo_handle (s : DemoServer) (bytes : list byte) : outcome DemoServer :=
  let '(l, s) := demo_arrive s bytes in handleIncomingPacket demo_env demo_cfg 0 demo_addr l s.

(** After the handshake. *)
Definition demo_srv1 : DemoServer :=
  match demo_handle demo_srv0 demo_init with Ret s => s | Panic _ => demo_srv0 end.

Lemma demo_arrive_ok s bytes l s' :
  server_inv any_udp s ∅ → zlen bytes ≤ 2048 → demo_arrive s bytes = (l, s') →
  server_inv any_udp s' {[l]} ∧ srv_transports s' = srv_transports s ∧
  srv_mgr s' = srv_mgr s ∧ srv_peers s' = srv_peers s ∧ srv_tun s' = srv_tun s ∧
  ∃ buf, heap (srv_pool s') !! l = Some buf ∧ wf buf ∧ contents buf = bytes.
Proof.
  intros Hinv Hz. unfold demo_arrive. destruct (Get (srv_pool s) None) as [l0 pool] eqn:EG.
  destruct (inv_get any_udp s ∅ _ l0 pool Hinv EG) as (Hinv1 & _ & b & Hb & Hpb & _ & _ & Hob).
  rewrite Hb. intros [= <- <-]. unfold DefaultBufferSize in Hpb. pose proof Hpb as [Hl Hc].
  assert (slice_wf (Data b)) as Hs by (unfold slice_wf; lia).
  split; [|split_and!; try done].
  - rewrite union_empty_r_L in Hinv1. apply inv_set_buf; [done|set_solver|].
    split; simpl; [done|]. by rewrite cap_copy_to.
  - exists (load b bytes). split; [simpl; apply lookup_insert_eq|].
    split; [apply load_wf|apply load_contents]; simpl; (done || lia).
Qed.

Lemma demo_srv0_inv : server_inv any_udp demo_srv0 ∅.
Proof. apply NewServer_inv. by repeat constructor. Qed.

Lemma demo_handle_ok s bytes :
  server_inv any_udp s ∅ → zlen bytes ≤ 2048 → (0 < length (srv_transports s))%nat →
  ∃ s', demo_handle s bytes = Ret s' ∧ server_inv any_udp s' ∅.
Proof.
  intros Hinv Hz Htr. unfold demo_handle. destruct (demo_arrive s bytes) as [l s1] eqn:E.
  destruct (demo_arrive_ok s bytes l s1 Hinv Hz E) as (Hinv1 & Ht & _ & _ & _ & b & Hb & Hwf & _).
  destruct (handleIncomingPacket_ok any_udp demo_env demo_cfg 0 demo_addr l b s1 {[l]})
    as (s' & Hs & Hinv' & _); [done|set_solver|done|done|by rewrite Ht|].
  exists s'. rewrite difference_diag_L in Hinv'. done.
Qed.

Lemma demo_srv1_inv : server_inv any_udp demo_srv1 ∅.
Proof.
  destruct (demo_handle_ok demo_srv0 demo_init demo_srv0_inv) as (s & Hs & Hinv);
    [vm_compute; discriminate|simpl; lia|].
  unfold demo_srv1. by rewrite Hs.
Qed.

Definition demo_p : loc := default 1%positive (sessions (srv_mgr demo_srv1) !! 9).
Definition demo_x : Session :=
  default (demo_session demo_keys) (sess_store (srv_mgr demo_srv1) !! demo_p).
Definition demo_recv : AEADCipher := default demo_cipher (RecvCipher demo_x).
Definition demo_send : AEADCipher := default demo_cipher (SendCipher demo_x).
Definition demo_q : loc := default 1%positive (lastActive (srv_peers demo_srv1)).
Definition demo_peer : ClientPeer :=
  default (mkPeer None None None "" 0) (peer_store (srv_peers demo_srv1) !! demo_q).

(** An IPv4 header from 10.9.8.7 to 10.8.0.2. *)
Definition demo_ip : list byte :=
  [x45] ++ zeros 11 ++ [x0a; x09; x08; x07] ++ [x0a; x08; x00; x02].
Definition demo_data : Header := mkHeader TypeData 0 9 0.
Definition demo_bye : Header := mkHeader TypeDisconnect 0 9 0.

Lemma some_default {A} (d : A) (o : option A) :
  match o with Some _ => true | None => false end = true → o = Some (default d o).
Proof. by destruct o. Qed.

Lemma demo_authentic h payload l s' :
  header_wf h → ReceiverIndex h = 9 → Counter h = 0 → zlen payload ≤ 1000 →
  demo_arrive demo_srv1 (wire_packet demo_recv h payload) = (l, s') →
  ∃ buf, heap (srv_pool s') !! l = Some buf ∧
    authentic s' buf h demo_p demo_x demo_recv payload ∧ server_inv any_udp s' {[l]} ∧
    srv_transports s' = srv_transports demo_srv1 ∧ srv_tun s' = srv_tun demo_srv1 ∧
    srv_peers s' = srv_peers demo_srv1.
Proof.
  intros Hh Hi Hc Hz E.
  destruct (demo_arrive_ok demo_srv1 (wire_packet demo_recv h payload) l s' demo_srv1_inv)
    as (Hinv & Ht & Hm & Hp & Htun & b & Hb & Hwf & Hcont); [|done|].
  { unfold wire_packet. rewrite zlen_app, Seal_length, zlen_header_bytes. unfold TagSize. lia. }
  exists b. split; [exact Hb|]. split; [constructor|auto].
  - exact Hwf.
  - exact Hh.
  - rewrite Hm, Hi. apply (some_default 1%positive). vm_compute. reflexivity.
  - rewrite Hm. apply (some_default (demo_session demo_keys)). vm_compute. reflexivity.
  - apply (some_default demo_cipher). vm_compute. reflexivity.
  - exact Hcont.
  - rewrite Hc. vm_compute. reflexivity.
Qed.

Example server_ingress_safe_witness :
  ∃ s', ingress demo_env demo_cfg 0 false None demo_srv0 = Some (Ret s').
Proof.
  destruct (server_ingress_safe any_udp demo_cfg
    [mkUDP [(demo_addr, demo_init)] None false []] (Some (mkLinux (mkTun [] None []))) demo_srv0)
    as (Hin & _); [by repeat constructor|apply rtc_refl|].
  destruct (ingress demo_env demo_cfg 0 false None demo_srv0) as [r|] eqn:E.
  - destruct (Hin demo_env 0%nat false None r) as [s' ->]; [simpl; lia|exact E|]. by exists s'.
  - assert (match ingress demo_env demo_cfg 0 false None demo_srv0 with
            | Some _ => true | None => false end = true) as Hb by (vm_compute; reflexivity).
    rewrite E in Hb. discriminate.
Defined.

Example data_forwarded_witness :
  ∃ s' d', demo_handle demo_srv1 (wire_packet demo_recv demo_data demo_ip) = Ret s' ∧
    srv_tun s' = Some d' ∧ tun_out (linux_state d') = [demo_ip] ∧
    routed_to s' "10.9.8.7" demo_p 0 demo_addr.
Proof.
  unfold demo_handle.
  destruct (demo_arrive demo_srv1 (wire_packet demo_recv demo_data demo_ip)) as [l s1] eqn:E.
  destruct (demo_authentic demo_data demo_ip l s1) as (b & Hb & Hau & Hinv & Ht & Htun & _);
    [split; vm_compute; intuition discriminate|reflexivity|reflexivity|vm_compute; discriminate
    |exact E|].
  destruct (data_forwarded (emitted := λ t, tun_out (linux_state t)) (willing := λ t, tun_willing (linux_state t))
    any_udp demo_env demo_cfg 0 demo_addr l s1 {[l]} b demo_data demo_p demo_x demo_recv demo_ip
    (mkLinux (mkTun [] None []))) as (s' & d' & Hs & _ & Hd & Hem & Hr & _).
  - exact Hinv.
  - by apply elem_of_singleton.
  - exact Hb.
  - exact Hau.
  - reflexivity.
  - vm_compute. discriminate.
  - vm_compute. reflexivity.
  - rewrite Ht. vm_compute. lia.
  - rewrite Htun. vm_compute. reflexivity.
  - by split; [reflexivity|intros h bs].
  - exists s', d'. split; [exact Hs|]. split; [exact Hd|]. split; [exact Hem|]. exact Hr.
Defined.

Example disconnect_crashes_egress_witness :
  ∃ s', demo_handle demo_srv1 (wire_packet demo_recv demo_bye []) = Ret s' ∧
    egress_packet demo_env (demo_pkt "to any client") s' = Panic NilDeref.
Proof.
  unfold demo_handle.
  destruct (demo_arrive demo_srv1 (wire_packet demo_recv demo_bye [])) as [l s1] eqn:E.
  destruct (demo_authentic demo_bye [] l s1) as (b & Hb & Hau & Hinv & Ht & Htun & Hp);
    [split; vm_compute; intuition discriminate|reflexivity|reflexivity|vm_compute; discriminate
    |exact E|].
  destruct (disconnect_crashes_egress any_udp demo_env demo_cfg 0 demo_addr l s1 {[l]} b demo_bye
    demo_p demo_x demo_recv [] demo_q demo_peer) as (s' & Hs & _ & Hp' & _ & Hcrash).
  - exact Hinv.
  - by apply elem_of_singleton.
  - exact Hb.
  - exact Hau.
  - reflexivity.
  - vm_compute. discriminate.
  - rewrite Hp. apply (some_default (mkPeer None None None "" 0)). vm_compute. reflexivity.
  - vm_compute. reflexivity.
  - exists s'. split; [exact Hs|]. apply Hcrash.
    + apply demo_pkt_valid. vm_compute. intuition discriminate.
    + vm_compute. discriminate.
    + rewrite Hp', Hp. vm_compute. reflexivity.
Defined.

Example payload_78_lost_witness :
  (∃ x buf, EncryptPacket 5 (demo_session demo_keys)
     (load (mkBuf (make_slice 200) 0 0) (zeros 78)) TypeData 0 = Ret (x, buf, None) ∧
     Length buf = 108) ∧
  ∃ s', demo_handle demo_srv1 (zeros 108) = Ret s' ∧ srv_tun s' = srv_tun demo_srv1.
Proof.
  destruct (payload_78_lost (T := UDPTransport) (D := LinuxTUN) any_udp) as [Henc Hlost]. split.
  - assert (cap (make_slice 200) = 200) as Hcap by done.
    assert (slice_wf (make_slice 200)) as Hs by (unfold slice_wf; simpl; lia).
    apply (Henc 5 (demo_session demo_keys) (mkCipher (L := toy_aead) (demo_key 3) 1)
      (load (mkBuf (make_slice 200) 0 0) (zeros 78)) TypeData 0).
    + reflexivity.
    + split; vm_compute; intuition discriminate.
    + apply load_wf; [done|done|vm_compute; discriminate].
    + split; [vm_compute; discriminate|right; vm_compute; discriminate].
    + reflexivity.
  - unfold demo_handle. destruct (demo_arrive demo_srv1 (zeros 108)) as [l s1] eqn:E.
    destruct (demo_arrive_ok demo_srv1 (zeros 108) l s1 demo_srv1_inv)
      as (Hinv & Ht & _ & _ & Htun & b & Hb & Hwf & Hcont); [vm_compute; discriminate|exact E|].
    destruct (Hlost demo_env demo_cfg 0%nat demo_addr l s1 {[l]} b) as (s' & Hs & Hd & _).
    + exact Hinv.
    + by apply elem_of_singleton.
    + exact Hb.
    + exact Hwf.
    + rewrite <- (zlen_contents b Hwf), Hcont. reflexivity.
    + rewrite Ht. vm_compute. lia.
    + exists s'. split; [exact Hs|]. by rewrite Hd, Htun.
Defined.

Example egress_delivers_witness :
  ∃ s' buf, egress_packet demo_env (demo_pkt "a reply") demo_srv1 = Ret (s', buf) ∧
    contents buf = wire_packet demo_send (next_header demo_x TypeData 0) (bytes_of "a reply").
Proof.
  destruct (egress_delivers any_udp demo_env demo_srv1 ∅ (demo_pkt "a reply") demo_p 0 demo_addr
    demo_x demo_send) as (t & t' & err & s' & b & _ & Hc & _ & He & _).
  - exact demo_srv1_inv.
  - apply demo_pkt_valid. vm_compute. intuition discriminate.
  - split; [vm_compute; discriminate|right; vm_compute; discriminate].
  - exists demo_q, demo_peer. split_and!.
    + vm_compute. reflexivity.
    + apply (some_default (mkPeer None None None "" 0)). vm_compute. reflexivity.
    + vm_compute. reflexivity.
    + vm_compute. reflexivity.
    + vm_compute. reflexivity.
  - apply (some_default (demo_session demo_keys)). vm_compute. reflexivity.
  - apply (some_default demo_cipher). vm_compute. reflexivity.
  - split; vm_compute; intuition discriminate.
  - exists s', b. split; [exact He|]. rewrite Hc. reflexivity.
Defined.
End Demo.
