(* ===== verification/Client.v ===== *)
(** * The client endpoint (cmd/antclient/main.go)

    Dialling the server over one of the three transports, the client's side of the
    handshake, and the three loops of the command-line client: TUN device to
    network, network to TUN device, keepalives.  The statements that open and
    deliver a packet are the same in the daemon and in the mobile library, which
    use the definitions of this file.  Flags, signals and log output are not
    modelled. *)

From S2P Require Import Prelude Buffer Wire Replay Cipher Encoding Keys Noise Session Address.
From S2P Require Import Transport Tun Server.
Local Open Scope Z_scope.

Definition string_of (s : gostring) : string := String.string_of_list_byte s.

(** ** Dialling *)

(** [tls.Dial], [websocket.NewConfig], [websocket.DialConfig], [net.ListenUDP]. *)
Class Dialer := {
  tls_dial : gostring → gostring → result conn;
  ws_config : gostring → gostring → option error;
  ws_dial : gostring → gostring → gostring → result conn;
  udp_listen : gostring → option error
}.

(** A value of the interface [transport.Transport]. *)
Inductive AnyTransport :=
  | TrUDP (t : UDPTransport)
  | TrTLS (t : TLSTransport)
  | TrWS (t : WSTransport).

Section Dial.
Context `{N : Net, Dl : Dialer}.

Definition any_Send (t : AnyTransport) (buf : PacketBuffer) (a : option Addr)
    : outcome (AnyTransport * option error) :=
  match t with
  | TrUDP t => '(t, e) ← Send t buf a; Ret (TrUDP t, e)
  | TrTLS t => '(t, e) ← Send t buf a; Ret (TrTLS t, e)
  | TrWS t => '(t, e) ← Send t buf a; Ret (TrWS t, e)
  end.

Definition any_Receive (pick : bool) (t : AnyTransport) (buf : PacketBuffer)
    : option (AnyTransport * PacketBuffer * result Addr) :=
  match t with
  | TrUDP t => '(t, b, r) ← Receive pick t buf; Some (TrUDP t, b, r)
  | TrTLS t => '(t, b, r) ← Receive pick t buf; Some (TrTLS t, b, r)
  | TrWS t => '(t, b, r) ← Receive pick t buf; Some (TrWS t, b, r)
  end.

#[global] Instance any_transport : Transport AnyTransport := {|
  Send := any_Send;
  Receive := any_Receive;
  Mode := λ t, match t with TrUDP t => Mode t | TrTLS t => Mode t | TrWS t => Mode t end
|}.

Definition Close (t : AnyTransport) : AnyTransport :=
  match t with
  | TrUDP t => TrUDP (udp_Close t)
  | TrTLS t => TrTLS (tls_Close t).1
  | TrWS t => TrWS (ws_Close t).1
  end.

Definition NewUDPTransport (listenAddr : gostring) : result AnyTransport :=
  match udp_listen listenAddr with
  | Some e => Err (ErrWrap "failed to listen on udp: %w" e)
  | None => Ok (TrUDP (mkUDP [] None false []))
  end.

Definition NewTLSClientTransport (serverAddr sni : gostring) : result AnyTransport :=
  match tls_dial (tls_dial_address serverAddr) (tls_server_name serverAddr sni) with
  | Err e => Err (ErrWrap "failed to dial tls server: %w" e)
  | Ok c => Ok (TrTLS (NewTLSClient c))
  end.

Definition NewWSClientTransport (wsURL origin sni : gostring) : result AnyTransport :=
  match ws_config wsURL origin with
  | Some e => Err e
  | None =>
      match ws_dial wsURL origin sni with
      | Err e => Err (ErrWrap "failed to dial websocket: %w" e)
      | Ok c => Ok (TrWS (mkWS false (Some c) ∅ [] false []))
      end
  end.

Definition ws_url (serverAddr : gostring) : gostring :=
  bytes_of "wss://" ++ serverAddr ++ bytes_of "/ws".
Definition ws_origin (sni : gostring) : gostring := bytes_of "https://" ++ sni.

(** The client's switch on the transport mode; [None] is an unknown mode. *)
Definition client_transport (transMode serverAddr sni : gostring) : option (result AnyTransport) :=
  if decide (transMode = bytes_of "udp") then Some (NewUDPTransport (bytes_of ":0"))
  else if decide (transMode = bytes_of "tls") then Some (NewTLSClientTransport serverAddr sni)
  else if decide (transMode = bytes_of "ws") then
    Some (NewWSClientTransport (ws_url serverAddr) (ws_origin sni) sni)
  else None.

(** [net.ResolveUDPAddr]: on an error the pointer is nil, but as an interface the
    address is not: its methods give the network and a placeholder. *)
Definition nil_udp : Addr := mkAddr "udp" "<nil>".
Definition target_addr (serverAddr : gostring) : Addr * option error :=
  match resolve_udp (string_of serverAddr) with
  | Ok a => (a, None)
  | Err e => (nil_udp, Some e)
  end.
End Dial.

(** ** The handshake *)

(** A buffer of the pool, changed through its pointer. *)
Definition pool_set (l : loc) (b : PacketBuffer) (p : Pool) : Pool :=
  mkPool (<[l := b]> (heap p)) (free p) (pool_size p).

(** What a handshake takes from outside: randomness and the clock. *)
Record HsEnv := mkHsEnv {
  hs_index : list byte;
  hs_ephem : result (list byte);
  hs_time : Z
}.

Section Handshake.
Context `{L : AeadLib, H : HashLib, C : Curve25519}.
Context {T : Type} `{!Transport T}.

Definition start_handshake (e : HsEnv) (clientPriv serverPub : list byte)
    : result (list byte * InitiatorHandshake) :=
  let clientIndex := GenerateIndex (hs_index e) in
  match NewInitiatorHandshake (hs_ephem e) clientPriv serverPub clientIndex with
  | Err e => Err e
  | Ok initiator =>
      match CreateInitiation (hs_time e) initiator with
      | (Ok initMsg, initiator) => Ok (initMsg, initiator)
      | (Err e, _) => Err e
      end
  end.

(** A buffer with the message, handed to the transport; the caller puts it back. *)
Definition send_msg (choice : option nat) (pool : Pool) (tr : T) (msg : list byte) (target : Addr)
    : outcome (loc * Pool * T * option error) :=
  let '(l, pool) := Get pool choice in
  buf ← deref (heap pool) l;
  let buf := load buf msg in
  '(tr, err) ← Send tr buf (Some target);
  Ret (l, pool_set l buf pool, tr, err).

(** Waiting for the response, which is [None] for as long as nothing comes. *)
Definition recv_msg (pick : bool) (choice : option nat) (pool : Pool) (tr : T)
    : option (outcome (loc * Pool * T * result PacketBuffer)) :=
  let '(l, pool) := Get pool choice in
  match heap pool !! l with
  | None => Some (Panic NilDeref)
  | Some buf =>
      '(tr, buf, r) ← Receive pick tr buf;
      Some (Ret (l, pool_set l buf pool, tr,
                 match r with Ok _ => Ok buf | Err e => Err e end))
  end.

(** The session made from the response. *)
Definition finish_handshake (initiator : InitiatorHandshake) (resp : list byte)
    (target : Addr) (now : Z) : result Session :=
  match (ConsumeResponse resp initiator).1 with
  | Err e => Err e
  | Ok keys => NewSession keys (Some target) CipherChaCha20Poly1305 now
  end.
End Handshake.

(** ** The loops *)

Section Loops.
Context `{L : AeadLib}.
Context {T : Type} `{!Transport T} {D : Type} `{!Device D}.

(** Header off, index checked, decrypted: [Some h] is a packet to deliver. *)
Definition open_packet (now : Z) (session : Session) (buf : PacketBuffer)
    : outcome (Session * PacketBuffer * option Header) :=
  '(buf, r) ← StripHeader buf;
  match r with
  | Err _ => Ret (session, buf, None)
  | Ok h =>
      if decide (ReceiverIndex h ≠ LocalIndex session) then Ret (session, buf, None)
      else
        '(session, buf, err) ← DecryptPacket now session buf h;
        Ret (session, buf, match err with Some _ => None | None => Some h end)
  end.

(** Data packets go to the TUN device, if there is one. *)
Definition deliver (tunDev : option D) (h : Header) (buf : PacketBuffer)
    : outcome (option D * PacketBuffer) :=
  match tunDev with
  | Some d =>
      if decide (Type_ h = TypeData) then
        '(d, buf, _) ← WritePacket d buf; Ret (Some d, buf)
      else Ret (tunDev, buf)
  | None => Ret (tunDev, buf)
  end.

Record Client := mkClient {
  cl_pool : Pool;
  cl_tr : T;
  cl_session : Session;
  cl_tun : option D;
  cl_target : Addr;
  cl_stopped : bool                   (* stopCh is closed *)
}.

Definition cl_put (l : loc) (buf : PacketBuffer) (pool : Pool) : Pool :=
  Put (pool_set l buf pool) (Some l).

(** Network to TUN device; the flag says whether the loop goes on. *)
Definition client_ingress (now : Z) (choice : option nat) (pick : bool) (s : Client)
    : option (outcome (Client * bool)) :=
  let '(l, pool) := Get (cl_pool s) choice in
  match heap pool !! l with
  | None => Some (Panic NilDeref)
  | Some buf =>
      '(tr, buf, r) ← Receive pick (cl_tr s) buf;
      match r with
      | Err _ =>
          Some (Ret (mkClient (cl_put l buf pool) tr (cl_session s) (cl_tun s) (cl_target s)
                       (cl_stopped s), negb (cl_stopped s)))
      | Ok _ =>
          Some ('(session, buf, opened) ← open_packet now (cl_session s) buf;
                '(tun, buf) ← match opened with
                              | None => Ret (cl_tun s, buf)
                              | Some h => deliver (cl_tun s) h buf
                              end;
                Ret (mkClient (cl_put l buf pool) tr session tun (cl_target s) (cl_stopped s), true))
      end
  end.

(** TUN device to network; the loop exists only with a device. *)
Definition client_egress (now : Z) (choice : option nat) (s : Client)
    : option (outcome (Client * bool)) :=
  match cl_tun s with
  | None => None
  | Some d =>
      let '(l, pool) := Get (cl_pool s) choice in
      match heap pool !! l with
      | None => Some (Panic NilDeref)
      | Some buf =>
          '(d, buf, err) ← ReadPacket d buf;
          match err with
          | Some _ =>
              Some (Ret (mkClient (cl_put l buf pool) (cl_tr s) (cl_session s) (Some d)
                           (cl_target s) (cl_stopped s), false))
          | None =>
              Some ('(session, buf, err) ← EncryptPacket now (cl_session s) buf TypeData 0;
                    match err with
                    | Some _ =>
                        Ret (mkClient (cl_put l buf pool) (cl_tr s) session (Some d)
                               (cl_target s) (cl_stopped s), true)
                    | None =>
                        '(tr, _) ← Send (cl_tr s) buf (Some (cl_target s));
                        Ret (mkClient (cl_put l buf pool) tr session (Some d) (cl_target s)
                               (cl_stopped s), true)
                    end)
          end
      end
  end.

(** One tick of the heartbeat; the error of the encryption is ignored. *)
Definition keepalive (now : Z) (choice : option nat) (s : Client) : outcome Client :=
  let '(l, pool) := Get (cl_pool s) choice in
  buf ← deref (heap pool) l;
  let buf := mkBuf (Data buf) 0 (Offset buf) in
  '(session, buf, _) ← EncryptPacket now (cl_session s) buf TypeKeepalive 0;
  '(tr, _) ← Send (cl_tr s) buf (Some (cl_target s));
  Ret (mkClient (cl_put l buf pool) tr session (cl_tun s) (cl_target s) (cl_stopped s)).
End Loops.

#[global] Arguments Client {L} T D.

(** ** Start-up *)

Inductive startup (A : Type) := Exit (why : string) | Started (a : A).
Arguments Exit {A} why.
Arguments Started {A} a.

Section Startup.
Context `{L : AeadLib, H : HashLib, C : Curve25519, N : Net, Dl : Dialer}.
Context {D : Type} `{!Device D}.

Record ClientConfig := mkClientConfig {
  cc_serverAddr : gostring;
  cc_serverKeyStr : gostring;
  cc_transMode : gostring;
  cc_sni : gostring
}.

(** Everything up to the start of the loops.  [priv_rnd] feeds the client's
    static key; [arrive] is what happens to the transport while the client waits;
    [tunDev] is the result of [tun.CreateTUN].  The outer [None] is a client that
    waits for ever. *)
Definition client_main (cfg : ClientConfig) (priv_rnd : result (list byte)) (e : HsEnv)
    (choices : option nat * option nat) (pick : bool) (arrive : AnyTransport → AnyTransport)
    (tunDev : result D) (now : Z) (pool : Pool)
    : option (outcome (startup (Client AnyTransport D))) :=
  if decide (cc_serverKeyStr cfg = []) then Some (Ret (Exit "server public key is required"))
  else
  match ParsePublicKey (cc_serverKeyStr cfg) with
  | Err _ => Some (Ret (Exit "Invalid server public key"))
  | Ok serverPub =>
  match GenerateKeyPair priv_rnd with
  | Err _ => Some (Ret (Exit "Failed to generate client ephemeral keys"))
  | Ok (clientPriv, _) =>
  match client_transport (cc_transMode cfg) (cc_serverAddr cfg) (cc_sni cfg) with
  | None => Some (Ret (Exit "Unknown transport"))
  | Some (Err _) => Some (Ret (Exit "Failed to initialize transport"))
  | Some (Ok tr) =>
  let '(targetAddr, err) := target_addr (cc_serverAddr cfg) in
  if decide (err ≠ None ∧ cc_transMode cfg = bytes_of "udp") then
    Some (Ret (Exit "Failed to resolve server address"))
  else
  match start_handshake e clientPriv serverPub with
  | Err _ => Some (Ret (Exit "Handshake init failed"))
  | Ok (initMsg, initiator) =>
  match send_msg choices.1 pool tr initMsg targetAddr with
  | Panic p => Some (Panic p)
  | Ret (_, _, _, Some _) => Some (Ret (Exit "Failed to send handshake"))
  | Ret (l, pool, tr, None) =>
  let pool := Put pool (Some l) in
  r ← recv_msg pick choices.2 pool (arrive tr);
  Some ('(l, pool, tr, resp) ← r;
        match resp with
        | Err _ => Ret (Exit "Failed to receive handshake response")
        | Ok respBuf =>
            b ← Bytes respBuf;
            let pool := Put pool (Some l) in
            match finish_handshake initiator b targetAddr now with
            | Err _ => Ret (Exit "Handshake authentication failed")
            | Ok session =>
                let tun := match tunDev with Ok d => Some d | Err _ => None end in
                Ret (Started (mkClient pool tr session tun targetAddr false))
            end
        end)
  end
  end
  end
  end
  end.
End Startup.

(** ** The transports keep the interface's promises *)

Section DialFacts.
Context `{N : Net, !NetLaws N}.

(** What the connection goroutines guarantee of a queue: TLS frames are checked,
    WebSocket messages are not. *)
Definition any_ok (t : AnyTransport) : Prop :=
  match t with TrTLS t => tls_queue_valid t | _ => True end.

(** [Receive] takes a message that is longer than a buffer. *)
Definition any_over (pick : bool) (t : AnyTransport) : bool :=
  match t with TrWS t => ws_over pick t | _ => false end.

#[global] Instance any_send_safe : TransportSend AnyTransport.
Proof.
  constructor. intros t buf a Hwf.
  destruct t as [t|t|t]; simpl; destruct (Send_safe t buf a Hwf) as [[t' e] HS]; simpl in HS;
    rewrite HS; by eexists.
Qed.

#[global] Instance any_receive_storage : TransportStorage AnyTransport any_ok any_over.
Proof.
  constructor.
  - intros pick t buf t' buf' r Ht Hp HR.
    destruct t as [t|t|t]; simpl in HR;
      apply bind_Some in HR as ([[t1 b1] r1] & HR & [= <- <- ->]);
      [destruct (Receive_stored (T := UDPTransport) pick t buf t1 b1 r) as (? & ? & ?)
      |destruct (Receive_stored (T := TLSTransport) pick t buf t1 b1 r) as (? & ? & ?)
      |destruct (Receive_stored (T := WSTransport) pick t buf t1 b1 r) as (? & ? & ?)]; done.
  - intros t buf a t' e Ht HS.
    destruct t as [t|t|t]; simpl in HS;
      apply outcome_bind_Ret in HS as ([t1 e1] & HS & [= <- <-]); [done| |done].
    by eapply (Send_stored (T := TLSTransport) (inv := tls_queue_valid)).
Qed.

(** Only a WebSocket transport brings such a message. *)
Lemma any_over_ws pick t : any_over pick t = true → Mode t = ModeWebSocket.
Proof. by destruct t. Qed.
End DialFacts.

(** ** The invariant *)

(** The transport has the packet [p] to receive, and it fits a buffer. *)
Definition brings {T : Type} `{!Transport T} (pick : bool) (t : T) (p : list byte) : Prop :=
  ∀ buf, pooled DefaultBufferSize buf → ∃ t' buf' a, Receive pick t buf = Some (t', buf', Ok a) ∧
    contents buf' = p ∧ wf buf'.

(** Who holds a buffer, and whether it is well formed for sure: after a receive it
    may be overlong. *)
Abbreviation holder := (loc * bool)%type.

Section PoolFacts.
(** The global pool, of which the loops hold [held]. *)
Record pool_ok (p : Pool) (held : gset loc) : Prop := {
  pk_inv : pool_inv p held;
  pk_size : pool_size p = DefaultBufferSize
}.

Lemma pool_ok_global : pool_ok GlobalPool ∅.
Proof. split; [apply (pool_inv_init DefaultBufferSize)|done]. Qed.

Lemma pool_ok_get p held choice l p' :
  pool_ok p held → Get p choice = (l, p') →
  pool_ok p' ({[l]} ∪ held) ∧ l ∉ held ∧
  ∃ buf, heap p' !! l = Some buf ∧ pooled DefaultBufferSize buf ∧ wf buf ∧
    Length buf = 0 ∧ Offset buf = 0.
Proof.
  intros [Hp Hs] HG. pose proof (pool_inv_get _ _ _ _ _ Hp HG) as Hp'.
  destruct (Get_fresh_or_free _ _ _ _ _ Hp HG) as [Hl [b Hb]].
  pose proof (Get_size _ _ _ _ HG) as Hsz. pose proof (inv_pooled _ _ Hp' _ _ Hb) as Hpb.
  rewrite Hsz, Hs in Hpb. split; [split; congruence|]. split; [done|].
  exists (Reset b). split; [done|]. split; [done|].
  split; [apply (pooled_reset_wf DefaultBufferSize); [done|apply Hpb]|done].
Qed.

Lemma pool_ok_set p held l buf :
  pool_ok p held → l ∈ held → pooled DefaultBufferSize buf → pool_ok (pool_set l buf p) held.
Proof.
  intros [Hp Hs] Hl Hb. split; [|done]. destruct (inv_held_dom _ _ Hp l Hl) as [b0 Hb0].
  eapply pool_inv_step; [exact Hp|]. rewrite <- Hs in Hb. by eapply step_use.
Qed.

Lemma pool_ok_put p held l : pool_ok p held → l ∈ held → pool_ok (Put p (Some l)) (held ∖ {[l]}).
Proof. intros [Hp Hs] Hl. split; [|done]. eapply pool_inv_step; [exact Hp|]. by apply step_put. Qed.

(** A buffer taken, used and put back. *)
Lemma pool_ok_cycle p held choice l p' b :
  pool_ok p held → Get p choice = (l, p') → pooled DefaultBufferSize b → pool_ok (cl_put l b p') held.
Proof.
  intros Hp HG Hb. destruct (pool_ok_get _ _ _ _ _ Hp HG) as (Hp' & Hl & _).
  replace held with (({[l]} ∪ held) ∖ {[l]}) by set_solver.
  apply pool_ok_put; [|set_solver]. apply pool_ok_set; [done|set_solver|done].
Qed.

(** What is known of a holder's buffer. *)
Definition buf_ok (k : bool) (b : PacketBuffer) : Prop :=
  pooled DefaultBufferSize b ∧ (wf b ∨ k = false ∧ overlong b).

(** The same with the holders one by one: each holds a buffer of its own. *)
Record pool_live (p : Pool) (hs : list holder) : Prop := {
  pl_ok : pool_ok p (list_to_set hs.*1);
  pl_nodup : NoDup hs.*1;
  pl_buf l k : (l, k) ∈ hs → ∃ b, heap p !! l = Some b ∧ buf_ok k b
}.

#[global] Instance pool_live_perm p : Proper ((≡ₚ) ==> iff) (pool_live p).
Proof.
  assert (∀ hs hs', hs ≡ₚ hs' → pool_live p hs → pool_live p hs') as Himp.
  { intros hs hs' E [Hok Hnd Hbuf]. split.
    - by rewrite <- (list_to_set_perm_L hs.*1 hs'.*1 (fmap_Permutation _ _ _ E)).
    - by rewrite <- E.
    - intros l k. rewrite <- E. apply Hbuf. }
  intros hs hs' E. split; by apply Himp.
Qed.

Lemma pool_live_nil p : pool_live p [] ↔ pool_ok p ∅.
Proof.
  split; [by intros []|]. intros H. split; [done|constructor|]. by intros l k ?%elem_of_nil.
Qed.

Lemma pool_live_wf p hs l :
  pool_live p hs → (l, true) ∈ hs →
  ∃ b, heap p !! l = Some b ∧ wf b ∧ pooled DefaultBufferSize b.
Proof. intros Hp Hl. destruct (pl_buf _ _ Hp l true Hl) as (b & ? & ? & [?|[? _]]); [by exists b|done]. Qed.

Lemma holder_in (hs : list holder) l k : (l, k) ∈ hs → l ∈ hs.*1.
Proof. intros H. apply list_elem_of_fmap. by exists (l, k). Qed.
Lemma holder_unique (hs : list holder) l k k' :
  NoDup hs.*1 → (l, k) ∈ hs → (l, k') ∈ hs → k = k'.
Proof.
  intros Hnd H1 H2. apply (elem_of_list_to_map_1 (M := gmap loc)) in H1; [|done].
  apply (elem_of_list_to_map_1 (M := gmap loc)) in H2; [|done]. congruence.
Qed.

Lemma pool_live_get p hs choice l p' k :
  pool_live p hs → Get p choice = (l, p') →
  pool_live p' ((l, k) :: hs) ∧ ∃ b, heap p' !! l = Some b ∧ pooled DefaultBufferSize b ∧ wf b ∧
    Length b = 0 ∧ Offset b = 0.
Proof.
  intros [Hok Hnd Hbuf] HG. destruct (pool_ok_get _ _ _ _ _ Hok HG) as (Hok' & Hl & b & Hb & Hpb & Hwb & ?).
  rewrite elem_of_list_to_set in Hl. split; [|by exists b]. split; [done|by constructor|].
  intros l' k'. rewrite elem_of_cons. intros [[= -> ->]|Hl']; [exists b; split; [done|]; split; auto|].
  destruct (Hbuf l' k' Hl') as (b' & Hb' & ?). exists b'. split; [|done]. rewrite <- Hb'.
  assert (l' ≠ l) as Hne by (intros ->; by apply Hl, (holder_in _ _ k')).
  destruct (Get_cases p choice) as [(i & l0 & b0 & _ & _ & E)|E]; rewrite E in HG;
    injection HG as <- <-; simpl; by rewrite lookup_insert_ne.
Qed.

Lemma pool_live_set p hs l k b :
  pool_live p hs → (l, k) ∈ hs → buf_ok k b → pool_live (pool_set l b p) hs.
Proof.
  intros [Hok Hnd Hbuf] Hl Hb. split; [|done|].
  - apply pool_ok_set; [done| |by destruct Hb]. rewrite elem_of_list_to_set. by eapply holder_in.
  - intros l' k' Hl'. simpl. destruct (decide (l' = l)) as [->|Hne].
    + rewrite lookup_insert_eq. rewrite (holder_unique hs l k' k) by done. eauto.
    + rewrite lookup_insert_ne by done. by apply Hbuf.
Qed.

(** Taking, filling and putting back leave the other holders' buffers alone. *)
Lemma Get_other p hs choice l p' l0 :
  pool_live p hs → Get p choice = (l, p') → l0 ∈ hs.*1 → heap p' !! l0 = heap p !! l0 ∧ l0 ≠ l.
Proof.
  intros [Hok _ _] HG Hl0. destruct (pool_ok_get _ _ _ _ _ Hok HG) as (_ & Hl & _).
  rewrite elem_of_list_to_set in Hl. assert (l0 ≠ l) as Hne by (intros ->; done). split; [|done].
  destruct (Get_cases p choice) as [(i & l1 & b1 & _ & _ & E)|E]; rewrite E in HG;
    injection HG as <- <-; simpl; by rewrite lookup_insert_ne.
Qed.
Lemma pool_set_other l b p l0 : l0 ≠ l → heap (pool_set l b p) !! l0 = heap p !! l0.
Proof. intros. simpl. by rewrite lookup_insert_ne. Qed.
Lemma cl_put_other l b p l0 : l0 ≠ l → heap (cl_put l b p) !! l0 = heap p !! l0.
Proof. intros. unfold cl_put, Put. simpl. by rewrite lookup_alter_ne, lookup_insert_ne. Qed.

(** A holder leaves the buffer in any state and puts it back. *)
Lemma pool_live_put p hs l k b :
  pool_live p ((l, k) :: hs) → pooled DefaultBufferSize b → pool_live (cl_put l b p) hs.
Proof.
  intros [Hok Hnd Hbuf] Hb. apply NoDup_cons in Hnd as [Hl Hnd]. simpl in Hl. split; [|done|].
  - replace (list_to_set hs.*1) with (list_to_set ((l, k) :: hs).*1 ∖ {[l]} : gset loc).
    + apply pool_ok_put; [apply pool_ok_set; [done| |done]|]; set_solver.
    + simpl. rewrite difference_union_distr_l_L, difference_diag_L, union_empty_l_L.
      apply difference_disjoint_L. rewrite disjoint_singleton_r. by rewrite elem_of_list_to_set.
  - intros l' k' Hl'. assert (l' ≠ l) by (intros ->; by apply Hl, (holder_in _ _ k')).
    simpl. rewrite lookup_alter_ne, lookup_insert_ne by done. apply Hbuf. by right.
Qed.

Lemma pool_live_cycle p hs choice l p' b :
  pool_live p hs → Get p choice = (l, p') → pooled DefaultBufferSize b → pool_live (cl_put l b p') hs.
Proof. intros Hp HG Hb. eapply (pool_live_put _ _ _ true); [by apply (pool_live_get _ _ _ _ _ _ Hp HG)|done]. Qed.
End PoolFacts.

Section PacketFacts.
Context `{L : AeadLib, !AeadLaws L}.

(** What a packet leaves behind when opening it does not panic, for any session. *)
Lemma open_packet_keeps t x buf x' buf' oh :
  wf buf → pooled DefaultBufferSize buf → open_packet t x buf = Ret (x', buf', oh) →
  wf buf' ∧ pooled DefaultBufferSize buf' ∧ (live x → live x').
Proof.
  intros Hwf Hpb. unfold open_packet.
  destruct (StripHeader_total buf Hwf) as (b1 & r & -> & Hwf1 & Hd1). gsimpl.
  assert (pooled DefaultBufferSize b1) as Hpb1 by (unfold pooled; by rewrite Hd1).
  destruct r as [h|]; [|by intros [= <- <- <-]]. case_decide; [by intros [= <- <- <-]|].
  unfold DecryptPacket. destruct (CheckAndSet _ _) as [[] rw]; [|gsimpl; by intros [= <- <- <-]].
  rewrite header_ad_ok. gsimpl. cbn [set_replay RecvCipher].
  destruct (decide (Length b1 < TagSize)) as [Hsh|Hsh].
  { rewrite DecryptInPlace_short by done. gsimpl. by intros [= <- <- <-]. }
  destruct (RecvCipher x) as [c|] eqn:Hc.
  - destruct (DecryptInPlace_total c b1 (Counter h) (header_bytes h) Hwf1)
      as (b & err & -> & Hwf' & Hl' & Hc'). destruct Hpb1. gsimpl.
    destruct err; intros [= <- <- <-]; (split; [done|]; split; [split; congruence|]);
      intros [? ?]; split; simpl; (done || by rewrite Hc).
  - unfold DecryptInPlace. rewrite decide_False, Bytes_wf by done. done.
Qed.

Lemma open_packet_same t x buf x' buf' oh :
  open_packet t x buf = Ret (x', buf', oh) → same_keys x x'.
Proof.
  unfold open_packet. destruct (StripHeader buf) as [[b1 [h|]]|]; gsimpl; [|by intros [= <- _ _]|done].
  case_decide; [by intros [= <- _ _]|].
  destruct (DecryptPacket t x b1 h) as [[[x1 b2] e]|] eqn:E; [|done]. gsimpl.
  intros [= <- _ _]. by eapply DecryptPacket_same.
Qed.

Context `{N : Net}.
Lemma Close_ok t : any_ok t → any_ok (Close t).
Proof. destruct t as [t|t|t]; simpl; [done| |done]. intros Ht. unfold tls_Close. by case_match. Qed.
End PacketFacts.

Section ClientFacts.
Context `{L : AeadLib, !AeadLaws L}.
Context {T : Type} `{!Transport T, !TransportSend T} (invT : T → Prop) {overT : bool → T → bool}
        `{!TransportStorage T invT overT}.
Context {D : Type} `{!Device D} {emitted : D → list (list byte)} {willing : D → Prop}
        `{!DeviceLaws D emitted willing}.
Implicit Types (s : Client T D) (buf : PacketBuffer) (x : Session).

Record client_inv s : Prop := {
  ci_pool : pool_ok (cl_pool s) ∅;
  ci_tr : invT (cl_tr s);
  ci_live : live (cl_session s)
}.

Lemma open_packet_ok t x buf :
  live x → wf buf → pooled DefaultBufferSize buf →
  ∃ x' buf' oh, open_packet t x buf = Ret (x', buf', oh) ∧ live x' ∧
    LocalIndex x' = LocalIndex x ∧ wf buf' ∧ pooled DefaultBufferSize buf'.
Proof.
  intros Hl Hwf Hpb. unfold open_packet.
  destruct (StripHeader_total buf Hwf) as (b1 & r & -> & Hwf1 & Hd1). gsimpl.
  assert (pooled DefaultBufferSize b1) as Hpb1 by (unfold pooled; by rewrite Hd1).
  destruct r as [h|]; [|by eauto 10]. case_decide; [by eauto 10|].
  destruct (DecryptPacket_any t x b1 h Hl Hwf1 Hpb1) as (x' & b2 & err & -> & ? & ? & ? & ?).
  gsimpl. eauto 10.
Qed.

Lemma deliver_ok tun h buf :
  wf buf → pooled DefaultBufferSize buf →
  ∃ tun' buf', deliver tun h buf = Ret (tun', buf') ∧ pooled DefaultBufferSize buf'.
Proof.
  intros Hwf Hpb. unfold deliver. destruct tun as [d|]; [|eauto]. case_decide; [|eauto].
  destruct (WritePacket_safe d buf DefaultBufferSize Hwf Hpb) as (d' & b' & e & -> & ?).
  gsimpl. eauto.
Qed.

(** A packet that is longer than the buffer ends the process. *)
Lemma open_packet_overlong t x buf :
  overlong buf → pooled DefaultBufferSize buf → open_packet t x buf = Panic SliceBounds.
Proof.
  intros Ho [_ Hc]. unfold open_packet. by rewrite overlong_StripHeader by (done || by rewrite Hc).
Qed.

Lemma client_ingress_ok now choice pick s r :
  client_inv s → client_ingress now choice pick s = Some r →
  if overT pick (cl_tr s) then r = Panic SliceBounds
  else ∃ s' go, r = Ret (s', go) ∧ client_inv s' ∧ (cl_stopped s = false → go = true).
Proof.
  intros [Hp Ht Hl]. unfold client_ingress. destruct (Get (cl_pool s) choice) as [l pool] eqn:EG.
  destruct (pool_ok_get _ _ _ _ _ Hp EG) as (_ & _ & b & Hb & Hpb & Hwb & _). rewrite Hb.
  destruct (Receive pick (cl_tr s) b) as [[[t' b'] res]|] eqn:ER; [|done]. simpl.
  destruct (Receive_stored pick _ b t' b' res Ht Hpb ER) as (Hpb' & Ht' & Ho).
  destruct (overT pick (cl_tr s)).
  { destruct Ho as [[a ->] Ho]. rewrite open_packet_overlong by done. by intros [= <-]. }
  destruct res as [a|err].
  - specialize (Ho a eq_refl) as Hwf'.
    destruct (open_packet_ok now _ b' Hl Hwf' Hpb') as (x' & b2 & oh & -> & Hl' & _ & Hwf2 & Hpb2).
    gsimpl. destruct oh as [h|]; gsimpl.
    + destruct (deliver_ok (cl_tun s) h b2 Hwf2 Hpb2) as (tun' & b3 & -> & Hpb3). gsimpl.
      intros [= <-]. eexists _, _. split; [reflexivity|]. split; [|done].
      split; simpl; [by eapply pool_ok_cycle|done|done].
    + intros [= <-]. eexists _, _. split; [reflexivity|]. split; [|done].
      split; simpl; [by eapply pool_ok_cycle|done|done].
  - intros [= <-]. eexists _, _. split; [reflexivity|]. split; [|by intros ->].
    split; simpl; [by eapply pool_ok_cycle|done|done].
Qed.

Lemma client_egress_ok now choice s r :
  client_inv s → client_egress now choice s = Some r → ∃ s' go, r = Ret (s', go) ∧ client_inv s'.
Proof.
  intros [Hp Ht Hl]. unfold client_egress. destruct (cl_tun s) as [d|]; [|done].
  destruct (Get (cl_pool s) choice) as [l pool] eqn:EG.
  destruct (pool_ok_get _ _ _ _ _ Hp EG) as (_ & _ & b & Hb & Hpb & Hwb & _). rewrite Hb.
  destruct (ReadPacket d b) as [[[d' b'] [err|]]|] eqn:ER; [| |done]; simpl.
  { apply ReadPacket_err with (n := DefaultBufferSize) in ER; [|done].
    intros [= <-]. eexists _, _. split; [reflexivity|]. split; simpl; [by eapply pool_ok_cycle|done..]. }
  apply ReadPacket_wf with (n := DefaultBufferSize) in ER as [Hwf' Hpb'];
    [|unfold DefaultBufferSize; lia|done].
  destruct (EncryptPacket_live now (cl_session s) b' TypeData 0 DefaultBufferSize)
    as (x' & b2 & err & -> & Hwf2 & Hpb2 & _ & Hl'); [apply Hl|done|done|]. gsimpl.
  destruct err as [err|].
  - intros [= <-]. eexists _, _. split; [reflexivity|].
    split; simpl; [by eapply pool_ok_cycle|done|by apply Hl'].
  - destruct (Send_safe (cl_tr s) b2 (cl_target s) Hwf2) as [[t' e] HS]. rewrite HS. gsimpl.
    intros [= <-]. eexists _, _. split; [reflexivity|].
    split; simpl; [by eapply pool_ok_cycle|by eapply Send_stored|by apply Hl'].
Qed.

Lemma keepalive_ok now choice s :
  client_inv s → ∃ s', keepalive now choice s = Ret s' ∧ client_inv s'.
Proof.
  intros [Hp Ht Hl]. unfold keepalive. destruct (Get (cl_pool s) choice) as [l pool] eqn:EG.
  destruct (pool_ok_get _ _ _ _ _ Hp EG) as (_ & _ & b & Hb & Hpb & Hwb & Hl0 & Ho).
  unfold deref. rewrite Hb. gsimpl.
  assert (mkBuf (Data b) 0 (Offset b) = b) as -> by (destruct b; simpl in *; congruence).
  destruct (EncryptPacket_live now (cl_session s) b TypeKeepalive 0 DefaultBufferSize)
    as (x' & b2 & err & -> & Hwf2 & Hpb2 & _ & Hl'); [apply Hl|done|done|]. gsimpl.
  destruct (Send_safe (cl_tr s) b2 (cl_target s) Hwf2) as [[t' e] HS]. rewrite HS. gsimpl.
  eexists. split; [reflexivity|].
  split; simpl; [by eapply pool_ok_cycle|by eapply Send_stored|by apply Hl'].
Qed.
End ClientFacts.

(** ** Properties *)

Section ClientProperties.
Context `{L : AeadLib, !AeadLaws L, H : HashLib, !HashLaws H, C : Curve25519, !CurveLaws C}.
Context `{N : Net, !NetLaws N, Dl : Dialer}.
Context {D : Type} `{!Device D} {emitted : D → list (list byte)} {willing : D → Prop}
        `{!DeviceLaws D emitted willing}.
Implicit Types (s : Client AnyTransport D) (buf : PacketBuffer) (x : Session).

(** The rounds of the three loops in any order, what arrives at the transport and
    at the TUN device between them, and the end signal. *)
Inductive client_step : Client AnyTransport D → Client AnyTransport D → Prop :=
  | cstep_ingress now choice pick s s' go :
      client_ingress now choice pick s = Some (Ret (s', go)) → client_step s s'
  | cstep_egress now choice s s' go :
      client_egress now choice s = Some (Ret (s', go)) → client_step s s'
  | cstep_keepalive now choice s s' :
      keepalive now choice s = Ret s' → client_step s s'
  | cstep_network t s :
      any_ok t →
      client_step s (mkClient (cl_pool s) t (cl_session s) (cl_tun s) (cl_target s) (cl_stopped s))
  | cstep_tun d d' s :
      cl_tun s = Some d →
      client_step s (mkClient (cl_pool s) (cl_tr s) (cl_session s) (Some d') (cl_target s) (cl_stopped s))
  | cstep_stop s :
      client_step s (mkClient (cl_pool s) (cl_tr s) (cl_session s) (cl_tun s) (cl_target s) true).

Lemma client_reachable_inv s s' :
  client_inv any_ok s → rtc client_step s s' → client_inv any_ok s'.
Proof.
  intros Hinv Hr. revert Hinv. induction Hr as [s|s s1 s2 Hstep _ IH]; [done|].
  intros Hinv. apply IH. clear IH.
  destruct Hstep as [now choice pick s s1 go Hi|now choice s s1 go Hi|now choice s s1 Hk|t s Ht
                    |d d' s Hd|s].
  - pose proof (client_ingress_ok any_ok now choice pick s _ Hinv Hi) as Hc.
    destruct (any_over _ _); [done|]. by destruct Hc as (? & ? & [= <- <-] & ? & _).
  - destruct (client_egress_ok any_ok now choice s _ Hinv Hi) as (? & ? & [= <- <-] & ?). done.
  - destruct (keepalive_ok any_ok now choice s Hinv) as (? & E & ?). rewrite Hk in E. by injection E as ->.
  - by destruct Hinv.
  - by destruct Hinv.
  - by destruct Hinv.
Qed.

Lemma finish_handshake_live ih resp a now x :
  finish_handshake ih resp a now = Ok x → live x.
Proof.
  unfold finish_handshake. destruct (ConsumeResponse resp ih).1 as [keys|]; [|done].
  intros (sc & rc & _ & _ & ->)%NewSession_ok. split; eexists; done.
Qed.

Lemma send_msg_ok choice pool hs (tr : AnyTransport) msg a :
  pool_live pool hs → any_ok tr → zlen msg ≤ DefaultBufferSize →
  ∃ l pool' tr' e, send_msg choice pool tr msg a = Ret (l, pool', tr', e) ∧
    pool_live (Put pool' (Some l)) hs ∧ any_ok tr'.
Proof.
  intros Hp Ht Hz. unfold send_msg. destruct (Get pool choice) as [l p] eqn:EG.
  destruct (pool_live_get _ _ _ _ _ true Hp EG) as (_ & b & Hb & [Hbl Hbc] & Hwb & _ & Ho).
  unfold deref. rewrite Hb. gsimpl.
  assert (slice_wf (Data b)) as Hs by apply Hwb.
  assert (wf (load b msg)) as Hwl by (apply load_wf; [done|done|lia]).
  destruct (Send_safe tr (load b msg) a Hwl) as [[t' e] HS]. rewrite HS. gsimpl.
  eexists _, _, _, _. split; [reflexivity|]. split; [|by eapply Send_stored].
  eapply pool_live_cycle; [exact Hp|exact EG|]. split; simpl; [done|]. by rewrite cap_copy_to.
Qed.

Lemma recv_msg_ok pick choice pool hs (tr : AnyTransport) r :
  pool_live pool hs → any_ok tr → recv_msg pick choice pool tr = Some r →
  ∃ l pool' tr' res, r = Ret (l, pool', tr', res) ∧ pool_live (Put pool' (Some l)) hs ∧
    any_ok tr' ∧
    if any_over pick tr then ∃ buf, res = Ok buf ∧ overlong buf else ∀ buf, res = Ok buf → wf buf.
Proof.
  intros Hp Ht. unfold recv_msg. destruct (Get pool choice) as [l p] eqn:EG.
  destruct (pool_live_get _ _ _ _ _ true Hp EG) as (_ & b & Hb & Hpb & Hwb & _ & Ho). rewrite Hb.
  destruct (Receive pick tr b) as [[[t' b'] res]|] eqn:ER; [|done]. simpl. intros [= <-].
  destruct (Receive_stored pick tr b t' b' res Ht Hpb ER) as (Hpb' & Ht' & Hov).
  eexists _, _, _, _. split; [reflexivity|]. split; [by eapply pool_live_cycle|]. split; [done|].
  destruct (any_over pick tr).
  - destruct Hov as [[a ->] Hov]. eauto.
  - destruct res as [a|]; [|done]. intros ? [= <-]. by eapply Hov.
Qed.

(** The message that goes out, and the answer that comes in. *)
Lemma send_msg_run choice pool hs (tr : AnyTransport) msg a :
  pool_live pool hs → zlen msg ≤ DefaultBufferSize →
  ∃ buf l pool' tr' e, send_msg choice pool tr msg a = Ret (l, pool', tr', e) ∧
    Send tr buf (Some a) = Ret (tr', e) ∧ contents buf = msg.
Proof.
  intros Hp Hz. unfold send_msg. destruct (Get pool choice) as [l p] eqn:EG.
  destruct (pool_live_get _ _ _ _ _ true Hp EG) as (_ & b & Hb & [Hbl Hbc] & Hwb & _ & Ho).
  unfold deref. rewrite Hb. gsimpl. assert (slice_wf (Data b)) as Hs by apply Hwb.
  destruct (Send_safe tr (load b msg) a) as [[t' e] HS]; [apply load_wf; [done|done|lia]|].
  rewrite HS. gsimpl. eexists _, _, _, _, _. split; [reflexivity|]. split; [exact HS|].
  apply load_contents; [done|done|lia].
Qed.

Lemma recv_msg_run pick choice pool hs (tr : AnyTransport) resp :
  pool_live pool hs → brings pick tr resp →
  ∃ l pool' tr' buf, recv_msg pick choice pool tr = Some (Ret (l, pool', tr', Ok buf)) ∧
    wf buf ∧ contents buf = resp.
Proof.
  intros Hp Hbr. unfold recv_msg. destruct (Get pool choice) as [l p] eqn:EG.
  destruct (pool_live_get _ _ _ _ _ true Hp EG) as (_ & b & Hb & Hpb & _). rewrite Hb.
  destruct (Hbr b Hpb) as (t' & b' & a & HR & Hc & Hwf). rewrite HR. simpl.
  by eexists _, _, _, _.
Qed.

Lemma client_transport_ok m a sni t : client_transport m a sni = Some (Ok t) → any_ok t.
Proof.
  unfold client_transport, NewUDPTransport, NewTLSClientTransport, NewWSClientTransport.
  repeat case_decide; [destruct (udp_listen _)|destruct (tls_dial _ _)|
    destruct (ws_config _ _); [|destruct (ws_dial _ _ _)]|]; intros E; simplify_eq; (exact I || apply Forall_nil_2).
Qed.
Lemma start_handshake_length e k p m ih :
  start_handshake e k p = Ok (m, ih) → zlen m ≤ DefaultBufferSize.
Proof.
  unfold start_handshake. destruct (NewInitiatorHandshake _ _ _ _) as [i|] eqn:EI; [|done].
  destruct (CreateInitiation _ i) as [[out|] ih'] eqn:E; [|done]. intros [= <- <-].
  apply CreateInitiation_length in E; [rewrite E; done|]. revert EI. unfold NewInitiatorHandshake.
  destruct (hs_ephem e) as [rnd|]; [|done].
  destruct (GenerateKeyPair_ok rnd) as (k' & -> & _). intros [= <-]. apply zlen_PublicKey.
Qed.

(** Start-up waits, exits, crashes on an answer that is too long, or ends in a state
    with the invariant. *)
Lemma client_main_cases cfg priv_rnd e choices pick arrive tunDev now r :
  (∀ t, any_ok t → any_ok (arrive t)) →
  client_main cfg priv_rnd e choices pick arrive tunDev now GlobalPool = Some r →
  (∃ why, r = Ret (Exit why)) ∨
  (∃ t, any_ok t ∧ any_over pick (arrive t) = true ∧ r = Panic SliceBounds) ∨
  ∃ s0, r = Ret (Started s0) ∧ cl_stopped s0 = false ∧ client_inv any_ok s0.
Proof.
  intros Harr. unfold client_main. case_decide; [intros [= <-]; eauto|].
  destruct (ParsePublicKey _) as [pub|]; [|intros [= <-]; eauto].
  destruct (GenerateKeyPair priv_rnd) as [[priv cpub]|]; [|intros [= <-]; eauto].
  destruct (client_transport _ _ _) as [[tr|]|] eqn:Et; [|intros [= <-]; eauto..].
  apply client_transport_ok in Et. destruct (target_addr _) as [a err].
  case_decide; [intros [= <-]; eauto|].
  destruct (start_handshake e priv pub) as [[m ih]|] eqn:EH; [|intros [= <-]; eauto].
  apply start_handshake_length in EH.
  destruct (send_msg_ok choices.1 GlobalPool [] tr m a)
    as (l & p1 & t1 & se & -> & Hp1 & Ht1); [apply pool_live_nil, pool_ok_global|done|done|].
  destruct se; [intros [= <-]; eauto|]. intros (r1 & Hr & [= <-])%bind_Some.
  destruct (recv_msg_ok _ _ _ _ _ _ Hp1 (Harr _ Ht1) Hr) as (l2 & p2 & t2 & res & -> & Hp2 & Ht2 & Hb).
  gsimpl. destruct (any_over pick (arrive t1)) eqn:Eo.
  { right. left. exists t1. destruct Hb as (b & -> & Hb). by rewrite overlong_Bytes. }
  destruct res as [b|]; [|eauto]. rewrite Bytes_wf by auto. gsimpl.
  destruct (finish_handshake _ _ _ _) as [x|] eqn:EF; [|eauto]. right. right.
  eexists. split; [reflexivity|]. split; [done|]. split; simpl; [by apply (proj1 (pool_live_nil _))|done|].
  by eapply finish_handshake_live.
Qed.

(** C5: when the client crashes.  Whatever the configuration, the randomness, the
    dialling and the server's answers, of any length: the start-up waits, exits with
    a message, starts the loops, or panics because the answer is a WebSocket message
    of more than 2048 bytes.  In every state the loops reach, with anything arriving
    at the transport and at the TUN device, no keepalive and no egress round panics;
    a round that reads the network panics exactly if the message it takes is a
    WebSocket message of more than 2048 bytes, and otherwise goes on until the client
    is told to stop.  Over UDP and TLS there is no such message. *)
Theorem client_safe cfg priv_rnd e choices pick arrive tunDev now r :
  (∀ t, any_ok t → any_ok (arrive t)) →
  client_main cfg priv_rnd e choices pick arrive tunDev now GlobalPool = Some r →
  (∃ why, r = Ret (Exit why)) ∨
  (∃ t, any_ok t ∧ any_over pick (arrive t) = true ∧ r = Panic SliceBounds) ∨
  ∃ s0, r = Ret (Started s0) ∧ cl_stopped s0 = false ∧
    ∀ s, rtc client_step s0 s →
      (∀ t choice, ∃ s', keepalive t choice s = Ret s') ∧
      (∀ t choice r', client_egress t choice s = Some r' → ∃ s' go, r' = Ret (s', go)) ∧
      (∀ t choice pick' r', client_ingress t choice pick' s = Some r' →
         if any_over pick' (cl_tr s) then r' = Panic SliceBounds
         else ∃ s' go, r' = Ret (s', go) ∧ (cl_stopped s = false → go = true)) ∧
      (Mode (cl_tr s) ≠ ModeWebSocket → ∀ pick', any_over pick' (cl_tr s) = false).
Proof.
  intros Harr HM.
  destruct (client_main_cases _ _ _ _ _ _ _ _ _ Harr HM) as [?|[?|(s0 & -> & Hns & Hinv)]];
    [by left|by right; left|right; right].
  exists s0. split; [done|]. split; [done|]. intros s Hr.
  pose proof (client_reachable_inv s0 s Hinv Hr) as Hinv'. split_and!.
  - intros t choice. destruct (keepalive_ok any_ok t choice s Hinv') as (s' & ? & _). eauto.
  - intros t choice r' He. destruct (client_egress_ok any_ok t choice s r' Hinv' He)
      as (s' & go & ? & _). eauto.
  - intros t choice pick' r' Hi. pose proof (client_ingress_ok any_ok t choice pick' s r' Hinv' Hi) as Hc.
    destruct (any_over _ _); [done|]. destruct Hc as (s' & go & ? & _ & ?). eauto.
  - intros Hm pick'. apply not_true_is_false. by intros ?%any_over_ws.
Qed.
End ClientProperties.

(** ** Client and server together *)

Section EndToEnd.
Context `{L : AeadLib, !AeadLaws L, H : HashLib, !HashLaws H, C : Curve25519, !CurveLaws C}.
Context {T : Type} `{!Transport T, !TransportSend T} (invT : T → Prop) {overT : bool → T → bool}
        `{!TransportStorage T invT overT}.
Context {D : Type} `{!Device D} {emitted : D → list (list byte)} {willing : D → Prop}
        `{!DeviceLaws D emitted willing}.
(** The server's transports and TUN device. *)
Context {Ts : Type} `{!Transport Ts, !TransportSend Ts} (invTs : Ts → Prop) `{!TransportReceive Ts invTs}.
Context {Ds : Type} `{!Device Ds} {emitted_s : Ds → list (list byte)} {willing_s : Ds → Prop}
        `{!DeviceLaws Ds emitted_s willing_s}.
Implicit Types (s : Client T D) (z : Server Ts Ds) (buf : PacketBuffer) (x y : Session).

(** Sessions that fit together. *)
Record paired x y : Prop := {
  pa_send : SendCipher x = RecvCipher y;
  pa_recv : RecvCipher x = SendCipher y;
  pa_live : live x;
  pa_remote : RemoteIndex x = LocalIndex y;
  pa_local : RemoteIndex y = LocalIndex x;
  pa_index : 0 ≤ LocalIndex x < 2 ^ 32 ∧ 0 ≤ LocalIndex y < 2 ^ 32
}.

(** The device has the packet [p] to read; at most four bytes are in front of it. *)
Definition offers (d : D) (p : list byte) : Prop :=
  ∀ buf, pooled DefaultBufferSize buf → ∃ d' buf', ReadPacket d buf = Some (d', buf', None) ∧
    contents buf' = p ∧ 0 ≤ Offset buf' ≤ 4.

Definition data_header x : Header := next_header x TypeData 0.

Lemma data_header_wf x :
  0 ≤ RemoteIndex x < 2 ^ 32 → u64_range (sendCounter x) → header_wf (data_header x).
Proof. intros Hr Hc. split; simpl; (done || unfold TypeData; lia). Qed.

(** What the egress loop of the client makes of a packet. *)
Lemma client_egress_run now choice s d p c :
  client_inv invT s → cl_tun s = Some d → offers d p → SendCipher (cl_session s) = Some c →
  u64_range (sendCounter (cl_session s)) → zlen p ≤ 2000 →
  ∃ s' buf' e, client_egress now choice s = Some (Ret (s', true)) ∧
    Send (cl_tr s) buf' (Some (cl_target s)) = Ret (cl_tr s', e) ∧
    contents buf' = wire_packet c (data_header (cl_session s)) p.
Proof.
  intros [Hp Ht Hl] Hd Ho Hc Hctr Hz. unfold client_egress. rewrite Hd.
  destruct (Get (cl_pool s) choice) as [l pool] eqn:EG.
  destruct (pool_ok_get _ _ _ _ _ Hp EG) as (_ & _ & b & Hb & Hpb & _). rewrite Hb.
  destruct (Ho b Hpb) as (d' & b' & HR & Hcont & Hoff). rewrite HR. simpl.
  apply ReadPacket_wf with (n := DefaultBufferSize) in HR as [Hwf' [Hl' Hc']];
    [|unfold DefaultBufferSize; lia|done].
  assert (Length b' = zlen p) as Hlen by (rewrite <- Hcont; symmetry; by apply zlen_contents).
  destruct (EncryptPacket_ok now (cl_session s) c b' TypeData 0 Hc Hctr Hwf')
    as (b2 & HE & Hwf2 & Hc2 & _).
  { unfold tunnel_room, TagSize, HeaderSize, DefaultBufferSize in *. lia. }
  rewrite HE. gsimpl. destruct (Send_safe (cl_tr s) b2 (cl_target s) Hwf2) as [[t' e] HS].
  rewrite HS. gsimpl. eexists _, b2, e. split; [reflexivity|]. split; [exact HS|].
  by rewrite Hc2, Hcont.
Qed.

(** Opening a genuine packet with a new counter. *)
Lemma open_packet_run now x b h p c :
  wf b → contents b = wire_packet c h p → header_wf h → ReceiverIndex h = LocalIndex x →
  RecvCipher x = Some c → (CheckAndSet (replay x) (Counter h)).1 = true →
  ∃ x' b', open_packet now x b = Ret (x', b', Some h) ∧ wf b' ∧ contents b' = p.
Proof.
  intros Hwf Hcont Hh Hi Hc Hfr. unfold open_packet.
  destruct (strip_header_bytes b h _ Hwf Hh Hcont) as (b2 & -> & Hwf2 & Hb2 & _). gsimpl.
  rewrite decide_False by tauto. unfold DecryptPacket.
  destruct (CheckAndSet _ (Counter h)) as [v rw]. simpl in Hfr. subst v.
  rewrite header_ad_ok. gsimpl. cbn [set_replay RecvCipher]. rewrite Hc.
  destruct (DecryptInPlace_ok c b2 (Counter h) (header_bytes h) p)
    as (b3 & -> & Hwf3 & Hb3 & _); [done|by rewrite Hb2, Open_Seal|]. gsimpl. by eexists _, b3.
Qed.

(** What the ingress loop of the client makes of a packet of the server. *)
Lemma client_ingress_run now choice pick s d h p c :
  client_inv invT s → cl_tun s = Some d → willing d →
  brings pick (cl_tr s) (wire_packet c h p) → header_wf h → Type_ h = TypeData →
  ReceiverIndex h = LocalIndex (cl_session s) → RecvCipher (cl_session s) = Some c →
  (CheckAndSet (replay (cl_session s)) (Counter h)).1 = true → 0 < zlen p →
  ∃ s' d', client_ingress now choice pick s = Some (Ret (s', true)) ∧
    cl_tun s' = Some d' ∧ emitted d' = emitted d ++ [p] ∧ willing d'.
Proof.
  intros [Hp Ht Hl] Hd Hw Hbr Hh Hty Hi Hc Hfr Hz. unfold client_ingress.
  destruct (Get (cl_pool s) choice) as [l pool] eqn:EG.
  destruct (pool_ok_get _ _ _ _ _ Hp EG) as (_ & _ & b & Hb & Hpb & _). rewrite Hb.
  destruct (Hbr b Hpb) as (t' & b1 & a & HR & Hcont & Hwf1). rewrite HR. simpl.
  destruct (open_packet_run now (cl_session s) b1 h p c) as (x' & b3 & -> & Hwf3 & Hb3); [done..|]. gsimpl.
  unfold deliver. rewrite Hd, decide_True by done.
  destruct (WritePacket_emits d b3 Hwf3 Hw) as (d' & b4 & HW & Hem & Hw');
    [rewrite <- (zlen_contents b3 Hwf3), Hb3; lia|].
  rewrite HW. gsimpl. eexists _, d'. split; [reflexivity|]. split; [done|]. split; [|done].
  by rewrite Hem, Hb3.
Qed.

(** The whole exchange, for any client endpoint. *)
Lemma connect_run e cfg tr raddr l z held buf he cp r1 r2 e1 e2 target now :
  server_inv invTs z held → l ∈ held → heap (srv_pool z) !! l = Some buf → wf buf →
  (tr < length (srv_transports z))%nat →
  hs_ephem he = Ok r1 → GenerateKeyPair (Ok r1) = Ok (e1, PublicKey e1) →
  ephem_rnd e = Ok r2 → GenerateKeyPair (Ok r2) = Ok (e2, PublicKey e2) →
  good_keys cp (serverPriv cfg) e1 e2 →
  ∃ msg ih, start_handshake he cp (PublicKey (serverPriv cfg)) = Ok (msg, ih) ∧
    (contents buf = msg →
     ∃ z' t t' err resp x y q,
       handleIncomingPacket e cfg tr raddr l z = Ret z' ∧
       srv_transports z !! tr = Some t ∧ Send t resp (Some raddr) = Ret (t', err) ∧
       srv_transports z' = <[tr := t']> (srv_transports z) ∧
       finish_handshake ih (contents resp) target now = Ok x ∧ paired x y ∧
       Get_session (srv_mgr z') (LocalIndex y) = Some q ∧ sess_store (srv_mgr z') !! q = Some y ∧
       routed_to z' (defaultPeerIP cfg) q tr raddr ∧
       sendCounter x = 0 ∧ sendCounter y = 0 ∧ replay x = zero_window ∧ replay y = zero_window).
Proof.
  intros Hz Hl Hb Hwf Htr Hr1 Hg1 Hr2 Hg2 Hgood.
  pose proof (GenerateIndex_range (hs_index he)) as Hci.
  pose proof (GenerateIndex_range (index_rnd e)) as Hsi.
  destruct (handshake_handled invTs e cfg tr raddr l z held buf cp r1 r2 e1 e2
    (GenerateIndex (hs_index he)) (hs_time he) now (Some target) Hz Hl Hb Hwf Htr ltac:(lia)
    Hg1 Hr2 Hg2 Hgood) as (ih & msg & ih' & Hih & Hmsg & Hrest).
  exists msg, ih'. split.
  { unfold start_handshake. by rewrite Hr1, Hih, Hmsg. }
  intros Hc. destruct (Hrest Hc) as (z' & t & t' & err & resp & keys & ih'' & x & q & y & Hh & Ht & HS
    & Htrs & HC & HN & Hg & Hq & H1 & H2 & Hly & H3 & H4 & Hrt & Hlx & Hiy & Hix & Hn1 & Hn2 & Hw1 & Hw2).
  exists z', t, t', err, resp, x, y, q. split_and!; try done.
  - unfold finish_handshake. by rewrite HC.
  - constructor; [done|done|done|done|done|lia].
  - by rewrite Hiy.
Qed.

(** C2: connecting works.  A client starts a handshake against the server's
    public key, and a buffer with its initiation reaches the server's handler.  If
    the four exchanges are non-zero, the handler registers a session under a fresh
    index, routes the default address to it and answers to the client's address;
    from that answer the client makes a session that is paired with the server's:
    each one's send cipher is the other's receive cipher and the indices are
    swapped.  Both sessions start with counter zero and an empty replay window. *)
Theorem connect e cfg tr raddr l z held buf he cp r1 r2 e1 e2 target now :
  server_inv invTs z held → l ∈ held → heap (srv_pool z) !! l = Some buf → wf buf →
  (tr < length (srv_transports z))%nat →
  hs_ephem he = Ok r1 → GenerateKeyPair (Ok r1) = Ok (e1, PublicKey e1) →
  ephem_rnd e = Ok r2 → GenerateKeyPair (Ok r2) = Ok (e2, PublicKey e2) →
  good_keys cp (serverPriv cfg) e1 e2 →
  ∃ msg ih, start_handshake he cp (PublicKey (serverPriv cfg)) = Ok (msg, ih) ∧
    (contents buf = msg →
     ∃ z' t t' err resp x y q,
       handleIncomingPacket e cfg tr raddr l z = Ret z' ∧
       srv_transports z !! tr = Some t ∧ Send t resp (Some raddr) = Ret (t', err) ∧
       srv_transports z' = <[tr := t']> (srv_transports z) ∧
       finish_handshake ih (contents resp) target now = Ok x ∧ paired x y ∧
       Get_session (srv_mgr z') (LocalIndex y) = Some q ∧ sess_store (srv_mgr z') !! q = Some y ∧
       routed_to z' (defaultPeerIP cfg) q tr raddr ∧
       sendCounter x = 0 ∧ sendCounter y = 0 ∧ replay x = zero_window ∧ replay y = zero_window).
Proof. intros Hz Hl Hb Hwf Htr Hr1 Hg1 Hr2 Hg2 Hgood. by eapply connect_run. Qed.

(** C3: a packet travels from the client's device to the server's.  With paired
    sessions, the client's egress loop turns the packet its TUN device offers, of 1 to
    2000 bytes but not 78 (those are lost, [payload_78_lost]), into one transport
    packet; when a buffer with the same bytes reaches the server's
    handler and its counter is new there, exactly that packet is written to the
    server's TUN device, and the packet's source address is routed back to the
    client. *)
Theorem uplink now choice s d p z y q e cfg tr raddr l held dz :
  client_inv invT s → cl_tun s = Some d → offers d p → 0 < zlen p ≤ 2000 → zlen p ≠ 78 →
  paired (cl_session s) y → u64_range (sendCounter (cl_session s)) →
  server_inv invTs z held → l ∈ held → (tr < length (srv_transports z))%nat →
  Get_session (srv_mgr z) (LocalIndex y) = Some q → sess_store (srv_mgr z) !! q = Some y →
  (CheckAndSet (replay y) (sendCounter (cl_session s))).1 = true →
  srv_tun z = Some dz → willing_s dz →
  ∃ s' sent err c, client_egress now choice s = Some (Ret (s', true)) ∧
    Send (cl_tr s) sent (Some (cl_target s)) = Ret (cl_tr s', err) ∧
    SendCipher (cl_session s) = Some c ∧
    contents sent = wire_packet c (data_header (cl_session s)) p ∧
    (∀ buf, heap (srv_pool z) !! l = Some buf → wf buf → contents buf = contents sent →
     ∃ z' dz', handleIncomingPacket e cfg tr raddr l z = Ret z' ∧
       srv_tun z' = Some dz' ∧ emitted_s dz' = emitted_s dz ++ [p] ∧
       routed_to z' (source_of cfg p) q tr raddr).
Proof.
  intros Hinv Hd Ho Hz H78 [Hs Hr [[c Hc] _] Hri Hli [_ Hidx]] Hctr Hz' Hl Htr Hg Hq Hfr Hdz Hw.
  destruct (client_egress_run now choice s d p c Hinv Hd Ho Hc Hctr) as (s' & sent & err & He & HS & Hcont);
    [lia|].
  exists s', sent, err, c. do 4 (split; [done|]). intros buf Hb Hwf Hbc.
  assert (authentic z buf (data_header (cl_session s)) q y c p) as Hau.
  { split; [done|apply data_header_wf; [by rewrite Hri|done]|by simpl; rewrite Hri|done
           |congruence|congruence|done]. }
  destruct (forward_run invTs e cfg tr raddr l z held buf (data_header (cl_session s)) q y c p dz
    Hz' Hl Hb Hau) as (z' & dz' & Hh & _ & Hd' & Hem & Hrt & _); [done|done|lia|done..|].
  by exists z', dz'.
Qed.

(** C4: and back.  A packet of the server's TUN device that is routed to the
    client's session leaves the server as one transport packet; when the client's
    transport brings it and its counter is new there, exactly that packet is
    written to the client's TUN device. *)
Theorem downlink now choice pick s d z y e buf held q tr a :
  client_inv invT s → cl_tun s = Some d → willing d → paired (cl_session s) y →
  server_inv invTs z held → wf buf → tunnel_room buf → 0 < Length buf →
  routed_to z (destination_of (contents buf)) q tr a → sess_store (srv_mgr z) !! q = Some y →
  u64_range (sendCounter y) →
  (CheckAndSet (replay (cl_session s)) (sendCounter y)).1 = true →
  ∃ t t' err z' sent c, srv_transports z !! tr = Some t ∧
    egress_packet e buf z = Ret (z', sent) ∧ Send t sent (Some a) = Ret (t', err) ∧
    SendCipher y = Some c ∧ contents sent = wire_packet c (data_header y) (contents buf) ∧
    (brings pick (cl_tr s) (contents sent) →
     ∃ s' d', client_ingress now choice pick s = Some (Ret (s', true)) ∧
       cl_tun s' = Some d' ∧ emitted d' = emitted d ++ [contents buf]).
Proof.
  intros Hinv Hd Hw [Hs Hr [_ [c Hc]] Hri Hli [Hidx _]] Hz Hwf Hroom Hlen Hrt Hq Hctr Hfr.
  assert (SendCipher y = Some c) as Hcy by congruence.
  destruct (egress_run invTs e z held buf q tr a y c Hz Hwf Hroom Hrt Hq Hcy Hctr)
    as (t & t' & err & z' & sent & Ht & Hcont & HS & He & _).
  exists t, t', err, z', sent, c. split_and!; [done..|]. intros Hbr. rewrite Hcont in Hbr.
  destruct (client_ingress_run now choice pick s d (data_header y) (contents buf) c Hinv Hd Hw Hbr)
    as (s' & d' & Hi & Hd' & Hem & _); [apply data_header_wf; [by rewrite Hli|done]|done
    |done|done|done|by rewrite zlen_contents|]. by exists s', d'.
Qed.
End EndToEnd.

(** ** A concrete client and server

    UDP on both sides, Linux TUN devices, and the toy libraries. *)

Section ClientDemo.
#[local] Existing Instance toy_aead.
#[local] Existing Instance toy_hash.
#[local] Existing Instance toy_curve.
#[local] Existing Instance toy_net.
#[local] Existing Instance toy_kernel.

Definition toy_dialer : Dialer := {|
  tls_dial := λ _ _, Ok 5%positive;
  ws_config := λ _ _, None;
  ws_dial := λ _ _ _, Ok 6%positive;
  udp_listen := λ _, None
|}.
#[local] Existing Instance toy_dialer.

(** The client's session and the server's, as one handshake would leave them. *)
Definition demo_x1 : Session := demo_session demo_keys.
Definition demo_y1 : Session := demo_session demo_keys'.

Lemma demo_paired : paired demo_x1 demo_y1.
Proof.
  constructor; [reflexivity|reflexivity|split; eexists; reflexivity|reflexivity|reflexivity|].
  split; split; vm_compute; (discriminate || reflexivity).
Qed.

Definition demo_z_p : loc := fresh (dom (sess_store (srv_mgr demo_srv0))).
Definition demo_z0 : Server UDPTransport LinuxTUN :=
  let s1 := store_session demo_z_p demo_y1 demo_srv0 in
  set_mgr (Register (srv_mgr s1) demo_z_p) s1.
Definition demo_z1 : Server UDPTransport LinuxTUN :=
  register_peer demo_env "10.8.0.2" demo_z_p 0 demo_addr demo_z0.

Lemma demo_z0_ok :
  server_inv any_udp demo_z0 ∅ ∧ sess_store (srv_mgr demo_z0) !! demo_z_p = Some demo_y1 ∧
  Get_session (srv_mgr demo_z0) 9 = Some demo_z_p.
Proof.
  destruct (inv_new_session any_udp demo_srv0 ∅ demo_y1 demo_srv0_inv) as (Hinv & Hst & Hse).
  { split; eexists; reflexivity. }
  fold demo_z_p in Hinv, Hst, Hse. split; [exact Hinv|]. split.
  - change (sess_store (srv_mgr demo_z0)) with
      (sess_store (Register (srv_mgr (store_session demo_z_p demo_y1 demo_srv0)) demo_z_p)).
    rewrite Hst. apply lookup_insert_eq.
  - unfold Get_session. change (sessions (srv_mgr demo_z0)) with
      (sessions (Register (srv_mgr (store_session demo_z_p demo_y1 demo_srv0)) demo_z_p)).
    rewrite Hse. change (LocalIndex demo_y1) with 9. apply lookup_insert_eq.
Qed.

Lemma demo_z1_ok :
  server_inv any_udp demo_z1 ∅ ∧ routed_to demo_z1 "10.8.0.2" demo_z_p 0 demo_addr.
Proof.
  destruct demo_z0_ok as (Hinv & Hst & _).
  assert (is_Some (sess_store (srv_mgr demo_z0) !! demo_z_p)) as Hp by (rewrite Hst; eauto).
  split.
  - apply inv_register_peer; [exact Hinv|exact Hp|]. simpl. lia.
  - refine (proj1 (register_peer_routes any_udp demo_z0 ∅ demo_env "10.8.0.2" demo_z_p 0 demo_addr
      Hinv Hp _)). simpl. lia.
Qed.

(** The client: its device has one packet, its socket what [arrivals] holds. *)
Definition demo_client (arrivals : list (Addr * list byte)) : Client UDPTransport LinuxTUN :=
  mkClient GlobalPool (mkUDP arrivals None false []) demo_x1
    (Some (mkLinux (mkTun [demo_ip] None []))) (mkAddr "udp" "203.0.113.9:8443") false.

Lemma demo_client_inv arrivals : client_inv any_udp (demo_client arrivals).
Proof. split; [apply pool_ok_global|done|split; eexists; reflexivity]. Qed.

Lemma demo_offers : offers (mkLinux (mkTun [demo_ip] None [])) demo_ip.
Proof.
  intros buf [Hl Hc]. unfold DefaultBufferSize in *. eexists _, _. split; [reflexivity|]. split.
  2:{ vm_compute. intuition discriminate. }
  assert (take (Z.to_nat (len (Data (Reset buf)))) demo_ip = demo_ip) as -> by (simpl; by rewrite Hl).
  apply (load_contents (Reset buf) demo_ip); [unfold slice_wf; simpl; lia|done|].
  simpl. rewrite Hl. vm_compute. discriminate.
Qed.

Lemma demo_brings a p rest :
  zlen p ≤ 2048 → brings false (mkUDP ((a, p) :: rest) None false []) p.
Proof.
  intros Hz buf [Hl Hc]. unfold DefaultBufferSize in *. eexists _, _, _. split; [reflexivity|].
  assert (take (Z.to_nat (len (Data (Reset buf)))) p = p) as ->
    by (simpl; rewrite Hl; apply take_ge; unfold zlen in Hz; lia).
  split; [apply (load_contents (Reset buf) p)|apply (load_wf (Reset buf) p)];
    (unfold slice_wf; simpl; (done || lia)).
Qed.

Definition demo_c : AEADCipher := mkCipher (L := toy_aead) (demo_key 3) 1.

Example uplink_witness :
  ∃ s' d' z', client_egress 5 None (demo_client []) = Some (Ret (s', true)) ∧
    demo_handle demo_z0 (wire_packet demo_c (data_header demo_x1) demo_ip) = Ret z' ∧
    srv_tun z' = Some d' ∧ tun_out (linux_state d') = [demo_ip].
Proof.
  destruct demo_z0_ok as (Hinv & Hst & Hg). unfold demo_handle.
  destruct (demo_arrive demo_z0 (wire_packet demo_c (data_header demo_x1) demo_ip)) as [l z] eqn:E.
  destruct (demo_arrive_ok demo_z0 (wire_packet demo_c (data_header demo_x1) demo_ip) l z Hinv)
    as (Hz & Ht & Hm & Hp & Htun & b & Hb & Hwf & Hcont); [vm_compute; discriminate|exact E|].
  destruct (uplink (emitted_s := λ t, tun_out (linux_state t)) (willing_s := λ t, tun_willing (linux_state t))
    any_udp any_udp 5 None (demo_client []) (mkLinux (mkTun [demo_ip] None [])) demo_ip z demo_y1
    demo_z_p demo_env demo_cfg 0 demo_addr l {[l]} (mkLinux (mkTun [] None [])))
    as (s' & sent & err & c & He & _ & Hc & Hsent & Hz').
  - apply demo_client_inv.
  - reflexivity.
  - apply demo_offers.
  - split; vm_compute; (reflexivity || discriminate).
  - vm_compute. discriminate.
  - exact demo_paired.
  - split; vm_compute; (discriminate || reflexivity).
  - exact Hz.
  - by apply elem_of_singleton.
  - rewrite Ht. vm_compute. lia.
  - rewrite Hm. exact Hg.
  - rewrite Hm. exact Hst.
  - vm_compute. reflexivity.
  - rewrite Htun. reflexivity.
  - by split; [reflexivity|intros h bs].
  - destruct (Hz' b Hb Hwf) as (z' & d' & Hh & Hd & Hem & _).
    { rewrite Hcont, Hsent. change (SendCipher (cl_session (demo_client []))) with (Some demo_c) in Hc.
      by injection Hc as <-. }
    exists s', d', z'. split; [exact He|]. split; [exact Hh|]. split; [exact Hd|exact Hem].
Defined.

Definition demo_reply : PacketBuffer := demo_pkt "a reply".

Example downlink_witness :
  ∃ z' sent s' d', egress_packet demo_env demo_reply demo_z1 = Ret (z', sent) ∧
    client_ingress 5 None false (demo_client [(demo_addr, contents sent)]) = Some (Ret (s', true)) ∧
    cl_tun s' = Some d' ∧ tun_out (linux_state d') = [bytes_of "a reply"].
Proof.
  destruct demo_z1_ok as (Hinv & Hrt). destruct demo_z0_ok as (_ & Hst & _).
  set (c' := mkCipher (L := toy_aead) (demo_key 200) 1).
  set (bytes := wire_packet c' (data_header demo_y1) (contents demo_reply)).
  destruct (demo_pkt_valid "a reply") as [Hwf _]; [vm_compute; intuition discriminate|].
  destruct (downlink (emitted := λ t, tun_out (linux_state t)) (willing := λ t, tun_willing (linux_state t))
    any_udp any_udp 5 None false (demo_client [(demo_addr, bytes)]) (mkLinux (mkTun [demo_ip] None []))
    demo_z1 demo_y1 demo_env demo_reply ∅ demo_z_p 0 demo_addr)
    as (t & t' & err & z' & sent & c & _ & He & _ & Hc & Hsent & Hcl).
  - apply demo_client_inv.
  - reflexivity.
  - by split; [reflexivity|intros h bs].
  - exact demo_paired.
  - exact Hinv.
  - exact Hwf.
  - split; [vm_compute; discriminate|right; vm_compute; discriminate].
  - vm_compute. reflexivity.
  - destruct Hrt as (q & peer & Hlk & Hrest). exists q, peer. split; [|exact Hrest].
    vm_compute in Hlk |- *. exact Hlk.
  - exact Hst.
  - split; vm_compute; (discriminate || reflexivity).
  - vm_compute. reflexivity.
  - assert (contents sent = bytes) as Hb.
    { rewrite Hsent. change (SendCipher demo_y1) with (Some c') in Hc. by injection Hc as <-. }
    destruct Hcl as (s' & d' & Hi & Hd & Hem).
    { rewrite Hb. apply demo_brings. vm_compute. discriminate. }
    exists z', sent, s', d'. rewrite Hb. split; [exact He|]. split; [exact Hi|].
    split; [exact Hd|]. rewrite Hem. vm_compute. reflexivity.
Defined.

Definition demo_he : HsEnv := mkHsEnv [x07] (Ok (demo_key 5)) 1234.

Lemma demo_start_handshake msg ih :
  start_handshake demo_he (demo_key 40) (PublicKey (serverPriv demo_cfg)) = Ok (msg, ih) →
  msg = demo_init.
Proof.
  unfold start_handshake, demo_init.
  assert (GenerateIndex (hs_index demo_he) = 7) as -> by reflexivity.
  cbn [hs_ephem hs_time demo_he serverPriv demo_cfg].
  destruct (NewInitiatorHandshake _ _ _ _) as [i|]; [|done].
  destruct (CreateInitiation 1234 i) as [[m|] i']; [|done]. by intros [= <- _].
Qed.

Example connect_witness :
  ∃ z' x y q, demo_handle demo_srv0 demo_init = Ret z' ∧ paired x y ∧
    sess_store (srv_mgr z') !! q = Some y ∧ routed_to z' "10.8.0.2" q 0 demo_addr.
Proof.
  unfold demo_handle. destruct (demo_arrive demo_srv0 demo_init) as [l z] eqn:E.
  destruct (demo_arrive_ok demo_srv0 demo_init l z demo_srv0_inv)
    as (Hinv & Ht & _ & _ & _ & b & Hb & Hwf & Hcont); [vm_compute; discriminate|exact E|].
  destruct (connect any_udp demo_env demo_cfg 0 demo_addr l z {[l]} b demo_he (demo_key 40)
    (demo_key 5) (demo_key 1) (clamp (demo_key 5)) (clamp (demo_key 1)) demo_addr 5)
    as (msg & ih & Hs & Hrest).
  - exact Hinv.
  - by apply elem_of_singleton.
  - exact Hb.
  - exact Hwf.
  - rewrite Ht. simpl. lia.
  - reflexivity.
  - reflexivity.
  - reflexivity.
  - reflexivity.
  - split; vm_compute; discriminate.
  - destruct Hrest as (z' & t & t' & err & resp & x & y & q & Hh & _ & _ & _ & _ & Hpa & _ & Hq & Hrt & _).
    { rewrite Hcont. symmetry. by apply demo_start_handshake in Hs. }
    exists z', x, y, q. split; [exact Hh|]. split; [exact Hpa|]. split; [exact Hq|exact Hrt].
Defined.

(** The network: whatever the client sent last is handled by the demo server's
    responder, and the answer comes back. *)
Definition demo_network (t : AnyTransport) : AnyTransport :=
  match t with
  | TrUDP t =>
      match last (udp_log t) with
      | Some (_, msg) =>
          match (ConsumeInitiation (Ok (demo_key 1)) msg (demo_responder 9)).1 with
          | Ok (resp, _) => TrUDP (mkUDP [(demo_addr, resp)] None false (udp_log t))
          | Err _ => TrUDP t
          end
      | None => TrUDP t
      end
  | t => t
  end.

Lemma demo_network_ok t : any_ok t → any_ok (demo_network t).
Proof.
  intros Ht. destruct t as [t|t|t]; simpl; [|done..].
  destruct (last _) as [[a m]|]; [|done]. by destruct (ConsumeInitiation _ _ _).1 as [[]|].
Qed.

Definition demo_client_cfg : ClientConfig :=
  mkClientConfig (bytes_of "203.0.113.9:8443") (Base64 (PublicKey (demo_key 90))) (bytes_of "udp") [].

Abbreviation demo_start :=
  (client_main (D := LinuxTUN) demo_client_cfg (Ok (demo_key 40)) demo_he (None, None) false
     demo_network (Ok (mkLinux (mkTun [] None []))) 5 GlobalPool).

Definition started (r : option (outcome (startup (Client AnyTransport LinuxTUN)))) : bool :=
  match r with Some (Ret (Started _)) => true | _ => false end.

(** The same client with a server that answers over WebSocket with 3000 bytes. *)
Definition demo_flood (t : AnyTransport) : AnyTransport :=
  match t with
  | TrWS t => TrWS (mkWS false (ws_clientConn t) ∅ [mkIncoming demo_addr (zeros 3000)] false (ws_log t))
  | t => t
  end.

Definition crashed (r : option (outcome (startup (Client AnyTransport LinuxTUN)))) : bool :=
  match r with Some (Panic SliceBounds) => true | _ => false end.
Definition over_udp (r : option (outcome (startup (Client AnyTransport LinuxTUN)))) : bool :=
  match r with Some (Ret (Started s0)) => bool_decide (Mode (cl_tr s0) ≠ ModeWebSocket) | _ => false end.

Example client_safe_witness :
  (∃ s0, demo_start = Some (Ret (Started s0)) ∧ (∃ s', keepalive 6 None s0 = Ret s') ∧
     ∀ pick, any_over pick (cl_tr s0) = false) ∧
  crashed (client_main (mkClientConfig (bytes_of "203.0.113.9:8443")
      (Base64 (PublicKey (demo_key 90))) (bytes_of "ws") []) (Ok (demo_key 40)) demo_he (None, None) false
      demo_flood (Ok (mkLinux (mkTun [] None []))) 5 GlobalPool) = true.
Proof.
  split; [|vm_compute; reflexivity].
  assert (started demo_start = true) as Hs by (vm_compute; reflexivity).
  assert (over_udp demo_start = true) as Hm by (vm_compute; reflexivity).
  destruct (client_main _ _ _ _ _ _ _ _ _) as [r|] eqn:E; [|discriminate Hs].
  destruct (client_safe demo_client_cfg (Ok (demo_key 40)) demo_he (None, None) false demo_network
    (Ok (mkLinux (mkTun [] None []))) 5 r demo_network_ok E) as [[why Hr]|[(t & _ & _ & Hr)|(s0 & Hr & _ & Hall)]].
  - rewrite Hr in Hs. discriminate Hs.
  - rewrite Hr in Hs. discriminate Hs.
  - exists s0. split; [by rewrite Hr|]. destruct (Hall s0 (rtc_refl _ s0)) as (Hk & _ & _ & Ho).
    split; [apply Hk|]. intros pick. apply Ho. rewrite Hr in Hm. exact (bool_decide_eq_true_1 _ Hm).
Defined.
End ClientDemo.
