(* ===== verification/Ipc.v ===== *)
(** * The control channel (pkg/ipc)

    The messages between the console and the daemon, the server's loop over one
    connection, and the client's calls.  JSON is the interface [Json]: an encoder
    and a decoder that takes one value from a stream. *)

From Stdlib Require Import QArith.
From S2P Require Import Prelude Encoding Address System.
Local Open Scope Z_scope.

(** ** protocol.go *)

Definition ActionConnect : gostring := bytes_of "connect".
Definition ActionDisconnect : gostring := bytes_of "disconnect".
Definition ActionGetStatus : gostring := bytes_of "get_status".
Definition ActionSetKillSwitch : gostring := bytes_of "set_killswitch".

Record ConnectParams := mkParams {
  ServerAddr : gostring;
  ServerPubKey : gostring;
  Transport_ : gostring;
  SNI : gostring;
  EnableKillSwitch : bool;
  BlockPadding : bool;
  DecoyProbe : bool
}.
Definition no_params : ConnectParams := mkParams [] [] [] [] false false false.

Record Request := mkRequest {
  Action : gostring;
  Params : ConnectParams
}.

(** [MemoryAllocMB] is a fraction; the counters are 64-bit. *)
Record StatusResponse := mkStatus {
  Connected : bool;
  st_Transport : gostring;
  st_ServerAddr : gostring;
  BytesSent : Z;
  BytesReceived : Z;
  PacketsSent : Z;
  PacketsReceived : Z;
  UptimeSeconds : Z;
  MemoryAllocMB : Q;
  KillSwitchActive : bool;
  st_VirtualIP : gostring
}.

Record Response := mkResponse {
  Success : bool;
  Error : gostring;
  Status : option StatusResponse
}.

(** [Response{Success: true}] and [Response{Success: false, Error: msg}]. *)
Definition ok_response : Response := mkResponse true [] None.
Definition fail_response (msg : gostring) : Response := mkResponse false msg None.

(** ** Addresses of the channel *)

Definition DefaultSocketPath (os : goos) : gostring :=
  if decide (os = Windows) then bytes_of "127.0.0.1:47821" else bytes_of "/tmp/anonymousant.sock".

Definition getNetworkAndAddr (path : gostring) : gostring * gostring :=
  if Contains path (bytes_of ":") then (bytes_of "tcp", path) else (bytes_of "unix", path).

(** ** JSON *)

Class Json := {
  encode_req : Request → list byte;
  encode_resp : Response → list byte;
  (** One value from the front of the stream and what is left; [None] at the end
      of the stream or on malformed input. *)
  decode_req : list byte → option (Request * list byte);
  decode_resp : list byte → option (Response * list byte)
}.

(** The messages that come back from JSON as they went in: strings of ASCII
    characters (an invalid UTF-8 byte would be replaced), counters in their range,
    and a fraction a float64 holds. *)
Definition ascii (s : gostring) : bool := forallb (λ b, (Byte.to_N b <? 128)%N) s.
Definition u64 (x : Z) : bool := (0 <=? x) && (x <? 2 ^ 64).
Definition i64 (x : Z) : bool := (- 2 ^ 63 <=? x) && (x <? 2 ^ 63).
Definition float_mb (q : Q) : bool :=
  (Qden q =? 1048576)%positive && (0 <=? Qnum q) && (Qnum q <? 2 ^ 53).

Definition json_req (r : Request) : bool :=
  let p := Params r in
  ascii (Action r) && ascii (ServerAddr p) && ascii (ServerPubKey p) && ascii (Transport_ p) &&
  ascii (SNI p).
Definition json_status (s : StatusResponse) : bool :=
  ascii (st_Transport s) && ascii (st_ServerAddr s) && ascii (st_VirtualIP s) &&
  u64 (BytesSent s) && u64 (BytesReceived s) && u64 (PacketsSent s) && u64 (PacketsReceived s) &&
  i64 (UptimeSeconds s) && float_mb (MemoryAllocMB s).
Definition json_resp (r : Response) : bool :=
  ascii (Error r) && match Status r with None => true | Some s => json_status s end.

(** The newline that ends an encoded value counts as read with the value: the
    decoder skips white space. *)
Class JsonLaws (J : Json) := {
  decode_encode_req r rest : json_req r = true → decode_req (encode_req r ++ rest) = Some (r, rest);
  decode_encode_resp r rest :
    json_resp r = true → decode_resp (encode_resp r ++ rest) = Some (r, rest);
  decode_req_shorter st r rest : decode_req st = Some (r, rest) → (length rest < length st)%nat;
  decode_req_nil : decode_req [] = None
}.

(** ** server.go *)

(** A request handler: [None] is a call that does not return. *)
Class Handler (S : Type) := Handle : Request → S → option (outcome (Response * S)).

(** How the loop over a connection ends: at the end of the input or when the
    response cannot be written, inside a handler, or with the whole process. *)
Inductive served (S : Type) :=
  | Closed (s : S) (out : list byte)
  | Hangs (s : S) (req : Request) (out : list byte)
  | Crashed (p : panic) (out : list byte).
Arguments Closed {S} s out.
Arguments Hangs {S} s req out.
Arguments Crashed {S} p out.

Section IpcServer.
Context `{J : Json} {S : Type} `{!Handler S}.

(** [write_ok k]: the [k]-th response can be written. *)
Fixpoint handle_client (fuel : nat) (write_ok : nat → bool) (stream : list byte) (s : S)
    (out : list byte) : served S :=
  match fuel with
  | O => Closed s out
  | Datatypes.S fuel =>
      match decode_req stream with
      | None => Closed s out
      | Some (req, stream) =>
          match Handle req s with
          | None => Hangs s req out
          | Some (Panic p) => Crashed p out
          | Some (Ret (resp, s)) =>
              if write_ok O then
                handle_client fuel (λ k, write_ok (Datatypes.S k)) stream s (out ++ encode_resp resp)
              else Closed s out
          end
      end
  end.

Definition handleClient (write_ok : nat → bool) (stream : list byte) (s : S) : served S :=
  handle_client (Datatypes.S (length stream)) write_ok stream s [].
End IpcServer.

(** The listener: [Close] works once. *)
Record IpcServer := mkIpcServer {
  is_path : gostring;
  is_closed : bool;
  is_open : bool                      (* the listener accepts connections *)
}.

(** [NewServer]: the operations on the file system and the result of [net.Listen]. *)
Inductive ipc_op :=
  | RemoveFile (addr : gostring)
  | Listen (network addr : gostring)
  | Chmod0666 (addr : gostring)
  | CloseListener.

Definition NewIpcServer (os : goos) (socketPath : gostring) (listen : option error)
    : list ipc_op * result IpcServer :=
  let socketPath := if decide (socketPath = []) then DefaultSocketPath os else socketPath in
  let '(network, addr) := getNetworkAndAddr socketPath in
  let unix := bool_decide (network = bytes_of "unix") in
  let ops := (if unix then [RemoveFile addr] else []) ++ [Listen network addr] in
  match listen with
  | Some e => (ops, Err e)
  | None => (ops ++ (if unix then [Chmod0666 addr] else []), Ok (mkIpcServer socketPath false true))
  end.

Definition ipc_Close (s : IpcServer) : list ipc_op * IpcServer :=
  if is_closed s then ([], s)
  else
    let '(network, addr) := getNetworkAndAddr (is_path s) in
    (CloseListener :: (if decide (network = bytes_of "unix") then [RemoveFile addr] else []),
     mkIpcServer (is_path s) true false).

(** The accept loop on one result of [Accept]: serve a connection, stop, or try
    again. *)
Inductive accepted (C : Type) := ServeConn (c : C) | StopLoop | Retry.
Arguments ServeConn {C} c.
Arguments StopLoop {C}.
Arguments Retry {C}.

Definition accept_round {C} (s : IpcServer) (conn : result C) : accepted C :=
  match conn with
  | Ok c => ServeConn c
  | Err _ => if is_closed s then StopLoop else Retry
  end.

(** ** client.go *)

Section IpcClient.
Context `{J : Json}.

(** The connection: bytes that arrive, and whether writing works. *)
Definition Send_request (req : Request) (writable : option error) (incoming : list byte)
    : result Response * list byte * list byte :=
  match writable with
  | Some e => (Err (ErrWrap "failed to encode request: %w" e), incoming, [])
  | None =>
      match decode_resp incoming with
      | None => (Err (ErrNew "failed to decode response"), incoming, encode_req req)
      | Some (resp, rest) => (Ok resp, rest, encode_req req)
      end
  end.

Definition Connect_request (params : ConnectParams) : Request := mkRequest ActionConnect params.
Definition Disconnect_request : Request := mkRequest ActionDisconnect no_params.
Definition GetStatus_request : Request := mkRequest ActionGetStatus no_params.

(** [GetStatus]'s treatment of the response; the status pointer may be nil. *)
Definition GetStatus_result (r : result Response) : result (option StatusResponse) :=
  match r with
  | Err e => Err e
  | Ok resp =>
      if Success resp then Ok (Status resp)
      else Err (ErrStr "daemon error: %s" (String.string_of_list_byte (Error resp)))
  end.
End IpcClient.

(** ** Facts *)

Section IpcFacts.
Context `{J : Json, !JsonLaws J} {S : Type} `{!Handler S}.
Implicit Types (s : S).

(** The requests of a connection, answered one after the other. *)
Inductive answers : list Request → S → list Response → S → Prop :=
  | answers_nil s : answers [] s [] s
  | answers_cons req reqs s resp s1 resps s2 :
      json_req req = true → Handle req s = Some (Ret (resp, s1)) → answers reqs s1 resps s2 →
      answers (req :: reqs) s (resp :: resps) s2.

Lemma encode_req_nonempty r : json_req r = true → encode_req r ≠ [].
Proof.
  intros Hr H. pose proof (decode_encode_req r [] Hr) as Hd. rewrite H in Hd. simpl in Hd.
  by rewrite decode_req_nil in Hd.
Qed.

Lemma length_answers reqs s resps s' :
  answers reqs s resps s' → (length reqs ≤ length (concat (map encode_req reqs)))%nat.
Proof.
  induction 1 as [|req reqs s resp s1 resps s2 Hr Hh Ha IH]; simpl; [lia|]. rewrite length_app.
  pose proof (encode_req_nonempty req Hr). destruct (encode_req req); [done|]. simpl. lia.
Qed.

Lemma handle_client_answers fuel wok reqs s resps s' out :
  (∀ k, wok k = true) → (length reqs < fuel)%nat → answers reqs s resps s' →
  handle_client fuel wok (concat (map encode_req reqs)) s out =
    Closed s' (out ++ concat (map encode_resp resps)).
Proof.
  intros Hw Hf Ha. revert fuel wok out Hw Hf.
  induction Ha as [s|req reqs s resp s1 resps s2 Hr Hh Ha IH]; intros [|fuel] wok out Hw Hf;
    simpl in *; try lia.
  - by rewrite decode_req_nil, app_nil_r.
  - rewrite (decode_encode_req _ _ Hr), Hh, Hw. rewrite IH by (auto; lia). by rewrite <- app_assoc.
Qed.

(** More fuel than bytes changes nothing. *)
Lemma handle_client_fuel fuel wok st s out :
  (length st < fuel)%nat →
  handle_client fuel wok st s out = handle_client (Datatypes.S (length st)) wok st s out.
Proof.
  assert (∀ n f1 f2 wok st s out, (length st ≤ n)%nat → (length st < f1)%nat → (length st < f2)%nat →
    handle_client f1 wok st s out = handle_client f2 wok st s out) as Hall; [|intros; eapply Hall; [done|lia|lia]].
  clear fuel wok st s out. induction n as [|n IH]; intros [|f1] [|f2] wok st s out Hn H1 H2; try lia; simpl.
  - destruct (decode_req st) as [[req rest]|] eqn:E; [|done]. apply decode_req_shorter in E. lia.
  - destruct (decode_req st) as [[req rest]|] eqn:E; [|done]. apply decode_req_shorter in E.
    destruct (Handle req s) as [[[resp s1]|p]|]; [|done..]. destruct (wok 0%nat); [|done].
    apply IH; lia.
Qed.

End IpcFacts.

(** ** Properties *)

Section IpcProperties.
Context `{J : Json, !JsonLaws J} {S : Type} `{!Handler S}.

(** C20: the control channel serves every request, in order, and the loop over a
    connection ends.  On any input and for any handler, the loop ends at the end
    of the input, inside a handler that does not return, or with a crash of a
    handler; more fuel than the length of the input changes nothing, so the end is
    the input's.  When the handlers return, a connection that carries any list of
    requests gets exactly their responses, in order, and a client that sends a
    request and reads the answer gets the handler's response. *)
Theorem ipc_serves (reqs : list Request) (s : S) resps s' :
  answers reqs s resps s' →
  handleClient (λ _, true) (concat (map encode_req reqs)) s =
    Closed s' (concat (map encode_resp resps)) ∧
  (∀ fuel wok st z out, (length st < fuel)%nat →
     handle_client fuel wok st z out = handle_client (Datatypes.S (length st)) wok st z out) ∧
  (∀ req resp rest, reqs = [req] → resps = [resp] → json_resp resp = true →
     ∀ out, handleClient (λ _, true) (encode_req req) s = Closed s' out →
       Send_request req None (out ++ rest) = (Ok resp, rest, encode_req req)).
Proof.
  intros Ha.
  assert (handleClient (λ _, true) (concat (map encode_req reqs)) s =
            Closed s' (concat (map encode_resp resps))) as Hrun.
  { unfold handleClient. apply (handle_client_answers _ _ _ _ _ _ []); [done| |done].
    pose proof (length_answers _ _ _ _ Ha). lia. }
  split_and!; [done| |].
  - intros fuel wok st z out Hf. by apply handle_client_fuel.
  - intros req resp rest -> -> Hj out. simpl in Hrun. rewrite !app_nil_r in Hrun. rewrite Hrun.
    intros [= <-]. unfold Send_request. by rewrite decode_encode_resp.
Qed.

(** Closing twice is closing once, and the accept loop then stops. *)
Lemma ipc_Close_once (C : Type) (s : IpcServer) e :
  ipc_Close (ipc_Close s).2 = ([], (ipc_Close s).2) ∧
  accept_round (C := C) (ipc_Close s).2 (Err e) = StopLoop.
Proof.
  unfold ipc_Close, accept_round. destruct (is_closed s) eqn:E; simpl; [by rewrite E|].
  by destruct (getNetworkAndAddr (is_path s)).
Qed.
End IpcProperties.

(** ** A toy encoding with the laws of [Json]

    A value as a positive number, its bits as bytes, and an end mark. *)

#[global] Instance byte_countable : Countable byte :=
  inj_countable Byte.to_N Byte.of_N (λ b, Byte.of_to_N b).
#[global] Instance params_eq_dec : EqDecision ConnectParams.
Proof. solve_decision. Defined.
#[global] Instance request_eq_dec : EqDecision Request.
Proof. solve_decision. Defined.
#[global] Instance request_countable : Countable Request.
Proof.
  refine (inj_countable'
    (λ r, let p := Params r in (Action r, (ServerAddr p, ServerPubKey p, Transport_ p, SNI p),
            (EnableKillSwitch p, BlockPadding p, DecoyProbe p)))
    (λ x, let '(a, (b, c, d, e), (f, g, h)) := x in mkRequest a (mkParams b c d e f g h)) _).
  by intros [a [b c d e f g h]].
Defined.
#[global] Instance Q_eq_dec : EqDecision Q.
Proof. solve_decision. Defined.
#[global] Instance Q_countable : Countable Q.
Proof. refine (inj_countable' (λ q, (Qnum q, Qden q)) (λ x, Qmake x.1 x.2) _). by intros []. Defined.
#[global] Instance status_eq_dec : EqDecision StatusResponse.
Proof. solve_decision. Defined.
#[global] Instance status_countable : Countable StatusResponse.
Proof.
  refine (inj_countable'
    (λ s, (Connected s, (st_Transport s, st_ServerAddr s, st_VirtualIP s),
           (BytesSent s, BytesReceived s, PacketsSent s, PacketsReceived s, UptimeSeconds s),
           (MemoryAllocMB s, KillSwitchActive s)))
    (λ x, let '(a, (b, c, k), (d, e, f, g, h), (i, j)) := x in mkStatus a b c d e f g h i j k) _).
  by intros [].
Defined.
#[global] Instance response_eq_dec : EqDecision Response.
Proof. solve_decision. Defined.
#[global] Instance response_countable : Countable Response.
Proof.
  refine (inj_countable' (λ r, (Success r, Error r, Status r))
            (λ x, let '(a, b, c) := x in mkResponse a b c) _).
  by intros [].
Defined.

Fixpoint pos_bytes (p : positive) : list byte :=
  match p with
  | xH => [x02]
  | xO p => x00 :: pos_bytes p
  | xI p => x01 :: pos_bytes p
  end.
Fixpoint bytes_pos (st : list byte) : option (positive * list byte) :=
  match st with
  | x00 :: st => '(p, rest) ← bytes_pos st; Some (xO p, rest)
  | x01 :: st => '(p, rest) ← bytes_pos st; Some (xI p, rest)
  | x02 :: st => Some (xH, st)
  | _ => None
  end.

Lemma bytes_pos_app p rest : bytes_pos (pos_bytes p ++ rest) = Some (p, rest).
Proof. induction p as [p IH|p IH|]; simpl; by rewrite ?IH. Qed.

Lemma bytes_pos_shorter st p rest : bytes_pos st = Some (p, rest) → (length rest < length st)%nat.
Proof.
  revert p rest. induction st as [|b st IH]; intros p rest; [done|]. simpl.
  destruct b; try done; [| |intros [= _ <-]; lia];
    (destruct (bytes_pos st) as [[q k]|]; [|done]; intros [= _ <-]; specialize (IH q k eq_refl); lia).
Qed.

Definition toy_decode {A} `{Countable A} (st : list byte) : option (A * list byte) :=
  '(p, rest) ← bytes_pos st; a ← decode p; Some (a, rest).

Definition toy_json : Json := {|
  encode_req := λ r, pos_bytes (encode r);
  encode_resp := λ r, pos_bytes (encode r);
  decode_req := toy_decode;
  decode_resp := toy_decode
|}.

#[global] Instance toy_json_laws : JsonLaws toy_json.
Proof.
  split; simpl.
  - intros r rest _. unfold toy_decode. rewrite bytes_pos_app. simpl. by rewrite decode_encode.
  - intros r rest _. unfold toy_decode. rewrite bytes_pos_app. simpl. by rewrite decode_encode.
  - intros st r rest. unfold toy_decode. destruct (bytes_pos st) as [[p k]|] eqn:E; [|done]. simpl.
    destruct (decode p); [|done]. intros [= _ <-]. by eapply bytes_pos_shorter.
  - done.
Qed.

(** A handler that answers a status request and refuses others. *)
Definition demo_handler : Handler nat := λ req n,
  Some (Ret (if decide (Action req = ActionGetStatus) then ok_response else fail_response (Action req),
             S n)).

Example ipc_serves_witness :
  handleClient (J := toy_json) (Handler0 := demo_handler) (λ _, true)
    (concat (map (encode_req (Json := toy_json)) [GetStatus_request; Disconnect_request])) 0%nat =
  Closed 2%nat (concat (map (encode_resp (Json := toy_json))
                     [ok_response; fail_response ActionDisconnect])).
Proof.
  refine (proj1 (ipc_serves (J := toy_json) (Handler0 := demo_handler)
    [GetStatus_request; Disconnect_request] 0%nat
    [ok_response; fail_response ActionDisconnect] 2%nat _)).
  apply (answers_cons (Handler0 := demo_handler)) with (s1 := 1%nat); [reflexivity|reflexivity|].
  apply (answers_cons (Handler0 := demo_handler)) with (s1 := 2%nat); [reflexivity|reflexivity|].
  apply answers_nil.
Defined.
