(* ===== verification/Daemon.v ===== *)
(** * The privileged daemon (cmd/ant-daemon/main.go)

    The daemon's state, the three request handlers, the two packet loops, and the
    way they interleave.  A connect request has two halves, because it waits for
    the server's answer with the mutex held: [connect_begin] up to the wait,
    [connect_resume] from the answer on.  Each round of a packet loop has two halves
    as well, since a request may come in between.  Signals, flags and log output are
    not modelled. *)

From Stdlib Require Import QArith.
From S2P Require Import Prelude Buffer Wire Replay Cipher Encoding Keys Noise Session Address.
From S2P Require Import Transport System Tun Router KillSwitch Platform Server Client Ipc.
Local Open Scope Z_scope.

(** [err.Error()], for the errors of the program and of its libraries. *)
Class ErrorText := error_text : error → gostring.

(** The four counters; they are 64-bit and wrap around. *)
Record Counters := mkCounters {
  bytesSent : Z;
  bytesReceived : Z;
  packetsSent : Z;
  packetsReceived : Z
}.
Definition count_sent (n : Z) (c : Counters) : Counters :=
  mkCounters (wrap 64 (bytesSent c + n)) (bytesReceived c) (wrap 64 (packetsSent c + 1))
    (packetsReceived c).
Definition count_received (n : Z) (c : Counters) : Counters :=
  mkCounters (bytesSent c) (wrap 64 (bytesReceived c + n)) (packetsSent c)
    (wrap 64 (packetsReceived c + 1)).

Section Daemon.
Context `{L : AeadLib, H : HashLib, C : Curve25519, N : Net, Dl : Dialer, Te : ErrorText}.
Context {D Rt Sys : Type} `{!Device D, !TunDevice D Sys, !Shell Sys, !Router Rt Sys}.

(** [stopCh] is nil, open ([Some false]) or closed ([Some true]).  The last three
    fields are the buffer pool, the system, and the transports that a failed
    connect has closed and dropped. *)
Record Daemon := mkDaemon {
  connected : bool;
  params : ConnectParams;
  tunDev : option D;
  transport : option AnyTransport;
  session : option Session;
  router : option Rt;
  killSwitch : option KillSwitch;
  connectedAt : Z;
  stopCh : option bool;
  counters : Counters;
  dm_pool : Pool;
  dm_sys : Sys;
  dm_dropped : list AnyTransport
}.

Definition NewDaemon (s : Sys) : Daemon :=
  mkDaemon false no_params None None None None None 0 None (mkCounters 0 0 0 0) GlobalPool s [].

Definition with_pool (p : Pool) (d : Daemon) : Daemon :=
  mkDaemon (connected d) (params d) (tunDev d) (transport d) (session d) (router d) (killSwitch d)
    (connectedAt d) (stopCh d) (counters d) p (dm_sys d) (dm_dropped d).
Definition with_counters (c : Counters) (d : Daemon) : Daemon :=
  mkDaemon (connected d) (params d) (tunDev d) (transport d) (session d) (router d) (killSwitch d)
    (connectedAt d) (stopCh d) c (dm_pool d) (dm_sys d) (dm_dropped d).
Definition with_link (t : option AnyTransport) (x : option Session) (d : Daemon) : Daemon :=
  mkDaemon (connected d) (params d) (tunDev d) t x (router d) (killSwitch d)
    (connectedAt d) (stopCh d) (counters d) (dm_pool d) (dm_sys d) (dm_dropped d).
Definition with_tun (t : option D) (d : Daemon) : Daemon :=
  mkDaemon (connected d) (params d) t (transport d) (session d) (router d) (killSwitch d)
    (connectedAt d) (stopCh d) (counters d) (dm_pool d) (dm_sys d) (dm_dropped d).
(** [tr.Close()] on a transport that is then given up. *)
Definition drop_transport (tr : AnyTransport) (d : Daemon) : Daemon :=
  mkDaemon (connected d) (params d) (tunDev d) (transport d) (session d) (router d) (killSwitch d)
    (connectedAt d) (stopCh d) (counters d) (dm_pool d) (dm_sys d) (Close tr :: dm_dropped d).

(** ** Connecting *)

Definition with_address (addr : gostring) (p : ConnectParams) : ConnectParams :=
  mkParams addr (ServerPubKey p) (Transport_ p) (SNI p) (EnableKillSwitch p) (BlockPadding p)
    (DecoyProbe p).

(** The switch on the transport; [None] is an unsupported one. *)
Definition daemon_transport (p : ConnectParams) : option (result AnyTransport) :=
  if decide (Transport_ p = bytes_of "udp") then Some (NewUDPTransport (bytes_of ":0"))
  else if decide (Transport_ p = bytes_of "tls" ∨ Transport_ p = []) then
    let sni := if decide (SNI p = []) then bytes_of "gateway.internal" else SNI p in
    Some (NewTLSClientTransport (ServerAddr p) sni)
  else if decide (Transport_ p = bytes_of "ws") then
    Some (NewWSClientTransport (ws_url (ServerAddr p)) (ws_origin (SNI p)) (SNI p))
  else None.

Definition errorf (prefix : string) (e : error) : gostring := bytes_of prefix ++ error_text e.

(** What a connect request takes from outside up to the wait. *)
Record ConnectEnv := mkConnectEnv {
  ce_priv : result (list byte);
  ce_hs : HsEnv;
  ce_choice : option nat
}.

(** The locals of a connect request that waits for the server's answer. *)
Record Pending := mkPending {
  pd_params : ConnectParams;
  pd_tr : AnyTransport;
  pd_target : Addr;
  pd_initiator : InitiatorHandshake
}.

Definition connect_begin (e : ConnectEnv) (p : ConnectParams) (d : Daemon)
    : outcome (Daemon * (Response + Pending)) :=
  let p := with_address (sanitizeAddress (ServerAddr p)) p in
  if connected d then Ret (d, inl (fail_response (bytes_of "already connected")))
  else
  match ParsePublicKey (ServerPubKey p) with
  | Err er => Ret (d, inl (fail_response (errorf "invalid public key: " er)))
  | Ok serverPub =>
  match GenerateKeyPair (ce_priv e) with
  | Err er => Ret (d, inl (fail_response (errorf "key generation failed: " er)))
  | Ok (clientPriv, _) =>
  match daemon_transport p with
  | None => Ret (d, inl (fail_response (bytes_of "unsupported transport")))
  | Some (Err er) => Ret (d, inl (fail_response (errorf "transport failed: " er)))
  | Some (Ok tr) =>
  let targetAddr := (target_addr (ServerAddr p)).1 in
  match start_handshake (ce_hs e) clientPriv serverPub with
  | Err er => Ret (drop_transport tr d, inl (fail_response (error_text er)))
  | Ok (initMsg, initiator) =>
      '(l, pool, tr, _) ← send_msg (ce_choice e) (dm_pool d) tr initMsg targetAddr;
      Ret (with_pool (Put pool (Some l)) d, inr (mkPending p tr targetAddr initiator))
  end
  end
  end
  end.

(** The TUN device, the new connection's fields, routes and kill switch.  The old
    router and kill switch stay when no new one is set. *)
Definition establish (os : goos) (now : Z) (p : ConnectParams) (tr : AnyTransport) (x : Session)
    (d : Daemon) : outcome Daemon :=
  '(s, tun) ← open_tun_device (bytes_of "ant0") (bytes_of "10.8.0.2") (bytes_of "10.8.0.1") (dm_sys d);
  let '(rt, ks, s) :=
    match tun with
    | None => (router d, killSwitch d, s)
    | Some t =>
        let '(rt, ks, s) := setup_system os (EnableKillSwitch p) t (ServerAddr p) s in
        (Some rt, match ks with Some ks => Some ks | None => killSwitch d end, s)
    end in
  Ret (mkDaemon true p tun (Some tr) (Some x) rt ks now (Some false) (counters d) (dm_pool d) s
         (dm_dropped d)).

Definition connect_resume (os : goos) (pick : bool) (choice : option nat) (now : Z) (pd : Pending)
    (d : Daemon) : option (outcome (Daemon * Response)) :=
  r ← recv_msg pick choice (dm_pool d) (pd_tr pd);
  Some ('(l, pool, tr, resp) ← r;
        match resp with
        | Err _ =>
            Ret (drop_transport tr (with_pool (Put pool (Some l)) d),
                 fail_response (bytes_of "handshake receive failed"))
        | Ok respBuf =>
            b ← Bytes respBuf;
            let d := with_pool (Put pool (Some l)) d in
            match (ConsumeResponse b (pd_initiator pd)).1 with
            | Err er => Ret (drop_transport tr d, fail_response (errorf "handshake auth failed: " er))
            | Ok keys =>
                match NewSession keys (Some (pd_target pd)) CipherChaCha20Poly1305 now with
                | Err er => Ret (drop_transport tr d, fail_response (error_text er))
                | Ok x => d ← establish os now (pd_params pd) tr x d; Ret (d, ok_response)
                end
            end
        end).

(** ** Disconnecting and status *)

(** [if ch != nil { close(ch) }] *)
Definition close_chan (ch : option bool) : outcome (option bool) :=
  match ch with
  | None => Ret None
  | Some true => Panic CloseClosed
  | Some false => Ret (Some true)
  end.

Definition handleDisconnect (os : goos) (d : Daemon) : outcome (Daemon * Response) :=
  if negb (connected d) then Ret (d, ok_response)
  else
    stop ← close_chan (stopCh d);
    let '(ks, s) :=
      match killSwitch d with
      | Some ks => let '(ks, s, _) := Disable os ks (dm_sys d) in (Some ks, s)
      | None => (None, dm_sys d)
      end in
    let '(rt, s) :=
      match router d with
      | Some rt =>
          let '(rt, s, _) := RestoreRoutes rt s in
          let '(rt, s, _) := RestoreDNS rt s in (Some rt, s)
      | None => (None, s)
      end in
    Ret (mkDaemon false (params d) (CloseTun <$> tunDev d) (Close <$> transport d) (Wipe <$> session d)
           rt ks (connectedAt d) stop (counters d) (dm_pool d) s (dm_dropped d), ok_response).

(** [alloc] is the allocator's byte count; times are in nanoseconds.  (A float64
    holds the seconds of the uptime; it is exact to the nanosecond for 97 days.) *)
Definition handleGetStatus (alloc now : Z) (d : Daemon) : Response :=
  let up := connected d in
  mkResponse true [] (Some (mkStatus up
    (if up then Transport_ (params d) else bytes_of "none")
    (if up then ServerAddr (params d) else [])
    (bytesSent (counters d)) (bytesReceived (counters d))
    (packetsSent (counters d)) (packetsReceived (counters d))
    (if up then (now - connectedAt d) `quot` 10 ^ 9 else 0)
    (alloc # 1048576)
    (match killSwitch d with Some ks => IsEnabled ks | None => false end)
    (bytes_of "10.8.0.2"))).

Definition unknown_action (req : Request) : Response :=
  fail_response (bytes_of "unknown action: " ++ Action req).

(** ** The packet loops *)

(** From the TUN device: a buffer with a packet, or the end of the loop.  The field
    is read anew in every round, and it may have become nil. *)
Definition egress_read (choice : option nat) (d : Daemon) : option (outcome (Daemon * option loc)) :=
  let '(l, pool) := Get (dm_pool d) choice in
  match heap pool !! l, tunDev d with
  | Some buf, Some t =>
      '(t, buf, err) ← ReadPacket t buf;
      Some (Ret (match err with
                 | Some _ => (with_pool (cl_put l buf pool) (with_tun (Some t) d), None)
                 | None => (with_pool (pool_set l buf pool) (with_tun (Some t) d), Some l)
                 end))
  | _, _ => Some (Panic NilDeref)
  end.

(** Counted, encrypted and sent to the address the loop was started with. *)
Definition egress_send (now : Z) (targetAddr : Addr) (l : loc) (d : Daemon) : outcome Daemon :=
  buf ← deref (heap (dm_pool d)) l;
  let d := with_counters (count_sent (Length buf) (counters d)) d in
  match session d, transport d with
  | Some x, Some t =>
      '(x, buf, err) ← EncryptPacket now x buf TypeData 0;
      match err with
      | Some _ => Ret (with_pool (cl_put l buf (dm_pool d)) (with_link (Some t) (Some x) d))
      | None =>
          '(t, _) ← Send t buf (Some targetAddr);
          Ret (with_pool (cl_put l buf (dm_pool d)) (with_link (Some t) (Some x) d))
      end
  | _, _ => Panic NilDeref
  end.

(** From the network: a buffer with a packet, or whether to try again.  A nil
    [stopCh] is never ready. *)
Definition ingress_receive (pick : bool) (choice : option nat) (d : Daemon)
    : option (outcome (Daemon * (loc + bool))) :=
  let '(l, pool) := Get (dm_pool d) choice in
  match heap pool !! l, transport d with
  | Some buf, Some t =>
      '(t, buf, r) ← Receive pick t buf;
      let d := with_link (Some t) (session d) d in
      Some (Ret (match r with
                 | Err _ => (with_pool (cl_put l buf pool) d,
                             inr (bool_decide (stopCh d ≠ Some true)))
                 | Ok _ => (with_pool (pool_set l buf pool) d, inl l)
                 end))
  | _, _ => Some (Panic NilDeref)
  end.

(** Header off, index checked, decrypted, counted, delivered. *)
Definition ingress_open (now : Z) (l : loc) (d : Daemon) : outcome Daemon :=
  buf ← deref (heap (dm_pool d)) l;
  match session d with
  | None => Panic NilDeref
  | Some x =>
      '(x, buf, opened) ← open_packet now x buf;
      let d := with_link (transport d) (Some x) d in
      match opened with
      | None => Ret (with_pool (cl_put l buf (dm_pool d)) d)
      | Some h =>
          let d := with_counters (count_received (Length buf) (counters d)) d in
          '(t, buf) ← deliver (tunDev d) h buf;
          Ret (with_pool (cl_put l buf (dm_pool d)) (with_tun t d))
      end
  end.

(** ** The running daemon

    The mutex is held by the connect request that waits; every loop is between two
    rounds or holds a buffer. *)
Inductive Loop :=
  | LEgress (targetAddr : Addr) (held : option loc)
  | LIngress (held : option loc).

Definition loop_held (lp : Loop) : option loc :=
  match lp with LEgress _ h => h | LIngress h => h end.

(** Half a round; a loop that ends is gone. *)
Definition loop_step (now : Z) (choice : option nat) (pick : bool) (lp : Loop) (d : Daemon)
    : option (outcome (Daemon * option Loop)) :=
  match lp with
  | LEgress a None =>
      r ← egress_read choice d;
      Some ('(d, o) ← r; Ret (d, match o with Some l => Some (LEgress a (Some l)) | None => None end))
  | LEgress a (Some l) => Some (d ← egress_send now a l d; Ret (d, Some (LEgress a None)))
  | LIngress None =>
      r ← ingress_receive pick choice d;
      Some ('(d, o) ← r;
            Ret (d, match o with
                    | inl l => Some (LIngress (Some l))
                    | inr again => if (again : bool) then Some (LIngress None) else None
                    end))
  | LIngress (Some l) => Some (d ← ingress_open now l d; Ret (d, Some (LIngress None)))
  end.

Record Node := mkNode {
  nd : Daemon;
  nd_lock : option (Request * Pending);
  nd_loops : list Loop
}.

(** The loops a connect request starts: the egress loop ends at once without a
    TUN device. *)
Definition new_loops (resp : Response) (pd : Pending) (d : Daemon) : list Loop :=
  if Success resp then
    (match tunDev d with Some _ => [LEgress (pd_target pd) None] | None => [] end) ++ [LIngress None]
  else [].

(** [d.mu.Lock()]: a request blocks while another one holds the mutex. *)
Definition with_lock {A} (n : Node) (k : Daemon → option A) : option A :=
  match nd_lock n with Some _ => None | None => k (nd n) end.

(** The whole connect request, with nothing of the daemon in between; [arrive] is
    what the network does to the transport meanwhile.  [None] is a request that is
    never answered. *)
Definition handleConnect (e : ConnectEnv) (os : goos) (pick : bool) (choice : option nat)
    (arrive : AnyTransport → AnyTransport) (now : Z) (p : ConnectParams) (n : Node)
    : option (outcome (Response * Node)) :=
  with_lock n (λ d,
  match connect_begin e p d with
  | Panic pn => Some (Panic pn)
  | Ret (d, inl resp) => Some (Ret (resp, mkNode d None (nd_loops n)))
  | Ret (d, inr pd) =>
      let pd := mkPending (pd_params pd) (arrive (pd_tr pd)) (pd_target pd) (pd_initiator pd) in
      r ← connect_resume os pick choice now pd d;
      Some ('(d, resp) ← r; Ret (resp, mkNode d None (new_loops resp pd d ++ nd_loops n)))
  end).

(** What a request takes from outside. *)
Record HandleEnv := mkHandleEnv {
  he_connect : ConnectEnv;
  he_os : goos;
  he_pick : bool;
  he_choice : option nat;
  he_arrive : AnyTransport → AnyTransport;
  he_now : Z;
  he_alloc : Z
}.

(** A request, from the lock to the answer.  One that blocks on the mutex gives no
    answer for as long as the mutex is held. *)
Definition daemon_Handle (e : HandleEnv) (req : Request) (n : Node)
    : option (outcome (Response * Node)) :=
  if decide (Action req = ActionConnect) then
    handleConnect (he_connect e) (he_os e) (he_pick e) (he_choice e) (he_arrive e) (he_now e)
      (Params req) n
  else if decide (Action req = ActionDisconnect) then
    with_lock n (λ d,
      Some ('(d, resp) ← handleDisconnect (he_os e) d; Ret (resp, mkNode d None (nd_loops n))))
  else if decide (Action req = ActionGetStatus) then
    with_lock n (λ d, Some (Ret (handleGetStatus (he_alloc e) (he_now e) d, n)))
  else Some (Ret (unknown_action req, n)).

(** What a step does: a request is answered at a time, something comes in from the
    network, a packet loop makes half a round, or something else happens. *)
Inductive label :=
  | Answer (now : Z) (req : Request) (resp : Response)
  | Arrive
  | Round (lp : Loop)
  | Tau.

Inductive node_step : Node → label → Node → Prop :=
  | ns_unknown now req n :
      Action req ∉ [ActionConnect; ActionDisconnect; ActionGetStatus] →
      node_step n (Answer now req (unknown_action req)) n
  | ns_refuse now e req n d' resp :
      nd_lock n = None → Action req = ActionConnect →
      connect_begin e (Params req) (nd n) = Ret (d', inl resp) →
      node_step n (Answer now req resp) (mkNode d' None (nd_loops n))
  | ns_wait e req n d' pd :
      nd_lock n = None → Action req = ActionConnect →
      connect_begin e (Params req) (nd n) = Ret (d', inr pd) →
      node_step n Tau (mkNode d' (Some (req, pd)) (nd_loops n))
  | ns_resume os pick choice now req n d' pd resp :
      nd_lock n = Some (req, pd) →
      connect_resume os pick choice now pd (nd n) = Some (Ret (d', resp)) →
      node_step n (Answer now req resp) (mkNode d' None (new_loops resp pd d' ++ nd_loops n))
  | ns_disconnect now os req n d' resp :
      nd_lock n = None → Action req = ActionDisconnect →
      handleDisconnect os (nd n) = Ret (d', resp) →
      node_step n (Answer now req resp) (mkNode d' None (nd_loops n))
  | ns_status alloc now req n :
      nd_lock n = None → Action req = ActionGetStatus →
      node_step n (Answer now req (handleGetStatus alloc now (nd n))) n
  | ns_loop i lp now choice pick n d' o :
      nd_loops n !! i = Some lp → loop_step now choice pick lp (nd n) = Some (Ret (d', o)) →
      node_step n (Round lp)
        (mkNode d' (nd_lock n)
           (match o with Some lp' => <[i := lp']> (nd_loops n) | None => delete i (nd_loops n) end))
  | ns_answer req pd tr n :
      nd_lock n = Some (req, pd) → any_ok tr →
      node_step n Arrive
        (mkNode (nd n) (Some (req, mkPending (pd_params pd) tr (pd_target pd) (pd_initiator pd)))
           (nd_loops n))
  | ns_network t t' n :
      transport (nd n) = Some t → any_ok t' →
      node_step n Arrive (mkNode (with_link (Some t') (session (nd n)) (nd n)) (nd_lock n) (nd_loops n))
  | ns_tun t t' n :
      tunDev (nd n) = Some t →
      node_step n Tau (mkNode (with_tun (Some t') (nd n)) (nd_lock n) (nd_loops n)).

Inductive node_steps : Node → list label → Node → Prop :=
  | nodes_refl n : node_steps n [] n
  | nodes_step n l n1 ls n2 :
      node_step n l n1 → node_steps n1 ls n2 → node_steps n (l :: ls) n2.

Definition start_node (s : Sys) : Node := mkNode (NewDaemon s) None [].
End Daemon.
#[global] Arguments Daemon {L} D Rt Sys.
#[global] Arguments Node {L} D Rt Sys.

(** ** The abstract daemon

    A tunnel is down, or up with its mode, its address and the time it came up. *)
Inductive tunnel := Down | Up (mode addr : gostring) (since : Z).

(** What a status answer says at the time [now], in nanoseconds. *)
Definition status_of (now : Z) (s : tunnel) (st : StatusResponse) : Prop :=
  match s with
  | Down => Connected st = false ∧ st_Transport st = bytes_of "none" ∧ st_ServerAddr st = [] ∧
            UptimeSeconds st = 0
  | Up m a t => Connected st = true ∧ st_Transport st = m ∧ st_ServerAddr st = a ∧
            UptimeSeconds st = (now - t) `quot` 10 ^ 9
  end.

Definition modes : list gostring := words ["udp"; "tls"; ""; "ws"].

(** Requests and answers at the time [now]. *)
Inductive spec_step (now : Z) : tunnel → Request → Response → tunnel → Prop :=
  | sp_up m a t req :
      Action req = ActionConnect →
      spec_step now (Up m a t) req (fail_response (bytes_of "already connected")) (Up m a t)
  | sp_fail msg req : Action req = ActionConnect → spec_step now Down req (fail_response msg) Down
  | sp_connect req :
      Action req = ActionConnect → Transport_ (Params req) ∈ modes →
      spec_step now Down req ok_response
        (Up (Transport_ (Params req)) (sanitizeAddress (ServerAddr (Params req))) now)
  | sp_disconnect s req : Action req = ActionDisconnect → spec_step now s req ok_response Down
  | sp_status s st req :
      Action req = ActionGetStatus → status_of now s st →
      spec_step now s req (mkResponse true [] (Some st)) s
  | sp_unknown s req :
      Action req ∉ [ActionConnect; ActionDisconnect; ActionGetStatus] →
      spec_step now s req (unknown_action req) s.

(** A run of the abstract daemon, with silent steps left out. *)
Inductive spec_run : tunnel → list label → tunnel → Prop :=
  | spec_nil s : spec_run s [] s
  | spec_answer s now req resp s1 ls s2 :
      spec_step now s req resp s1 → spec_run s1 ls s2 → spec_run s (Answer now req resp :: ls) s2
  | spec_silent s l ls s2 :
      (∀ now req resp, l ≠ Answer now req resp) → spec_run s ls s2 → spec_run s (l :: ls) s2.

(** ** Invariants *)

Section DaemonFacts.
Context `{L : AeadLib, !AeadLaws L, H : HashLib, !HashLaws H, C : Curve25519, !CurveLaws C}.
Context `{N : Net, !NetLaws N, Dl : Dialer, Te : ErrorText}.
Context {D Rt Sys : Type} `{!Device D, !TunDevice D Sys, !TunLaws D Sys, !Shell Sys, !Router Rt Sys}.
Context {emitted : D → list (list byte)} {willing : D → Prop} `{!DeviceLaws D emitted willing}.
Implicit Types (d : Daemon D Rt Sys) (n : Node D Rt Sys) (hs : list holder).

(** The fields requests and answers depend on. *)
Definition core d :=
  (connected d, params d, transport d, session d, connectedAt d, stopCh d).

Lemma daemon_transport_ok p t :
  daemon_transport p = Some (Ok t) → any_ok t ∧ Transport_ p ∈ modes.
Proof.
  unfold daemon_transport, NewUDPTransport, NewTLSClientTransport, NewWSClientTransport.
  unfold modes, words. intros E. repeat case_decide; repeat case_match; simplify_eq;
    (split; [exact I || apply Forall_nil_2|]); simpl; set_solver.
Qed.

Lemma connect_begin_spec e p d hs :
  pool_live (dm_pool d) hs →
  ∃ d' r, connect_begin e p d = Ret (d', r) ∧ core d' = core d ∧ pool_live (dm_pool d') hs ∧
    match r with
    | inl resp =>
        if connected d then resp = fail_response (bytes_of "already connected") ∧ d' = d
        else ∃ msg, resp = fail_response msg
    | inr pd =>
        connected d = false ∧ any_ok (pd_tr pd) ∧ Transport_ p ∈ modes ∧
        pd_params pd = with_address (sanitizeAddress (ServerAddr p)) p
    end.
Proof.
  intros Hp. unfold connect_begin. destruct (connected d) eqn:Hc; [rewrite <- Hc; by eauto 10|].
  destruct (ParsePublicKey _) as [pub|]; [|by eauto 10].
  destruct (GenerateKeyPair _) as [[priv cpub]|]; [|by eauto 10].
  destruct (daemon_transport _) as [[tr|]|] eqn:Et; [|by eauto 10..].
  apply daemon_transport_ok in Et as [Et Hm].
  destruct (start_handshake _ priv pub) as [[m ih]|] eqn:EH; [|by eauto 10].
  apply start_handshake_length in EH.
  destruct (send_msg_ok (ce_choice e) (dm_pool d) hs tr m (target_addr (sanitizeAddress (ServerAddr p))).1)
    as (l & p1 & t1 & se & HS & Hp1 & Ht1); [done..|]. simpl in HS |- *. rewrite HS. gsimpl.
  eexists _, _. split; [reflexivity|]. by simpl.
Qed.

Lemma establish_ok os now p tr x d :
  ∃ d', establish os now p tr x d = Ret d' ∧ connected d' = true ∧ params d' = p ∧
    transport d' = Some tr ∧ session d' = Some x ∧ connectedAt d' = now ∧
    stopCh d' = Some false ∧ dm_pool d' = dm_pool d.
Proof.
  unfold establish, open_tun_device.
  destruct (CreateTUN_returns (bytes_of "ant0") DefaultMTU (dm_sys d)) as [[s r] ->]. gsimpl.
  destruct r as [t|e]; gsimpl.
  - destruct (setup_system _ _ _ _ _) as [[rt ks] s']. by eexists.
  - by eexists.
Qed.

(** The second half panics exactly on an answer that does not fit a buffer. *)
Lemma connect_resume_spec os pick choice now pd d r hs :
  pool_live (dm_pool d) hs → any_ok (pd_tr pd) →
  connect_resume os pick choice now pd d = Some r →
  if any_over pick (pd_tr pd) then r = Panic SliceBounds
  else ∃ d' resp, r = Ret (d', resp) ∧ pool_live (dm_pool d') hs ∧
    ((core d' = core d ∧ ∃ msg, resp = fail_response msg) ∨
     (resp = ok_response ∧ connected d' = true ∧ params d' = pd_params pd ∧ connectedAt d' = now ∧
      stopCh d' = Some false ∧ (∃ t, transport d' = Some t ∧ any_ok t) ∧
      ∃ x, session d' = Some x ∧ live x)).
Proof.
  intros Hp Ht. unfold connect_resume. intros (r1 & Hr & [= <-])%bind_Some.
  destruct (recv_msg_ok _ _ _ _ _ _ Hp Ht Hr) as (l & p1 & t1 & res & -> & Hp1 & Ht1 & Hb).
  gsimpl. destruct (any_over pick (pd_tr pd)).
  { destruct Hb as (b & -> & Hb). by rewrite overlong_Bytes. }
  destruct res as [b|]; [|eexists _, _; split; [reflexivity|]; simpl; eauto].
  rewrite Bytes_wf by auto. gsimpl.
  destruct (ConsumeResponse _ _).1 as [keys|] eqn:EC; [|eexists _, _; split; [reflexivity|]; simpl; eauto].
  destruct (NewSession _ _ _ _) as [x|] eqn:EN; [|eexists _, _; split; [reflexivity|]; simpl; eauto].
  match goal with |- context [establish ?o ?t ?p ?tr ?y ?w] =>
    destruct (establish_ok o t p tr y w) as (d' & -> & ? & ? & ? & ? & ? & ? & Hpd) end.
  gsimpl.
  eexists _, _. split; [reflexivity|]. rewrite Hpd. split; [done|]. right. split_and!; eauto.
  exists x. split; [done|]. apply NewSession_ok in EN as (sc & rc & _ & _ & ->). split; eexists; done.
Qed.

Lemma handleDisconnect_spec os d :
  (connected d = true → stopCh d = Some false) →
  ∃ d', handleDisconnect os d = Ret (d', ok_response) ∧ connected d' = false ∧
    dm_pool d' = dm_pool d ∧
    (connected d = true →
       transport d' = Close <$> transport d ∧ session d' = Wipe <$> session d ∧
       tunDev d' = CloseTun <$> tunDev d ∧ stopCh d' = Some true) ∧
    (connected d = false → d' = d).
Proof.
  intros Hs. unfold handleDisconnect. destruct (connected d) eqn:Hc; simpl; [|by exists d].
  rewrite Hs by done. gsimpl.
  destruct (match killSwitch d with Some _ => _ | None => _ end) as [ks s].
  destruct (match router d with Some _ => _ | None => _ end) as [rt s']. by eexists.
Qed.

(** *** Half rounds *)

(** What a request sees and a packet loop leaves alone. *)
Definition visible d := (connected d, params d, connectedAt d, stopCh d).

Definition transport_ok d : Prop := ∀ t, transport d = Some t → any_ok t.
(** The connection is there and its keys are not wiped. *)
Definition link_up d : Prop :=
  is_Some (transport d) ∧ ∃ x, session d = Some x ∧ live x.

(** From [d] to [d'], with the buffers [hs'] held afterwards; those of [hs] belong to
    other loops. *)
Record keeps d hs d' hs' : Prop := {
  kp_pool : pool_live (dm_pool d') hs';
  kp_ok : transport_ok d';
  kp_visible : visible d' = visible d;
  kp_up : link_up d → link_up d';
  kp_keys x : session d = Some x → ∃ x', session d' = Some x' ∧ same_keys x x';
  kp_heap l : l ∈ hs.*1 → heap (dm_pool d') !! l = heap (dm_pool d) !! l
}.

(** Half a round with a connection gives a new state, or panics for the reason given. *)
Definition half_ok {A} d hs (fatal : Prop) (hs' : A → list holder) (r : outcome (Daemon D Rt Sys * A))
    : Prop :=
  match r with
  | Ret (d', a) => keeps d hs d' (hs' a) ∧ ¬ fatal
  | Panic _ => link_up d → fatal
  end.

Lemma egress_read_ok choice d hs r :
  pool_live (dm_pool d) hs → transport_ok d → egress_read choice d = Some r →
  half_ok d hs (tunDev d = None) (λ o, option_list ((., true) <$> o) ++ hs) r.
Proof.
  intros Hp Ht. unfold egress_read. destruct (Get (dm_pool d) choice) as [l pool] eqn:EG.
  destruct (pool_live_get _ _ _ _ _ true Hp EG) as (Hp' & b & Hb & Hpb & Hwb & _). rewrite Hb.
  destruct (tunDev d) as [t|] eqn:Etun; [|by intros [= <-]].
  intros ([[t' b'] err] & HR & [= <-])%bind_Some.
  assert (∀ x, session d = Some x → ∃ x', session d = Some x' ∧ same_keys x x') as Hk
    by (intros x E; by exists x).
  destruct err as [err|]; (split; [|done]).
  - apply ReadPacket_err with (n := DefaultBufferSize) in HR; [|done].
    split; simpl; [by eapply pool_live_put|done..|]. intros l0 Hl0.
    destruct (Get_other _ _ _ _ _ _ Hp EG Hl0) as [<- Hne]. by apply cl_put_other.
  - apply ReadPacket_wf with (n := DefaultBufferSize) in HR as [Hwf' Hpb'];
      [|unfold DefaultBufferSize; lia|done].
    split; simpl; [by eapply (pool_live_set _ _ _ true); [done|by left|split; auto]|done..|].
    intros l0 Hl0. destruct (Get_other _ _ _ _ _ _ Hp EG Hl0) as [E Hne]. by rewrite lookup_insert_ne.
Qed.

Lemma holder_other p hs l k l0 : pool_live p ((l, k) :: hs) → l0 ∈ hs.*1 → l0 ≠ l.
Proof. intros [_ Hnd _] Hl0 ->. by apply NoDup_cons in Hnd as [? _]. Qed.

Lemma egress_send_ok now a l d hs :
  pool_live (dm_pool d) ((l, true) :: hs) → transport_ok d →
  half_ok d hs False (λ _ : (), hs) (d' ← egress_send now a l d; Ret (d', ())).
Proof.
  intros Hp Ht. unfold egress_send.
  destruct (pool_live_wf _ _ l Hp) as (b & Hb & Hwb & Hpb); [by left|].
  unfold deref. rewrite Hb. gsimpl. cbn [session transport with_counters].
  destruct (session d) as [x|] eqn:Ex; [|gsimpl; intros [_ (x & E & _)]; congruence].
  destruct (transport d) as [t|] eqn:Et; [|gsimpl; intros [E _]; rewrite Et in E; by destruct E].
  destruct (EncryptPacket now x b TypeData 0) as [[[x' b'] err]|pn] eqn:EE; gsimpl.
  - destruct (EncryptPacket_keeps now x b TypeData 0 x' b' err DefaultBufferSize Hwb Hpb EE)
      as (Hwb' & Hpb' & _ & Hl).
    assert (∀ t', any_ok t' → keeps d hs (with_pool (cl_put l b' (dm_pool d))
      (with_link (Some t') (Some x') (with_counters (count_sent (Length b) (counters d)) d))) hs ∧ ¬ False) as Hk.
    { intros t' Ht'. split; [|tauto]. split; [by eapply pool_live_put|by intros ? [= <-]|done|..].
      - intros [_ (x0 & E & Hlx)]. split; [by eexists|]. exists x'. split; [done|].
        rewrite Ex in E. injection E as <-. by apply Hl.
      - rewrite Ex. intros ? [= <-]. exists x'. split; [done|]. by eapply EncryptPacket_same.
      - intros l0 Hl0. apply cl_put_other. by eapply holder_other. }
    destruct err as [err|]; gsimpl; [by apply Hk, Ht|].
    destruct (Send_safe t b' a Hwb') as [[t' e] HS]. rewrite HS. gsimpl. apply Hk.
    eapply Send_stored; [by apply Ht|exact HS].
  - intros [_ (x0 & E & Hlx)]. rewrite Ex in E. injection E as <-.
    destruct (EncryptPacket_live now x b TypeData 0 DefaultBufferSize) as (? & ? & ? & E & _);
      [apply Hlx|done|done|congruence].
Qed.

Definition receive_held (o : loc + bool) : list holder := match o with inl l => [(l, false)] | inr _ => [] end.

(** The buffer at [l] holds a message that is too long for it. *)
Definition overlong_at d (l : loc) : Prop := ∃ b, heap (dm_pool d) !! l = Some b ∧ overlong b.

Lemma ingress_receive_ok pick choice d hs r :
  pool_live (dm_pool d) hs → transport_ok d → ingress_receive pick choice d = Some r →
  half_ok d hs False (λ o, receive_held o ++ hs) r ∧
  ∀ d' l, r = Ret (d', inl l) →
    (overlong_at d' l ↔ ∃ t, transport d = Some t ∧ any_over pick t = true).
Proof.
  intros Hp Ht. unfold ingress_receive. destruct (Get (dm_pool d) choice) as [l pool] eqn:EG.
  destruct (pool_live_get _ _ _ _ _ false Hp EG) as (Hp' & b & Hb & Hpb & Hwb & _). rewrite Hb.
  destruct (transport d) as [t|] eqn:Et.
  2:{ intros [= <-]. split; [|done]. simpl. intros [E _]. rewrite Et in E. by destruct E. }
  intros ([[t' b'] res] & HR & [= <-])%bind_Some.
  destruct (Receive_stored pick t b t' b' res) as (Hpb' & Ht' & Hov); [by apply Ht|done|done|].
  assert (link_up d → link_up (with_link (Some t') (session d) d)) as Hup
    by (intros [_ Hs]; by split; [eexists|]).
  assert (∀ x, session d = Some x → ∃ x', session d = Some x' ∧ same_keys x x') as Hk
    by (intros x E; by exists x).
  destruct res as [a|err]; simpl.
  - split.
    + split; [|tauto]. split; simpl; [|by intros ? [= <-]|done|done|done|].
      * apply (pool_live_set _ _ _ false); [done|by left|]. split; [done|].
        destruct (any_over pick t); [right; by destruct Hov|left; by eapply Hov].
      * intros l0 Hl0. destruct (Get_other _ _ _ _ _ _ Hp EG Hl0) as [E Hne]. by rewrite lookup_insert_ne.
    + intros d' l' [= <- <-]. unfold overlong_at. simpl. rewrite lookup_insert_eq. split.
      * intros (b0 & [= <-] & Ho). exists t. split; [done|]. destruct (any_over pick t); [done|].
        specialize (Hov a eq_refl). exfalso. destruct Ho as (_ & Ho & Hl). destruct Hov as [_ _ Hf _]. lia.
      * intros (t0 & [= <-] & E). rewrite E in Hov. exists b'. by destruct Hov.
  - split; [|done]. split; [|tauto]. split; simpl; [by eapply pool_live_put|by intros ? [= <-]|done|done|done|].
    intros l0 Hl0. destruct (Get_other _ _ _ _ _ _ Hp EG Hl0) as [<- Hne]. by apply cl_put_other.
Qed.

Lemma ingress_open_ok now l d hs :
  pool_live (dm_pool d) ((l, false) :: hs) → transport_ok d →
  half_ok d hs (overlong_at d l) (λ _ : (), hs) (d' ← ingress_open now l d; Ret (d', ())).
Proof.
  intros Hp Ht. unfold ingress_open.
  destruct (pl_buf _ _ Hp l false) as (b & Hb & Hpb & Hwo); [by left|].
  unfold deref. rewrite Hb. gsimpl.
  destruct (session d) as [x|] eqn:Ex; [|gsimpl; intros [_ (x & E & _)]; congruence].
  destruct Hwo as [Hwb|[_ Ho]].
  2:{ rewrite open_packet_overlong by done. gsimpl. intros _. by exists b. }
  assert (¬ overlong_at d l) as Hno.
  { intros (b0 & E & Ho). rewrite Hb in E. injection E as <-. destruct Ho as (_ & ? & ?). destruct Hwb. lia. }
  destruct (open_packet now x b) as [[[x' b'] oh]|pn] eqn:EO; gsimpl.
  - destruct (open_packet_keeps now x b x' b' oh Hwb Hpb EO) as (Hwb' & Hpb' & Hl).
    assert (∀ d' b2, pooled DefaultBufferSize b2 → visible d' = visible d → transport d' = transport d →
      session d' = Some x' → dm_pool d' = cl_put l b2 (dm_pool d) → keeps d hs d' hs ∧ ¬ overlong_at d l) as Hk.
    { intros d' b2 Hb2 Hv HT Hs Hpo. split; [|done]. split; [| |done|..].
      - rewrite Hpo. by eapply pool_live_put.
      - unfold transport_ok. by rewrite HT.
      - intros [Hut (x0 & E & Hlx)]. split; [by rewrite HT|]. exists x'. split; [done|]. apply Hl.
        rewrite Ex in E. by injection E as <-.
      - rewrite Ex. intros ? [= <-]. exists x'. split; [done|]. by eapply open_packet_same.
      - intros l0 Hl0. rewrite Hpo. apply cl_put_other. by eapply holder_other. }
    destruct oh as [h|]; gsimpl; [|by eapply Hk].
    match goal with |- context [deliver ?t _ _] =>
      destruct (deliver_ok t h b' Hwb' Hpb') as (t' & b2 & -> & Hpb2) end. gsimpl. by eapply (Hk _ b2).
  - intros [_ (x0 & E & Hlx)]. rewrite Ex in E. injection E as <-.
    destruct (open_packet_ok now x b Hlx Hwb Hpb) as (? & ? & ? & E & _). congruence.
Qed.

(** Why half a round panics while there is a connection: an egress loop (of an earlier
    connection) without a device, or a message that is too long. *)
Definition fatal d (lp : Loop) : Prop :=
  match lp with
  | LEgress _ None => tunDev d = None
  | LIngress (Some l) => overlong_at d l
  | _ => False
  end.

Definition loop_holder (lp : Loop) : option holder :=
  match lp with LEgress _ h => (., true) <$> h | LIngress h => (., false) <$> h end.

Lemma loop_holder_held lp : fst <$> loop_holder lp = loop_held lp.
Proof. by destruct lp as [a [l|]|[l|]]. Qed.

Lemma loop_step_ok now choice pick lp d hs r :
  pool_live (dm_pool d) (option_list (loop_holder lp) ++ hs) → transport_ok d →
  loop_step now choice pick lp d = Some r →
  half_ok d hs (fatal d lp) (λ o, option_list (o ≫= loop_holder) ++ hs) r.
Proof.
  intros Hp Ht. destruct lp as [a [l|]|[l|]]; simpl in *.
  - intros [= <-]. pose proof (egress_send_ok now a l d hs Hp Ht) as Hk.
    by destruct (egress_send now a l d).
  - intros (r1 & Hr & [= <-])%bind_Some. pose proof (egress_read_ok choice d hs r1 Hp Ht Hr) as Hk.
    by destruct r1 as [[d' [l|]]|].
  - intros [= <-]. pose proof (ingress_open_ok now l d hs Hp Ht) as Hk.
    by destruct (ingress_open now l d).
  - intros (r1 & Hr & [= <-])%bind_Some.
    destruct (ingress_receive_ok pick choice d hs r1 Hp Ht Hr) as [Hk _].
    by destruct r1 as [[d' [l|[]]]|].
Qed.

(** *** The running daemon *)

Definition held (lps : list Loop) : list holder := omap loop_holder lps.

Lemma held_delete lps i lp :
  lps !! i = Some lp → held lps ≡ₚ option_list (loop_holder lp) ++ held (delete i lps).
Proof.
  intros Hi. unfold held. rewrite (delete_Permutation lps i lp Hi) at 1. simpl.
  by destruct (loop_holder lp).
Qed.

Lemma delete_insert_list {A} (l : list A) i x : delete i (<[i := x]> l) = delete i l.
Proof. revert i. induction l as [|y l IH]; intros [|i]; [done..|]. simpl. f_equal. apply IH. Qed.

(** The loop [i] after half a round. *)
Definition after_round (o : option Loop) (i : nat) (lps : list Loop) : list Loop :=
  match o with Some lp => <[i := lp]> lps | None => delete i lps end.

Lemma held_after_round lps i lp o :
  lps !! i = Some lp →
  held (after_round o i lps) ≡ₚ option_list (o ≫= loop_holder) ++ held (delete i lps).
Proof.
  intros Hi. destruct o as [lp'|]; simpl; [|done].
  rewrite (held_delete _ i lp') by (apply list_lookup_insert_eq; by eapply lookup_lt_Some).
  by rewrite delete_insert_list.
Qed.

(** The other loops are still there. *)
Lemma elem_delete (lps : list Loop) i lp lp0 :
  lps !! i = Some lp → lp0 ∈ lps → lp0 ≠ lp → lp0 ∈ delete i lps.
Proof. intros Hi Hin Hne. rewrite (delete_Permutation lps i lp Hi) in Hin. set_solver. Qed.
Lemma elem_after_round lps i lp lp0 o :
  lps !! i = Some lp → lp0 ∈ delete i lps → lp0 ∈ after_round o i lps.
Proof.
  intros Hi Hin. destruct o as [lp'|]; simpl; [|done].
  rewrite (delete_Permutation _ i lp') by (apply list_lookup_insert_eq; by eapply lookup_lt_Some).
  right. by rewrite delete_insert_list.
Qed.
Lemma elem_held lp0 l k lps : lp0 ∈ lps → loop_holder lp0 = Some (l, k) → (l, k) ∈ held lps.
Proof. intros. apply list_elem_of_omap. by exists lp0. Qed.

Lemma held_new resp pd d lps : held (new_loops resp pd d ++ lps) = held lps.
Proof.
  unfold held. rewrite omap_app. unfold new_loops. destruct (Success resp); [|done].
  by destruct (tunDev d).
Qed.

(** The mutex is held by a connect request on a tunnel that is down. *)
Definition lock_ok d (lock : option (Request * Pending)) : Prop :=
  ∀ req pd, lock = Some (req, pd) →
    connected d = false ∧ Action req = ActionConnect ∧ any_ok (pd_tr pd) ∧
    Transport_ (Params req) ∈ modes ∧
    pd_params pd = with_address (sanitizeAddress (ServerAddr (Params req))) (Params req).

Record node_inv n : Prop := {
  ni_pool : pool_live (dm_pool (nd n)) (held (nd_loops n));
  ni_ok : transport_ok (nd n);
  ni_up : connected (nd n) = true → stopCh (nd n) = Some false ∧ link_up (nd n);
  ni_lock : lock_ok (nd n) (nd_lock n)
}.

Lemma node_inv_start (s : Sys) : node_inv (start_node s).
Proof. split; [apply pool_live_nil, pool_ok_global|done..]. Qed.

(** The abstract state. *)
Definition abs d : tunnel :=
  if connected d then Up (Transport_ (params d)) (ServerAddr (params d)) (connectedAt d) else Down.

Lemma abs_visible d d' : visible d' = visible d → abs d' = abs d.
Proof. unfold visible, abs. by intros [= -> -> -> _]. Qed.

Lemma node_inv_core n d' lock :
  node_inv n → core d' = core (nd n) → pool_live (dm_pool d') (held (nd_loops n)) → lock_ok d' lock →
  node_inv (mkNode d' lock (nd_loops n)) ∧ abs d' = abs (nd n).
Proof.
  intros [Hp Hv Hu Hl] [= E1 E2 E3 E4 E5 E6] Hp' Hlock. split.
  - split; simpl; [done|unfold transport_ok; by rewrite E3| |done].
    unfold link_up. by rewrite E1, E3, E4, E6.
  - unfold abs. by rewrite E1, E2, E5.
Qed.

(** The abstract step behind a step of the daemon. *)
Definition spec_label (s : tunnel) (l : label) (s' : tunnel) : Prop :=
  match l with Answer now req resp => spec_step now s req resp s' | _ => s' = s end.

Lemma status_spec alloc now d :
  ∃ st, handleGetStatus alloc now d = mkResponse true [] (Some st) ∧ status_of now (abs d) st.
Proof. eexists. split; [reflexivity|]. unfold abs. by destruct (connected d) eqn:Hc. Qed.

Lemma resume_step os pick choice now req n d' pd resp :
  node_inv n → nd_lock n = Some (req, pd) →
  connect_resume os pick choice now pd (nd n) = Some (Ret (d', resp)) →
  node_inv (mkNode d' None (new_loops resp pd d' ++ nd_loops n)) ∧
  spec_step now (abs (nd n)) req resp (abs d').
Proof.
  intros Hinv Hl Hr. destruct (ni_lock _ Hinv _ _ Hl) as (Hc & Ha & Hv & Hm & Hpd).
  pose proof (connect_resume_spec _ _ _ _ _ _ _ _ (ni_pool _ Hinv) Hv Hr) as Hspec.
  destruct (any_over _ _); [done|].
  destruct Hspec as (? & ? & [= <- <-] & Hp & [[Hcore [msg ->]]|(-> & Hc' & Hpar & Hat & Hst & (t & Ht & Htv) & Hx)]).
  - destruct (node_inv_core n d' None Hinv Hcore Hp) as [Hi Habs]; [done|].
    split; [exact Hi|]. rewrite Habs. unfold abs. rewrite Hc. by constructor.
  - split.
    + split; simpl; [by rewrite held_new|intros t' E; congruence| |done].
      intros _. split; [done|]. split; [by eexists|done].
    + unfold abs. rewrite Hc, Hc', Hpar, Hpd, Hat. by constructor.
Qed.

Lemma loop_node_step n i lp now choice pick d' o :
  node_inv n → nd_loops n !! i = Some lp → loop_step now choice pick lp (nd n) = Some (Ret (d', o)) →
  node_inv (mkNode d' (nd_lock n) (after_round o i (nd_loops n))) ∧
  ∃ hs', keeps (nd n) (held (delete i (nd_loops n))) d' hs'.
Proof.
  intros [Hp Hv Hu Hl] Hi HS.
  rewrite (held_delete _ _ _ Hi) in Hp. pose proof (loop_step_ok _ _ _ _ _ _ _ Hp Hv HS) as Hk.
  destruct Hk as [Hk _]. split; [|by eexists]. destruct Hk as [Hp' Hv' Hvis Hup' _ _].
  injection Hvis as E1 E2 E3 E4. split; simpl; [by rewrite (held_after_round _ _ lp)|done| |].
  - rewrite E1, E4. intros Hc. destruct (Hu Hc). auto.
  - intros req pd Hr. rewrite E1. by apply Hl.
Qed.

Lemma node_step_ok n l n' :
  node_inv n → node_step n l n' → node_inv n' ∧ spec_label (abs (nd n)) l (abs (nd n')).
Proof.
  intros Hinv Hstep. pose proof Hinv as [Hp Hv Hu Hl].
  destruct Hstep as [now req n Ha|now e req n d' resp Hlk Ha HB|e req n d' pd Hlk Ha HB
    |os pick choice now req n d' pd resp Hlk HR|now os req n d' resp Hlk Ha HD|alloc now req n Hlk Ha
    |i lp now choice pick n d' o Hi HS|req pd tr n Hlk Htr|t t' n Ht Ht'|t t' n Ht]; simpl.
  - split; [done|]. by constructor.
  - destruct (connect_begin_spec e (Params req) (nd n) _ Hp) as (? & ? & E & Hcore & Hp' & Hr).
    rewrite HB in E. injection E as <- <-.
    destruct (node_inv_core n d' None Hinv Hcore Hp') as [Hi Habs]; [done|]. split; [exact Hi|].
    rewrite Habs. unfold abs. destruct (connected (nd n)); [destruct Hr as [-> _]; by constructor|].
    destruct Hr as [msg ->]. by constructor.
  - destruct (connect_begin_spec e (Params req) (nd n) _ Hp) as (? & ? & E & Hcore & Hp' & Hr).
    rewrite HB in E. injection E as <- <-. destruct Hr as (Hc & Hv' & Hm & Hpd).
    apply node_inv_core; [done..|]. injection Hcore as Hcon _ _ _ _ _.
    intros ? ? [= <- <-]. by rewrite Hcon.
  - by eapply resume_step.
  - destruct (handleDisconnect_spec os (nd n)) as (? & E & Hc & Hpd & Hup & Hdown).
    { intros Hc. by apply Hu. }
    rewrite HD in E. injection E as <- ->. split; [|unfold abs at 2; rewrite Hc; by constructor].
    split; simpl; [by rewrite Hpd| |by rewrite Hc|done].
    destruct (connected (nd n)) eqn:Hcn; [|by rewrite Hdown].
    destruct Hup as (Et & _); [done|]. unfold transport_ok. rewrite Et.
    destruct (transport (nd n)) as [t|] eqn:E; [|done]. intros ? [= <-]. by apply Close_ok, Hv.
  - split; [done|]. destruct (status_spec alloc now (nd n)) as (st & -> & Hs). by constructor.
  - destruct (loop_node_step n i lp now choice pick d' o Hinv Hi HS) as [Hi' (hs' & Hk)].
    split; [exact Hi'|by apply abs_visible, (kp_visible _ _ _ _ Hk)].
  - split; [|done]. split; simpl; [done..|]. intros ? ? [= <- <-].
    destruct (Hl _ _ Hlk) as (? & ? & _ & ? & ?). done.
  - split; [|done]. split; simpl; [done|by intros ? [= <-]| |by apply Hl].
    intros Hc. destruct (Hu Hc) as [? [_ ?]]. split; [done|]. split; [by eexists|done].
  - split; [|done]. by split.
Qed.

Lemma node_steps_ok n lbs n' :
  node_inv n → node_steps n lbs n' → node_inv n' ∧ spec_run (abs (nd n)) lbs (abs (nd n')).
Proof.
  intros Hinv Hs. induction Hs as [n|n l n1 lbs n2 Hstep Hs IH]; [split; [done|constructor]|].
  destruct (node_step_ok _ _ _ Hinv Hstep) as [Hi1 Hl]. destruct (IH Hi1) as [Hi2 Hr].
  split; [done|]. destruct l as [now req resp| |lp|]; simpl in Hl.
  - by eapply spec_answer.
  - apply spec_silent; [done|]. by rewrite <- Hl.
  - apply spec_silent; [done|]. by rewrite <- Hl.
  - apply spec_silent; [done|]. by rewrite <- Hl.
Qed.

(** A whole request is made of these steps. *)
Lemma daemon_Handle_steps e req n resp n' :
  node_inv n → (∀ t, any_ok t → any_ok (he_arrive e t)) →
  daemon_Handle e req n = Some (Ret (resp, n')) →
  ∃ lbs, node_steps n (lbs ++ [Answer (he_now e) req resp]) n' ∧ (lbs = [] ∨ lbs = [Tau; Arrive]).
Proof.
  intros Hinv Harr. unfold daemon_Handle, handleConnect, with_lock.
  assert (∀ l n', node_step n l n' → node_steps n [l] n') as Hone
    by (intros; eapply nodes_step; [done|apply nodes_refl]).
  destruct (decide (Action req = ActionConnect)) as [Ha|Ha].
  { destruct (nd_lock n) as [|] eqn:El; [done|].
    destruct (connect_begin (he_connect e) (Params req) (nd n)) as [[d1 [r1|pd]]|] eqn:EB; [| |done].
    - intros [= <- <-]. exists []. split; [|by left]. by eapply Hone, ns_refuse.
    - intros (r & Hr & HE)%bind_Some. destruct r as [[d2 r2]|]; [|done]. injection HE as <- <-.
      exists [Tau; Arrive]. split; [|by right].
      assert (node_step n Tau (mkNode d1 (Some (req, pd)) (nd_loops n))) as Hw by by eapply ns_wait.
      eapply nodes_step; [exact Hw|]. destruct (node_step_ok _ _ _ Hinv Hw) as [Hi1 _].
      destruct (ni_lock _ Hi1 req pd eq_refl) as (_ & _ & Hok & _).
      set (n1 := mkNode d1 (Some (req, pd)) (nd_loops n)).
      eapply nodes_step; [by apply (ns_answer req pd (he_arrive e (pd_tr pd)) n1); [|apply Harr]|].
      eapply nodes_step; [|apply nodes_refl].
      by eapply (ns_resume (he_os e) (he_pick e) (he_choice e) (he_now e) req (mkNode d1 (Some (req, _)) _)). }
  destruct (decide (Action req = ActionDisconnect)) as [Hd|Hd].
  { destruct (nd_lock n) as [|] eqn:El; [done|].
    destruct (handleDisconnect _ _) as [[d1 r1]|] eqn:ED; [|done]. intros [= <- <-].
    exists []. split; [|by left]. by eapply Hone, ns_disconnect. }
  destruct (decide (Action req = ActionGetStatus)) as [Hg|Hg].
  { destruct (nd_lock n) as [|] eqn:El; [done|]. intros [= <- <-].
    exists []. split; [|by left]. by apply Hone, ns_status. }
  intros [= <- <-]. exists []. split; [|by left]. apply Hone, ns_unknown.
  rewrite !not_elem_of_cons. split_and!; [done..|apply not_elem_of_nil].
Qed.

(** *** Waiting for an answer *)

Lemma udp_send_silent (t : UDPTransport) buf a t' e :
  Send t buf a = Ret (t', e) → udp_queue t' = udp_queue t ∧ udp_error t' = udp_error t ∧
    udp_closed t' = udp_closed t.
Proof.
  assert (∀ a, udp_send_to t buf a = Ret (t', e) → udp_queue t' = udp_queue t ∧
    udp_error t' = udp_error t ∧ udp_closed t' = udp_closed t) as Hto.
  { intros a0. unfold udp_send_to. destruct (Bytes buf) as [b|]; [|done]. gsimpl.
    destruct (if udp_closed t then _ else _) as [k [err|]]; by intros [= <- <-]. }
  simpl. unfold udp_Send. destruct (as_udp a); [apply Hto|]. destruct a as [a|]; [|done].
  destruct (resolve_udp _); [apply Hto|by intros [= <- <-]].
Qed.

(** A new UDP socket has nothing to receive, also after the first message. *)
Lemma connect_begin_silent e p d d' pd :
  Transport_ p = bytes_of "udp" → connect_begin e p d = Ret (d', inr pd) →
  ∀ pick buf, Receive pick (pd_tr pd) buf = None.
Proof.
  intros Hp. unfold connect_begin. destruct (connected d); [done|].
  destruct (ParsePublicKey _); [|done]. destruct (GenerateKeyPair _) as [[priv k]|]; [|done].
  unfold daemon_transport. cbn [with_address Transport_]. rewrite decide_True by done.
  unfold NewUDPTransport. destruct (udp_listen _); [done|].
  destruct (start_handshake _ _ _) as [[m ih]|]; [|done].
  unfold send_msg. destruct (Get _ _) as [l pool]. unfold deref.
  destruct (heap pool !! l) as [b|]; [|done]. gsimpl. cbn [Send any_transport any_Send udp_transport].
  match goal with |- context [udp_Send ?t ?b ?a] => destruct (udp_Send t b a) as [[t' er]|] eqn:HS end;
    [|done].
  gsimpl. intros [= <- <-] pick buf. simpl. unfold udp_Receive.
  destruct (udp_send_silent _ _ _ _ _ HS) as (-> & -> & ->). done.
Qed.

Lemma silent_step n l n' req pd :
  (∀ pick buf, Receive pick (pd_tr pd) buf = None) → nd_lock n = Some (req, pd) →
  node_step n l n' → Arrive ≠ l →
  nd_lock n' = Some (req, pd) ∧
  ∀ now r resp, Answer now r resp = l → Action r ∉ [ActionConnect; ActionDisconnect; ActionGetStatus].
Proof.
  intros Hsil Hlk Hstep Hl.
  destruct Hstep as [now rq n Ha|? ? ? ? ? ? Hlk'|? ? ? ? ? Hlk'
    |os pick choice now rq n d' pd' resp Hlk' HR|? ? ? ? ? ? Hlk'|? ? ? ? Hlk'
    |i lp now choice pick n d' o Hi HS| | |]; simpl; try congruence.
  - split; [done|]. by intros t r resp [= -> ->].
  - rewrite Hlk in Hlk'. injection Hlk' as <- <-. exfalso. revert HR. unfold connect_resume, recv_msg.
    destruct (Get _ _) as [l pool]. destruct (heap pool !! l); [by rewrite Hsil|done].
  - done.
  - done.
Qed.

(** *** An answered request *)

(** The transport of a request that waits, after packets came in. *)
Definition answered (pd : Pending) (tr : AnyTransport) : Pending :=
  mkPending (pd_params pd) tr (pd_target pd) (pd_initiator pd).

Definition sanitized (p : ConnectParams) : ConnectParams :=
  with_address (sanitizeAddress (ServerAddr p)) p.

Lemma connect_begin_run e p d hs key cp msg ih t0 :
  connected d = false → pool_live (dm_pool d) hs → zlen key = 32 → ServerPubKey p = Base64 key →
  daemon_transport (sanitized p) = Some (Ok t0) → GenerateKeyPair (ce_priv e) = Ok (cp, PublicKey cp) →
  start_handshake (ce_hs e) cp key = Ok (msg, ih) →
  ∃ d1 pd buf err, connect_begin e p d = Ret (d1, inr pd) ∧
    Send t0 buf (Some (pd_target pd)) = Ret (pd_tr pd, err) ∧ contents buf = msg ∧
    pd_initiator pd = ih ∧ pd_params pd = sanitized p ∧
    core d1 = core d ∧ dm_sys d1 = dm_sys d ∧ router d1 = router d ∧ killSwitch d1 = killSwitch d ∧
    pd_target pd = (target_addr (ServerAddr (sanitized p))).1.
Proof.
  intros Hc Hp Hk Hkey Ht Hg HS. unfold connect_begin. fold (sanitized p). rewrite Hc.
  change (ServerPubKey (sanitized p)) with (ServerPubKey p).
  rewrite Hkey, ParsePublicKey_Base64', Hg, Ht, HS by done.
  apply start_handshake_length in HS.
  destruct (send_msg_run (ce_choice e) (dm_pool d) hs t0 msg (target_addr (ServerAddr (sanitized p))).1
    Hp HS) as (buf & l & p1 & t1 & er & -> & HSend & Hcont).
  gsimpl. eexists _, _, buf, er. split; [reflexivity|]. by simpl.
Qed.

Lemma establish_no_tun os now p tr x d s e d' :
  CreateTUN (bytes_of "ant0") DefaultMTU (dm_sys d) = Ret (s, Err e) →
  establish os now p tr x d = Ret d' →
  tunDev d' = None ∧ router d' = router d ∧ killSwitch d' = killSwitch d ∧ dm_sys d' = s.
Proof. intros HC. unfold establish, open_tun_device. rewrite HC. gsimpl. by intros [= <-]. Qed.

Lemma connect_resume_run os pick choice now pd d hs resp x :
  pool_live (dm_pool d) hs → brings pick (pd_tr pd) resp →
  finish_handshake (pd_initiator pd) resp (pd_target pd) now = Ok x →
  ∃ d', connect_resume os pick choice now pd d = Some (Ret (d', ok_response)) ∧
    abs d' = Up (Transport_ (pd_params pd)) (ServerAddr (pd_params pd)) now ∧ session d' = Some x ∧
    (∀ s e, CreateTUN (bytes_of "ant0") DefaultMTU (dm_sys d) = Ret (s, Err e) →
       tunDev d' = None ∧ router d' = router d ∧ killSwitch d' = killSwitch d ∧ dm_sys d' = s).
Proof.
  intros Hp Hbr. unfold finish_handshake, connect_resume.
  destruct (recv_msg_run pick choice _ _ _ _ Hp Hbr) as (l & p1 & t1 & b & -> & Hwb & Hcb).
  cbn [mbind option_bind outcome_bind]. rewrite Bytes_wf, Hcb by done. gsimpl.
  destruct (ConsumeResponse _ _).1 as [keys|]; [|done].
  intros HN. rewrite HN.
  match goal with |- context [establish ?o ?t ?p ?tr ?y ?w] =>
    destruct (establish_ok o t p tr y w) as (d' & E & Hc & Hpar & _ & Hx & Hat & _ & _);
    pose proof (λ s e, establish_no_tun o t p tr y w s e d') as Hno end.
  rewrite E. gsimpl. exists d'. split; [done|]. split; [|split; [done|]].
  - unfold abs. by rewrite Hc, Hpar, Hat.
  - intros s e HC. by eapply Hno.
Qed.

(** *** After a disconnect *)

(** A closed TLS transport may still give what is queued. *)
Lemma tls_Close_receive (t : TLSTransport) buf pkt rest :
  tls_incoming t = pkt :: rest →
  ∃ t', Receive false (tls_Close t).1 buf = Some (t', load (Reset buf) (in_data pkt), Ok (in_addr pkt)).
Proof.
  intros Hin. simpl. unfold tls_Receive, tls_Close.
  destruct (tls_closed t) eqn:Ec; simpl; rewrite Hin; rewrite ?Ec; simpl; by eexists.
Qed.

(** A wiped session panics on the first packet with its index and a new counter,
    genuine or not. *)
Lemma open_packet_wiped now x buf h p :
  wf buf → header_wf h → contents buf = header_bytes h ++ p → TagSize ≤ zlen p →
  ReceiverIndex h = LocalIndex x → RecvCipher x = None →
  (CheckAndSet (replay x) (Counter h)).1 = true → open_packet now x buf = Panic NilDeref.
Proof.
  intros Hwf Hh Hc Hz Hi Hx Hfr. unfold open_packet.
  destruct (strip_header_bytes buf h p Hwf Hh Hc) as (b & -> & Hwf' & _ & Hl & _). gsimpl.
  rewrite decide_False by tauto. unfold DecryptPacket.
  destruct (CheckAndSet _ _) as [v rw]. simpl in Hfr. subst v.
  rewrite header_ad_ok. gsimpl. cbn [set_replay RecvCipher]. rewrite Hx. unfold DecryptInPlace.
  by rewrite decide_False, Bytes_wf by (done || lia).
Qed.
End DaemonFacts.

(** ** Properties *)

Section DaemonProperties.
Context `{L : AeadLib, !AeadLaws L, H : HashLib, !HashLaws H, C : Curve25519, !CurveLaws C}.
Context `{N : Net, !NetLaws N, Dl : Dialer, Te : ErrorText}.
Context {D Rt Sys : Type} `{!Device D, !TunDevice D Sys, !TunLaws D Sys, !Shell Sys, !Router Rt Sys}.
Context {emitted : D → list (list byte)} {willing : D → Prop} `{!DeviceLaws D emitted willing}.
Implicit Types (d : Daemon D Rt Sys) (n : Node D Rt Sys) (lbs : list label).

(** C6: the daemon implements the tunnel it promises.  However requests, answers of
    servers, packets and loop rounds interleave, the requests that were answered
    and their answers are a run of the abstract daemon: a connect request on a
    tunnel that is up is refused and changes nothing; on one that is down it brings
    the tunnel up with its mode and corrected address, or fails and leaves it down;
    disconnecting always succeeds and leaves the tunnel down; status says the truth
    about state, mode and address, and the uptime it gives is the number of whole
    seconds since the tunnel came up; other actions are refused. *)
Theorem daemon_refines (s : Sys) lbs n :
  node_steps (start_node (D := D) (Rt := Rt) s) lbs n → spec_run Down lbs (abs (nd n)).
Proof. intros Hs. by apply (node_steps_ok _ _ _ (node_inv_start s) Hs). Qed.

(** C7: when the daemon crashes.  In every state it reaches, whatever arrives and of
    any length, no disconnect request and no first half of a connect request panics;
    the second half panics exactly if the answer it takes is a WebSocket message of
    more than 2048 bytes.  While the tunnel is up half a round of a packet loop panics
    exactly in two cases: an egress loop, which must be one of an earlier connection,
    reads when the present one has no TUN device; or an ingress loop opens a buffer
    with a message of more than 2048 bytes, which it can only have from a WebSocket
    transport that had such a message to receive. *)
Theorem daemon_safe (s : Sys) lbs n :
  node_steps (start_node (D := D) (Rt := Rt) s) lbs n →
  (∀ os, returns (handleDisconnect os (nd n))) ∧
  (∀ e p, returns (connect_begin e p (nd n))) ∧
  (∀ os pick choice now req pd r, nd_lock n = Some (req, pd) →
     connect_resume os pick choice now pd (nd n) = Some r →
     if any_over pick (pd_tr pd) then r = Panic SliceBounds else returns r) ∧
  (∀ now choice pick lp r, connected (nd n) = true → lp ∈ nd_loops n →
     loop_step now choice pick lp (nd n) = Some r →
     match r with Ret _ => ¬ fatal (nd n) lp | Panic _ => fatal (nd n) lp end) ∧
  (∀ choice pick d l, ingress_receive pick choice (nd n) = Some (Ret (d, inl l)) →
     (overlong_at d l ↔ ∃ t, transport (nd n) = Some t ∧ any_over pick t = true)) ∧
  (∀ pick t, any_over pick t = true → Mode t = ModeWebSocket).
Proof.
  intros Hs. destruct (node_steps_ok _ _ _ (node_inv_start s) Hs) as [[Hp Hv Hu Hl] _]. split_and!.
  - intros os. destruct (handleDisconnect_spec os (nd n)) as (d' & -> & _); [|by eexists].
    intros Hc. by apply Hu.
  - intros e p. destruct (connect_begin_spec e p (nd n) _ Hp) as (d' & r & -> & _). by eexists.
  - intros os pick choice now req pd r Hlk HR. destruct (Hl _ _ Hlk) as (_ & _ & Hv' & _).
    pose proof (connect_resume_spec _ _ _ _ _ _ _ _ Hp Hv' HR) as Hspec.
    destruct (any_over _ _); [done|]. destruct Hspec as (d' & resp & -> & _). by eexists.
  - intros now choice pick lp r Hc [i Hi]%list_elem_of_lookup_1 HS.
    rewrite (held_delete _ _ _ Hi) in Hp. pose proof (loop_step_ok _ _ _ _ _ _ _ Hp Hv HS) as Hk.
    destruct r as [[d' o]|pn]; [apply Hk|]. apply Hk. by apply Hu.
  - intros choice pick d l HR. by eapply (proj2 (ingress_receive_ok pick choice (nd n) _ _ Hp Hv HR)).
  - apply any_over_ws.
Qed.

(** C10: a connect request that gets no answer blocks the daemon.  A UDP connect
    request waits on a socket on which nothing has arrived; and while a request
    waits and nothing arrives, whatever else happens, the mutex is held and no
    connect, disconnect or status request is answered. *)
Theorem waiting_blocks e p d d' pd n lbs n' req :
  Transport_ p = bytes_of "udp" → connect_begin e p d = Ret (d', inr pd) →
  nd_lock n = Some (req, pd) → node_steps n lbs n' → Arrive ∉ lbs →
  nd_lock n' = Some (req, pd) ∧
  ∀ now r resp, Answer now r resp ∈ lbs → Action r ∉ [ActionConnect; ActionDisconnect; ActionGetStatus].
Proof.
  intros Hudp HB. assert (∀ pick buf, Receive pick (pd_tr pd) buf = None) as Hsilent.
  { by eapply connect_begin_silent. }
  intros Hlk Hs. revert Hlk. induction Hs as [n|n l n1 lbs n2 Hstep Hs IH]; intros Hlk Ha.
  { split; [done|]. by intros now r resp ?%elem_of_nil. }
  apply not_elem_of_cons in Ha as [Hl Ha].
  destruct (silent_step _ _ _ _ _ Hsilent Hlk Hstep) as [Hlk' Hans]; [done|].
  destruct (IH Hlk' Ha) as [IH1 IH2]. split; [done|].
  intros now r resp [E|Hin]%elem_of_cons; [by eapply Hans|by eapply IH2].
Qed.

(** C11: a disconnect races with the packet loops and crashes the daemon.  Once the
    tunnel is disconnected, (1) an egress loop that had read a packet before panics
    when it encrypts it, and (2) if a packet with the session's index and a new
    counter (genuine or not) was still queued at a TLS transport, the ingress loop
    may receive it from the closed transport and panics when it opens it. *)
Theorem disconnect_races os d d' hs x :
  connected d = true → stopCh d = Some false → session d = Some x →
  pool_live (dm_pool d) hs → handleDisconnect os d = Ret (d', ok_response) →
  (∀ now a l buf, is_Some (transport d) → heap (dm_pool d) !! l = Some buf → wf buf →
     Offset buf + Length buf + TagSize ≤ cap (Data buf) →
     egress_send now a l d' = Panic NilDeref) ∧
  (∀ now choice t pkt rest h p,
     transport d = Some (TrTLS t) → tls_incoming t = pkt :: rest →
     in_data pkt = header_bytes h ++ p → header_wf h → TagSize ≤ zlen p →
     zlen (in_data pkt) ≤ DefaultBufferSize → ReceiverIndex h = LocalIndex x →
     (CheckAndSet (replay (Wipe x)) (Counter h)).1 = true →
     ∃ d2 l, ingress_receive false choice d' = Some (Ret (d2, inl l)) ∧
       ingress_open now l d2 = Panic NilDeref).
Proof.
  intros Hc Hst Hx Hp HD.
  destruct (handleDisconnect_spec os d) as (d0 & E & _ & Hpool & Hup & _); [done|].
  rewrite HD in E. injection E as <-. destruct (Hup Hc) as (Ht & Hs & _). rewrite Hx in Hs. split.
  - intros now a l buf [t Htr] Hb Hwf Hroom. unfold egress_send, deref. rewrite Hpool, Hb. gsimpl.
    cbn [session transport with_counters]. rewrite Hs, Ht, Htr. simpl. by rewrite EncryptPacket_wiped.
  - intros now choice t pkt rest h p Htr Hin Hdata Hh Hz Hlen Hi Hfr.
    rewrite Htr in Ht. simpl in Ht. unfold ingress_receive. rewrite Hpool.
    destruct (Get (dm_pool d) choice) as [l pool] eqn:EG.
    destruct (pool_live_get _ _ _ _ _ false Hp EG) as (_ & b & Hb & [Hbl Hbc] & Hwb & _ & Ho).
    rewrite Hb, Ht. cbn [Receive any_transport any_Receive].
    destruct (tls_Close_receive t b pkt rest Hin) as [t' ->]. simpl. eexists _, l.
    split; [reflexivity|]. unfold ingress_open, deref. simpl. rewrite lookup_insert_eq. gsimpl.
    rewrite Hs. cbn [fmap option_fmap option_map].
    assert (slice_wf (Data b)) as Hsl by apply Hwb.
    rewrite (open_packet_wiped now (Wipe x) _ h p); [done| |done| |done|done|done|done].
    + apply load_wf; [done|done|]. simpl. lia.
    + rewrite <- Hdata. apply load_contents; [done|done|]. simpl. lia.
Qed.

(** The server's transports and TUN device. *)
Context {Ts : Type} `{!Transport Ts, !TransportSend Ts} (invTs : Ts → Prop) `{!TransportReceive Ts invTs}.
Context {Ds : Type} `{!Device Ds} {emitted_s : Ds → list (list byte)} {willing_s : Ds → Prop}
        `{!DeviceLaws Ds emitted_s willing_s}.

(** C9: connecting through the daemon works.  A connect request with the server's
    public key sends one message and waits; when a buffer with that message reaches
    the server's handler, the server answers, and once the daemon's transport
    brings that answer the request succeeds: the tunnel is up with the requested
    mode and the corrected address, and the daemon's session is paired with the one
    the server has registered.  The request succeeds as well when no TUN device can
    be created; then no routes and no kill switch are set up, requested or not. *)
Theorem daemon_connects se cfg tr raddr e p d hs cp r1 r2 e1 e2 t0 z l held buf os now :
  connected d = false → pool_live (dm_pool d) hs →
  ServerPubKey p = Base64 (PublicKey (serverPriv cfg)) →
  daemon_transport (sanitized p) = Some (Ok t0) →
  GenerateKeyPair (ce_priv e) = Ok (cp, PublicKey cp) →
  hs_ephem (ce_hs e) = Ok r1 → GenerateKeyPair (Ok r1) = Ok (e1, PublicKey e1) →
  ephem_rnd se = Ok r2 → GenerateKeyPair (Ok r2) = Ok (e2, PublicKey e2) →
  good_keys cp (serverPriv cfg) e1 e2 →
  server_inv (D := Ds) invTs z held → l ∈ held → heap (srv_pool z) !! l = Some buf → wf buf →
  (tr < length (srv_transports z))%nat →
  ∃ d1 pd req er, connect_begin e p d = Ret (d1, inr pd) ∧
    Send t0 req (Some (pd_target pd)) = Ret (pd_tr pd, er) ∧
    start_handshake (ce_hs e) cp (PublicKey (serverPriv cfg)) = Ok (contents req, pd_initiator pd) ∧
    (contents buf = contents req →
     ∃ z' t t' er' resp y q, handleIncomingPacket se cfg tr raddr l z = Ret z' ∧
       srv_transports z !! tr = Some t ∧ Send t resp (Some raddr) = Ret (t', er') ∧
       sess_store (srv_mgr z') !! q = Some y ∧ routed_to z' (defaultPeerIP cfg) q tr raddr ∧
       ∀ hs1 tr1 pick choice, pool_live (dm_pool d1) hs1 → brings pick tr1 (contents resp) →
         ∃ d2 x, connect_resume os pick choice now (answered pd tr1) d1 = Some (Ret (d2, ok_response)) ∧
           abs d2 = Up (Transport_ p) (sanitizeAddress (ServerAddr p)) now ∧
           session d2 = Some x ∧ paired x y ∧
           (∀ s err, CreateTUN (bytes_of "ant0") DefaultMTU (dm_sys d) = Ret (s, Err err) →
              tunDev d2 = None ∧ router d2 = router d ∧ killSwitch d2 = killSwitch d ∧ dm_sys d2 = s)).
Proof.
  intros Hc Hp Hkey Ht Hg Hr1 Hg1 Hr2 Hg2 Hgood Hz Hl Hb Hwf Htr.
  destruct (connect_run invTs se cfg tr raddr l z held buf (ce_hs e) cp
    r1 r2 e1 e2 (target_addr (ServerAddr (sanitized p))).1 now) as (msg & ih & HS & Hsrv); [done..|].
  destruct (connect_begin_run e p d hs _ cp msg ih t0 Hc Hp (zlen_PublicKey _) Hkey Ht Hg HS)
    as (d1 & pd & req & er & HB & HSend & Hreq & Hih & Hpar & Hcore & Hsys & Hro & Hks & Htg).
  exists d1, pd, req, er. split; [done|]. split; [done|]. split; [by rewrite Hreq, Hih|].
  intros Hbuf. rewrite Hreq in Hbuf.
  destruct (Hsrv Hbuf) as (z' & t & t' & er' & resp & x & y & q & Hh & Hts & HR & _ & Hfin & Hpa & _
    & Hq & Hrt & _).
  exists z', t, t', er', resp, y, q. do 5 (split; [done|]). intros hs1 tr1 pick choice Hp1 Hbr.
  destruct (connect_resume_run os pick choice now (answered pd tr1) d1 hs1 (contents resp) x)
    as (d2 & HRes & Habs & Hx & Hno); [done..|by rewrite <- Hih, <- Htg in Hfin|].
  exists d2, x. split; [done|]. split; [by rewrite Habs; simpl; rewrite Hpar|]. split; [done|].
  split; [done|]. by rewrite <- Hsys, <- Hro, <- Hks.
Qed.
End DaemonProperties.

(** ** A concrete daemon

    Linux, the toy system and the toy libraries. *)

Section DaemonDemo.
#[local] Existing Instance toy_aead.
#[local] Existing Instance toy_hash.
#[local] Existing Instance toy_curve.
#[local] Existing Instance toy_net.
#[local] Existing Instance toy_kernel.
#[local] Existing Instance toy_dialer.
#[local] Existing Instance toy_resolver.

#[local] Existing Instance toy_tun_calls.
Definition toy_error_text : ErrorText := λ e, bytes_of "error".
#[local] Existing Instance toy_error_text.

Abbreviation DemoDaemon := (Daemon LinuxTUN LinuxRouter ToySys).
Abbreviation DemoNode := (Node LinuxTUN LinuxRouter ToySys).

Definition demo_params (mode : string) : ConnectParams :=
  mkParams (bytes_of "203.0.113.9") (Base64 (PublicKey (demo_key 90))) (bytes_of mode) [] true false false.
Definition demo_connect_req : Request := Connect_request (demo_params "udp").
Definition demo_ce : ConnectEnv := mkConnectEnv (Ok (demo_key 40)) demo_he None.

Abbreviation demo_down := (NewDaemon demo_sys : DemoDaemon).
Abbreviation demo_begun := (connect_begin demo_ce (demo_params "udp") demo_down).

Definition begun (r : outcome (DemoDaemon * (Response + Pending))) : option (DemoDaemon * Pending) :=
  match r with Ret (d, inr pd) => Some (d, pd) | _ => None end.
Definition resumed (r : option (outcome (DemoDaemon * Response))) : option (DemoDaemon * Response) :=
  match r with Some (Ret x) => Some x | _ => None end.

(** A connect request over UDP that the demo server answers. *)
Definition demo_works : bool :=
  match begun demo_begun with
  | Some (d1, pd) =>
      match resumed (connect_resume Linux false None 5 (answered pd (demo_network (pd_tr pd))) d1) with
      | Some (d2, resp) => Success resp && bool_decide (is_Some (tunDev d2)) &&
          (length (new_loops resp pd d2) =? 2)%nat
      | None => false
      end
  | None => false
  end.

Lemma begun_Some r d pd : begun r = Some (d, pd) → r = Ret (d, inr pd).
Proof. destruct r as [[d' [resp|pd']]|]; simpl; [done|by intros [= <- <-]|done]. Qed.
Lemma resumed_Some r x : resumed r = Some x → r = Some (Ret x).
Proof. destruct r as [[y|]|]; simpl; [by intros [= <-]|done|done]. Qed.

(** The node after the request. *)
Lemma demo_node :
  ∃ n : DemoNode, node_steps (start_node demo_sys) [Tau; Arrive; Answer 5 demo_connect_req ok_response] n ∧
    is_Some (tunDev (nd n)) ∧ connected (nd n) = true ∧ length (nd_loops n) = 2%nat.
Proof.
  assert (demo_works = true) as Hw by (vm_compute; reflexivity). unfold demo_works in Hw.
  destruct (begun demo_begun) as [[d1 pd]|] eqn:EB; [|discriminate Hw].
  destruct (resumed (connect_resume _ _ _ _ _ _)) as [[d2 resp]|] eqn:ER; [|discriminate Hw].
  apply andb_prop in Hw as [[Hs Ht]%andb_prop Hl]. apply bool_decide_eq_true in Ht.
  apply Nat.eqb_eq in Hl. apply begun_Some in EB. apply resumed_Some in ER.
  set (n0 := start_node demo_sys : DemoNode). set (n1 := mkNode d1 (Some (demo_connect_req, pd)) [] : DemoNode).
  assert (node_step n0 Tau n1) as H1 by (by eapply (ns_wait demo_ce demo_connect_req)).
  destruct (node_step_ok _ _ _ (node_inv_start demo_sys) H1) as [Hi1 _].
  destruct (ni_lock _ Hi1 _ _ eq_refl) as (_ & _ & Hv & _).
  set (n2 := mkNode d1 (Some (demo_connect_req, answered pd (demo_network (pd_tr pd)))) [] : DemoNode).
  assert (node_step n1 Arrive n2) as H2 by (by apply ns_answer; [|apply demo_network_ok]).
  destruct (node_step_ok _ _ _ Hi1 H2) as [Hi2 _].
  destruct (ni_lock _ Hi2 _ _ eq_refl) as (_ & _ & Hv2 & _).
  pose proof (connect_resume_spec _ _ _ _ _ _ _ _ (ni_pool _ Hi2) Hv2 ER) as Hspec.
  destruct (any_over _ _); [discriminate Hspec|].
  destruct Hspec as (? & ? & [= <- <-] & _ & [[_ [msg ->]]|(-> & Hc & _)]); [discriminate Hs|].
  eexists. split; [|split; [|split]].
  - eapply nodes_step; [exact H1|]. eapply nodes_step; [exact H2|]. eapply nodes_step; [|apply nodes_refl].
    by eapply (ns_resume Linux false None 5).
  - exact Ht.
  - exact Hc.
  - simpl. rewrite app_nil_r. exact Hl.
Qed.

Example daemon_refines_witness :
  ∃ n : DemoNode, connected (nd n) = true ∧
    spec_run Down [Tau; Arrive; Answer 5 demo_connect_req ok_response] (abs (nd n)).
Proof.
  destruct demo_node as (n & Hn & _ & Hc & _). exists n. split; [exact Hc|].
  exact (daemon_refines demo_sys _ n Hn).
Defined.

(** The demo daemon over WebSocket, with a message of 3000 bytes to receive. *)
Definition demo_flooded : AnyTransport :=
  TrWS (mkWS false (Some 6%positive) ∅ [mkIncoming demo_addr (zeros 3000)] false []).

Example daemon_safe_witness :
  (∃ n : DemoNode, connected (nd n) = true ∧ returns (handleDisconnect Linux (nd n)) ∧
    ∀ now choice pick r, loop_step now choice pick (LIngress None) (nd n) = Some r →
      LIngress None ∈ nd_loops n → returns r) ∧
  any_over false demo_flooded = true.
Proof.
  split; [|vm_compute; reflexivity].
  destruct demo_node as (n & Hn & Ht & Hc & _). exists n. split; [exact Hc|].
  destruct (daemon_safe demo_sys _ n Hn) as (H1 & _ & _ & H4 & _). split; [apply H1|].
  intros now choice pick r HS Hlp. specialize (H4 now choice pick (LIngress None) r Hc Hlp HS).
  destruct r as [x|pn]; [by exists x|destruct H4].
Defined.

Definition demo_kill_req : Request := mkRequest ActionSetKillSwitch no_params.

Example waiting_blocks_witness :
  ∃ (n n' : DemoNode) pd, nd_lock n = Some (demo_connect_req, pd) ∧
    node_steps n [Answer 6 demo_kill_req (unknown_action demo_kill_req)] n' ∧
    nd_lock n' = Some (demo_connect_req, pd).
Proof.
  assert (match begun demo_begun with Some _ => true | None => false end = true) as Hw
    by (vm_compute; reflexivity).
  destruct (begun demo_begun) as [[d1 pd]|] eqn:EB; [|discriminate Hw]. apply begun_Some in EB.
  set (n := mkNode d1 (Some (demo_connect_req, pd)) [] : DemoNode).
  assert (node_steps n [Answer 6 demo_kill_req (unknown_action demo_kill_req)] n) as Hs.
  { eapply nodes_step; [|apply nodes_refl]. apply ns_unknown. vm_compute.
    intros H. repeat (apply elem_of_cons in H as [E|H]; [discriminate E|]). by apply elem_of_nil in H. }
  exists n, n, pd. split; [reflexivity|]. split; [exact Hs|].
  refine (proj1 (waiting_blocks demo_ce (demo_params "udp") demo_down d1 pd n _ n demo_connect_req
    eq_refl EB eq_refl Hs _)).
  intros H. apply elem_of_cons in H as [E|H]; [discriminate E|]. by apply elem_of_nil in H.
Defined.

(** A connected daemon with one packet at its TLS transport. *)
Definition demo_forged : Header := mkHeader TypeData 0 (LocalIndex demo_x1) 3.
Definition demo_tls : TLSTransport :=
  mkTLS false (Some 5%positive) ∅ [mkIncoming demo_addr (header_bytes demo_forged ++ zeros 16)] false [].
Definition demo_up : DemoDaemon :=
  mkDaemon true (demo_params "tls") (Some (mkLinux (mkTun [demo_ip] None []))) (Some (TrTLS demo_tls))
    (Some demo_x1) None None 5 (Some false) (mkCounters 0 0 0 0) GlobalPool demo_sys [].

Example disconnect_races_witness :
  ∃ (d' d2 : DemoDaemon) l, handleDisconnect Linux demo_up = Ret (d', ok_response) ∧
    ingress_receive false None d' = Some (Ret (d2, inl l)) ∧ ingress_open 6 l d2 = Panic NilDeref.
Proof.
  destruct (handleDisconnect_spec Linux demo_up) as (d' & HD & _); [reflexivity|].
  destruct (disconnect_races Linux demo_up d' [] demo_x1) as (_ & Hin).
  - reflexivity.
  - reflexivity.
  - reflexivity.
  - apply pool_live_nil, pool_ok_global.
  - exact HD.
  - destruct (Hin 6 None demo_tls (mkIncoming demo_addr (header_bytes demo_forged ++ zeros 16)) []
      demo_forged (zeros 16)) as (d2 & l & H1 & H2).
    + reflexivity.
    + reflexivity.
    + reflexivity.
    + split; vm_compute; intuition discriminate.
    + vm_compute. discriminate.
    + vm_compute. discriminate.
    + reflexivity.
    + vm_compute. reflexivity.
    + exists d', d2, l. split; [exact HD|]. split; [exact H1|exact H2].
Defined.

(** The message the daemon sends. *)
Definition demo_cp : list byte := clamp (demo_key 40).
Definition demo_msg : list byte :=
  match start_handshake demo_he demo_cp (PublicKey (demo_key 90)) with
  | Ok (m, _) => m
  | Err _ => []
  end.

(** The server's answer arrives as a datagram. *)
Definition demo_inbox (resp : list byte) : AnyTransport := TrUDP (mkUDP [(demo_addr, resp)] None false []).

Lemma demo_inbox_brings resp : zlen resp ≤ 2048 → brings false (demo_inbox resp) resp.
Proof.
  intros Hz buf Hp. destruct (demo_brings demo_addr resp [] Hz buf Hp) as (t' & b & a & HR & Hc & Hw).
  exists (TrUDP t'), b, a. split; [|done].
  change (Receive false (demo_inbox resp) buf) with
    ('(t, b, r) ← Receive false (mkUDP [(demo_addr, resp)] None false []) buf; Some (TrUDP t, b, r)).
  by rewrite HR.
Qed.

Example daemon_connects_witness :
  ∃ d1 pd z' resp, connect_begin demo_ce (demo_params "udp") demo_down = Ret (d1, inr pd) ∧
    demo_handle demo_srv0 demo_msg = Ret z' ∧
    (zlen (contents resp) ≤ 2048 → ∀ ls, pool_live (dm_pool d1) ls →
     ∃ d2, connect_resume Linux false None 5 (answered pd (demo_inbox (contents resp))) d1 =
             Some (Ret (d2, ok_response)) ∧
       abs d2 = Up (bytes_of "udp") (bytes_of "203.0.113.9:8443") 5).
Proof.
  unfold demo_handle. destruct (demo_arrive demo_srv0 demo_msg) as [l z] eqn:E.
  destruct (demo_arrive_ok demo_srv0 demo_msg l z demo_srv0_inv)
    as (Hinv & Ht & _ & _ & _ & b & Hb & Hwf & Hcont); [vm_compute; discriminate|exact E|].
  destruct (daemon_connects (D := LinuxTUN) (Rt := LinuxRouter) (Sys := ToySys) any_udp demo_env demo_cfg
    0 demo_addr demo_ce (demo_params "udp") demo_down [] demo_cp (demo_key 5) (demo_key 1)
    (clamp (demo_key 5)) (clamp (demo_key 1)) (TrUDP (mkUDP [] None false [])) z l {[l]} b Linux 5)
    as (d1 & pd & req & er & HB & _ & Hst & Hsrv).
  - reflexivity.
  - apply pool_live_nil, pool_ok_global.
  - reflexivity.
  - reflexivity.
  - reflexivity.
  - reflexivity.
  - reflexivity.
  - reflexivity.
  - reflexivity.
  - split; vm_compute; discriminate.
  - exact Hinv.
  - by apply elem_of_singleton.
  - exact Hb.
  - exact Hwf.
  - rewrite Ht. simpl. lia.
  - destruct Hsrv as (z' & t & t' & er' & resp & y & q & Hh & _ & _ & _ & _ & Hres).
    { rewrite Hcont. unfold demo_msg. change (ce_hs demo_ce) with demo_he in Hst.
      change (serverPriv demo_cfg) with (demo_key 90) in Hst. by rewrite Hst. }
    exists d1, pd, z', resp. split; [exact HB|]. split; [exact Hh|]. intros Hz ls Hls.
    destruct (Hres ls (demo_inbox (contents resp)) false None Hls (demo_inbox_brings _ Hz))
      as (d2 & x & HR & Habs & _). exists d2. split; [exact HR|]. rewrite Habs. reflexivity.
Defined.
End DaemonDemo.
