(* ===== verification/Traffic.v ===== *)
(** * Packets through the daemon (cmd/ant-daemon/main.go, runEgressLoop and
    runIngressLoop, against cmd/antserver/main.go)

    The two halves of a round of each packet loop of the daemon, composed with the
    server's handler and egress loop: packets travel from one TUN device to the
    other, with any rounds of other loops, any packets that come in and any requests
    other than a disconnect between the two halves. *)

From S2P Require Import Prelude Buffer Wire Replay Cipher Encoding Keys Noise Session Address.
From S2P Require Import Transport System Tun Router KillSwitch Platform Server Client Ipc Daemon.
Local Open Scope Z_scope.

Section Halves.
Context `{L : AeadLib, !AeadLaws L, H : HashLib, !HashLaws H, C : Curve25519, !CurveLaws C}.
Context `{N : Net, !NetLaws N, Dl : Dialer, Te : ErrorText}.
Context {D Rt Sys : Type} `{!Device D, !TunDevice D Sys, !TunLaws D Sys, !Shell Sys, !Router Rt Sys}.
Context {emitted : D → list (list byte)} {willing : D → Prop} `{!DeviceLaws D emitted willing}.
Implicit Types (d : Daemon D Rt Sys) (n : Node D Rt Sys) (x : Session) (hs : list holder) (p : list byte).

(** A loop's buffer holds a packet that leaves room for the header and the tag. *)
Record holds d (l : loc) p : Prop := {
  ho_buf : ∃ b, heap (dm_pool d) !! l = Some b ∧ wf b ∧ pooled DefaultBufferSize b ∧
    contents b = p ∧ 0 ≤ Offset b ≤ 4
}.

(** A buffer that a transport filled. *)
Record received d (l : loc) p : Prop := {
  re_buf : ∃ b, heap (dm_pool d) !! l = Some b ∧ wf b ∧ contents b = p
}.

(** Steps that leave the loop holding the buffer [l] where it is, and the tunnel up. *)
Definition quiet (l : loc) (lb : label) : Prop :=
  match lb with
  | Answer _ req _ => Action req ≠ ActionDisconnect
  | Round lp => loop_held lp ≠ Some l
  | _ => True
  end.

Lemma egress_read_run choice d hs t p :
  pool_live (dm_pool d) hs → tunDev d = Some t → offers t p →
  ∃ d1 l, egress_read choice d = Some (Ret (d1, Some l)) ∧ holds d1 l p ∧
    session d1 = session d ∧ transport d1 = transport d ∧ counters d1 = counters d.
Proof.
  intros Hp Ht Ho. unfold egress_read. destruct (Get (dm_pool d) choice) as [l pool] eqn:EG.
  destruct (pool_live_get _ _ _ _ _ false Hp EG) as (_ & b & Hb & Hpb & _). rewrite Hb, Ht.
  destruct (Ho b Hpb) as (t' & b' & HR & Hc & Hoff). rewrite HR. simpl.
  apply ReadPacket_wf with (n := DefaultBufferSize) in HR as [Hwf' Hpb'];
    [|unfold DefaultBufferSize; lia|done].
  eexists _, l. split; [reflexivity|]. split; [|done]. constructor. exists b'. simpl.
  rewrite lookup_insert_eq. do 4 (split; [done|]). done.
Qed.

Lemma egress_send_run now a l d x c t p :
  holds d l p → session d = Some x → transport d = Some t → SendCipher x = Some c →
  u64_range (sendCounter x) → zlen p ≤ 2000 →
  ∃ d' t' x' sent err, egress_send now a l d = Ret d' ∧ Send t sent (Some a) = Ret (t', err) ∧
    contents sent = wire_packet c (data_header x) p ∧
    transport d' = Some t' ∧ session d' = Some x' ∧ sendCounter x' = wrap 64 (sendCounter x + 1) ∧
    counters d' = count_sent (zlen p) (counters d) ∧ tunDev d' = tunDev d.
Proof.
  intros [(b & Hb & Hwf & [Hl' Hc'] & Hcont & Hoff)] Hx Ht Hc Hctr Hz. unfold egress_send, deref.
  rewrite Hb. gsimpl. cbn [session transport with_counters]. rewrite Hx, Ht.
  assert (Length b = zlen p) as Hlen by (rewrite <- Hcont; symmetry; by apply zlen_contents).
  destruct (EncryptPacket_ok now x c b TypeData 0 Hc Hctr Hwf) as (b2 & HE & Hwf2 & Hc2 & _).
  { unfold tunnel_room, TagSize, HeaderSize, DefaultBufferSize in *. lia. }
  rewrite HE. gsimpl. destruct (Send_safe t b2 a Hwf2) as [[t' e] HS]. rewrite HS. gsimpl.
  eexists _, t', _, b2, e. split; [reflexivity|]. split; [exact HS|].
  rewrite Hc2, Hcont, Hlen. by split_and!.
Qed.

Lemma ingress_receive_run pick choice d hs t p :
  pool_live (dm_pool d) hs → transport d = Some t → brings pick t p →
  ∃ d1 l, ingress_receive pick choice d = Some (Ret (d1, inl l)) ∧ received d1 l p ∧
    session d1 = session d ∧ tunDev d1 = tunDev d ∧ counters d1 = counters d.
Proof.
  intros Hp Ht Hbr. unfold ingress_receive. destruct (Get (dm_pool d) choice) as [l pool] eqn:EG.
  destruct (pool_live_get _ _ _ _ _ false Hp EG) as (_ & b & Hb & Hpb & _). rewrite Hb, Ht.
  destruct (Hbr b Hpb) as (t' & b1 & a & HR & Hcont & Hwf1). rewrite HR. simpl.
  eexists _, l. split; [reflexivity|]. split; [|done]. constructor. exists b1. simpl.
  by rewrite lookup_insert_eq.
Qed.

Lemma ingress_open_run now l d x c h p t :
  received d l (wire_packet c h p) → session d = Some x → tunDev d = Some t → willing t →
  header_wf h → Type_ h = TypeData → ReceiverIndex h = LocalIndex x → RecvCipher x = Some c →
  (CheckAndSet (replay x) (Counter h)).1 = true → 0 < zlen p →
  ∃ d' t' x', ingress_open now l d = Ret d' ∧ tunDev d' = Some t' ∧ emitted t' = emitted t ++ [p] ∧
    session d' = Some x' ∧ counters d' = count_received (zlen p) (counters d) ∧ transport d' = transport d.
Proof.
  intros [(b & Hb & Hwf & Hcont)] Hx Ht Hw Hh Hty Hi Hc Hfr Hz. unfold ingress_open, deref.
  rewrite Hb. gsimpl. rewrite Hx.
  destruct (open_packet_run now x b h p c) as (x' & b3 & -> & Hwf3 & Hb3); [done..|]. gsimpl.
  cbn [with_link with_counters tunDev counters]. unfold deliver. rewrite Ht, decide_True by done.
  assert (Length b3 = zlen p) as Hlen by (rewrite <- Hb3; symmetry; by apply zlen_contents).
  destruct (WritePacket_emits t b3 Hwf3 Hw) as (t' & b4 & HW & Hem & _); [lia|].
  rewrite HW. gsimpl. eexists _, t', x'. split; [reflexivity|]. rewrite Hem, Hb3, Hlen. by split_and!.
Qed.

(** *** Between the halves *)

Lemma holds_heap d d' l p : heap (dm_pool d') !! l = heap (dm_pool d) !! l → holds d l p → holds d' l p.
Proof. intros E [Hh]. constructor. by rewrite E. Qed.
Lemma received_heap d d' l p :
  heap (dm_pool d') !! l = heap (dm_pool d) !! l → received d l p → received d' l p.
Proof. intros E [Hh]. constructor. by rewrite E. Qed.

(** What a loop between its halves relies on: it is there, its buffer is as it was,
    the tunnel is up, and the session has the same keys. *)
Record waits_on (lp : Loop) (l : loc) n x n' : Prop := {
  wo_connected : connected (nd n') = true;
  wo_loop : lp ∈ nd_loops n';
  wo_heap : heap (dm_pool (nd n')) !! l = heap (dm_pool (nd n)) !! l;
  wo_session : ∃ x', session (nd n') = Some x' ∧ same_keys x x'
}.

Lemma waits_on_refl lp l n x :
  connected (nd n) = true → lp ∈ nd_loops n → session (nd n) = Some x → waits_on lp l n x n.
Proof. intros. split; [done..|]. by exists x. Qed.

Lemma quiet_step n lb n' lp l k x :
  node_inv n → node_step n lb n' → quiet l lb → loop_holder lp = Some (l, k) →
  waits_on lp l n x n → waits_on lp l n x n'.
Proof.
  intros Hinv Hstep Hq Hlp Hw. pose proof Hinv as [Hp Hv Hu Hl]. pose proof Hw as [Hc Hin _ (x0 & Hx & Hk)].
  destruct Hstep as [now req n Ha|now e req n d' resp Hlk Ha HB|e req n d' pd Hlk Ha HB
    |os pick choice now req n d' pd resp Hlk HR|now os req n d' resp Hlk Ha HD|alloc now req n Hlk Ha
    |i lp0 now choice pick n d' o Hi HS|req pd tr n Hlk Htr|t t' n Ht Ht'|t t' n Ht].
  - done.
  - destruct (connect_begin_spec e (Params req) (nd n) _ Hp) as (? & ? & E & _ & _ & Hr).
    rewrite HB in E. injection E as <- <-. rewrite Hc in Hr. destruct Hr as [_ ->]. by destruct Hw.
  - destruct (connect_begin_spec e (Params req) (nd n) _ Hp) as (? & ? & E & _ & _ & Hr).
    rewrite HB in E. injection E as <- <-. destruct Hr as (Hc' & _). congruence.
  - destruct (Hl _ _ Hlk) as (Hc' & _). congruence.
  - by destruct Hq.
  - done.
  - destruct (loop_node_step n i lp0 now choice pick d' o Hinv Hi HS) as [_ (hs' & Hke)].
    assert (lp ≠ lp0) as Hne.
    { intros ->. apply Hq. by rewrite <- loop_holder_held, Hlp. }
    pose proof (elem_delete _ _ _ _ Hi Hin Hne) as Hd. destruct Hke as [_ _ Hvis _ Hkeys Hheap].
    injection Hvis as E1 _ _ _. split; simpl.
    + by rewrite E1.
    + by eapply (elem_after_round _ i lp0 lp o).
    + apply Hheap. eapply holder_in, elem_held; [exact Hd|exact Hlp].
    + destruct (Hkeys x0 Hx) as (x' & ? & ?). exists x'. split; [done|]. by etrans.
  - by destruct Hw.
  - by destruct Hw.
  - by destruct Hw.
Qed.

Lemma quiet_steps n lbs n' lp l k x :
  node_inv n → node_steps n lbs n' → Forall (quiet l) lbs → loop_holder lp = Some (l, k) →
  waits_on lp l n x n → waits_on lp l n x n'.
Proof.
  intros Hinv Hs Hq Hlp. revert x. induction Hs as [n|n lb n1 lbs n2 Hstep Hs IH]; intros x Hw; [done|].
  apply Forall_cons in Hq as [Hq Hqs].
  destruct (node_step_ok _ _ _ Hinv Hstep) as [Hinv1 _].
  destruct (quiet_step _ _ _ _ _ _ _ Hinv Hstep Hq Hlp Hw) as [Hc1 Hin1 Hh1 (x1 & Hx1 & Hk1)].
  destruct (IH Hinv1 Hqs x1) as [Hc2 Hin2 Hh2 (x2 & Hx2 & Hk2)]; [by apply waits_on_refl|].
  split; [done|done|by rewrite Hh2|]. exists x2. split; [done|]. by etrans.
Qed.

(** A half round of the loop [i] that leaves it holding [l]. *)
Lemma half_waits n i lp now choice pick d' lp' l k x :
  node_inv n → connected (nd n) = true → session (nd n) = Some x → nd_loops n !! i = Some lp →
  loop_step now choice pick lp (nd n) = Some (Ret (d', Some lp')) → loop_holder lp' = Some (l, k) →
  session d' = session (nd n) →
  let n1 := mkNode d' (nd_lock n) (<[i := lp']> (nd_loops n)) in
  node_step n (Round lp) n1 ∧ node_inv n1 ∧ waits_on lp' l n1 x n1.
Proof.
  intros Hinv Hc Hx Hi HS Hlp Hs n1.
  assert (node_step n (Round lp) n1) as Hstep by exact (ns_loop i lp now choice pick n d' (Some lp') Hi HS).
  destruct (loop_node_step n i lp now choice pick d' (Some lp') Hinv Hi HS) as [Hi1 (hs' & Hk)].
  split; [done|]. split; [exact Hi1|]. apply waits_on_refl; simpl.
  - destruct Hk as [_ _ Hvis _ _ _]. injection Hvis as E1 _ _ _. by rewrite E1.
  - apply (list_elem_of_lookup_2 _ i), list_lookup_insert_eq. by eapply lookup_lt_Some.
  - congruence.
Qed.

Lemma egress_half n i a now choice pick t p x :
  node_inv n → connected (nd n) = true → session (nd n) = Some x →
  nd_loops n !! i = Some (LEgress a None) → tunDev (nd n) = Some t → offers t p →
  ∃ n1 l, loop_step now choice pick (LEgress a None) (nd n) = Some (Ret (nd n1, Some (LEgress a (Some l)))) ∧
    node_step n (Round (LEgress a None)) n1 ∧ node_inv n1 ∧ holds (nd n1) l p ∧
    waits_on (LEgress a (Some l)) l n1 x n1.
Proof.
  intros Hinv Hc Hx Hi Ht Ho.
  destruct (egress_read_run choice (nd n) _ t p (ni_pool _ Hinv) Ht Ho) as (d1 & l & HR & Hh & Hs & _).
  assert (loop_step now choice pick (LEgress a None) (nd n) = Some (Ret (d1, Some (LEgress a (Some l))))) as HS
    by (simpl; by rewrite HR).
  destruct (half_waits n i _ now choice pick d1 _ l true x Hinv Hc Hx Hi HS eq_refl Hs) as (Hst & Hi1 & Hw).
  exists (mkNode d1 (nd_lock n) (<[i := LEgress a (Some l)]> (nd_loops n))), l. split_and!; [exact HS|exact Hst|exact Hi1|exact Hh|exact Hw].
Qed.

Lemma ingress_half n i now choice pick t p x :
  node_inv n → connected (nd n) = true → session (nd n) = Some x →
  nd_loops n !! i = Some (LIngress None) → transport (nd n) = Some t → brings pick t p →
  ∃ n1 l, loop_step now choice pick (LIngress None) (nd n) = Some (Ret (nd n1, Some (LIngress (Some l)))) ∧
    node_step n (Round (LIngress None)) n1 ∧ node_inv n1 ∧ received (nd n1) l p ∧
    waits_on (LIngress (Some l)) l n1 x n1.
Proof.
  intros Hinv Hc Hx Hi Ht Hb.
  destruct (ingress_receive_run pick choice (nd n) _ t p (ni_pool _ Hinv) Ht Hb) as (d1 & l & HR & Hh & Hs & _).
  assert (loop_step now choice pick (LIngress None) (nd n) = Some (Ret (d1, Some (LIngress (Some l))))) as HS
    by (simpl; by rewrite HR).
  destruct (half_waits n i _ now choice pick d1 _ l false x Hinv Hc Hx Hi HS eq_refl Hs) as (Hst & Hi1 & Hw).
  exists (mkNode d1 (nd_lock n) (<[i := LIngress (Some l)]> (nd_loops n))), l. split_and!; [exact HS|exact Hst|exact Hi1|exact Hh|exact Hw].
Qed.

Lemma paired_same x x' y : paired x y → same_keys x x' → paired x' y.
Proof.
  intros [Hs Hr [Hls Hlr] Hri Hli [Hi1 Hi2]] [E1 E2 E3 E4 _].
  split; [congruence|congruence|split; congruence|congruence|congruence|]. by rewrite E3.
Qed.
End Halves.

Section Traffic.
Context `{L : AeadLib, !AeadLaws L, H : HashLib, !HashLaws H, C : Curve25519, !CurveLaws C}.
Context `{N : Net, !NetLaws N, Dl : Dialer, Te : ErrorText}.
Context {D Rt Sys : Type} `{!Device D, !TunDevice D Sys, !TunLaws D Sys, !Shell Sys, !Router Rt Sys}.
Context {emitted : D → list (list byte)} {willing : D → Prop} `{!DeviceLaws D emitted willing}.
(** The server's transports and TUN device. *)
Context {Ts : Type} `{!Transport Ts, !TransportSend Ts} (invTs : Ts → Prop) `{!TransportReceive Ts invTs}.
Context {Ds : Type} `{!Device Ds} {emitted_s : Ds → list (list byte)} {willing_s : Ds → Prop}
        `{!DeviceLaws Ds emitted_s willing_s}.
Implicit Types (d : Daemon D Rt Sys) (x y : Session) (z : Server Ts Ds) (p : list byte).

(** The second half of an egress round, and the packet at the server. *)
Lemma egress_done z held q y now choice pick a l d x tr p :
  server_inv invTs z held → sess_store (srv_mgr z) !! q = Some y → holds d l p → session d = Some x →
  paired x y → transport d = Some tr → u64_range (sendCounter x) → zlen p ≤ 2000 →
  ∃ d' tr' x' sent err c,
    loop_step now choice pick (LEgress a (Some l)) d = Some (Ret (d', Some (LEgress a None))) ∧
    Send tr sent (Some a) = Ret (tr', err) ∧ transport d' = Some tr' ∧
    session d' = Some x' ∧ sendCounter x' = wrap 64 (sendCounter x + 1) ∧
    counters d' = count_sent (zlen p) (counters d) ∧
    SendCipher x = Some c ∧ contents sent = wire_packet c (data_header x) p ∧
    ∀ se cfg ts raddr l' buf dz, l' ∈ held → (ts < length (srv_transports z))%nat →
      Get_session (srv_mgr z) (LocalIndex y) = Some q →
      (CheckAndSet (replay y) (sendCounter x)).1 = true → srv_tun z = Some dz → willing_s dz →
      0 < zlen p → zlen p ≠ 78 →
      heap (srv_pool z) !! l' = Some buf → wf buf → contents buf = contents sent →
      ∃ z' dz', handleIncomingPacket se cfg ts raddr l' z = Ret z' ∧ srv_tun z' = Some dz' ∧
        emitted_s dz' = emitted_s dz ++ [p].
Proof.
  intros Hz Hq Hh Hx [Hs Hrc [[cs Hcs] _] Hri Hli [Hix Hiy]] Ht Hctr Hlen.
  destruct (egress_send_run now a l d x cs tr p) as (d2 & tr' & x' & sent & err & HE & HS & Hcont & Hd &
    Hx' & Hn & Hco & _); [done..|].
  exists d2, tr', x', sent, err, cs. split; [simpl; by rewrite HE|]. do 7 (split; [done|]).
  intros se cfg ts raddr l' buf dz Hl' Hts Hg Hfr Hdz Hw H0 H78 Hb Hwf Hbc.
  assert (authentic z buf (data_header x) q y cs p) as Hau.
  { split; [done|apply data_header_wf; [by rewrite Hri|done]|by simpl; rewrite Hri|done
           |congruence|congruence|done]. }
  destruct (forward_run invTs se cfg ts raddr l' z held buf (data_header x) q y cs p dz
    Hz Hl' Hb Hau) as (z' & dz' & Hh' & _ & Hd' & Hem & _); [done|done|lia|done..|].
  by exists z', dz'.
Qed.

(** C8: packets travel through the daemon, both ways, whatever comes between the two
    halves of a loop's round: rounds of the other loops, packets and datagrams that
    come in, and requests other than a disconnect.  Let a daemon that is connected
    (in a state with the invariant, which every reachable state has) have a session
    paired with one of the server's.  An egress loop reads any packet of up to 2000
    bytes its TUN device offers; when it goes on, it sends that packet, counted, as
    one transport packet under the counter the session has then; when the same bytes
    reach the server's handler and the counter is new there, exactly that packet is
    written to the server's device, if it has 1 to 2000 bytes and not 78.  A packet of
    the server's device that is routed to the session leaves the server as one
    transport packet; when the daemon's transport brings it, an ingress loop takes it,
    and when it goes on and the counter is new then, exactly that packet is written to
    the daemon's device, counted. *)
Theorem daemon_tunnel n x y z held q :
  node_inv n → connected (nd n) = true → session (nd n) = Some x → paired x y →
  u64_range (sendCounter x) → server_inv invTs z held → sess_store (srv_mgr z) !! q = Some y →
  (∀ i a now choice pick t p,
   nd_loops n !! i = Some (LEgress a None) → tunDev (nd n) = Some t → offers t p → zlen p ≤ 2000 →
   ∃ n1 l, loop_step now choice pick (LEgress a None) (nd n) = Some (Ret (nd n1, Some (LEgress a (Some l)))) ∧
     node_step n (Round (LEgress a None)) n1 ∧
     ∀ lbs n2, node_steps n1 lbs n2 → Forall (quiet l) lbs →
     ∃ x2 tr, LEgress a (Some l) ∈ nd_loops n2 ∧ session (nd n2) = Some x2 ∧ paired x2 y ∧
       transport (nd n2) = Some tr ∧
     ∀ now choice pick,
     ∃ d3 tr' x3 sent err c,
       loop_step now choice pick (LEgress a (Some l)) (nd n2) = Some (Ret (d3, Some (LEgress a None))) ∧
       Send tr sent (Some a) = Ret (tr', err) ∧ transport d3 = Some tr' ∧
       session d3 = Some x3 ∧ sendCounter x3 = wrap 64 (sendCounter x2 + 1) ∧
       counters d3 = count_sent (zlen p) (counters (nd n2)) ∧
       SendCipher x2 = Some c ∧ contents sent = wire_packet c (data_header x2) p ∧
       ∀ se cfg ts raddr l' buf dz, l' ∈ held → (ts < length (srv_transports z))%nat →
         Get_session (srv_mgr z) (LocalIndex y) = Some q →
         (CheckAndSet (replay y) (sendCounter x2)).1 = true → srv_tun z = Some dz → willing_s dz →
         0 < zlen p → zlen p ≠ 78 →
         heap (srv_pool z) !! l' = Some buf → wf buf → contents buf = contents sent →
         ∃ z' dz', handleIncomingPacket se cfg ts raddr l' z = Ret z' ∧ srv_tun z' = Some dz' ∧
           emitted_s dz' = emitted_s dz ++ [p]) ∧
  (∀ i now choice pick tr se buf ts a,
   nd_loops n !! i = Some (LIngress None) → transport (nd n) = Some tr →
   wf buf → tunnel_room buf → 0 < Length buf →
   routed_to z (destination_of (contents buf)) q ts a → u64_range (sendCounter y) →
   ∃ st st' err z' sent, srv_transports z !! ts = Some st ∧ egress_packet se buf z = Ret (z', sent) ∧
     Send st sent (Some a) = Ret (st', err) ∧
     (brings pick tr (contents sent) →
      ∃ n1 l, loop_step now choice pick (LIngress None) (nd n) = Some (Ret (nd n1, Some (LIngress (Some l)))) ∧
        node_step n (Round (LIngress None)) n1 ∧
        ∀ lbs n2, node_steps n1 lbs n2 → Forall (quiet l) lbs →
        ∃ x2, LIngress (Some l) ∈ nd_loops n2 ∧ session (nd n2) = Some x2 ∧ paired x2 y ∧
        ∀ now choice pick t, tunDev (nd n2) = Some t → willing t →
          (CheckAndSet (replay x2) (sendCounter y)).1 = true →
        ∃ d3 t', loop_step now choice pick (LIngress (Some l)) (nd n2) = Some (Ret (d3, Some (LIngress None))) ∧
          tunDev d3 = Some t' ∧ emitted t' = emitted t ++ [contents buf] ∧
          counters d3 = count_received (Length buf) (counters (nd n2)))).
Proof.
  intros Hinv Hc Hx Hpa Hctr Hz Hq. split.
  - intros i a now choice pick t p Hi Ht Ho Hlen.
    destruct (egress_half n i a now choice pick t p x Hinv Hc Hx Hi Ht Ho) as (n1 & l & HS & Hstep & Hi1 & Hh & Hw).
    exists n1, l. split; [done|]. split; [done|]. intros lbs n2 Hs2 Hqu.
    destruct (quiet_steps _ _ _ (LEgress a (Some l)) _ true _ Hi1 Hs2 Hqu eq_refl Hw) as [Hc2 Hin2 Hh2 (x2 & Hx2 & Hk2)].
    destruct (node_steps_ok _ _ _ Hi1 Hs2) as [Hi2 _].
    destruct (ni_up _ Hi2 Hc2) as (_ & [tr Htr] & _). exists x2, tr.
    pose proof (paired_same _ _ _ Hpa Hk2) as Hpa2. do 4 (split; [done|]). intros now2 choice2 pick2.
    eapply egress_done; [exact Hz|exact Hq|eapply holds_heap; [exact Hh2|exact Hh]|done|done|done| |done].
    by apply (sk_range _ _ Hk2).
  - intros i now choice pick tr se buf ts a Hi Htr Hwf Hroom Hlen Hrt Hyc.
    pose proof Hpa as [Hs Hrc [[cs Hcs] [cr Hcr]] Hri Hli [Hix Hiy]].
    assert (SendCipher y = Some cr) as Hcy by congruence.
    destruct (egress_run invTs se z held buf q ts a y cr Hz Hwf Hroom Hrt Hq Hcy Hyc)
      as (st & st' & err & z' & sent & Hst & Hcont & HS & He & _).
    exists st, st', err, z', sent. do 3 (split; [done|]). intros Hbr. rewrite Hcont in Hbr.
    destruct (ingress_half n i now choice pick tr _ x Hinv Hc Hx Hi Htr Hbr) as (n1 & l & HSt & Hstep & Hi1 & Hre & Hw).
    exists n1, l. split; [done|]. split; [done|]. intros lbs n2 Hs2 Hqu.
    destruct (quiet_steps _ _ _ (LIngress (Some l)) _ false _ Hi1 Hs2 Hqu eq_refl Hw) as [Hc2 Hin2 Hh2 (x2 & Hx2 & Hk2)].
    assert (paired x2 y) as Hpa2 by (eapply paired_same; [exact Hpa|exact Hk2]). exists x2.
    do 3 (split; [done|]). intros now2 choice2 pick2 t Ht Hwi Hfr.
    destruct (ingress_open_run now2 l (nd n2) x2 cr (data_header y) (contents buf) t)
      as (d3 & t' & x' & HO & Ht' & Hem & _ & Hco & _);
      [by eapply received_heap|done|done|done|apply data_header_wf; [by rewrite Hli|done]|done
      |simpl; by rewrite (pa_local _ _ Hpa2)|by rewrite (sk_recv _ _ Hk2)|done|by rewrite zlen_contents|].
    rewrite zlen_contents in Hco by done. exists d3, t'. simpl. by rewrite HO.
Qed.
End Traffic.

(** ** A concrete daemon *)

Section TrafficDemo.
#[local] Existing Instance toy_aead.
#[local] Existing Instance toy_hash.
#[local] Existing Instance toy_curve.
#[local] Existing Instance toy_net.
#[local] Existing Instance toy_kernel.
#[local] Existing Instance toy_dialer.
#[local] Existing Instance toy_resolver.
#[local] Existing Instance toy_tun_calls.
#[local] Existing Instance toy_error_text.

Abbreviation demo_lan := (mkLinux (mkTun [demo_ip] None [])).

(** Connected over UDP; the device has one packet, the socket what [arrivals] holds. *)
Definition demo_dm (arrivals : list (Addr * list byte)) : Daemon LinuxTUN LinuxRouter ToySys :=
  mkDaemon true (demo_params "udp") (Some demo_lan) (Some (TrUDP (mkUDP arrivals None false [])))
    (Some demo_x1) None None 5 (Some false) (mkCounters 0 0 0 0) GlobalPool demo_sys [].

Definition demo_nd (arrivals : list (Addr * list byte)) : Node LinuxTUN LinuxRouter ToySys :=
  mkNode (demo_dm arrivals) None [LEgress demo_addr None; LIngress None].

Lemma demo_nd_inv arrivals : node_inv (demo_nd arrivals).
Proof.
  split; [apply pool_live_nil, pool_ok_global|by intros t0 [= <-]| |done].
  intros _. split; [done|]. split; [by eexists|]. exists demo_x1. split; [done|]. split; eexists; reflexivity.
Qed.

(** Another request is answered between the halves. *)
Lemma demo_between (n1 : Node LinuxTUN LinuxRouter ToySys) l :
  node_steps n1 [Answer 7 demo_kill_req (unknown_action demo_kill_req)] n1 ∧
  Forall (quiet l) [Answer 7 demo_kill_req (unknown_action demo_kill_req)].
Proof.
  split; [|repeat constructor; discriminate]. eapply nodes_step; [|apply nodes_refl].
  apply ns_unknown. vm_compute. intros H.
  repeat (apply elem_of_cons in H as [E|H]; [discriminate E|]). by apply elem_of_nil in H.
Qed.

Abbreviation tunnel_of arrivals := (daemon_tunnel
  (emitted := λ t, tun_out (linux_state t)) (willing := λ t, tun_willing (linux_state t))
  (emitted_s := λ t, tun_out (linux_state t)) (willing_s := λ t, tun_willing (linux_state t))
  any_udp (demo_nd arrivals) demo_x1 demo_y1).

Lemma demo_first_half d o :
  loop_step 5 None false (LEgress demo_addr None) (demo_dm []) = Some (Ret (d, o)) →
  session d = Some demo_x1.
Proof.
  intros E. assert (match loop_step 5 None false (LEgress demo_addr None) (demo_dm []) with
    Some (Ret (d, _)) => session d | _ => None end = Some demo_x1) as H by reflexivity. by rewrite E in H.
Qed.
Lemma demo_second_half bytes d o :
  loop_step 5 None false (LIngress None) (demo_dm [(demo_addr, bytes)]) = Some (Ret (d, o)) →
  session d = Some demo_x1 ∧ tunDev d = Some demo_lan.
Proof.
  intros E. assert (match loop_step 5 None false (LIngress None) (demo_dm [(demo_addr, bytes)]) with
    Some (Ret (d, _)) => (session d, tunDev d) | _ => (None, None) end = (Some demo_x1, Some demo_lan)) as H
    by reflexivity. rewrite E in H. by injection H as -> ->.
Qed.

Abbreviation DemoNd := (Node LinuxTUN LinuxRouter ToySys).

Example daemon_tunnel_witness :
  (∃ (n1 : DemoNd) d3 l z' dz',
     node_step (demo_nd []) (Round (LEgress demo_addr None)) n1 ∧
     loop_step 5 None false (LEgress demo_addr (Some l)) (nd n1) = Some (Ret (d3, Some (LEgress demo_addr None))) ∧
     demo_handle demo_z0 (wire_packet demo_c (data_header demo_x1) demo_ip) = Ret z' ∧
     srv_tun z' = Some dz' ∧ tun_out (linux_state dz') = [demo_ip]) ∧
  ∃ z' sent (n1 : DemoNd) d3 l t',
    egress_packet demo_env demo_reply demo_z1 = Ret (z', sent) ∧
    node_step (demo_nd [(demo_addr, contents sent)]) (Round (LIngress None)) n1 ∧
    loop_step 5 None false (LIngress (Some l)) (nd n1) = Some (Ret (d3, Some (LIngress None))) ∧
    tunDev d3 = Some t' ∧ tun_out (linux_state t') = [bytes_of "a reply"].
Proof.
  destruct demo_z0_ok as (Hinv & Hst & Hg). split.
  - unfold demo_handle.
    destruct (demo_arrive demo_z0 (wire_packet demo_c (data_header demo_x1) demo_ip)) as [l' z] eqn:E.
    destruct (demo_arrive_ok demo_z0 (wire_packet demo_c (data_header demo_x1) demo_ip) l' z Hinv)
      as (Hz & Hts & Hm & Hp & Htun & b & Hb & Hwf & Hcont); [vm_compute; discriminate|exact E|].
    destruct (tunnel_of [] z {[l']} demo_z_p) as [Hup _]; [apply demo_nd_inv|reflexivity|reflexivity
      |exact demo_paired|split; vm_compute; (discriminate || reflexivity)|exact Hz|by rewrite Hm|].
    destruct (Hup 0%nat demo_addr 5 None false demo_lan demo_ip) as (n1 & l & HS & Hstep & Hrest);
      [reflexivity|reflexivity|apply demo_offers|vm_compute; discriminate|].
    destruct (demo_between n1 l) as [Hbs Hbq].
    destruct (Hrest _ n1 Hbs Hbq) as (x2 & tr & _ & Hx2 & _ & _ & Hgo).
    rewrite (demo_first_half _ _ HS) in Hx2. injection Hx2 as <-.
    destruct (Hgo 5 None false) as (d3 & tr' & x3 & sent & err & c & Hd3 & _ & _ & _ & _ & _ & Hc & Hsent & Hz').
    destruct (Hz' demo_env demo_cfg 0%nat demo_addr l' b (mkLinux (mkTun [] None [])))
      as (z' & dz' & Hh & Hd & Hem); [by apply elem_of_singleton|rewrite Hts; vm_compute; lia
      |by rewrite Hm|vm_compute; reflexivity|by rewrite Htun|by split; [reflexivity|intros h bs]
      |vm_compute; reflexivity|vm_compute; discriminate
      |exact Hb|exact Hwf|rewrite Hcont, Hsent; change (SendCipher demo_x1) with (Some demo_c) in Hc;
        by injection Hc as <-|].
    exists n1, d3, l, z', dz'. by split_and!.
  - destruct demo_z1_ok as (Hinv1 & Hrt).
    set (c' := mkCipher (L := toy_aead) (demo_key 200) 1).
    set (bytes := wire_packet c' (data_header demo_y1) (contents demo_reply)).
    destruct (demo_pkt_valid "a reply") as [Hwf _]; [vm_compute; intuition discriminate|].
    destruct (tunnel_of [(demo_addr, bytes)] demo_z1 ∅ demo_z_p) as [_ Hdown];
      [apply demo_nd_inv|reflexivity|reflexivity|exact demo_paired
      |split; vm_compute; (discriminate || reflexivity)|exact Hinv1|exact Hst|].
    destruct (Hdown 1%nat 5 None false (TrUDP (mkUDP [(demo_addr, bytes)] None false [])) demo_env demo_reply
      0%nat demo_addr) as (st & st' & err & z' & sent & _ & He & _ & Hcl).
    + reflexivity.
    + reflexivity.
    + exact Hwf.
    + split; [vm_compute; discriminate|right; vm_compute; discriminate].
    + vm_compute. reflexivity.
    + destruct Hrt as (q & peer & Hlk & Hrest). exists q, peer. split; [|exact Hrest].
      vm_compute in Hlk |- *. exact Hlk.
    + split; vm_compute; (discriminate || reflexivity).
    + assert (contents sent = bytes) as Hb.
      { assert (match egress_packet demo_env demo_reply demo_z1 with
                | Ret (_, b) => bool_decide (contents b = bytes) | Panic _ => false end = true) as Hv
          by (vm_compute; reflexivity).
        rewrite He in Hv. by apply bool_decide_eq_true in Hv. }
      destruct Hcl as (n1 & l & HR & Hstep & Hrest).
      { rewrite Hb. apply (demo_inbox_brings bytes). vm_compute. discriminate. }
      destruct (demo_between n1 l) as [Hbs Hbq].
      destruct (Hrest _ n1 Hbs Hbq) as (x2 & _ & Hx2 & _ & Hgo).
      destruct (demo_second_half _ _ _ HR) as [Hs2 Ht2]. rewrite Hs2 in Hx2. injection Hx2 as <-.
      destruct (Hgo 5 None false demo_lan Ht2) as (d3 & t' & HO & Ht' & Hem & _);
        [by split; [reflexivity|intros h bs]|vm_compute; reflexivity|].
      exists z', sent, n1, d3, l, t'. rewrite Hb. do 4 (split; [done|]). by rewrite Hem.
Defined.
End TrafficDemo.
