(* ===== verification/Mobile.v ===== *)
(** * The mobile bridge (pkg/mobile/bridge.go)

    The functions the iOS app calls, and the loop that hands packets from the
    network to the app.  A transport that a failed start closes is dropped from the
    model.  Engines are kept by index, because a loop holds on to the
    engine it was started with while [globalEngine] moves on.  Starting waits for the
    server's answer without a lock, so other calls may come in between: it has two
    halves.  The other calls and the rounds of the loop are taken as atomic. *)

From stdpp Require Import pretty.
From S2P Require Import Prelude Buffer Wire Replay Cipher Encoding Keys Noise Session Address.
From S2P Require Import Transport Tun Server Client.
Local Open Scope Z_scope.

(** A [PacketFlow]: what it was given. *)
Definition PacketFlow := list (list byte).

Section Mobile.
Context `{L : AeadLib, H : HashLib, C : Curve25519, N : Net, Dl : Dialer}.

Record TunnelEngine := mkEngine {
  running : bool;
  flow : option PacketFlow;
  e_transport : AnyTransport;
  e_session : Session;
  targetAddr : Addr;
  e_stopped : bool;                   (* stopCh is closed *)
  e_sent : Z;
  e_received : Z
}.

(** A call of [StartTunnel] that waits for the server. *)
Record Starting := mkStarting {
  st_flow : option PacketFlow;
  st_tr : AnyTransport;
  st_target : Addr;
  st_initiator : InitiatorHandshake
}.

Record Mobile := mkMobile {
  engines : list TunnelEngine;
  globalEngine : option nat;
  starting : list Starting;
  mb_pool : Pool
}.
Definition NewMobile : Mobile := mkMobile [] None [] GlobalPool.

Definition with_pool (p : Pool) (m : Mobile) : Mobile :=
  mkMobile (engines m) (globalEngine m) (starting m) p.
Definition with_engine (i : nat) (e : TunnelEngine) (m : Mobile) : Mobile :=
  mkMobile (<[i := e]> (engines m)) (globalEngine m) (starting m) (mb_pool m).
Definition with_global (g : option nat) (m : Mobile) : Mobile :=
  mkMobile (engines m) g (starting m) (mb_pool m).

(** The engine [globalEngine] points to. *)
Definition global (m : Mobile) : option (nat * TunnelEngine) :=
  i ← globalEngine m; e ← engines m !! i; Some (i, e).

(** ** StartTunnel *)

Definition mobile_transport (transportMode serverAddr sni : gostring) : option (result AnyTransport) :=
  if decide (transportMode = bytes_of "udp") then Some (NewUDPTransport (bytes_of ":0"))
  else if decide (transportMode = bytes_of "tls" ∨ transportMode = []) then
    let sni := if decide (sni = []) then bytes_of "gateway.internal" else sni in
    Some (NewTLSClientTransport serverAddr sni)
  else if decide (transportMode = bytes_of "ws") then
    Some (NewWSClientTransport (ws_url serverAddr) (ws_origin sni) sni)
  else None.

Record StartEnv := mkStartEnv {
  se_priv : result (list byte);
  se_hs : HsEnv;
  se_choice : option nat
}.

Definition is_running (m : Mobile) : bool :=
  match global m with Some (_, e) => running e | None => false end.

(** Up to the wait; [Some e] is the error returned. *)
Definition start_begin (se : StartEnv) (serverAddr serverKey transportMode sni : gostring)
    (fl : option PacketFlow) (m : Mobile) : outcome (Mobile * option error) :=
  if is_running m then Ret (m, Some (ErrNew "tunnel already running"))
  else
  match ParsePublicKey serverKey with
  | Err e => Ret (m, Some (ErrWrap "invalid server key: %w" e))
  | Ok serverPub =>
  match GenerateKeyPair (se_priv se) with
  | Err e => Ret (m, Some (ErrWrap "client key generation failed: %w" e))
  | Ok (clientPriv, _) =>
  match mobile_transport transportMode serverAddr sni with
  | None => Ret (m, Some (ErrStr "unsupported mobile transport: %s" (string_of transportMode)))
  | Some (Err e) => Ret (m, Some (ErrWrap "transport initialization failed: %w" e))
  | Some (Ok tr) =>
  let target := (target_addr serverAddr).1 in
  match start_handshake (se_hs se) clientPriv serverPub with
  | Err e => Ret (m, Some e)
  | Ok (initMsg, initiator) =>
      '(l, pool, tr, _) ← send_msg (se_choice se) (mb_pool m) tr initMsg target;
      Ret (mkMobile (engines m) (globalEngine m)
             (starting m ++ [mkStarting fl tr target initiator]) (Put pool (Some l)), None)
  end
  end
  end
  end.

(** From the answer on: a new engine becomes the global one. *)
Definition start_finish (pick : bool) (choice : option nat) (now : Z) (k : nat) (m : Mobile)
    : option (outcome (Mobile * option error)) :=
  st ← starting m !! k;
  r ← recv_msg pick choice (mb_pool m) (st_tr st);
  Some ('(l, pool, tr, resp) ← r;
        let m := mkMobile (engines m) (globalEngine m) (delete k (starting m)) pool in
        match resp with
        | Err _ => Ret (with_pool (Put pool (Some l)) m, Some (ErrNew "handshake response timeout"))
        | Ok respBuf =>
            b ← Bytes respBuf;
            let m := with_pool (Put pool (Some l)) m in
            match (ConsumeResponse b (st_initiator st)).1 with
            | Err e => Ret (m, Some (ErrWrap "handshake authentication failed: %w" e))
            | Ok keys =>
                match NewSession keys (Some (st_target st)) CipherChaCha20Poly1305 now with
                | Err e => Ret (m, Some e)
                | Ok x =>
                    let e := mkEngine true (st_flow st) tr x (st_target st) false 0 0 in
                    Ret (mkMobile (engines m ++ [e]) (Some (length (engines m))) (starting m)
                           (mb_pool m), None)
                end
            end
        end).

(** ** The other calls *)

(** [OnPacketFromDevice]; a packet longer than the buffer is cut by the copy, and
    its length is kept. *)
Definition OnPacketFromDevice (now : Z) (choice : option nat) (pkt : list byte) (m : Mobile)
    : outcome Mobile :=
  match global m with
  | None => Ret m
  | Some (i, e) =>
      if negb (running e) then Ret m
      else
        let '(l, pool) := Get (mb_pool m) choice in
        buf ← deref (heap pool) l;
        let buf := load buf pkt in
        let sent := wrap 64 (e_sent e + zlen pkt) in
        '(x, buf, err) ← EncryptPacket now (e_session e) buf TypeData 0;
        match err with
        | Some _ =>
            Ret (with_pool (cl_put l buf pool)
                   (with_engine i (mkEngine (running e) (flow e) (e_transport e) x (targetAddr e)
                                     (e_stopped e) sent (e_received e)) m))
        | None =>
            '(tr, _) ← Send (e_transport e) buf (Some (targetAddr e));
            Ret (with_pool (cl_put l buf pool)
                   (with_engine i (mkEngine (running e) (flow e) tr x (targetAddr e)
                                     (e_stopped e) sent (e_received e)) m))
        end
  end.

Definition StopTunnel (m : Mobile) : outcome Mobile :=
  match global m with
  | None => Ret m
  | Some (i, e) =>
      if negb (running e) then Ret m
      else if e_stopped e then Panic CloseClosed
      else
        Ret (with_global None
               (with_engine i (mkEngine false (flow e) (Close (e_transport e)) (Wipe (e_session e))
                                 (targetAddr e) true (e_sent e) (e_received e)) m))
  end.

(** The JSON text. *)
Definition quoted (s : string) : gostring := x22 :: bytes_of s ++ [x22].
Definition stats_json (run : bool) (sent received : Z) : gostring :=
  bytes_of "{" ++ quoted "running" ++ bytes_of (if run then ":true," else ":false,") ++
  quoted "sent" ++ bytes_of ":" ++ bytes_of (pretty sent) ++ bytes_of "," ++
  quoted "received" ++ bytes_of ":" ++ bytes_of (pretty received) ++ bytes_of "}".
Definition GetStats (m : Mobile) : gostring :=
  match global m with
  | None => stats_json false 0 0
  | Some (_, e) => stats_json (running e) (e_sent e) (e_received e)
  end.

(** ** The loop of an engine *)

(** Network to app; the flag says whether the loop goes on. *)
Definition runNetworkIngress (now : Z) (choice : option nat) (pick : bool) (i : nat) (m : Mobile)
    : option (outcome (Mobile * bool)) :=
  e ← engines m !! i;
  let '(l, pool) := Get (mb_pool m) choice in
  match heap pool !! l with
  | None => Some (Panic NilDeref)
  | Some buf =>
      '(tr, buf, r) ← Receive pick (e_transport e) buf;
      match r with
      | Err _ =>
          Some (Ret (with_pool (cl_put l buf pool)
                       (with_engine i (mkEngine (running e) (flow e) tr (e_session e) (targetAddr e)
                                         (e_stopped e) (e_sent e) (e_received e)) m),
                     negb (e_stopped e)))
      | Ok _ =>
          Some ('(x, buf, opened) ← open_packet now (e_session e) buf;
                b ← match opened with
                    | Some h =>
                        if decide (Type_ h = TypeData ∧ flow e ≠ None) then
                          b ← Bytes buf; Ret (Some b) else Ret None
                    | None => Ret None
                    end;
                let received :=
                  match opened with
                  | Some _ => wrap 64 (e_received e + Length buf)
                  | None => e_received e
                  end in
                let fl :=
                  match flow e, b with
                  | Some f, Some b => Some (f ++ [b])
                  | f, _ => f
                  end in
                Ret (with_pool (cl_put l buf pool)
                       (with_engine i (mkEngine (running e) fl tr x (targetAddr e) (e_stopped e)
                                         (e_sent e) received) m), true))
      end
  end.

(** ** Everything together *)

(** The packet that a round opens. *)
Definition round_opens (now : Z) (choice : option nat) (pick : bool) (i : nat) (m : Mobile)
    : option (Header * list byte) :=
  e ← engines m !! i;
  let '(l, pool) := Get (mb_pool m) choice in
  buf ← heap pool !! l;
  '(_, buf, r) ← Receive pick (e_transport e) buf;
  match r, open_packet now (e_session e) buf with
  | Ok _, Ret (_, buf, Some h) => Some (h, contents buf)
  | _, _ => None
  end.

(** What happened, for the statistics: the app handed a packet over while an engine
    was the global one, or the loop of an engine made a round. *)
Inductive event :=
  | Handed (engine : option nat) (pkt : list byte)
  | Opened (engine : nat) (packet : option (Header * list byte))
  | Other.

Inductive mobile_step : Mobile → event → Mobile → Prop :=
  | ms_begin se addr key mode sni fl m m' err :
      start_begin se addr key mode sni fl m = Ret (m', err) → mobile_step m Other m'
  | ms_finish pick choice now k m m' err :
      start_finish pick choice now k m = Some (Ret (m', err)) → mobile_step m Other m'
  | ms_packet now choice pkt m m' :
      OnPacketFromDevice now choice pkt m = Ret m' → mobile_step m (Handed (globalEngine m) pkt) m'
  | ms_stop m m' : StopTunnel m = Ret m' → mobile_step m Other m'
  | ms_ingress now choice pick i m m' go :
      runNetworkIngress now choice pick i m = Some (Ret (m', go)) →
      mobile_step m (Opened i (round_opens now choice pick i m)) m'
  | ms_network i e tr m :
      engines m !! i = Some e → any_ok tr →
      mobile_step m Other (with_engine i (mkEngine (running e) (flow e) tr (e_session e) (targetAddr e)
                                      (e_stopped e) (e_sent e) (e_received e)) m)
  | ms_answer k st tr m :
      starting m !! k = Some st → any_ok tr →
      mobile_step m Other (mkMobile (engines m) (globalEngine m)
        (<[k := mkStarting (st_flow st) tr (st_target st) (st_initiator st)]> (starting m)) (mb_pool m)).

Inductive mobile_run (m : Mobile) : list event → Mobile → Prop :=
  | run_nil : mobile_run m [] m
  | run_snoc evs m1 ev m2 :
      mobile_run m evs m1 → mobile_step m1 ev m2 → mobile_run m (evs ++ [ev]) m2.
End Mobile.

(** What the statistics and the app should have of an engine. *)
Definition handed_to (i : nat) (ev : event) : option Z :=
  match ev with Handed (Some j) pkt => if decide (j = i) then Some (zlen pkt) else None | _ => None end.
Definition opened_by (i : nat) (ev : event) : option (Header * list byte) :=
  match ev with Opened j o => if decide (j = i) then o else None | _ => None end.
Definition data_of (hp : Header * list byte) : option (list byte) :=
  if decide (Type_ hp.1 = TypeData) then Some hp.2 else None.

Definition zsum (l : list Z) : Z := foldr Z.add 0 l.
Definition bytes_handed (i : nat) (evs : list event) : Z := zsum (omap (handed_to i) evs).
Definition bytes_opened (i : nat) (evs : list event) : Z :=
  zsum ((λ hp, zlen hp.2) <$> omap (opened_by i) evs).
Definition delivered (i : nat) (evs : list event) : list (list byte) :=
  omap data_of (omap (opened_by i) evs).

Example GetStats_idle : GetStats (L := toy_aead) NewMobile = stats_json false 0 0.
Proof. reflexivity. Qed.

(** ** Facts *)

Section MobileFacts.
Context `{L : AeadLib, !AeadLaws L, H : HashLib, !HashLaws H, C : Curve25519, !CurveLaws C}.
Context `{N : Net, !NetLaws N, Dl : Dialer}.
Implicit Types (m : Mobile) (e : TunnelEngine).

(** An engine that runs has its keys and an open stop channel. *)
Record engine_ok e : Prop := {
  eo_ok : any_ok (e_transport e);
  eo_run : running e = true → live (e_session e) ∧ e_stopped e = false
}.

Record mobile_inv m : Prop := {
  mi_pool : pool_live (mb_pool m) [];
  mi_engines : Forall engine_ok (engines m);
  mi_starting : Forall (λ st, any_ok (st_tr st)) (starting m);
  mi_global i : globalEngine m = Some i → ∃ e, engines m !! i = Some e ∧ running e = true
}.

Lemma mobile_inv_init : mobile_inv NewMobile.
Proof. split; [apply pool_live_nil, pool_ok_global|constructor|constructor|done]. Qed.

(** Replacing an engine by one that is well and runs as before. *)
Lemma mobile_inv_engine m i e e' pool :
  mobile_inv m → engines m !! i = Some e → engine_ok e' → running e' = running e →
  pool_live pool [] → mobile_inv (with_pool pool (with_engine i e' m)).
Proof.
  intros [Hp He Hs Hg] Hi He' Hr Hp'. split; simpl; [done|by apply Forall_insert|done|].
  intros j Hj. destruct (Hg j Hj) as (e0 & He0 & Hr0). destruct (decide (j = i)) as [->|Hne].
  - exists e'. rewrite list_lookup_insert_eq by (by eapply lookup_lt_Some). split; [done|]. congruence.
  - exists e0. by rewrite list_lookup_insert_ne.
Qed.

Lemma global_Some m i e : global m = Some (i, e) ↔ globalEngine m = Some i ∧ engines m !! i = Some e.
Proof.
  unfold global. destruct (globalEngine m) as [j|]; simpl; [|naive_solver].
  destruct (engines m !! j) eqn:E; simpl; naive_solver.
Qed.

Lemma is_running_global m : mobile_inv m → is_running m = bool_decide (globalEngine m ≠ None).
Proof.
  intros [_ _ _ Hg]. unfold is_running, global. destruct (globalEngine m) as [i|]; simpl; [|done].
  destruct (Hg i eq_refl) as (e & -> & Hr). simpl. by rewrite Hr.
Qed.

Lemma mobile_transport_ok md a sni t : mobile_transport md a sni = Some (Ok t) → any_ok t.
Proof.
  unfold mobile_transport, NewUDPTransport, NewTLSClientTransport, NewWSClientTransport.
  intros E. repeat case_decide; repeat case_match; simplify_eq; (exact I || apply Forall_nil_2).
Qed.

Lemma start_begin_ok se addr key md sni fl m :
  mobile_inv m → ∃ m' err, start_begin se addr key md sni fl m = Ret (m', err) ∧ mobile_inv m' ∧
    engines m' = engines m ∧ globalEngine m' = globalEngine m ∧
    (globalEngine m ≠ None → m' = m ∧ err = Some (ErrNew "tunnel already running")).
Proof.
  intros Hinv. pose proof Hinv as [Hp He Hs Hg]. unfold start_begin. rewrite (is_running_global m Hinv).
  case_bool_decide as Hn; [by eauto 10|].
  destruct (ParsePublicKey key) as [pub|]; [|eexists _, _; split; [reflexivity|done]].
  destruct (GenerateKeyPair _) as [[priv cpub]|]; [|eexists _, _; split; [reflexivity|done]].
  destruct (mobile_transport md addr sni) as [[tr|]|] eqn:Et;
    [|eexists _, _; split; [reflexivity|done]..].
  apply mobile_transport_ok in Et.
  destruct (start_handshake _ _ _) as [[msg ih]|] eqn:EH; [|eexists _, _; split; [reflexivity|done]].
  apply start_handshake_length in EH.
  destruct (send_msg_ok (se_choice se) (mb_pool m) [] tr msg (target_addr addr).1)
    as (l & p1 & t1 & er & -> & Hp1 & Ht1); [done..|]. cbn [mbind outcome_bind].
  eexists _, _. split; [reflexivity|]. split; [|done].
  split; [exact Hp1|done|by apply Forall_app_2; [|constructor]|done].
Qed.

(** A start that was answered: it may make a new engine, and nothing else happens. *)
Lemma start_finish_ok pick choice now k st m r :
  mobile_inv m → starting m !! k = Some st → start_finish pick choice now k m = Some r →
  if any_over pick (st_tr st) then r = Panic SliceBounds
  else ∃ m' err, r = Ret (m', err) ∧ mobile_inv m' ∧
    (engines m' = engines m ∧ globalEngine m' = globalEngine m ∨
     ∃ e, engines m' = engines m ++ [e] ∧ globalEngine m' = Some (length (engines m)) ∧
       e_sent e = 0 ∧ e_received e = 0).
Proof.
  intros [Hp He Hs Hg] Hst HR. unfold start_finish in HR. rewrite Hst in HR. cbn [mbind option_bind] in HR.
  assert (any_ok (st_tr st)) as Hv by (by eapply Forall_lookup_1 in Hst; [|exact Hs]).
  apply bind_Some in HR as (r1 & Hr & [= <-]).
  destruct (recv_msg_ok _ _ _ _ _ _ Hp Hv Hr) as (l & p1 & t1 & res & -> & Hp1 & Ht1 & Hb).
  assert (Forall (λ st, any_ok (st_tr st)) (delete k (starting m))) as Hs' by by apply Forall_delete.
  cbn [mbind outcome_bind]. destruct (any_over pick (st_tr st)).
  { destruct Hb as (b & -> & Hb). by rewrite overlong_Bytes. }
  assert (∀ err : option error, ∃ m' err', Ret (mkMobile (engines m) (globalEngine m) (delete k (starting m))
      (Put p1 (Some l)), err) = Ret (m', err') ∧ mobile_inv m' ∧
      (engines m' = engines m ∧ globalEngine m' = globalEngine m ∨
       ∃ e, engines m' = engines m ++ [e] ∧ globalEngine m' = Some (length (engines m)) ∧
         e_sent e = 0 ∧ e_received e = 0)) as Hfail.
  { intros err. eexists _, _. split; [reflexivity|]. split; [by split|by left]. }
  destruct res as [b|]; [|apply Hfail]. rewrite Bytes_wf by auto. cbn [mbind outcome_bind].
  destruct (ConsumeResponse _ _).1 as [keys|]; [|apply Hfail].
  destruct (NewSession _ _ _ _) as [x|] eqn:EN; [|apply Hfail].
  eexists _, _. split; [reflexivity|]. split; [|right; by eexists].
  apply NewSession_ok in EN as (sc & rc & _ & _ & ->).
  split; [exact Hp1| |exact Hs'|].
  - apply Forall_app_2; [done|]. constructor; [|constructor].
    split; [exact Ht1|]. intros _. split; [split; eexists; done|done].
  - intros i [= <-]. simpl. rewrite lookup_app_r, Nat.sub_diag by lia. by eexists.
Qed.
Lemma start_finish_waits pick choice now k m r :
  start_finish pick choice now k m = Some r → ∃ st, starting m !! k = Some st.
Proof. unfold start_finish. destruct (starting m !! k); [by eexists|done]. Qed.

(** A packet that does not fit only costs a counter value. *)
Lemma EncryptPacket_full now x buf ty f :
  cap (Data buf) < Offset buf + Length buf + TagSize →
  ∃ err, EncryptPacket now x buf ty f = Ret (set_counter (u64 (sendCounter x + 1)) x, buf, Some err).
Proof.
  intros Hc. unfold EncryptPacket. rewrite header_ad_ok. gsimpl. rewrite EncryptInPlace_full by done.
  gsimpl. by eexists.
Qed.

(** What an event does to the statistics and the flow of engine [i]. *)
Definition tallied (i : nat) (ev : event) e e' : Prop :=
  e_sent e' = match handed_to i ev with Some n => wrap 64 (e_sent e + n) | None => e_sent e end ∧
  e_received e' =
    match opened_by i ev with Some hp => wrap 64 (e_received e + zlen hp.2) | None => e_received e end ∧
  flow e' = match opened_by i ev ≫= data_of with Some p => (.++ [p]) <$> flow e | None => flow e end.

(** [ev] is about no engine but [i]. *)
Definition only (i : nat) (ev : event) : Prop := ∀ j, j ≠ i → handed_to j ev = None ∧ opened_by j ev = None.

Lemma tallied_none i ev e e' :
  handed_to i ev = None → opened_by i ev = None →
  e_sent e' = e_sent e → e_received e' = e_received e → flow e' = flow e → tallied i ev e e'.
Proof. unfold tallied. by intros -> ->. Qed.
Lemma only_other i : only i Other.
Proof. done. Qed.
Lemma only_handed i pkt : only i (Handed (Some i) pkt).
Proof. intros j Hj. simpl. by rewrite decide_False. Qed.
Lemma only_opened i o : only i (Opened i o).
Proof. intros j Hj. simpl. by rewrite decide_False. Qed.

(** The engines keep their state, apart from those in [ks], and count what happened;
    there are no new ones. *)
Definition engines_kept (ks : list nat) (ev : event) m m' : Prop :=
  length (engines m') = length (engines m) ∧
  ∀ i e, engines m !! i = Some e → ∃ e', engines m' !! i = Some e' ∧ tallied i ev e e' ∧
    (i ∉ ks → running e' = running e).

Lemma engines_kept_refl ev m :
  (∀ i, handed_to i ev = None ∧ opened_by i ev = None) → engines_kept [] ev m m.
Proof.
  intros Hev. split; [done|]. intros i e Hi. exists e. destruct (Hev i). split; [done|].
  by split; [apply tallied_none|].
Qed.

Lemma with_engine_kept ks ev m i e e' pool :
  engines m !! i = Some e → only i ev → tallied i ev e e' → (i ∉ ks → running e' = running e) →
  engines_kept ks ev m (with_pool pool (with_engine i e' m)).
Proof.
  intros Hi Ho Ht Hr. split; [simpl; by rewrite length_insert|]. intros j e0 Hj. simpl.
  destruct (decide (j = i)) as [->|Hne].
  - exists e'. rewrite list_lookup_insert_eq by (by eapply lookup_lt_Some).
    rewrite Hi in Hj. by injection Hj as <-.
  - exists e0. rewrite list_lookup_insert_ne by done. destruct (Ho j Hne).
    split; [done|]. by split; [apply tallied_none|].
Qed.

(** A start that finishes without an error has made a new engine. *)
Lemma start_finish_new pick choice now k m m' :
  start_finish pick choice now k m = Some (Ret (m', None)) →
  ∃ e, engines m' = engines m ++ [e] ∧ globalEngine m' = Some (length (engines m)).
Proof.
  unfold start_finish. intros (st & _ & (r & Hr & [= HR])%bind_Some)%bind_Some.
  destruct r as [[[[l p1] t1] [b|er]]|]; [|done..]. cbn [mbind outcome_bind] in HR.
  destruct (Bytes b) as [bs|]; [|done]. cbn [mbind outcome_bind] in HR.
  destruct (ConsumeResponse _ _).1 as [keys|]; [|done].
  destruct (NewSession _ _ _ _) as [x|]; [|done]. injection HR as <-. by eexists.
Qed.

Lemma global_cases m :
  mobile_inv m → (globalEngine m = None ∧ global m = None) ∨
    ∃ i e, globalEngine m = Some i ∧ global m = Some (i, e) ∧ engines m !! i = Some e ∧ running e = true.
Proof.
  intros [_ _ _ Hg]. unfold global. destruct (globalEngine m) as [i|]; [|by left]. right.
  destruct (Hg i eq_refl) as (e & Hi & Hr). exists i, e. simpl. by rewrite Hi.
Qed.

Lemma OnPacketFromDevice_ok now choice pkt m :
  mobile_inv m → ∃ m', OnPacketFromDevice now choice pkt m = Ret m' ∧ mobile_inv m' ∧
    globalEngine m' = globalEngine m ∧ engines_kept [] (Handed (globalEngine m) pkt) m m'.
Proof.
  intros Hinv. pose proof Hinv as [Hp He Hs _]. unfold OnPacketFromDevice.
  destruct (global_cases m Hinv) as [[Eg ->]|(i & e & Eg & -> & Hi & Hr)]; rewrite Eg.
  { exists m. split_and!; [done..|]. by apply engines_kept_refl. }
  rewrite Hr. simpl. pose proof (Forall_lookup_1 _ _ _ _ He Hi) as [Hv Hrun]. destruct (Hrun Hr) as [Hl Hst].
  destruct (Get (mb_pool m) choice) as [l pool] eqn:EGet.
  destruct (pool_live_get _ _ _ _ _ true Hp EGet) as (Hp' & b & Hb & [Hbl Hbc] & Hwb & _ & Ho).
  unfold deref. rewrite Hb. cbn [mbind outcome_bind].
  assert (slice_wf (Data b)) as Hsl by apply Hwb.
  assert (pooled DefaultBufferSize (load b pkt)) as Hpb
    by (split; simpl; [done|by rewrite cap_copy_to]).
  assert (∀ tr x b', any_ok tr → live x → pooled DefaultBufferSize b' →
    ∃ m', Ret (with_pool (cl_put l b' pool) (with_engine i (mkEngine true (flow e) tr x (targetAddr e)
      (e_stopped e) (wrap 64 (e_sent e + zlen pkt)) (e_received e)) m)) = Ret m' ∧ mobile_inv m' ∧
      globalEngine m' = Some i ∧ engines_kept [] (Handed (Some i) pkt) m m') as Hend.
  { intros tr x b' Hv' Hl' Hb'. eexists. split; [reflexivity|]. split; [|split; [done|]].
    - apply (mobile_inv_engine m i e); [done|done| |done|by eapply pool_live_put]. split; [done|].
      by intros _.
    - apply (with_engine_kept _ _ _ _ e); [done|apply only_handed| |done].
      unfold tallied. simpl. by rewrite decide_True. }
  destruct (decide (cap (Data (load b pkt)) < Offset (load b pkt) + Length (load b pkt) + TagSize)) as [Hf|Hf].
  - destruct (EncryptPacket_full now (e_session e) (load b pkt) TypeData 0 Hf) as [err ->]. gsimpl.
    apply Hend; [done| |done]. by destruct Hl.
  - assert (wf (load b pkt)) as Hwl.
    { apply load_wf; [done|done|]. simpl in Hf. rewrite cap_copy_to in Hf by done.
      unfold TagSize in Hf. lia. }
    destruct (EncryptPacket_live now (e_session e) (load b pkt) TypeData 0 DefaultBufferSize)
      as (x' & b2 & err & -> & Hwf2 & Hpb2 & _ & Hl'); [apply Hl|done|done|].
    cbn [mbind outcome_bind]. destruct err as [err|]; [apply Hend; auto|].
    destruct (Send_safe (e_transport e) b2 (targetAddr e) Hwf2) as [[t' er] HS].
    pose proof (Send_stored (T := AnyTransport) (inv := any_ok) _ _ _ _ _ Hv HS) as Ht'.
    cbn [Send any_transport] in HS. rewrite HS. cbn [mbind outcome_bind]. apply Hend; auto.
Qed.

Lemma StopTunnel_ok m :
  mobile_inv m → ∃ m', StopTunnel m = Ret m' ∧ mobile_inv m' ∧ globalEngine m' = None ∧
    engines_kept (option_list (globalEngine m)) Other m m'.
Proof.
  intros Hinv. pose proof Hinv as [Hp He Hs _]. unfold StopTunnel.
  destruct (global_cases m Hinv) as [[Hg ->]|(i & e & Hg & -> & Hi & Hr)]; rewrite Hg.
  { exists m. split_and!; [done..|]. by apply engines_kept_refl. }
  rewrite Hr. simpl. pose proof (Forall_lookup_1 _ _ _ _ He Hi) as [Hv Hrun]. destruct (Hrun Hr) as [_ ->].
  eexists. split; [reflexivity|]. split; [|split; [done|]].
  - split; simpl; [done| |done|done]. apply Forall_insert; [done|].
    split; [by apply Close_ok|done].
  - apply (with_engine_kept [i] Other m i e _ (mb_pool m)); [done|apply only_other|by apply tallied_none|].
    intros Hn. exfalso. apply Hn. by left.
Qed.

(** A round of an engine that runs panics exactly on a message that is too long. *)
Lemma runNetworkIngress_ok now choice pick i m e r :
  mobile_inv m → engines m !! i = Some e → runNetworkIngress now choice pick i m = Some r →
  match r with
  | Ret (m', go) => mobile_inv m' ∧ globalEngine m' = globalEngine m ∧ any_over pick (e_transport e) = false ∧
      engines_kept [] (Opened i (round_opens now choice pick i m)) m m' ∧ (running e = true → go = true)
  | Panic pn => running e = true → any_over pick (e_transport e) = true ∧ pn = SliceBounds
  end.
Proof.
  intros Hinv Hi. unfold runNetworkIngress, round_opens. rewrite Hi. cbn [mbind option_bind].
  pose proof Hinv as [Hp He _ _]. pose proof (Forall_lookup_1 _ _ _ _ He Hi) as [Hv Hrun].
  destruct (Get (mb_pool m) choice) as [l pool] eqn:EGet.
  destruct (pool_live_get _ _ _ _ _ true Hp EGet) as (_ & b & Hb & Hpb & Hwb & _).
  rewrite Hb. cbn [mbind option_bind]. intros ([[tr b'] res] & HRe & HR)%bind_Some. rewrite HRe. cbn [mbind option_bind].
  destruct (Receive_stored pick _ b tr b' res Hv Hpb HRe) as (Hpb' & Ht' & Hov).
  assert (∀ x fl rc b2 o, (running e = true → live x) → pooled DefaultBufferSize b2 →
    tallied i (Opened i o) e (mkEngine (running e) fl tr x (targetAddr e) (e_stopped e) (e_sent e) rc) →
    let m' := with_pool (cl_put l b2 pool)
      (with_engine i (mkEngine (running e) fl tr x (targetAddr e) (e_stopped e) (e_sent e) rc) m) in
    mobile_inv m' ∧ globalEngine m' = globalEngine m ∧ engines_kept [] (Opened i o) m m') as Hend.
  { intros x fl rc b2 o Hl' Hb2 Hta. split; [|split; [done|]].
    - apply (mobile_inv_engine m i e); [done|done| |done|by eapply pool_live_cycle].
      split; [done|]. intros Hr. split; [by apply Hl'|by apply Hrun].
    - apply (with_engine_kept _ _ _ _ e); [done|apply only_opened|done|done]. }
  destruct (any_over pick (e_transport e)) eqn:Eo.
  { destruct Hov as [[a ->] Ho]. rewrite open_packet_overlong in HR by done. injection HR as <-. done. }
  destruct res as [a|err]; injection HR as <-.
  - pose proof (Hov a eq_refl) as Hwf'.
    destruct (open_packet now (e_session e) b') as [[[x b2] oh]|pn] eqn:EO; gsimpl.
    + destruct (open_packet_keeps now _ b' x b2 oh Hwf' Hpb' EO) as (Hwf2 & Hpb2 & Hl).
      assert (running e = true → live x) as Hlx by (intros Hr; by apply Hl, Hrun).
      destruct oh as [h|]; gsimpl.
      * case_decide as Hd; gsimpl; [rewrite Bytes_wf by done; gsimpl|].
        -- edestruct (Hend x) as (? & ? & ?); [done|done| |split_and!; done]. unfold tallied. simpl.
           rewrite decide_True by done. simpl. unfold data_of. simpl. rewrite decide_True by apply Hd.
           rewrite zlen_contents by done. destruct Hd as [_ Hf]. by destruct (flow e).
        -- edestruct (Hend x) as (? & ? & ?); [done|done| |split_and!; done]. unfold tallied. simpl.
           rewrite decide_True by done. simpl. unfold data_of. simpl. rewrite zlen_contents by done.
           destruct (flow e); [|by case_decide]. rewrite decide_False by (by intros ?; apply Hd).
           done.
      * edestruct (Hend x) as (? & ? & ?); [done|done| |split_and!; done].
        apply tallied_none; simpl; by (case_decide || destruct (flow e)).
    + intros Hr. destruct (Hrun Hr) as [Hl _].
      destruct (open_packet_ok now _ b' Hl Hwf' Hpb') as (? & ? & ? & E & _). congruence.
  - edestruct (Hend (e_session e)) as (? & ? & ?); [intros Hr; by apply Hrun|done|
      |split_and!; [done|done|done|done|intros Hr; by destruct (Hrun Hr) as [_ ->]]].
    apply tallied_none; simpl; by try case_decide.
Qed.
End MobileFacts.

(** ** Properties *)

Section MobileProperties.
Context `{L : AeadLib, !AeadLaws L, H : HashLib, !HashLaws H, C : Curve25519, !CurveLaws C}.
Context `{N : Net, !NetLaws N, Dl : Dialer}.
Implicit Types (m : Mobile) (e : TunnelEngine) (evs : list event).

(** A step keeps the invariant; it makes one engine, or lets the present ones count. *)
Lemma mobile_step_inv m ev m' :
  mobile_inv m → mobile_step m ev m' → mobile_inv m' ∧
  ((∃ ks, engines_kept ks ev m m' ∧ globalEngine m' = globalEngine m ∧ ks = []) ∨
   (engines_kept (option_list (globalEngine m)) ev m m' ∧ globalEngine m' = None) ∨
   (ev = Other ∧ ∃ e, engines m' = engines m ++ [e] ∧ globalEngine m' = Some (length (engines m)) ∧
      e_sent e = 0 ∧ e_received e = 0)).
Proof.
  intros Hinv Hstep. pose proof Hinv as [Hp He Hs Hg].
  destruct Hstep as [se addr key md sni fl m m' err HB|pick choice now k m m' err HF|now choice pkt m m' HO
    |m m' HS|now choice pick i m m' go HI|i e tr m Hi Hv|k st tr m Hk Hv].
  - destruct (start_begin_ok se addr key md sni fl m Hinv) as (? & ? & E & Hi' & E1 & E2 & _).
    rewrite HB in E. injection E as <- <-. split; [done|]. left. exists []. split; [|done].
    destruct (engines_kept_refl Other m) as [Hlen Hk]; [done|]. split; [by rewrite E1|]. by rewrite E1.
  - destruct (start_finish_waits _ _ _ _ _ _ HF) as [st Hst].
    pose proof (start_finish_ok _ _ _ _ _ _ _ Hinv Hst HF) as Hok. destruct (any_over _ _); [done|].
    destruct Hok as (? & ? & [= <- <-] & Hi' & [[E1 E2]|Hnew]); (split; [done|]); [left|by right; right].
    exists []. split; [|done].
    destruct (engines_kept_refl Other m) as [Hlen Hk]; [done|]. split; [by rewrite E1|]. by rewrite E1.
  - destruct (OnPacketFromDevice_ok now choice pkt m Hinv) as (? & E & ? & ? & ?).
    rewrite HO in E. injection E as <-. split; [done|]. left. by exists [].
  - destruct (StopTunnel_ok m Hinv) as (? & E & ? & ? & ?). rewrite HS in E. injection E as <-.
    split; [done|]. by right; left.
  - destruct (engines m !! i) as [e|] eqn:Hi; [|unfold runNetworkIngress in HI; by rewrite Hi in HI].
    destruct (runNetworkIngress_ok _ _ _ _ _ _ _ Hinv Hi HI) as (? & ? & _ & ? & _).
    split; [done|]. left. by exists [].
  - pose proof (Forall_lookup_1 _ _ _ _ He Hi) as [_ Hrun]. split.
    + apply (mobile_inv_engine m i e _ (mb_pool m)); [done|done|by split|done|done].
    + left. exists []. split; [|done].
      apply (with_engine_kept [] Other m i e _ (mb_pool m)); [done|apply only_other|by apply tallied_none|done].
  - split; [split; simpl; [done|done|by apply Forall_insert|done]|]. left. exists [].
    split; [|done]. by apply (engines_kept_refl Other m).
Qed.

Lemma mobile_reachable m evs m' : mobile_inv m → mobile_run m evs m' → mobile_inv m'.
Proof. intros Hinv Hr. induction Hr as [|evs m1 ev m2 _ IH Hstep]; [done|]. by eapply mobile_step_inv. Qed.

(** *** The statistics *)

(** What is known of engine [i] after [evs]. *)
Definition accounted (i : nat) evs (oe : option TunnelEngine) : Prop :=
  match oe with
  | Some e => e_sent e = wrap 64 (bytes_handed i evs) ∧ e_received e = wrap 64 (bytes_opened i evs) ∧
      ∃ f, flow e = (.++ delivered i evs) <$> f
  | None => omap (handed_to i) evs = [] ∧ omap (opened_by i) evs = []
  end.

Lemma zsum_app l1 l2 : zsum (l1 ++ l2) = zsum l1 + zsum l2.
Proof. induction l1 as [|x l1 IH]; simpl; [done|]. rewrite IH. lia. Qed.

Lemma accounted_tallied i evs ev e e' :
  accounted i evs (Some e) → tallied i ev e e' → accounted i (evs ++ [ev]) (Some e').
Proof.
  intros (Hs & Hr & f & Hf) (Hs' & Hr' & Hf').
  unfold accounted, bytes_handed, bytes_opened, delivered. rewrite !omap_app, !fmap_app, !zsum_app. simpl.
  rewrite Hs', Hr', Hf', Hs, Hr, Hf. unfold bytes_handed, bytes_opened, delivered.
  split_and!.
  - destruct (handed_to i ev) as [n|]; simpl; [|by rewrite Z.add_0_r].
    rewrite Z.add_0_r. apply Zplus_mod_idemp_l.
  - destruct (opened_by i ev) as [hp|]; simpl; [|by rewrite Z.add_0_r].
    rewrite Z.add_0_r. apply Zplus_mod_idemp_l.
  - exists f. destruct (opened_by i ev) as [hp|]; simpl; [|by rewrite app_nil_r].
    destruct (data_of hp) as [p|]; simpl; [|by rewrite app_nil_r].
    destruct f; simpl; [|done]. by rewrite app_assoc.
Qed.

(** Events of an engine that is not there. *)
Lemma no_events m ev m' i :
  mobile_inv m → mobile_step m ev m' → engines m !! i = None → handed_to i ev = None ∧ opened_by i ev = None.
Proof.
  intros [_ _ _ Hg] Hstep Hi. destruct Hstep as [| |now choice pkt m m' HO| |now choice pick j m m' go HI| |];
    simpl; try done.
  - destruct (globalEngine m) as [j|]; [|done]. destruct (Hg j eq_refl) as (e & Hj & _).
    rewrite decide_False; [done|]. intros ->. congruence.
  - split; [done|]. case_decide as Hd; [|done]. subst j. unfold round_opens. by rewrite Hi.
Qed.

Lemma run_accounted evs m i :
  mobile_run NewMobile evs m → mobile_inv m ∧ accounted i evs (engines m !! i).
Proof.
  intros Hr. induction Hr as [|evs m1 ev m2 _ [Hinv IH] Hstep]; [by split; [apply mobile_inv_init|]|].
  pose proof (no_events m1 ev m2 i Hinv Hstep) as Hno.
  destruct (mobile_step_inv _ _ _ Hinv Hstep) as [Hinv2 Hcases]. split; [done|].
  assert (engines m1 !! i = None → accounted i (evs ++ [ev]) None) as Hnone.
  { intros E. destruct (Hno E) as [E1 E2]. rewrite E in IH. destruct IH as [I1 I2].
    simpl. rewrite !omap_app, I1, I2. simpl. by rewrite E1, E2. }
  assert (∀ ks, engines_kept ks ev m1 m2 → accounted i (evs ++ [ev]) (engines m2 !! i)) as Hkept.
  { intros ks [Hlen Hk]. destruct (engines m1 !! i) as [e|] eqn:E.
    - destruct (Hk i e E) as (e' & -> & Ht & _). by eapply accounted_tallied.
    - rewrite (lookup_ge_None_2 (engines m2)); [by apply Hnone|].
      rewrite Hlen. by apply lookup_ge_None_1. }
  destruct Hcases as [(ks & Hk & _)|[[Hk _]|(-> & e & E1 & _ & Es & Er)]]; [by eapply Hkept|by eapply Hkept|].
  rewrite E1. destruct (decide (i < length (engines m1))%nat) as [Hlt|Hge].
  - rewrite lookup_app_l by done. destruct (lookup_lt_is_Some_2 _ _ Hlt) as [e1 E]. rewrite E in IH |- *.
    apply (accounted_tallied _ _ _ e1); [done|]. by apply tallied_none.
  - assert (engines m1 !! i = None) as E by (apply lookup_ge_None_2; lia). specialize (Hnone E).
    destruct Hnone as [N1 N2]. rewrite lookup_app_r by lia.
    destruct (decide (i = length (engines m1))) as [->|Hne].
    + rewrite Nat.sub_diag. simpl. unfold bytes_handed, bytes_opened, delivered. rewrite N1, N2, Es, Er.
      split_and!; [done..|]. exists (flow e). destruct (flow e); simpl; [by rewrite app_nil_r|done].
    + by rewrite lookup_ge_None_2 by (simpl; lia).
Qed.

(** *** Engines that nothing stops *)

(** An engine that runs and is no longer the global one. *)
Definition orphan (i : nat) m : Prop :=
  globalEngine m ≠ Some i ∧ ∃ e, engines m !! i = Some e ∧ running e = true.

Lemma orphan_step i m ev m' : mobile_inv m → mobile_step m ev m' → orphan i m → orphan i m'.
Proof.
  intros Hinv Hstep [Hg (e & Hi & Hr)].
  destruct (mobile_step_inv _ _ _ Hinv Hstep)
    as [_ [(ks & [_ Hk] & E & ->)|[[[_ Hk] E]|(_ & e0 & E1 & E2 & _)]]].
  - split; [by rewrite E|]. destruct (Hk i e Hi) as (e' & ? & _ & Hr'). exists e'. split; [done|].
    rewrite Hr'; [done|apply not_elem_of_nil].
  - split; [by rewrite E|]. destruct (Hk i e Hi) as (e' & ? & _ & Hr'). exists e'. split; [done|].
    rewrite Hr'; [done|]. destruct (globalEngine m) as [j|]; simpl; [|apply not_elem_of_nil].
    intros [->|Hj0]%elem_of_cons; [done|by apply elem_of_nil in Hj0].
  - pose proof (lookup_lt_Some _ _ _ Hi) as Hlt. split; [rewrite E2; intros [= ?]; lia|].
    exists e. by rewrite E1, lookup_app_l.
Qed.

(** C13: the mobile calls, one after another in any order, with starts that wait,
    packets of any length and rounds of the loops in between.  In every state they
    reach: starting while an engine runs is refused and changes nothing; a start that
    gets its answer returns, unless the answer is a WebSocket message of more than 2048
    bytes, on which it panics; handing over a packet returns; stopping returns, leaves
    nothing running that a call can reach, and stopping again or handing over a packet
    then changes nothing.  The statistics are true: there is an engine exactly if they
    say so, sent is the number of bytes the app handed over while that engine was the
    global one and received the number of bytes in the packets its loop opened, both
    modulo 2^64, and the app got exactly the data packets among those, in order.  A
    round of the loop of an engine that runs panics exactly on a WebSocket message of
    more than 2048 bytes, and else goes on. *)
Theorem mobile_api_safe evs m :
  mobile_run NewMobile evs m →
  (∀ se addr key md sni fl, ∃ m' err, start_begin se addr key md sni fl m = Ret (m', err) ∧
     (globalEngine m ≠ None → m' = m ∧ err = Some (ErrNew "tunnel already running"))) ∧
  (∀ pick choice now k st r, starting m !! k = Some st → start_finish pick choice now k m = Some r →
     if any_over pick (st_tr st) then r = Panic SliceBounds else returns r) ∧
  (∀ now choice pkt, returns (OnPacketFromDevice now choice pkt m)) ∧
  (∃ m', StopTunnel m = Ret m' ∧ StopTunnel m' = Ret m' ∧
     (∀ now choice pkt, OnPacketFromDevice now choice pkt m' = Ret m') ∧
     GetStats m' = stats_json false 0 0) ∧
  GetStats m = match globalEngine m with
               | Some i => stats_json true (wrap 64 (bytes_handed i evs)) (wrap 64 (bytes_opened i evs))
               | None => stats_json false 0 0
               end ∧
  (∀ i e, engines m !! i = Some e → ∃ f, flow e = (.++ delivered i evs) <$> f) ∧
  (∀ now choice pick i e r, engines m !! i = Some e → running e = true →
     runNetworkIngress now choice pick i m = Some r →
     if any_over pick (e_transport e) then r = Panic SliceBounds else ∃ m', r = Ret (m', true)).
Proof.
  intros Hr. pose proof (mobile_reachable _ _ _ mobile_inv_init Hr) as Hinv. split_and!.
  - intros se addr key md sni fl.
    destruct (start_begin_ok se addr key md sni fl m Hinv) as (m' & err & E & _ & _ & _ & Hn). eauto.
  - intros pick choice now k st r Hst HF. pose proof (start_finish_ok _ _ _ _ _ _ _ Hinv Hst HF) as Hok.
    destruct (any_over _ _); [done|]. destruct Hok as (m' & err & -> & _). by eexists.
  - intros now choice pkt. destruct (OnPacketFromDevice_ok now choice pkt m Hinv) as (m' & E & _).
    by eexists.
  - destruct (StopTunnel_ok m Hinv) as (m' & E & _ & Hg & _). exists m'.
    assert (global m' = None) as Hn by (unfold global; by rewrite Hg).
    split; [done|]. unfold StopTunnel, OnPacketFromDevice, GetStats. by rewrite Hn.
  - unfold GetStats. destruct (global_cases m Hinv) as [[-> ->]|(i & e & -> & -> & Hi & ->)]; [done|].
    destruct (run_accounted evs m i Hr) as [_ Ha]. rewrite Hi in Ha. by destruct Ha as (-> & -> & _).
  - intros i e Hi. destruct (run_accounted evs m i Hr) as [_ Ha]. rewrite Hi in Ha. apply Ha.
  - intros now choice pick i e r Hi Hrun HI.
    pose proof (runNetworkIngress_ok _ _ _ _ _ _ _ Hinv Hi HI) as Hk.
    destruct r as [[m' go]|pn].
    + destruct Hk as (_ & _ & -> & _ & Hgo). exists m'. by rewrite Hgo.
    + destruct (Hk Hrun) as [-> ->]. done.
Qed.

(** C14: two starts that overlap leave an engine that nothing stops.  If a start
    finishes while another engine is the global one, that engine is replaced; from
    then on it runs, with its keys in memory and its transport open, in every later
    state, whatever is called. *)
Theorem overlapping_starts_leak evs m pick choice now k m' i evs' m'' :
  mobile_run NewMobile evs m → globalEngine m = Some i →
  start_finish pick choice now k m = Some (Ret (m', None)) → mobile_run m' evs' m'' →
  ∃ e, engines m'' !! i = Some e ∧ running e = true ∧ live (e_session e) ∧ globalEngine m'' ≠ Some i.
Proof.
  intros Hr Hg HF Hr'. pose proof (mobile_reachable _ _ _ mobile_inv_init Hr) as Hinv.
  destruct (mi_global _ Hinv i Hg) as (e & Hi & Hrun).
  pose proof (start_finish_new _ _ _ _ _ _ HF) as (e0 & E1 & E2).
  assert (mobile_inv m') as Hinv' by (eapply mobile_step_inv; [exact Hinv|by eapply ms_finish]).
  assert (orphan i m') as Ho.
  { split; [rewrite E2; apply lookup_lt_Some in Hi; intros [= ?]; lia|].
    exists e. rewrite E1, lookup_app_l by (by eapply lookup_lt_Some). done. }
  assert (mobile_inv m'' ∧ orphan i m'') as [Hinv'' [Hg' (e' & Hi' & Hrun')]].
  { clear Hr Hg HF Hinv Hi E1 E2 Hrun e. induction Hr' as [|evs' m1 ev m2 _ [IH1 IH2] Hstep]; [done|].
    split; [by eapply mobile_step_inv|by eapply orphan_step]. }
  exists e'. split_and!; [done|done| |done].
  by apply (Forall_lookup_1 _ _ _ _ (mi_engines _ Hinv'') Hi').
Qed.

(** What a packet from the app becomes. *)
Lemma OnPacketFromDevice_run now choice p m i e c :
  mobile_inv m → global m = Some (i, e) → SendCipher (e_session e) = Some c →
  u64_range (sendCounter (e_session e)) → zlen p ≤ 2018 →
  ∃ m' e' sent err, OnPacketFromDevice now choice p m = Ret m' ∧ engines m' !! i = Some e' ∧
    Send (e_transport e) sent (Some (targetAddr e)) = Ret (e_transport e', err) ∧
    contents sent = wire_packet c (data_header (e_session e)) p ∧
    e_sent e' = wrap 64 (e_sent e + zlen p).
Proof.
  intros Hinv HG Hc Hctr Hz. pose proof HG as [Hgl Hi]%global_Some. pose proof Hinv as [Hp He _ Hg].
  destruct (Hg i Hgl) as (e0 & Hi0 & Hr). rewrite Hi in Hi0. injection Hi0 as <-.
  unfold OnPacketFromDevice. rewrite HG, Hr. simpl.
  destruct (Get (mb_pool m) choice) as [l pool] eqn:EGet.
  destruct (pool_live_get _ _ _ _ _ true Hp EGet) as (_ & b & Hb & [Hbl Hbc] & Hwb & _ & Ho).
  unfold deref. rewrite Hb. cbn [mbind outcome_bind]. unfold DefaultBufferSize in *.
  assert (slice_wf (Data b)) as Hsl by apply Hwb.
  assert (wf (load b p)) as Hwl by (apply load_wf; [done|done|lia]).
  destruct (EncryptPacket_ok now (e_session e) c (load b p) TypeData 0 Hc Hctr Hwl)
    as (b2 & -> & Hwf2 & Hc2 & _).
  { unfold tunnel_room, TagSize, HeaderSize. simpl. rewrite cap_copy_to by done. lia. }
  cbn [mbind outcome_bind].
  destruct (Send_safe (e_transport e) b2 (targetAddr e) Hwf2) as [[t' er] HS].
  pose proof HS as HS'. cbn [Send any_transport] in HS'. rewrite HS'. cbn [mbind outcome_bind].
  eexists _, _, b2, er. split; [reflexivity|]. split.
  { simpl. apply list_lookup_insert_eq. by eapply lookup_lt_Some. }
  split; [exact HS|]. split; [|done]. rewrite Hc2, load_contents by (done || lia). done.
Qed.

(** What a packet of the server becomes. *)
Lemma runNetworkIngress_run now choice pick i m e f h p c :
  mobile_inv m → engines m !! i = Some e → flow e = Some f →
  brings pick (e_transport e) (wire_packet c h p) → header_wf h → Type_ h = TypeData →
  ReceiverIndex h = LocalIndex (e_session e) → RecvCipher (e_session e) = Some c →
  (CheckAndSet (replay (e_session e)) (Counter h)).1 = true →
  ∃ m' e', runNetworkIngress now choice pick i m = Some (Ret (m', true)) ∧ engines m' !! i = Some e' ∧
    flow e' = Some (f ++ [p]) ∧ e_received e' = wrap 64 (e_received e + zlen p).
Proof.
  intros Hinv Hi Hf Hbr Hh Hty Hri Hc Hfr. pose proof Hinv as [Hp He _ _].
  unfold runNetworkIngress. rewrite Hi.
  cbn [mbind option_bind]. destruct (Get (mb_pool m) choice) as [l pool] eqn:EGet.
  destruct (pool_live_get _ _ _ _ _ true Hp EGet) as (_ & b & Hb & Hpb & _). rewrite Hb.
  destruct (Hbr b Hpb) as (t' & b1 & a & HR & Hcont & Hwf1). rewrite HR.
  cbn [mbind option_bind].
  destruct (open_packet_run now (e_session e) b1 h p c) as (x' & b3 & -> & Hwf3 & Hb3); [done..|].
  cbn [mbind outcome_bind]. rewrite decide_True by (by rewrite Hf).
  rewrite Bytes_wf by done. cbn [mbind outcome_bind]. eexists _, _. split; [reflexivity|]. split.
  { simpl. apply list_lookup_insert_eq. by eapply lookup_lt_Some. }
  simpl. rewrite Hf, Hb3. split; [done|]. by rewrite <- Hb3, zlen_contents.
Qed.
End MobileProperties.

Section MobileEndToEnd.
Context `{L : AeadLib, !AeadLaws L, H : HashLib, !HashLaws H, C : Curve25519, !CurveLaws C}.
Context `{N : Net, !NetLaws N, Dl : Dialer}.
(** The server's transports and TUN device. *)
Context {Ts : Type} `{!Transport Ts, !TransportSend Ts} (invTs : Ts → Prop) `{!TransportReceive Ts invTs}.
Context {Ds : Type} `{!Device Ds} {emitted_s : Ds → list (list byte)} {willing_s : Ds → Prop}
        `{!DeviceLaws Ds emitted_s willing_s}.
Implicit Types (m : Mobile) (e : TunnelEngine) (z : Server Ts Ds) (y : Session).

(** C12: the app's packets reach the server's TUN device and the server's reach the
    app.  In a state with the invariant, which every reachable state has, let the
    global engine's session be paired with one of the server's.  A
    packet the app hands over becomes one transport packet, counted; when its bytes
    reach the server's handler and its counter is new there, exactly that packet is
    written to the server's device.  A packet of the server's device that is routed
    to the session becomes one transport packet; when the engine's transport brings
    it and its counter is new, exactly that packet is handed to the app, counted. *)
Theorem mobile_tunnel m i e y f z held q :
  mobile_inv m → global m = Some (i, e) → paired (e_session e) y → flow e = Some f →
  server_inv invTs z held → sess_store (srv_mgr z) !! q = Some y →
  (∀ now choice se cfg tr raddr l p dz,
     0 < zlen p ≤ 2018 → zlen p ≠ 78 → u64_range (sendCounter (e_session e)) →
     l ∈ held → (tr < length (srv_transports z))%nat →
     Get_session (srv_mgr z) (LocalIndex y) = Some q →
     (CheckAndSet (replay y) (sendCounter (e_session e))).1 = true →
     srv_tun z = Some dz → willing_s dz →
     ∃ m' e' sent err c, OnPacketFromDevice now choice p m = Ret m' ∧ engines m' !! i = Some e' ∧
       Send (e_transport e) sent (Some (targetAddr e)) = Ret (e_transport e', err) ∧
       e_sent e' = wrap 64 (e_sent e + zlen p) ∧
       SendCipher (e_session e) = Some c ∧ contents sent = wire_packet c (data_header (e_session e)) p ∧
       (∀ buf, heap (srv_pool z) !! l = Some buf → wf buf → contents buf = contents sent →
        ∃ z' dz', handleIncomingPacket se cfg tr raddr l z = Ret z' ∧ srv_tun z' = Some dz' ∧
          emitted_s dz' = emitted_s dz ++ [p])) ∧
  (∀ now choice pick se buf tr a,
     wf buf → tunnel_room buf → routed_to z (destination_of (contents buf)) q tr a →
     u64_range (sendCounter y) → (CheckAndSet (replay (e_session e)) (sendCounter y)).1 = true →
     ∃ t t' err z' sent, srv_transports z !! tr = Some t ∧ egress_packet se buf z = Ret (z', sent) ∧
       Send t sent (Some a) = Ret (t', err) ∧
       (brings pick (e_transport e) (contents sent) →
        ∃ m' e', runNetworkIngress now choice pick i m = Some (Ret (m', true)) ∧
          engines m' !! i = Some e' ∧ flow e' = Some (f ++ [contents buf]) ∧
          e_received e' = wrap 64 (e_received e + Length buf))).
Proof.
  intros Hinv HG [Hs Hrc [[cs Hcs] [cr Hcr]] Hri Hli [Hix Hiy]] Hf Hz Hq.
  pose proof HG as [_ Hi]%global_Some. split.
  - intros now choice se cfg tr raddr l p dz Hp H78 Hctr Hl Htr Hg Hfr Hdz Hw.
    destruct (OnPacketFromDevice_run now choice p m i e cs Hinv HG Hcs Hctr)
      as (m' & e' & sent & err & HO & He' & HS & Hcont & Hsent); [lia|].
    exists m', e', sent, err, cs. do 6 (split; [done|]). intros buf Hb Hwf Hbc.
    assert (authentic z buf (data_header (e_session e)) q y cs p) as Hau.
    { split; [done|apply data_header_wf; [by rewrite Hri|done]|by simpl; rewrite Hri|done
             |congruence|congruence|done]. }
    destruct (forward_run invTs se cfg tr raddr l z held buf (data_header (e_session e)) q y cs p dz
      Hz Hl Hb Hau) as (z' & dz' & Hh & _ & Hd' & Hem & _); [done|done|lia|done..|].
    by exists z', dz'.
  - intros now choice pick se buf tr a Hwf Hroom Hrt Hctr Hfr.
    assert (SendCipher y = Some cr) as Hcy by congruence.
    destruct (egress_run invTs se z held buf q tr a y cr Hz Hwf Hroom Hrt Hq Hcy Hctr)
      as (t & t' & err & z' & sent & Ht & Hcont & HS & He & _).
    exists t, t', err, z', sent. do 3 (split; [done|]). intros Hbr. rewrite Hcont in Hbr.
    destruct (runNetworkIngress_run now choice pick i m e f (data_header y) (contents buf) cr Hinv Hi Hf
      Hbr) as (m' & e' & HI & He' & Hfl & Hrec); [apply data_header_wf; [by rewrite Hli|done]|done..|].
    exists m', e'. rewrite zlen_contents in Hrec by done. done.
Qed.
End MobileEndToEnd.

(** ** A concrete app *)

Section MobileDemo.
#[local] Existing Instance toy_aead.
#[local] Existing Instance toy_hash.
#[local] Existing Instance toy_curve.
#[local] Existing Instance toy_net.
#[local] Existing Instance toy_kernel.
#[local] Existing Instance toy_dialer.

Definition demo_se : StartEnv := mkStartEnv (Ok (demo_key 40)) demo_he None.

Abbreviation demo_begin m := (start_begin demo_se (bytes_of "203.0.113.9:8443")
  (Base64 (PublicKey (demo_key 90))) (bytes_of "udp") [] (Some []) m).

(** The server answers the first start that waits. *)
Definition answer_first (m : Mobile) : Mobile :=
  match starting m with
  | st :: sts => mkMobile (engines m) (globalEngine m)
      (mkStarting (st_flow st) (demo_network (st_tr st)) (st_target st) (st_initiator st) :: sts) (mb_pool m)
  | [] => m
  end.

Definition ok_state (r : outcome (Mobile * option error)) : option Mobile :=
  match r with Ret (m, None) => Some m | _ => None end.
Definition fin_state (r : option (outcome (Mobile * option error))) : option Mobile :=
  r ← r; ok_state r.

(** Two starts that overlap, both answered. *)
Definition demo_overlap : option (Mobile * Mobile) :=
  m ← ok_state (demo_begin NewMobile);
  m ← ok_state (demo_begin m);
  m ← fin_state (start_finish false None 5 0 (answer_first m));
  m' ← fin_state (start_finish false None 5 0 (answer_first m));
  Some (answer_first m, m').

Lemma ok_state_Some r m : ok_state r = Some m → r = Ret (m, None).
Proof. destruct r as [[m0 [e|]]|]; simpl; [done|by intros [= <-]|done]. Qed.
Lemma fin_state_Some r m : fin_state r = Some m → r = Some (Ret (m, None)).
Proof. unfold fin_state. destruct r as [r|]; simpl; [|done]. by intros ->%ok_state_Some. Qed.

Lemma answer_first_step evs m :
  mobile_inv m → mobile_run NewMobile evs m → ∃ evs', mobile_run NewMobile evs' (answer_first m).
Proof.
  intros [_ _ Hs _] Hr. unfold answer_first. destruct (starting m) as [|st sts] eqn:E; [eauto|].
  inversion Hs; subst.
  pose proof (ms_answer 0 st (demo_network (st_tr st)) m) as Hstep. rewrite E in Hstep.
  exists (evs ++ [Other]). eapply run_snoc; [exact Hr|]. apply Hstep; [done|by apply demo_network_ok].
Qed.

Lemma demo_overlap_reach m m' :
  demo_overlap = Some (m, m') →
  ∃ evs, mobile_run NewMobile evs m ∧ start_finish false None 5 0 m = Some (Ret (m', None)).
Proof.
  unfold demo_overlap.
  intros (m1 & E1%ok_state_Some & (m2 & E2%ok_state_Some & (m3 & E3%fin_state_Some
    & (m4 & E4%fin_state_Some & [= <- <-])%bind_Some)%bind_Some)%bind_Some)%bind_Some.
  assert (mobile_run NewMobile ([] ++ [Other] ++ [Other]) m2) as H2.
  { rewrite app_assoc. eapply run_snoc; [eapply run_snoc; [apply run_nil|by eapply ms_begin]|by eapply ms_begin]. }
  pose proof (mobile_reachable _ _ _ mobile_inv_init H2) as I2.
  destruct (answer_first_step _ _ I2 H2) as [evs2 Ha2].
  assert (mobile_run NewMobile (evs2 ++ [Other]) m3) as H3 by (eapply run_snoc; [exact Ha2|by eapply ms_finish]).
  pose proof (mobile_reachable _ _ _ mobile_inv_init H3) as I3.
  destruct (answer_first_step _ _ I3 H3) as [evs3 Ha3]. exists evs3. split; [exact Ha3|exact E4].
Qed.

Example overlapping_starts_leak_witness :
  ∃ m' m'' : Mobile, StopTunnel m' = Ret m'' ∧ globalEngine m'' = None ∧
    ∃ e, engines m'' !! 0%nat = Some e ∧ running e = true.
Proof.
  assert (match demo_overlap with Some (m, _) => bool_decide (globalEngine m = Some 0%nat) | None => false end
    = true) as Hd by (vm_compute; reflexivity).
  destruct demo_overlap as [[m m']|] eqn:E; [|discriminate Hd]. apply bool_decide_eq_true in Hd.
  apply demo_overlap_reach in E as (evs & Hr & HF).
  assert (mobile_run NewMobile (evs ++ [Other]) m') as Hr' by (eapply run_snoc; [exact Hr|by eapply ms_finish]).
  destruct (StopTunnel_ok m' (mobile_reachable _ _ _ mobile_inv_init Hr')) as (m'' & HS & _ & Hg & _).
  exists m', m''. split; [exact HS|]. split; [exact Hg|].
  destruct (overlapping_starts_leak evs m false None 5 0 m' 0 ([] ++ [Other]) m'' Hr Hd HF) as (e & Hi & Hrun & _).
  - eapply run_snoc; [apply run_nil|by apply ms_stop].
  - exists e. split; [exact Hi|exact Hrun].
Defined.

(** A state with an engine, after a packet from the app: the statistics count it. *)
Example mobile_api_safe_witness :
  ∃ evs (m : Mobile), globalEngine m = Some 0%nat ∧
    GetStats m = stats_json true (wrap 64 (bytes_handed 0 evs)) (wrap 64 (bytes_opened 0 evs)) ∧
    Handed (Some 0%nat) (zeros 3000) ∈ evs ∧ ∃ m', StopTunnel m = Ret m' ∧ StopTunnel m' = Ret m'.
Proof.
  assert (match demo_overlap with Some (m, _) => bool_decide (globalEngine m = Some 0%nat) | None => false end
    = true) as Hd by (vm_compute; reflexivity).
  destruct demo_overlap as [[m m0]|] eqn:E; [|discriminate Hd]. apply bool_decide_eq_true in Hd.
  apply demo_overlap_reach in E as (evs & Hr & _).
  pose proof (mobile_reachable _ _ _ mobile_inv_init Hr) as Hinv.
  destruct (OnPacketFromDevice_ok 6 None (zeros 3000) m Hinv) as (m1 & HO & _ & Hg & _).
  assert (mobile_run NewMobile (evs ++ [Handed (globalEngine m) (zeros 3000)]) m1) as Hr1
    by (eapply run_snoc; [exact Hr|by apply (ms_packet 6 None)]).
  rewrite Hd in Hg, Hr1.
  destruct (mobile_api_safe _ m1 Hr1) as (_ & _ & _ & (m' & H1 & H2 & _) & Hst & _).
  exists (evs ++ [Handed (Some 0%nat) (zeros 3000)]), m1. rewrite Hg in Hst.
  split; [exact Hg|]. split; [exact Hst|]. split; [apply elem_of_app; right; apply elem_of_cons; by left|].
  exists m'. split; [exact H1|exact H2].
Defined.

(** The engine at the other end of the demo server. *)
Definition demo_mobile (arrivals : list (Addr * list byte)) : Mobile :=
  mkMobile [mkEngine true (Some []) (TrUDP (mkUDP arrivals None false [])) demo_x1
              (mkAddr "udp" "203.0.113.9:8443") false 0 0] (Some 0%nat) [] GlobalPool.

Lemma demo_mobile_inv arrivals : mobile_inv (demo_mobile arrivals).
Proof.
  split; [apply pool_live_nil, pool_ok_global| |constructor|].
  - constructor; [|constructor]. split; [done|]. intros _. split; [split; eexists; done|done].
  - intros i [= <-]. by eexists.
Qed.

Example mobile_tunnel_witness :
  ∃ m' z' dz, OnPacketFromDevice 5 None demo_ip (demo_mobile []) = Ret m' ∧
    demo_handle demo_z0 (wire_packet demo_c (data_header demo_x1) demo_ip) = Ret z' ∧
    srv_tun z' = Some dz ∧ tun_out (linux_state dz) = [demo_ip].
Proof.
  destruct demo_z0_ok as (Hinv & Hst & Hg). unfold demo_handle.
  destruct (demo_arrive demo_z0 (wire_packet demo_c (data_header demo_x1) demo_ip)) as [l z] eqn:E.
  destruct (demo_arrive_ok demo_z0 (wire_packet demo_c (data_header demo_x1) demo_ip) l z Hinv)
    as (Hz & Ht & Hm & Hp & Htun & b & Hb & Hwf & Hcont); [vm_compute; discriminate|exact E|].
  destruct (mobile_tunnel (emitted_s := λ t, tun_out (linux_state t))
    (willing_s := λ t, tun_willing (linux_state t)) any_udp (demo_mobile []) 0
    (mkEngine true (Some []) (TrUDP (mkUDP [] None false [])) demo_x1
       (mkAddr "udp" "203.0.113.9:8443") false 0 0) demo_y1 [] z {[l]} demo_z_p) as [Hup _].
  - apply demo_mobile_inv.
  - reflexivity.
  - exact demo_paired.
  - reflexivity.
  - exact Hz.
  - rewrite Hm. exact Hst.
  - destruct (Hup 5 None demo_env demo_cfg 0%nat demo_addr l demo_ip (mkLinux (mkTun [] None [])))
      as (m' & e' & sent & err & c & HO & _ & HS & _ & Hc & Hsent & Hz').
    + split; vm_compute; (reflexivity || discriminate).
    + vm_compute. discriminate.
    + split; vm_compute; (discriminate || reflexivity).
    + by apply elem_of_singleton.
    + rewrite Ht. vm_compute. lia.
    + rewrite Hm. exact Hg.
    + vm_compute. reflexivity.
    + rewrite Htun. reflexivity.
    + by split; [reflexivity|intros h bs].
    + destruct (Hz' b Hb Hwf) as (z' & d' & Hh & Hd & Hem).
      { rewrite Hcont, Hsent.
        change (SendCipher _) with (Some demo_c) in Hc. by injection Hc as <-. }
      exists m', z', d'. split; [exact HO|]. split; [exact Hh|]. split; [exact Hd|exact Hem].
Defined.
End MobileDemo.
