(* ===== verification/ZeroLog.v ===== *)
(** * The sanitising logger (pkg/security/zero_log.go)

    The two regular expressions as terms, with a matcher that tries the choices in
    the order of package regexp (the leftmost match, greedy first), replacement of
    all matches, and the level filter. *)

From S2P Require Import Prelude Address.
Local Open Scope Z_scope.

(** ** Regular expressions *)

Inductive regex :=
  | Chr (p : byte → bool)               (* one character of a class *)
  | Bound                               (* \b, an ASCII word boundary *)
  | Cat (r s : regex)
  | Opt (r : regex).                    (* r?, greedy *)

Definition between (lo hi : Z) (b : byte) : bool := bool_decide (lo ≤ byte_to_Z b ≤ hi).
Definition is_digit : byte → bool := between 48 57.
Definition is_hex (b : byte) : bool := between 65 70 b || between 48 57 b || between 97 102 b.
Definition is_word (b : byte) : bool :=
  between 48 57 b || between 65 90 b || between 97 122 b || bool_decide (b = x5f).
Definition is_char (c : byte) (b : byte) : bool := bool_decide (b = c).

Definition wordy (o : option byte) : bool := match o with Some b => is_word b | None => false end.

(** The ways to match a prefix of [s] that follows the character [prev], in order
    of preference: the last character consumed and what is left. *)
Fixpoint matches (r : regex) (prev : option byte) (s : gostring) : list (option byte * gostring) :=
  match r with
  | Chr p => match s with b :: s => if p b then [(Some b, s)] else [] | [] => [] end
  | Bound => if decide (wordy prev ≠ wordy (head s)) then [(prev, s)] else []
  | Cat r1 r2 => flat_map (λ x, matches r2 x.1 x.2) (matches r1 prev s)
  | Opt r => matches r prev s ++ [(prev, s)]
  end.

(** [r{1,n}] and [r{n}] *)
Fixpoint upto (r : regex) (n : nat) : regex :=
  match n with
  | O => r
  | S n => Cat r (Opt (upto r n))
  end.
Fixpoint times (n : nat) (r rest : regex) : regex :=
  match n with
  | O => rest
  | S n => Cat r (times n r rest)
  end.

(** [\b(?:P{1,k+1}SEP){n}P{1,k+1}\b] *)
Definition token_regex (p : byte → bool) (k : nat) (sep : byte) (n : nat) : regex :=
  Cat Bound (times n (Cat (upto (Chr p) k) (Chr (is_char sep))) (Cat (upto (Chr p) k) Bound)).

Definition ipv4Regex : regex := token_regex is_digit 2 x2e 3.
Definition ipv6Regex : regex := token_regex is_hex 3 colon 7.

(** [ReplaceAllString]: one match after the other, from the left. *)
Fixpoint replace_from (fuel : nat) (r : regex) (repl : gostring) (prev : option byte) (s : gostring)
    : gostring :=
  match fuel with
  | O => s
  | S fuel =>
      match matches r prev s with
      | (prev, rest) :: _ => repl ++ replace_from fuel r repl prev rest
      | [] =>
          match s with
          | [] => []
          | b :: s => b :: replace_from fuel r repl (Some b) s
          end
      end
  end.
Definition ReplaceAllString (r : regex) (s repl : gostring) : gostring :=
  replace_from (S (length s)) r repl None s.

Definition redacted_ip : gostring := bytes_of "[REDACTED_IP]".
Definition redacted_ipv6 : gostring := bytes_of "[REDACTED_IPV6]".

Definition Sanitize (msg : gostring) : gostring :=
  let msg := ReplaceAllString ipv4Regex msg redacted_ip in
  ReplaceAllString ipv6Regex msg redacted_ipv6.

Example Sanitize_ex : Sanitize (bytes_of "Client 192.168.1.55 to 10.0.0.1:80, 2001:db8:0:0:0:0:0:1.") =
  bytes_of "Client [REDACTED_IP] to [REDACTED_IP]:80, [REDACTED_IPV6].".
Proof. vm_compute. reflexivity. Qed.

(** ** The logger *)

Inductive LogLevel := LevelOff | LevelError | LevelWarn | LevelInfo | LevelDebug.
Definition level_num (l : LogLevel) : Z :=
  match l with LevelOff => 0 | LevelError => 1 | LevelWarn => 2 | LevelInfo => 3 | LevelDebug => 4 end.

(** A writer: what was written to it, or [io.Discard]. *)
Inductive Writer := Written (lines : list gostring) | Discard.
Definition write_line (line : gostring) (w : Writer) : Writer :=
  match w with Written lines => Written (lines ++ [line]) | Discard => Discard end.

Record ZeroLogger := mkLogger {
  level : LogLevel;
  output : Writer
}.
(** [None] is a nil writer. *)
Definition NewZeroLogger (l : LogLevel) (out : option Writer) : ZeroLogger :=
  mkLogger l (match out with None => Discard | Some w => w end).
Definition SetLevel (lvl : LogLevel) (l : ZeroLogger) : ZeroLogger := mkLogger lvl (output l).

(** [rawMsg] is the formatted message, [timestamp] the time of day. *)
Definition log_line (timestamp prefix safeMsg : gostring) : gostring :=
  bytes_of "[" ++ timestamp ++ bytes_of "] [" ++ prefix ++ bytes_of "] " ++ safeMsg ++ [x0a].
Definition log (lvl : LogLevel) (prefix timestamp rawMsg : gostring) (l : ZeroLogger) : ZeroLogger :=
  if decide (level_num (level l) < level_num lvl) then l
  else mkLogger (level l) (write_line (log_line timestamp prefix (Sanitize rawMsg)) (output l)).
Definition Error := log LevelError (bytes_of "ERROR").
Definition Warn := log LevelWarn (bytes_of "WARN").
Definition Info := log LevelInfo (bytes_of "INFO").
Definition Debug := log LevelDebug (bytes_of "DEBUG").

(** ** What the expressions mean *)

(** A token: [n] groups with a separator after each, and a last group; the groups
    have one to [k] characters of a class. *)
Definition group (p : byte → bool) (k : nat) (g : gostring) : Prop :=
  (1 ≤ length g ≤ k)%nat ∧ Forall (λ b, p b = true) g.
Fixpoint groups (p : byte → bool) (k : nat) (sep : byte) (n : nat) (tok : gostring) : Prop :=
  match n with
  | O => group p k tok
  | S n => ∃ g rest, tok = g ++ sep :: rest ∧ group p k g ∧ groups p k sep n rest
  end.
Definition ipv4_literal : gostring → Prop := groups is_digit 3 x2e 3.
Definition ipv6_literal : gostring → Prop := groups is_hex 4 colon 7.

(** A token of a shape at the front of [s], not inside a longer word; and anywhere. *)
Definition token_at (shape : gostring → Prop) (prev : option byte) (s : gostring) : Prop :=
  ∃ tok rest, s = tok ++ rest ∧ shape tok ∧ wordy prev = false ∧ wordy (head rest) = false.
Definition last_of (prev : option byte) (s : gostring) : option byte :=
  match last s with Some b => Some b | None => prev end.
Definition contains (shape : gostring → Prop) (prev : option byte) (s : gostring) : Prop :=
  ∃ pre rest, s = pre ++ rest ∧ token_at shape (last_of prev pre) rest.

Section Matching.
Implicit Types (r : regex) (prev : option byte) (s tok : gostring).

Lemma elem_Chr p prev s x :
  x ∈ matches (Chr p) prev s ↔ ∃ b, s = b :: x.2 ∧ p b = true ∧ x.1 = Some b.
Proof.
  destruct x as [o rest]. simpl. split.
  - destruct s as [|b s]; [by intros ?%elem_of_nil|]. destruct (p b) eqn:Hp; [|by intros ?%elem_of_nil].
    intros [= -> ->]%list_elem_of_singleton. eauto.
  - intros (b & -> & Hp & ->). rewrite Hp. by apply list_elem_of_singleton.
Qed.

Lemma elem_Bound prev s x :
  x ∈ matches Bound prev s ↔ x = (prev, s) ∧ wordy prev ≠ wordy (head s).
Proof.
  simpl. case_decide; [rewrite list_elem_of_singleton; naive_solver|].
  rewrite elem_of_nil. naive_solver.
Qed.

Lemma elem_Cat r1 r2 prev s x :
  x ∈ matches (Cat r1 r2) prev s ↔ ∃ y, y ∈ matches r1 prev s ∧ x ∈ matches r2 y.1 y.2.
Proof. simpl. rewrite list_elem_of_In, in_flat_map. setoid_rewrite list_elem_of_In. naive_solver. Qed.

Lemma elem_Opt r prev s x : x ∈ matches (Opt r) prev s ↔ x ∈ matches r prev s ∨ x = (prev, s).
Proof. simpl. by rewrite elem_of_app, list_elem_of_singleton. Qed.

Lemma last_of_cons prev b g : last_of prev (b :: g) = last_of (Some b) g.
Proof. unfold last_of. rewrite last_cons. by destruct (last g). Qed.

Lemma elem_upto p n prev s x :
  x ∈ matches (upto (Chr p) n) prev s ↔ ∃ g, s = g ++ x.2 ∧ group p (S n) g ∧ x.1 = last_of prev g.
Proof.
  revert prev s x. induction n as [|n IH]; intros prev s [o rest]; cbn [upto].
  - rewrite elem_Chr. split.
    + intros (b & -> & Hp & ->). exists [b]. split; [done|]. split; [split; [simpl; lia|by repeat constructor]|done].
    + intros (g & -> & [Hl Hf] & Ho). destruct g as [|b [|c g]]; simpl in Hl; try lia.
      exists b. inversion Hf; subst. done.
  - rewrite elem_Cat. split.
    + intros ([o1 s1] & (b & -> & Hp & ->)%elem_Chr & Hy). simpl in *.
      apply elem_Opt in Hy as [(g & Hs & [Hl Hf] & Ho)%IH|[= -> ->]]; simpl in *; subst.
      * exists (b :: g). split; [done|]. split; [split; [simpl; lia|by constructor]|by rewrite last_of_cons].
      * exists [b]. split; [done|]. split; [split; [simpl; lia|by repeat constructor]|done].
    + intros (g & -> & [Hl Hf] & Ho). simpl in Ho. destruct g as [|b g]; simpl in Hl; [lia|]. inversion Hf; subst.
      exists (Some b, g ++ rest). split; [by apply elem_Chr; exists b|]. simpl. apply elem_Opt.
      destruct g as [|c g]; [by right|left]. apply IH. exists (c :: g).
      split; [done|]. split; [split; [simpl in *; lia|done]|by rewrite last_of_cons].
Qed.

Lemma last_of_app prev s1 s2 : last_of prev (s1 ++ s2) = last_of (last_of prev s1) s2.
Proof. unfold last_of. rewrite last_app. by destruct (last s2). Qed.

(** The two expressions, between the boundaries. *)
Lemma elem_groups p k sep n prev s x :
  x ∈ matches (times n (Cat (upto (Chr p) k) (Chr (is_char sep))) (Cat (upto (Chr p) k) Bound)) prev s ↔
  ∃ tok, s = tok ++ x.2 ∧ groups p (S k) sep n tok ∧ x.1 = last_of prev tok ∧ wordy x.1 ≠ wordy (head x.2).
Proof.
  revert prev s x. induction n as [|n IH]; intros prev s [o rest]; cbn [times groups].
  - rewrite elem_Cat. split.
    + intros ([o1 s1] & (g & -> & Hg & Ho)%elem_upto & ([= -> ->] & Hw)%elem_Bound). simpl in *. subst. eauto.
    + intros (tok & -> & Hg & Ho & Hw). exists (o, rest). split; [apply elem_upto; eauto|].
      by apply elem_Bound.
  - rewrite elem_Cat. split.
    + intros ([o1 s1] & ([o2 s2] & (g & -> & Hg & Ho2)%elem_upto
        & (b & Hs & Hb%bool_decide_eq_true & Ho1)%elem_Chr)%elem_Cat & (tok & Hs1 & Ht & Ho & Hw)%IH).
      simpl in *. subst. exists (g ++ sep :: tok). split; [by rewrite <- app_assoc|].
      split; [by exists g, tok|]. split; [|done]. by rewrite last_of_app, last_of_cons.
    + intros (tok & -> & (g & t & -> & Hg & Ht) & Ho & Hw).
      exists (Some sep, t ++ rest). split.
      * apply elem_Cat. exists (last_of prev g, sep :: t ++ rest). split.
        -- apply elem_upto. exists g. split; [by rewrite <- app_assoc|done].
        -- apply elem_Chr. exists sep. split; [done|]. split; [|done]. by apply bool_decide_eq_true.
      * apply IH. exists t. split; [done|]. split; [done|]. split; [|done].
        cbn [fst] in *. by rewrite Ho, last_of_app, last_of_cons.
Qed.
End Matching.

(** ** Replacing *)

(** Every match is a word-bounded token. *)
Definition word_match (r : regex) : Prop :=
  ∀ prev s x, x ∈ matches r prev s → ∃ tok b c, s = tok ++ x.2 ∧ x.1 = Some c ∧
    head tok = Some b ∧ last tok = Some c ∧ is_word b = true ∧ is_word c = true ∧
    wordy prev = false ∧ wordy (head x.2) = false.

(** The tokens of a shape start with [p] and consist of [q]. *)
Record token_shape (shape : gostring → Prop) (p q : byte → bool) : Prop := {
  ts_head tok : shape tok → ∃ b, head tok = Some b ∧ p b = true;
  ts_last tok : shape tok → ∃ c, last tok = Some c ∧ is_word c = true;
  ts_all tok : shape tok → Forall (λ b, q b = true) tok;
  ts_word b : p b = true → is_word b = true
}.

(** No such token starts inside the replacement. *)
Fixpoint clear_from (p : byte → bool) (prev : option byte) (repl : gostring) : bool :=
  match repl with
  | [] => true
  | b :: repl => (negb (p b) || wordy prev) && clear_from p (Some b) repl
  end.

Lemma clear_from_spec p prev repl pre b post :
  clear_from p prev repl = true → repl = pre ++ b :: post → p b = true →
  wordy (last_of prev pre) = true.
Proof.
  intros Hc ->. revert prev Hc. induction pre as [|c pre IH]; intros prev; simpl.
  - intros [Hc _]%andb_prop Hb. rewrite Hb in Hc. done.
  - intros [_ Hc]%andb_prop Hb. rewrite last_of_cons. by apply IH.
Qed.

Section Replacing.
Context (r : regex) (repl : gostring) (shape : gostring → Prop) (p q : byte → bool).
Context (Hr : word_match r) (Hshape : token_shape shape p q).
Context (Hhead : ∃ b, head repl = Some b ∧ q b = false ∧ p b = false).
Context (Hlast : ∃ c, last repl = Some c ∧ is_word c = false).
Context (Hclear : clear_from p None repl = true).
(** What is known of the text that is left. *)
Context (good : option byte → gostring → Prop).
Context (good_tail : ∀ prev b s, good prev (b :: s) → good (Some b) s).
Context (good_match : ∀ prev s, good prev s → token_at shape prev s → matches r prev s ≠ []).

Lemma match_shorter prev s x : x ∈ matches r prev s → (length x.2 < length s)%nat.
Proof.
  intros (tok & b & c & -> & _ & Hh & _)%Hr. rewrite length_app. destruct tok; [done|]. simpl. lia.
Qed.

Lemma good_app prev s1 s2 : good prev (s1 ++ s2) → good (last_of prev s1) s2.
Proof.
  revert prev. induction s1 as [|b s1 IH]; intros prev; [done|]. simpl. intros Hg%good_tail.
  rewrite last_of_cons. by apply IH.
Qed.

(** A token in the result was copied. *)
Lemma replace_copy fuel prev s tok post :
  (length s < fuel)%nat → Forall (λ b, q b = true) tok → replace_from fuel r repl prev s = tok ++ post →
  ∃ fuel' s2, s = tok ++ s2 ∧ post = replace_from fuel' r repl (last_of prev tok) s2 ∧
    (length s2 < fuel')%nat.
Proof.
  revert prev s tok. induction fuel as [|fuel IH]; intros prev s tok Hf Hq; [lia|].
  destruct tok as [|c tok].
  { intros E. exists (S fuel), s. split; [done|]. split; [symmetry; exact E|done]. }
  intros E. simpl in E. inversion Hq as [|? ? Hqc Hqt]; subst.
  destruct (matches r prev s) as [|[prev' s'] ms].
  - destruct s as [|b s]; [done|]. injection E as -> E. simpl in Hf.
    destruct (IH (Some c) s tok) as (f & s2 & -> & -> & Hl); [lia|done|done|].
    exists f, s2. by rewrite last_of_cons.
  - destruct Hhead as (b & Hb & Hqb & _). destruct repl as [|b' rp]; [done|].
    injection Hb as ->. injection E as -> _. congruence.
Qed.

(** A copied token is followed in the source as it is in the result. *)
Lemma replace_follow fuel prev s c :
  prev = Some c → is_word c = true → (length s < fuel)%nat →
  wordy (head (replace_from fuel r repl prev s)) = false → wordy (head s) = false.
Proof.
  intros -> Hc Hf. destruct fuel as [|fuel]; [lia|]. simpl.
  destruct (matches r (Some c) s) as [|x ms] eqn:E.
  - by destruct s.
  - destruct (Hr (Some c) s x) as (_ & _ & _ & _ & _ & _ & _ & _ & _ & Hw & _); [rewrite E; by left|].
    simpl in Hw. congruence.
Qed.

Lemma replace_clean fuel prev po s :
  (length s < fuel)%nat → good prev s → (po = prev ∨ wordy po = false ∧ wordy (head s) = false) →
  ¬ contains shape po (replace_from fuel r repl prev s).
Proof.
  revert prev po s. induction fuel as [|fuel IH]; intros prev po s Hf Hg Hpo (pre & rest & E & Ht); [lia|].
  pose proof Ht as (tok & rest' & Hrest & Hsh & Hwp & Hwr).
  destruct (ts_head _ _ _ Hshape _ Hsh) as (b & Hb & Hpb). destruct tok as [|b' tok]; [done|].
  injection Hb as ->. pose proof E as E'. simpl in E.
  destruct (matches r prev s) as [|[prev' s'] ms] eqn:EM.
  - destruct pre as [|c pre]; simpl in E'.
    + subst rest. destruct (replace_copy (S fuel) prev s (b :: tok) rest') as (f & s2 & -> & -> & Hl);
        [done|by apply (ts_all _ _ _ Hshape)|simpl; rewrite EM; simpl; exact E|].
      destruct (ts_last _ _ _ Hshape _ Hsh) as (c & Hc & Hwc).
      assert (last_of prev (b :: tok) = Some c) as Hlo by (unfold last_of; by rewrite Hc).
      apply (replace_follow f _ _ c Hlo Hwc Hl) in Hwr.
      destruct Hpo as [->|[_ Hw]].
      * apply (good_match prev _ Hg); [|done]. by exists (b :: tok), s2.
      * simpl in Hw. rewrite (ts_word _ _ _ Hshape b Hpb) in Hw. done.
    + destruct s as [|c' s]; [done|]. injection E as -> E. simpl in Hf.
      apply (IH (Some c) (Some c) s); [lia|by eapply good_tail|by left|].
      exists pre, rest. split; [done|]. by rewrite last_of_cons in Ht.
  - destruct (Hr prev s (prev', s')) as (t & b0 & c & Hs & Hp' & Hh0 & Hl0 & _ & _ & _ & Hw');
      [rewrite EM; by left|]. simpl in Hs, Hp', Hw'.
    assert (∀ k, pre = repl ++ k → replace_from fuel r repl prev' s' = k ++ rest → False) as Hnext.
    { intros k -> Ek. apply (IH prev' (last_of po repl) s').
      - pose proof (match_shorter prev s (prev', s')) as Hm. rewrite EM in Hm. simpl in Hm.
        specialize (Hm ltac:(by left)). lia.
      - rewrite Hs in Hg. apply good_app in Hg. rewrite Hp'. unfold last_of in Hg. by rewrite Hl0 in Hg.
      - right. destruct Hlast as (d & Hd & Hwd). split; [unfold last_of; by rewrite Hd|done].
      - exists k, rest. split; [done|]. by rewrite last_of_app in Ht. }
    apply app_eq_inv in E as [(k & Hk & E)|(k & Hk & E)]; [|by apply (Hnext k)].
    destruct k as [|d k]; simpl in E; subst rest.
    { rewrite app_nil_r in Hk. apply (Hnext []); [by rewrite app_nil_r|done]. }
    injection Hrest as -> _. destruct pre as [|c0 pre].
    + destruct Hhead as (b1 & Hb1 & _ & Hpb1). rewrite Hk in Hb1. injection Hb1 as <-. congruence.
    + pose proof (clear_from_spec p None repl (c0 :: pre) b k Hclear Hk Hpb) as Hw.
      unfold last_of in Hw, Hwp. destruct (last (c0 :: pre)) eqn:El; [congruence|].
      by rewrite last_None in El.
Qed.
End Replacing.

(** Nothing to replace. *)
Lemma replace_none fuel r repl shape prev s :
  (∀ prev s x, x ∈ matches r prev s → token_at shape prev s) →
  ¬ contains shape prev s → replace_from fuel r repl prev s = s.
Proof.
  intros Hr. revert prev s. induction fuel as [|fuel IH]; intros prev s Hn; [done|]. simpl.
  destruct (matches r prev s) as [|[prev' s'] ms] eqn:E.
  - destruct s as [|b s]; [done|]. f_equal. apply IH. intros (pre & rest & -> & Ht). apply Hn.
    exists (b :: pre), rest. split; [done|]. by rewrite last_of_cons.
  - exfalso. apply Hn. exists [], s. split; [done|]. apply (Hr prev s (prev', s')). rewrite E. by left.
Qed.

(** ** The two expressions *)

Section Shapes.
Context (p : byte → bool) (k : nat) (sep : byte) (n : nat).
Context (Hp : ∀ b, p b = true → is_word b = true).

Lemma group_ends g : group p (S k) g →
  (∃ b, head g = Some b ∧ p b = true) ∧ ∃ c, last g = Some c ∧ p c = true.
Proof.
  intros [Hl Hf]. split.
  - destruct g as [|b g]; simpl in Hl; [lia|]. inversion Hf; subst. eauto.
  - destruct (last g) as [c|] eqn:E; [|apply last_None in E; subst; simpl in Hl; lia].
    exists c. split; [done|]. apply last_Some_elem_of in E. by eapply Forall_forall in E; [|exact Hf].
Qed.

Lemma groups_ends m tok : groups p (S k) sep m tok →
  (∃ b, head tok = Some b ∧ p b = true) ∧ ∃ c, last tok = Some c ∧ p c = true.
Proof.
  revert tok. induction m as [|m IH]; intros tok; simpl; [apply group_ends|].
  intros (g & rest & -> & Hg & Hr). destruct (IH rest Hr) as [_ (c & Hc & Hpc)].
  destruct (group_ends g Hg) as [(b & Hb & Hpb) _]. split.
  - exists b. destruct g; [done|]. simpl in *. by rewrite Hb.
  - exists c. by rewrite last_app, last_cons, Hc.
Qed.

Lemma groups_all m tok : groups p (S k) sep m tok → Forall (λ b, p b || is_char sep b = true) tok.
Proof.
  assert (∀ g, group p (S k) g → Forall (λ b, p b || is_char sep b = true) g) as Hgr.
  { intros g [_ Hf]. eapply Forall_impl; [exact Hf|]. intros b Hb. simpl in *. by rewrite Hb. }
  revert tok. induction m as [|m IH]; intros tok; simpl; [apply Hgr|].
  intros (g & rest & -> & Hg & Hr). apply Forall_app. split; [by apply Hgr|].
  constructor; [|by apply IH]. unfold is_char. rewrite bool_decide_eq_true_2 by done. apply orb_true_r.
Qed.

(** The expression matches exactly the tokens that stand alone. *)
Lemma elem_token prev s x :
  x ∈ matches (token_regex p k sep n) prev s ↔
  ∃ tok, s = tok ++ x.2 ∧ groups p (S k) sep n tok ∧ x.1 = last_of prev tok ∧
    wordy prev = false ∧ wordy (head x.2) = false.
Proof.
  unfold token_regex. rewrite elem_Cat. split.
  - intros (y & (-> & Hw)%elem_Bound & (tok & Hs & Ht & Ho & Hw')%elem_groups). cbn [fst snd] in *.
    subst s.
    destruct (groups_ends _ _ Ht) as [(b & Hb & Hpb%Hp) (c & Hc & Hpc%Hp)].
    exists tok. split_and!; [done|done|done| |].
    + destruct tok as [|b' tok]; [done|]. injection Hb as ->. simpl in Hw. rewrite Hpb in Hw.
      by destruct (wordy prev).
    + rewrite Ho in Hw'. unfold last_of in Hw'. rewrite Hc in Hw'. simpl in Hw'. rewrite Hpc in Hw'.
      by destruct (wordy (head x.2)).
  - intros (tok & -> & Ht & Ho & Hw & Hw').
    destruct (groups_ends _ _ Ht) as [(b & Hb & Hpb%Hp) (c & Hc & Hpc%Hp)].
    exists (prev, tok ++ x.2). split.
    + apply elem_Bound. split; [done|]. destruct tok as [|b' tok]; [done|]. injection Hb as ->.
      simpl. by rewrite Hpb, Hw.
    + apply elem_groups. exists tok. split_and!; [done|done|done|].
      rewrite Ho, Hw'. unfold last_of. rewrite Hc. simpl. by rewrite Hpc.
Qed.

Lemma token_word_match : word_match (token_regex p k sep n).
Proof.
  intros prev s x (tok & -> & Ht & Ho & Hw & Hw')%elem_token.
  destruct (groups_ends _ _ Ht) as [(b & Hb & Hpb%Hp) (c & Hc & Hpc%Hp)].
  exists tok, b, c. split_and!; try done. rewrite Ho. unfold last_of. by rewrite Hc.
Qed.

Lemma token_shape_groups : token_shape (groups p (S k) sep n) p (λ b, p b || is_char sep b).
Proof.
  split.
  - intros tok Ht. apply (groups_ends _ _ Ht).
  - intros tok Ht. destruct (groups_ends _ _ Ht) as [_ (c & ? & ?%Hp)]. eauto.
  - apply groups_all.
  - exact Hp.
Qed.

Lemma token_matches prev s : token_at (groups p (S k) sep n) prev s ↔ matches (token_regex p k sep n) prev s ≠ [].
Proof.
  split.
  - intros (tok & rest & -> & Ht & Hw & Hw') E.
    assert ((last_of prev tok, rest) ∈ matches (token_regex p k sep n) prev (tok ++ rest)) as Hin
      by (apply elem_token; eauto 10).
    rewrite E in Hin. by apply elem_of_nil in Hin.
  - destruct (matches (token_regex p k sep n) prev s) as [|x xs] eqn:E; [done|]. intros _.
    assert (x ∈ matches (token_regex p k sep n) prev s) as (tok & -> & Ht & _ & Hw & Hw')%elem_token
      by (rewrite E; by left).
    by exists tok, x.2.
Qed.
End Shapes.

Lemma digit_word b : is_digit b = true → is_word b = true.
Proof. unfold is_digit, is_word. by intros ->. Qed.
Lemma hex_word b : is_hex b = true → is_word b = true.
Proof.
  unfold is_hex, is_word, between. rewrite !orb_true_iff, !bool_decide_eq_true. lia.
Qed.

Section SanitizeFacts.
Implicit Types (s : gostring).

(** One replacement removes its own tokens, and brings none of another shape in. *)
Lemma replace_removes p k sep n repl s :
  (∀ b, p b = true → is_word b = true) →
  (∃ b, head repl = Some b ∧ p b || is_char sep b = false ∧ p b = false) →
  (∃ c, last repl = Some c ∧ is_word c = false) → clear_from p None repl = true →
  ¬ contains (groups p (S k) sep n) None (ReplaceAllString (token_regex p k sep n) s repl).
Proof.
  intros Hp Hh Hl Hc. unfold ReplaceAllString.
  apply (replace_clean _ repl _ p (λ b, p b || is_char sep b) (token_word_match p k sep n Hp)
    (token_shape_groups p k sep n Hp) Hh Hl Hc (λ _ _, True)); [done| |lia|done|by left].
  intros prev s0 _. by apply token_matches.
Qed.

Lemma replace_keeps_clean p k sep n p' k' sep' n' repl s :
  (∀ b, p b = true → is_word b = true) → (∀ b, p' b = true → is_word b = true) →
  (∃ b, head repl = Some b ∧ p' b || is_char sep' b = false ∧ p' b = false) →
  (∃ c, last repl = Some c ∧ is_word c = false) → clear_from p' None repl = true →
  ¬ contains (groups p' (S k') sep' n') None s →
  ¬ contains (groups p' (S k') sep' n') None (ReplaceAllString (token_regex p k sep n) s repl).
Proof.
  intros Hp Hp' Hh Hl Hc Hn. unfold ReplaceAllString.
  apply (replace_clean _ repl _ p' (λ b, p' b || is_char sep' b) (token_word_match p k sep n Hp)
    (token_shape_groups p' k' sep' n' Hp') Hh Hl Hc
    (λ prev s, ¬ contains (groups p' (S k') sep' n') prev s)); [| |lia|done|by left].
  - intros prev b s0 Hn0 (pre & rest & -> & Ht). apply Hn0. exists (b :: pre), rest.
    split; [done|]. by rewrite last_of_cons.
  - intros prev s0 Hn0 Ht. exfalso. apply Hn0. by exists [], s0.
Qed.

Lemma replace_nothing p k sep n repl s :
  (∀ b, p b = true → is_word b = true) → ¬ contains (groups p (S k) sep n) None s →
  ReplaceAllString (token_regex p k sep n) s repl = s.
Proof.
  intros Hp Hn. apply (replace_none _ _ _ (groups p (S k) sep n)); [|done].
  intros prev s0 x (tok & -> & Ht & _ & Hw & Hw')%elem_token; [|done]. by exists tok, x.2.
Qed.
End SanitizeFacts.

(** ** Properties *)

Section LogProperties.
Implicit Types (s : gostring).

(** C18: no full address literal gets through.  Whatever the message, the result
    contains no four dotted groups of one to three digits and no eight groups of
    hexadecimal digits with colons, standing on their own between characters that
    are not letters, digits or underscores; messages without such literals are left
    alone; so sanitising twice is sanitising once. *)
Theorem Sanitize_no_address s :
  ¬ contains ipv4_literal None (Sanitize s) ∧ ¬ contains ipv6_literal None (Sanitize s) ∧
  (¬ contains ipv4_literal None s → ¬ contains ipv6_literal None s → Sanitize s = s) ∧
  Sanitize (Sanitize s) = Sanitize s.
Proof.
  assert (∀ s, ¬ contains ipv4_literal None s → ¬ contains ipv6_literal None s → Sanitize s = s) as Hid.
  { intros s0 H4 H6. unfold Sanitize.
    unfold ipv4Regex. rewrite (replace_nothing is_digit 2 x2e 3 redacted_ip s0 digit_word H4).
    apply (replace_nothing is_hex 3 colon 7 redacted_ipv6 s0 hex_word H6). }
  assert (¬ contains ipv4_literal None (Sanitize s)) as H4.
  { apply (replace_keeps_clean is_hex 3 colon 7 is_digit 2 x2e 3 redacted_ipv6); [exact hex_word
      |exact digit_word|by eexists|by eexists|reflexivity|].
    apply (replace_removes is_digit 2 x2e 3 redacted_ip); [exact digit_word|by eexists|by eexists|reflexivity]. }
  assert (¬ contains ipv6_literal None (Sanitize s)) as H6.
  { apply (replace_removes is_hex 3 colon 7 redacted_ipv6); [exact hex_word|by eexists|by eexists|reflexivity]. }
  split; [exact H4|]. split; [exact H6|]. split; [apply Hid|by apply Hid].
Qed.

(** What gets through: a compressed IPv6 address, and an address inside a word. *)
Lemma Sanitize_leaks :
  Sanitize (bytes_of "from 2001:db8::1") = bytes_of "from 2001:db8::1" ∧
  Sanitize (bytes_of "peer_10.0.0.1") = bytes_of "peer_10.0.0.1".
Proof. split; vm_compute; reflexivity. Qed.

(** A message is written exactly if the level admits it, and sanitised. *)
Lemma log_spec lvl prefix t msg (l : ZeroLogger) :
  output (log lvl prefix t msg l) =
    if decide (level_num lvl ≤ level_num (level l)) then
      write_line (log_line t prefix (Sanitize msg)) (output l)
    else output l.
Proof. unfold log. repeat case_decide; try lia; done. Qed.
End LogProperties.

(** An address inside a message is found. *)
Example Sanitize_no_address_witness :
  contains ipv4_literal None (bytes_of "from 10.0.0.1") ∧
  Sanitize (Sanitize (bytes_of "from 10.0.0.1")) = Sanitize (bytes_of "from 10.0.0.1") ∧
  Sanitize (bytes_of "from here") = bytes_of "from here".
Proof.
  split; [|split].
  - exists (bytes_of "from "), (bytes_of "10.0.0.1"). split; [reflexivity|].
    apply (token_matches is_digit 2 x2e 3 digit_word). vm_compute. discriminate.
  - apply (Sanitize_no_address (bytes_of "from 10.0.0.1")).
  - vm_compute. reflexivity.
Defined.
