(* ===== verification/Ui.v ===== *)
(** * The web console (cmd/ant-ui/main.go)

    The request handlers, as functions of the request and of the daemon behind the
    control channel, and the search for the daemon's executable.  The page itself is
    an embedded file; the HTTP server, the browser and the signals are not modelled. *)

From Stdlib Require Import QArith.
From S2P Require Import Prelude Buffer Cipher Encoding Keys Noise Session Address System Transport Tun.
From S2P Require Import Router KillSwitch Server Client Ipc Daemon.
Local Open Scope Z_scope.

(** ** Answers *)

(** The values of the JSON objects the handlers build. *)
Inductive jval :=
  | JBool (b : bool)
  | JStr (s : gostring)
  | JStatus (s : option StatusResponse).

Inductive payload :=
  | PMap (fields : list (string * jval))
  | PResponse (r : Response)
  | PText (s : string).

Record Http := mkHttp {
  code : Z;
  body : payload
}.
Definition StatusOK : Z := 200.
Definition StatusBadRequest : Z := 400.
Definition StatusMethodNotAllowed : Z := 405.
Definition StatusInternalServerError : Z := 500.

Definition jsonResponse (c : Z) (p : payload) : Http := mkHttp c p.
Definition error_map (msg : gostring) : payload := PMap [("error"%string, JStr msg)].
Definition not_allowed : Http := mkHttp StatusMethodNotAllowed (PText "Method not allowed").

(** ** The daemon behind the control channel *)

Section Port.
Context `{J : Json} {S : Type} `{!Handler S}.

(** [Some s] is a daemon that listens, in state [s]. *)
Definition getClient (w : option S) : option error :=
  match w with Some _ => None | None => Some (ErrNew "failed to connect to AnonymousAnt daemon") end.

(** One request on a connection of its own: what the daemon's loop makes of it, and
    what the client reads back.  [None] is a request that is never answered; a
    crash leaves no daemon behind. *)
Definition ipc_call (req : Request) (w : option S) : option (option S * result Response) :=
  match w with
  | None => Some (None, Err (ErrNew "failed to encode request"))
  | Some s =>
      match handleClient (λ _, true) (encode_req req) s with
      | Closed s out => Some (Some s, (Send_request req None out).1.1)
      | Hangs _ _ _ => None
      | Crashed _ out => Some (None, (Send_request req None out).1.1)
      end
  end.
End Port.

(** [err.Error()] of the errors of the control channel. *)
Class UiErrorText := ui_error_text : error → gostring.

Section Handlers.
Context `{J : Json, Te : UiErrorText} {S : Type} `{!Handler S}.
Implicit Types (w : option S).

Definition handleStatus w : option (option S * Http) :=
  match getClient w with
  | Some _ =>
      Some (w, jsonResponse StatusOK (PMap
        [("daemon_running"%string, JBool false); ("connected"%string, JBool false);
         ("error"%string, JStr (bytes_of "Daemon is not running. Start 'ant-daemon' first."))]))
  | None =>
      '(w, r) ← ipc_call GetStatus_request w;
      Some (w, match GetStatus_result r with
               | Err e => jsonResponse StatusOK (PMap
                   [("daemon_running"%string, JBool true); ("connected"%string, JBool false);
                    ("error"%string, JStr (ui_error_text e))])
               | Ok st => jsonResponse StatusOK (PMap
                   [("daemon_running"%string, JBool true); ("status"%string, JStatus st)])
               end)
  end.

(** A request to the daemon, after the checks of its own. *)
Definition forward (req : Request) w : option (option S * Http) :=
  match getClient w with
  | Some _ => Some (w, jsonResponse StatusInternalServerError (error_map (bytes_of "daemon unavailable")))
  | None =>
      '(w, r) ← ipc_call req w;
      Some (w, match r with
               | Err e => jsonResponse StatusInternalServerError (error_map (ui_error_text e))
               | Ok resp => jsonResponse StatusOK (PResponse resp)
               end)
  end.

(** [params] is the decoded body, [None] if it is not valid JSON. *)
Definition ui_handleConnect (post : bool) (params : option ConnectParams) w : option (option S * Http) :=
  if negb post then Some (w, not_allowed)
  else
    match params with
    | None => Some (w, jsonResponse StatusBadRequest (error_map (bytes_of "invalid json")))
    | Some params => forward (Connect_request params) w
    end.

Definition ui_handleDisconnect (post : bool) w : option (option S * Http) :=
  if negb post then Some (w, not_allowed) else forward Disconnect_request w.

(** One event of [handleEvents]; an error of the status request gives null. *)
Definition event w : option (option S * payload) :=
  match getClient w with
  | Some _ => Some (w, PMap [("daemon_running"%string, JBool false); ("connected"%string, JBool false)])
  | None =>
      '(w, r) ← ipc_call GetStatus_request w;
      let status := match GetStatus_result r with Ok st => st | Err _ => None end in
      Some (w, PMap [("daemon_running"%string, JBool true); ("status"%string, JStatus status)])
  end.

(** One event at every tick until the browser goes away; [between k] is what happens
    to the daemon before the [k]-th tick. *)
Fixpoint event_stream (ticks k : nat) (between : nat → option S → option S) w
    : option (option S * list payload) :=
  match ticks with
  | O => Some (w, [])
  | Datatypes.S ticks =>
      '(w, p) ← event (between k w);
      '(w, ps) ← event_stream ticks (Datatypes.S k) between w;
      Some (w, p :: ps)
  end.
Definition handleEvents (flusher : bool) (ticks : nat) (between : nat → option S → option S) w
    : option (option S * (Http + list payload)) :=
  if negb flusher then Some (w, inl (mkHttp StatusInternalServerError (PText "Streaming unsupported")))
  else '(w, ps) ← event_stream ticks 0 between w; Some (w, inr ps).
End Handlers.

(** ** Starting the daemon *)

(** What the handler finds on the machine.  [exe_dir] is the directory of the
    console's executable, [is_file] says that a path names a file that is no
    directory, [look_path] and [abs_path] are the functions of exec and filepath. *)
Record Machine := mkMachine {
  ma_os : goos;
  exe_dir : option gostring;
  is_file : gostring → bool;
  look_path : gostring → option gostring;
  abs_path : gostring → option gostring
}.

(** [filepath.Join] of a clean directory and a name. *)
Definition join_path (os : goos) (dir name : gostring) : gostring :=
  let sep := if decide (os = Windows) then bytes_of "\" else bytes_of "/" in
  if HasSuffix dir sep then dir ++ name else dir ++ sep ++ name.

Definition beside (m : Machine) : option gostring :=
  match exe_dir m with
  | None => None
  | Some dir =>
      let candidate := join_path (ma_os m) dir (bytes_of "ant-daemon") in
      let candidate := if decide (ma_os m = Windows) then candidate ++ bytes_of ".exe" else candidate in
      if is_file m candidate then Some candidate else None
  end.
Definition installed (m : Machine) : option gostring :=
  let candidate := bytes_of "/usr/local/bin/ant-daemon" in
  if decide (ma_os m ≠ Windows) then if is_file m candidate then Some candidate else None else None.
Definition absolute (m : Machine) (path : gostring) : gostring := default path (abs_path m path).
Definition try_candidate (m : Machine) (c : gostring) : option gostring :=
  match look_path m c with
  | Some path => Some (absolute m path)
  | None => if is_file m c then Some (absolute m c) else None
  end.
Definition candidates : list gostring :=
  map bytes_of ["bin/ant-daemon"; "bin/windows/ant-daemon.exe"; "ant-daemon"]%string.

(** The empty string is "not found". *)
Definition findDaemonBinary (m : Machine) : gostring :=
  match beside m with
  | Some p => p
  | None =>
      match installed m with
      | Some p => p
      | None => default [] (head (omap (try_candidate m) candidates))
      end
  end.

(** [quote] is the verb %q. *)
Definition elevate (quote : gostring → gostring) (m : Machine) (daemonPath : gostring)
    : option (list gostring) :=
  match ma_os m with
  | Darwin => Some (words ["osascript"; "-e"] ++
      [bytes_of "do shell script " ++ quote daemonPath ++ bytes_of " with administrator privileges"])
  | Windows => Some (words ["powershell"; "-NoProfile"; "-Command"] ++
      [bytes_of "Start-Process -FilePath '" ++ daemonPath ++ bytes_of "' -Verb RunAs"])
  | Linux =>
      match look_path m (bytes_of "pkexec") with
      | Some _ => Some [bytes_of "pkexec"; daemonPath]
      | None => Some [bytes_of "sudo"; daemonPath]
      end
  | OtherOS _ => None
  end.

(** The wait for the daemon: [clock k] is the time, in milliseconds from the start,
    at the [k]-th check, [online k] whether the [k]-th dial succeeds.  The result is
    [None] when the fuel runs out. *)
Fixpoint poll (fuel k : nat) (clock : nat → Z) (online : nat → bool) : option bool :=
  match fuel with
  | O => None
  | S fuel =>
      if decide (clock k < 6000) then
        if online k then Some true else poll fuel (S k) clock online
      else Some false
  end.

Definition result_map (ok : bool) (key : string) (msg : gostring) : payload :=
  PMap [("success"%string, JBool ok); (key, JStr msg)].

Definition handleStartDaemon (fuel : nat) (quote : gostring → gostring) (m : Machine)
    (error_text : error → gostring) (post running : bool) (start_err : option error)
    (clock : nat → Z) (online : nat → bool) : option (Http * option (list gostring)) :=
  if negb post then Some (not_allowed, None)
  else if running then
    Some (jsonResponse StatusOK (result_map true "message" (bytes_of "Daemon is already running")), None)
  else
    let daemonPath := findDaemonBinary m in
    if decide (daemonPath = []) then
      Some (jsonResponse StatusInternalServerError
              (result_map false "error" (bytes_of "Could not locate ant-daemon executable on disk")), None)
    else
      match elevate quote m daemonPath with
      | None => Some (jsonResponse StatusInternalServerError
          (result_map false "error" (bytes_of "Unsupported platform for automated privilege escalation")),
          None)
      | Some cmd =>
          match start_err with
          | Some e => Some (jsonResponse StatusInternalServerError
              (result_map false "error" (bytes_of "Failed to launch elevation process: " ++ error_text e)),
              Some cmd)
          | None =>
              up ← poll fuel 0 clock online;
              Some (if (up : bool) then
                      jsonResponse StatusOK
                        (result_map true "message" (bytes_of "Daemon launched successfully"))
                    else
                      jsonResponse StatusOK (result_map false "error" (bytes_of
                        "Elevation prompt was cancelled or daemon failed to bind IPC socket within 6s")),
                    Some cmd)
          end
      end.

Definition openBrowser (os : goos) (url : gostring) : option (list gostring) :=
  match os with
  | Darwin => Some [bytes_of "open"; url]
  | Windows => Some [bytes_of "cmd"; bytes_of "/c"; bytes_of "start"; url]
  | Linux => Some [bytes_of "xdg-open"; url]
  | OtherOS _ => None
  end.

(** ** Facts *)

Section UiFacts.
Context `{J : Json, !JsonLaws J, Te : UiErrorText} {S : Type} `{!Handler S}.

Lemma answers_one req (s : S) resp s' :
  json_req req = true → Handle req s = Some (Ret (resp, s')) → answers [req] s [resp] s'.
Proof. intros Hr Hh. eapply answers_cons; [done|done|constructor]. Qed.

(** A request that the handler answers is answered to the client. *)
Lemma ipc_call_ok req (s : S) resp s' :
  json_req req = true → json_resp resp = true → Handle req s = Some (Ret (resp, s')) →
  ipc_call req (Some s) = Some (Some s', Ok resp).
Proof.
  intros Hr Hj Hh. unfold ipc_call, handleClient.
  pose proof (handle_client_answers (Datatypes.S (length (encode_req req))) (λ _, true) [req] s [resp] s' [])
    as Hrun. replace (concat (map encode_req [req])) with (encode_req req) in Hrun by (simpl; by rewrite app_nil_r).
  rewrite Hrun; [|done| |by apply answers_one].
  - unfold Send_request. pose proof (decode_encode_resp resp [] Hj) as Hd.
    change ([] ++ concat (map encode_resp [resp])) with (encode_resp resp ++ []). by rewrite Hd.
  - pose proof (encode_req_nonempty req Hr). destruct (encode_req req); [done|]. simpl. lia.
Qed.

(** One that it does not answer hangs the client. *)
Lemma ipc_call_hangs req (s : S) :
  json_req req = true → Handle req s = None → ipc_call req (Some s) = None.
Proof.
  intros Hr Hh. unfold ipc_call, handleClient. pose proof (decode_encode_req req [] Hr) as Hd.
  rewrite app_nil_r in Hd. simpl. by rewrite Hd, Hh.
Qed.

(** The body of a status answer. *)
Definition running_map (st : option StatusResponse) : list (string * jval) :=
  [("daemon_running"%string, JBool true); ("status"%string, JStatus st)].

(** The stream, when every event shows what it should. *)
Lemma event_stream_of (P : S → StatusResponse → Prop) (f : nat → S) n k w :
  (∀ k, ∃ st, event (Some (f k)) = Some (Some (f k), PMap (running_map (Some st))) ∧ P (f k) st) →
  ∃ w' ps, event_stream n k (λ k _, Some (f k)) w = Some (w', ps) ∧ length ps = n ∧
    ∀ i, (i < n)%nat → ∃ st, ps !! i = Some (PMap (running_map (Some st))) ∧ P (f (k + i)%nat) st.
Proof.
  intros Hf. revert k w. induction n as [|n IH]; intros k w.
  { exists w, []. split; [done|]. split; [done|]. intros i Hi. lia. }
  destruct (Hf k) as (st & He & HP). destruct (IH (Datatypes.S k) (Some (f k))) as (w' & ps & HE & Hl & Hi).
  exists w', (PMap (running_map (Some st)) :: ps). cbn [event_stream]. rewrite He. simpl. rewrite HE.
  split; [done|]. split; [simpl; by rewrite Hl|]. intros [|i] Hlt.
  - exists st. by rewrite Nat.add_0_r.
  - destruct (Hi i ltac:(lia)) as (st' & H1 & H2). exists st'. split; [exact H1|].
    by rewrite Nat.add_succ_r.
Qed.
Lemma events_of (P : S → StatusResponse → Prop) (f : nat → S) n w :
  (∀ k, ∃ st, event (Some (f k)) = Some (Some (f k), PMap (running_map (Some st))) ∧ P (f k) st) →
  ∃ w' ps, handleEvents true n (λ k _, Some (f k)) w = Some (w', inr ps) ∧ length ps = n ∧
    ∀ k, (k < n)%nat → ∃ st, ps !! k = Some (PMap (running_map (Some st))) ∧ P (f k) st.
Proof.
  intros Hf. destruct (event_stream_of P f n 0 w Hf) as (w' & ps & HE & Hl & Hi).
  exists w', ps. unfold handleEvents. cbn [negb]. by rewrite HE.
Qed.

Lemma poll_ends fuel k clock online :
  (∀ j, 300 * Z.of_nat j ≤ clock j) → (k ≤ 20)%nat → (20 - k < fuel)%nat →
  ∃ b, poll fuel k clock online = Some b ∧ ∀ fuel', (fuel ≤ fuel')%nat → poll fuel' k clock online = Some b.
Proof.
  intros Hc. revert k. induction fuel as [|fuel IH]; intros k Hk Hf; [lia|]. simpl.
  case_decide as Hd.
  - destruct (online k) eqn:Ho.
    + exists true. split; [done|]. intros [|f] ?; [lia|]. simpl. by rewrite decide_True, Ho.
    + pose proof (Hc k). destruct (IH (Datatypes.S k)) as (b & E & Hmore); [lia|lia|].
      exists b. split; [done|]. intros [|f] ?; [lia|]. simpl. rewrite decide_True, Ho by done.
      apply Hmore. lia.
  - exists false. split; [done|]. intros [|f] ?; [lia|]. simpl. by rewrite decide_False.
Qed.

Lemma find_candidate m :
  findDaemonBinary m ≠ [] → beside m = Some (findDaemonBinary m) ∨ installed m = Some (findDaemonBinary m) ∨
    ∃ c, c ∈ candidates ∧ try_candidate m c = Some (findDaemonBinary m).
Proof.
  unfold findDaemonBinary. destruct (beside m); [by left|]. destruct (installed m); [by right; left|].
  destruct (omap _ _) as [|p ps] eqn:E; [done|]. intros _. right. right.
  assert (p ∈ omap (try_candidate m) candidates) as (c & ? & ?)%list_elem_of_omap by (rewrite E; by left).
  by exists c.
Qed.
End UiFacts.

(** ** Properties *)

Section ConsoleProperties.
Context `{J : Json, !JsonLaws J, Te : UiErrorText} {S : Type} `{!Handler S}.

(** The console passes requests on faithfully.  Connecting and disconnecting
    must be POST requests, or nothing happens; a body that is not JSON is refused;
    without a daemon every request is answered and says so; with one, the daemon
    handles exactly the request made and the browser gets exactly its response, and
    if the daemon does not answer, neither does the console. *)
Theorem console_forwards (s : S) (w : option S) params :
  ui_handleConnect false (Some params) w = Some (w, not_allowed) ∧
  ui_handleDisconnect false w = Some (w, not_allowed) ∧
  (∃ h, ui_handleConnect true None w = Some (w, h) ∧ code h = 400) ∧
  (∃ h1 h2 fields, ui_handleConnect true (Some params) (None : option S) = Some (None, h1) ∧ code h1 = 500 ∧
     ui_handleDisconnect true (None : option S) = Some (None, h2) ∧ code h2 = 500 ∧
     handleStatus (None : option S) = Some (None, mkHttp 200 (PMap fields)) ∧
     ("daemon_running"%string, JBool false) ∈ fields) ∧
  (∀ resp s', json_req (Connect_request params) = true → json_resp resp = true →
     Handle (Connect_request params) s = Some (Ret (resp, s')) →
     ui_handleConnect true (Some params) (Some s) = Some (Some s', mkHttp 200 (PResponse resp))) ∧
  (∀ resp s', json_resp resp = true → Handle Disconnect_request s = Some (Ret (resp, s')) →
     ui_handleDisconnect true (Some s) = Some (Some s', mkHttp 200 (PResponse resp))) ∧
  (json_req (Connect_request params) = true → Handle (Connect_request params) s = None →
     ui_handleConnect true (Some params) (Some s) = None).
Proof.
  split_and!.
  - done.
  - done.
  - by eexists.
  - eexists _, _, _. split_and!; try done. by left.
  - intros resp s' Hr Hj Hh. unfold ui_handleConnect, forward. simpl getClient. cbn [negb].
    by rewrite (ipc_call_ok _ _ _ _ Hr Hj Hh).
  - intros resp s' Hj Hh. unfold ui_handleDisconnect, forward. cbn [negb getClient].
    by rewrite (ipc_call_ok Disconnect_request _ _ _ eq_refl Hj Hh).
  - intros Hr Hh. unfold ui_handleConnect, forward. cbn [negb getClient].
    by rewrite (ipc_call_hangs _ _ Hr Hh).
Qed.

(** Starting the daemon ends.  Since every check comes 300 milliseconds or more
    after the one before, 21 checks are enough for the wait of six seconds: the
    request is answered, and with any more fuel in the same way; it says success
    only if a daemon was running or one answered within the time; and a command is
    only started for an executable that was found. *)
Theorem handleStartDaemon_ends quote m text post running err clock online :
  (∀ j, 300 * Z.of_nat j ≤ clock j) →
  ∃ h cmd, handleStartDaemon 21 quote m text post running err clock online = Some (h, cmd) ∧
    (∀ fuel, (21 ≤ fuel)%nat →
       handleStartDaemon fuel quote m text post running err clock online = Some (h, cmd)) ∧
    (∀ c, cmd = Some c → running = false ∧ findDaemonBinary m ≠ [] ∧
       (beside m = Some (findDaemonBinary m) ∨ installed m = Some (findDaemonBinary m) ∨
        ∃ c, c ∈ candidates ∧ try_candidate m c = Some (findDaemonBinary m))).
Proof.
  intros Hc. destruct (poll_ends 21 0 clock online Hc) as (b & Hb & Hmore); [lia|lia|].
  unfold handleStartDaemon. destruct post; [|by eexists _, _]. simpl negb. cbv iota.
  destruct running; [by eexists _, _|]. case_decide as Hf; [by eexists _, _|].
  destruct (elevate quote m _) as [c|]; [|by eexists _, _]. pose proof (find_candidate m Hf).
  destruct err as [e|]; [eexists _, _; split; [reflexivity|split; [done|naive_solver]]|].
  rewrite Hb. eexists _, _. split; [reflexivity|]. split; [|naive_solver].
  intros fuel Hfu. by rewrite Hmore.
Qed.
End ConsoleProperties.

Section ConsoleDaemon.
Context `{L : AeadLib, !AeadLaws L, H : HashLib, !HashLaws H, C : Curve25519, !CurveLaws C}.
Context `{N : Net, !NetLaws N, Dl : Dialer, Te : ErrorText, J : Json, !JsonLaws J, Ut : UiErrorText}.
Context {D Rt Sys : Type} `{!Device D, !TunDevice D Sys, !TunLaws D Sys, !Shell Sys, !Router Rt Sys}.
Implicit Types (d : Daemon D Rt Sys) (n : Node D Rt Sys).

(** What the console shows of a daemon at the time [now]. *)
Definition shows (now : Z) n (st : StatusResponse) : Prop := status_of now (abs (nd n)) st.

(** A daemon that can answer a status request: nobody holds the mutex, and the numbers
    and strings of the answer survive JSON. *)
Definition responsive (e : HandleEnv) n : Prop :=
  nd_lock n = None ∧ json_resp (handleGetStatus (he_alloc e) (he_now e) (nd n)) = true.

Lemma status_call (e : HandleEnv) n :
  let handler : Handler (Node D Rt Sys) := daemon_Handle e in
  responsive e n →
  ∃ st, shows (he_now e) n st ∧
    ipc_call GetStatus_request (Some n) = Some (Some n, Ok (mkResponse true [] (Some st))).
Proof.
  intros handler [Hl Hj]. destruct (status_spec (he_alloc e) (he_now e) (nd n)) as (st & E & Hs).
  exists st. split; [done|]. rewrite E in Hj.
  apply (ipc_call_ok GetStatus_request n (mkResponse true [] (Some st)) n eq_refl Hj).
  unfold Handle, handler, daemon_Handle, with_lock. simpl. by rewrite Hl, <- E.
Qed.

(** C19: the console drives the daemon and shows its state.  For a daemon in any
    state it reaches in which no request holds the mutex, the status page shows the
    state, mode, address and uptime the tunnel has; a disconnect from the console
    succeeds and takes the tunnel down, after which the page shows it down; and every
    event of the stream shows the state the daemon has at that moment, whatever
    happens to it in between.  While a connect request holds the mutex, the page, the
    stream and a disconnect get no answer. *)
Theorem console_daemon (e : HandleEnv) n :
  let handler : Handler (Node D Rt Sys) := daemon_Handle e in
  (connected (nd n) = true → stopCh (nd n) = Some false) →
  (responsive e n →
   (∃ st, handleStatus (Some n) = Some (Some n, mkHttp 200 (PMap (running_map (Some st)))) ∧
     shows (he_now e) n st) ∧
   ∃ n', ui_handleDisconnect true (Some n) = Some (Some n', mkHttp 200 (PResponse ok_response)) ∧
     abs (nd n') = Down ∧
     (responsive e n' →
      ∃ st, handleStatus (Some n') = Some (Some n', mkHttp 200 (PMap (running_map (Some st)))) ∧
       status_of (he_now e) Down st)) ∧
  (∀ (ns : nat → Node D Rt Sys) k, (∀ i, responsive e (ns i)) →
     ∃ w ps, handleEvents true k (λ i _, Some (ns i)) (Some n) = Some (w, inr ps) ∧ length ps = k ∧
       ∀ i, (i < k)%nat → ∃ st, ps !! i = Some (PMap (running_map (Some st))) ∧ shows (he_now e) (ns i) st) ∧
  (nd_lock n ≠ None →
     handleStatus (Some n) = None ∧ ui_handleDisconnect true (Some n) = None ∧
     ∀ k, handleEvents true (S k) (λ _ w, w) (Some n) = None).
Proof.
  intros handler Hst.
  assert (∀ n0, responsive e n0 →
    ∃ st, handleStatus (Some n0) = Some (Some n0, mkHttp 200 (PMap (running_map (Some st)))) ∧
    shows (he_now e) n0 st) as Hstatus.
  { intros n0 (st & Hs & HC)%status_call. exists st. split; [|done].
    unfold handleStatus, handler. cbn [getClient]. by rewrite HC. }
  split; [|split].
  - intros Hr. split; [by apply Hstatus|].
    destruct (handleDisconnect_spec (he_os e) (nd n) Hst) as (d' & E & Hc & _).
    exists (mkNode d' None (nd_loops n)).
    assert (abs d' = Down) as Hd by (unfold abs; by rewrite Hc). split; [|split; [done|]].
    + unfold ui_handleDisconnect, forward. cbn [negb getClient].
      rewrite (ipc_call_ok Disconnect_request n ok_response (mkNode d' None (nd_loops n)) eq_refl eq_refl); [done|].
      unfold Handle, handler, daemon_Handle, with_lock. simpl. destruct Hr as [-> _]. by rewrite E.
    + intros Hr'. rewrite <- Hd. by apply Hstatus.
  - intros ns k Hns. apply (events_of (λ n0 st, shows (he_now e) n0 st)). intros i.
    destruct (status_call e (ns i) (Hns i)) as (st & Hs & HC).
    exists st. split; [|done]. unfold event, handler. cbn [getClient]. by rewrite HC.
  - intros Hl. destruct (nd_lock n) as [lk|] eqn:El; [|done].
    assert (ipc_call GetStatus_request (Some n) = None) as Hg.
    { apply ipc_call_hangs; [done|]. unfold Handle, handler, daemon_Handle, with_lock. simpl. by rewrite El. }
    split_and!.
    + unfold handleStatus. cbn [getClient]. by rewrite Hg.
    + unfold ui_handleDisconnect, forward. cbn [negb getClient].
      rewrite ipc_call_hangs; [done|done|].
      unfold Handle, handler, daemon_Handle, with_lock. simpl. by rewrite El.
    + intros k. unfold handleEvents. cbn [negb event_stream]. unfold event. cbn [getClient]. by rewrite Hg.
Qed.
End ConsoleDaemon.

(** ** Concrete instances *)

Definition demo_ui_text : UiErrorText := λ _, bytes_of "error".

(** A handler that answers status and connect requests and never the others. *)
Definition demo_answers : Handler nat := λ req n,
  if decide (Action req = ActionDisconnect) then None else Some (Ret (ok_response, S n)).

Example console_forwards_witness :
  ui_handleConnect (J := toy_json) (Te := demo_ui_text) (Handler0 := demo_answers) true (Some no_params)
    (Some 3%nat) = Some (Some 4%nat, mkHttp 200 (PResponse ok_response)).
Proof.
  destruct (console_forwards (J := toy_json) (Te := demo_ui_text) (Handler0 := demo_answers) 3%nat None
    no_params) as (_ & _ & _ & _ & H & _).
  apply (H ok_response 4%nat); reflexivity.
Defined.

(** A Linux machine with the daemon in /usr/local/bin, and a check every 300 ms. *)
Definition demo_machine : Machine :=
  mkMachine Linux (Some (bytes_of "/opt/ant")) (λ p, bool_decide (p = bytes_of "/usr/local/bin/ant-daemon"))
    (λ p, if decide (p = bytes_of "pkexec") then Some (bytes_of "/usr/bin/pkexec") else None) (λ p, Some p).

Example handleStartDaemon_ends_witness :
  (∀ j, 300 * Z.of_nat j ≤ 300 * Z.of_nat j) ∧
  handleStartDaemon 21 id demo_machine (λ _, []) true false None (λ j, 300 * Z.of_nat j) (Nat.eqb 7) =
    Some (jsonResponse StatusOK (result_map true "message" (bytes_of "Daemon launched successfully")),
          Some [bytes_of "pkexec"; bytes_of "/usr/local/bin/ant-daemon"]) ∧
  ∃ h cmd, handleStartDaemon 40 id demo_machine (λ _, []) true false None (λ j, 300 * Z.of_nat j)
    (λ _, false) = Some (h, cmd).
Proof.
  split; [intros j; lia|]. split; [vm_compute; reflexivity|].
  destruct (handleStartDaemon_ends id demo_machine (λ _, []) true false None (λ j, 300 * Z.of_nat j)
    (λ _, false)) as (h & cmd & _ & H & _); [intros j; lia|].
  exists h, cmd. apply H. lia.
Defined.

Section ConsoleDemo.
#[local] Existing Instance toy_aead.
#[local] Existing Instance toy_hash.
#[local] Existing Instance toy_curve.
#[local] Existing Instance toy_net.
#[local] Existing Instance toy_kernel.
#[local] Existing Instance toy_dialer.
#[local] Existing Instance toy_resolver.
#[local] Existing Instance toy_tun_calls.
#[local] Existing Instance toy_error_text.
#[local] Existing Instance toy_json.
#[local] Existing Instance demo_ui_text.
Definition demo_handle_env : HandleEnv := mkHandleEnv demo_ce Linux false None id (7 * 10 ^ 9) 2097152.

Definition demo_up_node : Node LinuxTUN LinuxRouter ToySys := mkNode demo_up None [].

Example console_daemon_witness :
  json_resp (handleGetStatus 2097152 (7 * 10 ^ 9) demo_up) = true ∧
  ∃ n', ui_handleDisconnect (Handler0 := daemon_Handle demo_handle_env) true (Some demo_up_node) =
      Some (Some n', mkHttp 200 (PResponse ok_response)) ∧ abs (nd n') = Down.
Proof.
  split; [vm_compute; reflexivity|].
  destruct (console_daemon demo_handle_env demo_up_node) as (Hr & _ & _); [reflexivity|].
  destruct Hr as (_ & n' & H1 & H2 & _); [split; [reflexivity|vm_compute; reflexivity]|].
  exists n'. split; [exact H1|exact H2].
Defined.
End ConsoleDemo.
