(* ===== verification/Launch.v ===== *)
(** * Start and stop of the server and the daemon, and the client's settings
    (cmd/antserver/main.go, cmd/antclient/main.go, cmd/ant-daemon/main.go,
    pkg/transport/tls.go, pkg/transport/websocket.go)

    What the mains do around the loops: the keys and the connection string, the TUN
    device with the NAT rules of an exit node, the transports, and the deferred calls
    at the end; on the client's side the settings from flags and connection string.
    The flag parser, signals and log output are not modelled. *)

From S2P Require Import Prelude Buffer Cipher Encoding Keys Noise Session Address Transport System Tun.
From S2P Require Import Router KillSwitch Platform Server Client Ipc Daemon.
Local Open Scope Z_scope.

(** ** The exit node *)

(** The two chains the server adds rules to. *)
Inductive hook := Postrouting | Forwarding.
#[global] Instance hook_eq_dec : EqDecision hook.
Proof. solve_decision. Defined.

Definition hook_cmd (h : hook) (op : string) (r : rule) : list gostring :=
  match h with
  | Postrouting => words ["iptables"; "-t"; "nat"; op; "POSTROUTING"] ++ r
  | Forwarding => words ["iptables"; op; "FORWARD"] ++ r
  end.

Definition masquerade (virtualSubnet wan : gostring) : rule :=
  words ["-s"] ++ [virtualSubnet ++ bytes_of "/24"] ++ words ["-o"] ++ [wan] ++ words ["-j"; "MASQUERADE"].
Definition forward_from (tunName : gostring) : rule := words ["-i"] ++ [tunName] ++ words ["-j"; "ACCEPT"].
Definition forward_replies : rule :=
  words ["-m"; "state"; "--state"; "RELATED,ESTABLISHED"; "-j"; "ACCEPT"].
Definition ask_wan : list gostring := words ["sh"; "-c"; "ip route show default | awk '{print $5}'"].
Definition sysctl (setting : string) : list gostring := words ["sysctl"; "-w"; setting].

Section Nat.
Context {Sys : Type} `{!Shell Sys}.

(** The rules, each with its chain, in the order they are added and deleted. *)
Definition nat_rules (tunName virtualSubnet wan : gostring) : list (hook * rule) :=
  [(Postrouting, masquerade virtualSubnet wan); (Forwarding, forward_from tunName);
   (Forwarding, forward_replies)].
Definition run_rules (op : string) (rs : list (hook * rule)) (s : Sys) : Sys :=
  foldl (λ s '(h, r), run (hook_cmd h op r) s) s rs.

(** The result is the system and the function that cleans up. *)
Definition setupServerNAT (os : goos) (tunName virtualSubnet : gostring) (s : Sys) : Sys * (Sys → Sys) :=
  if decide (os = Linux) then
    let s := run (sysctl "net.ipv4.ip_forward=1") s in
    let '(s, (out, err)) := exec ask_wan s in
    let wan := TrimSpace out in
    if decide (err = None ∧ wan ≠ []) then
      let rules := nat_rules tunName virtualSubnet wan in
      (run_rules "-A" rules s, run_rules "-D" rules)
    else (s, id)
  else if decide (os = Darwin) then (run (sysctl "net.inet.ip.forwarding=1") s, id)
  else (s, id).
End Nat.

(** ** The server's start *)

(** [net.Listen] with a TLS configuration, and [GenerateSelfSignedCert]. *)
Class Listener := {
  gen_cert : option error;
  tls_listen : gostring → option error
}.

Section ServerStart.
Context `{L : AeadLib, H : HashLib, C : Curve25519, N : Net, Dl : Dialer, Li : Listener}.
Context {D Sys : Type} `{!Device D, !TunDevice D Sys, !Shell Sys}.

(** [cert] says that the caller brings a certificate. *)
Definition server_cert (cert : bool) : option error := if cert then None else gen_cert.
Definition NewTLSServerTransport (listenAddr : gostring) (cert : bool) : result AnyTransport :=
  match server_cert cert with
  | Some e => Err (ErrWrap "failed to generate ephemeral tls cert: %w" e)
  | None =>
      match tls_listen listenAddr with
      | Some e => Err (ErrWrap "failed to start tls listener: %w" e)
      | None => Ok (TrTLS NewTLSServer)
      end
  end.

(** The second component is the path at which the endpoint is served. *)
Definition NewWSServerTransport (listenAddr path : gostring) (cert : bool)
    : result (AnyTransport * gostring) :=
  let path := if decide (path = []) then bytes_of "/ws" else path in
  match server_cert cert with
  | Some e => Err e
  | None =>
      match tls_listen listenAddr with
      | Some e => Err (ErrWrap "failed to listen on tls for ws: %w" e)
      | None => Ok (TrWS (mkWS true None ∅ [] false []), path)
      end
  end.

(** What the server behind it answers at a path: the endpoint at its own path, which
    does not end in a slash, and the benign page elsewhere. *)
Inductive ws_answer := WSEndpoint | WSPage.
Definition ws_mux (path url : gostring) : ws_answer := if decide (url = path) then WSEndpoint else WSPage.

Record ServerFlags := mkServerFlags {
  udpListen : gostring;
  tlsListen : gostring;
  privKeyStr : gostring;
  tunName : gostring;
  virtualIP : gostring;
  peerIP : gostring;
  enableNAT : bool
}.

(** [rnd] feeds the key generator. *)
Definition server_keys (privKeyStr : gostring) (rnd : result (list byte))
    : startup (list byte * list byte) :=
  if decide (privKeyStr ≠ []) then
    match ParsePrivateKey privKeyStr with
    | Err _ => Exit "Invalid private key"
    | Ok k => Started (k, PublicKey k)
    end
  else
    match GenerateKeyPair rnd with
    | Err _ => Exit "Failed to generate server keypair"
    | Ok kp => Started kp
    end.

Definition tls_port (tlsListen : gostring) : gostring :=
  match SplitHostPort tlsListen with
  | Ok (_, p) => p
  | Err _ => TrimPrefix tlsListen (bytes_of ":")
  end.
(** The server prints it with a placeholder for the host. *)
Definition connection_string (serverPub host tlsPort : gostring) : gostring :=
  bytes_of "ant://" ++ Base64 serverPub ++ bytes_of "@" ++ host ++ bytes_of ":" ++ tlsPort ++
  bytes_of "?obfs=tls".
Definition server_host : gostring := bytes_of "<SERVER_HOST>".

Definition opened (r : result AnyTransport) : list AnyTransport :=
  match r with Ok t => [t] | Err _ => [] end.
Definition server_transports (f : ServerFlags) : list AnyTransport :=
  opened (NewUDPTransport (udpListen f)) ++ opened (NewTLSServerTransport (tlsListen f) false).

(** The TUN device, with the NAT rules if they are asked for. *)
Definition server_tun (os : goos) (f : ServerFlags) (s : Sys) : outcome (Sys * option D * (Sys → Sys)) :=
  '(s, t) ← open_tun_device (tunName f) (virtualIP f) (peerIP f) s;
  Ret (match t with
       | Some d =>
           if enableNAT f then
             let '(s, cleanup) := setupServerNAT os (Name d) (virtualIP f) s in (s, t, cleanup)
           else (s, t, id)
       | None => (s, t, id)
       end).

(** What the running server consists of. *)
Record Running := mkRunning {
  rn_cfg : Config;
  rn_server : Server AnyTransport D;
  rn_printed : gostring;
  rn_cleanup : Sys → Sys
}.

(** The system is a result in any case: [os.Exit] skips the deferred calls. *)
Definition server_main (os : goos) (f : ServerFlags) (rnd : result (list byte)) (s : Sys)
    : outcome (Sys * startup Running) :=
  match server_keys (privKeyStr f) rnd with
  | Exit why => Ret (s, Exit why)
  | Started (priv, pub) =>
      let printed := connection_string pub server_host (tls_port (tlsListen f)) in
      '(s, t, cleanup) ← server_tun os f s;
      let trs := server_transports f in
      Ret (s, if decide (trs = []) then Exit "No transports could be initialized"
              else Started (mkRunning (mkConfig priv (string_of (peerIP f))) (NewServer trs t)
                                      printed cleanup))
  end.

(** The deferred calls, last one first: the transports, the sessions, the NAT rules,
    the device and the key.  [order] is the order in which [Clear] visits the table. *)
Record Stopped := mkStopped {
  stopped_server : Server AnyTransport D;
  stopped_priv : list byte;
  stopped_sys : Sys
}.
Definition server_stop (r : Running) (order : list (Z * loc)) (sv : Server AnyTransport D) (s : Sys)
    : Stopped :=
  mkStopped
    (mkServer (srv_pool sv) (Clear (srv_mgr sv) order) (srv_peers sv)
       (map Close (srv_transports sv)) (CloseTun <$> srv_tun sv))
    (PrivateKey_Wipe (serverPriv (rn_cfg r))) (rn_cleanup r s).
End ServerStart.

#[global] Arguments Running {L} D Sys.
#[global] Arguments Stopped {L} D Sys.

(** ** The daemon's start and stop *)

Section DaemonMain.
Context `{L : AeadLib, N : Net}.
Context {D Rt Sys : Type} `{!Device D, !TunDevice D Sys, !Shell Sys, !Router Rt Sys}.

(** [listen] is the result of [net.Listen]; the operations on the socket come first. *)
Definition daemon_main (os : goos) (sockPath : gostring) (listen : option error) (s : Sys)
    : list ipc_op * startup (IpcServer * Node D Rt Sys) :=
  let '(ops, r) := NewIpcServer os sockPath listen in
  (ops, match r with
        | Err _ => Exit "Failed to initialize IPC server"
        | Ok srv => Started (srv, start_node s)
        end).

(** After the signal: a disconnect, which needs the mutex, then the deferred close.
    [None] is a daemon that does not stop. *)
Definition daemon_stop (os : goos) (srv : IpcServer) (n : Node D Rt Sys)
    : option (outcome (Daemon D Rt Sys * list ipc_op * IpcServer)) :=
  match nd_lock n with
  | Some _ => None
  | None =>
      Some ('(d, _) ← handleDisconnect os (nd n);
            let '(ops, srv) := ipc_Close srv in Ret (d, ops, srv))
  end.
End DaemonMain.

(** ** The client's settings *)

(** The flags that decide where to connect, and the arguments after them. *)
Record ClientFlags := mkClientFlags {
  fl_server : gostring;
  fl_key : gostring;
  fl_url : gostring;
  fl_transport : gostring;
  fl_sni : gostring;
  fl_args : list gostring
}.
Definition client_defaults (args : list gostring) : ClientFlags :=
  mkClientFlags (bytes_of "127.0.0.1:8443") [] [] (bytes_of "tls") (bytes_of "gateway.internal") args.

Definition raw_url (f : ClientFlags) : gostring :=
  if decide (fl_url f = []) then
    match fl_args f with
    | a :: _ => if HasPrefix a (bytes_of "ant://") then a else fl_url f
    | [] => fl_url f
    end
  else fl_url f.

(** A connection string overrides the flags. *)
Definition client_settings (f : ClientFlags) : startup ClientConfig :=
  let url := raw_url f in
  if decide (url ≠ []) then
    match ParseURL url with
    | Err _ => Exit "Invalid ant:// URL"
    | Ok u =>
        Started (mkClientConfig (url_host u) (url_pubKey u)
          (if decide (url_transportMode u ≠ []) then url_transportMode u else fl_transport f)
          (if decide (url_sni u ≠ []) then url_sni u else fl_sni f))
    end
  else Started (mkClientConfig (fl_server f) (fl_key f) (fl_transport f) (fl_sni f)).

(** ** Facts *)

Lemma remove_first_notin r rs k : r ∉ rs → remove_first r (rs ++ [r] ++ k) = rs ++ k.
Proof.
  induction rs as [|r' rs IH]; simpl; [by rewrite decide_True|].
  intros [Hne Hn]%not_elem_of_cons. rewrite decide_False by done. f_equal. by apply IH.
Qed.

Lemma remove_first_perm r rs : r ∈ rs → r :: remove_first r rs ≡ₚ rs.
Proof.
  induction rs as [|r' rs IH]; [by intros ?%elem_of_nil|]. simpl. case_decide as Hd; [by subst|].
  intros [->|Hr]%elem_of_cons; [done|]. rewrite Permutation_swap. by rewrite IH.
Qed.

Lemma remove_all_perm rs l k : l ≡ₚ rs ++ k → foldl (λ l r, remove_first r l) l rs ≡ₚ k.
Proof.
  revert l. induction rs as [|r rs IH]; intros l Hl; [done|]. simpl. apply IH.
  apply (Permutation_cons_inv (a := r)). rewrite remove_first_perm; [done|]. rewrite Hl. by left.
Qed.

Lemma remove_all_app l rs : Forall (λ r, r ∉ l) rs → foldl (λ l r, remove_first r l) (l ++ rs) rs = l.
Proof.
  induction rs as [|r rs IH]; [by rewrite app_nil_r|].
  intros [Hr Hrs]%Forall_cons. simpl. rewrite (remove_first_notin r l rs Hr : remove_first r (l ++ r :: rs) = _).
  by apply IH.
Qed.

(** iptables(8) and sysctl(8): a rule that cannot be appended changes nothing; a
    deletion takes the first copy of the rule, if there is one (the server runs as
    root); [fwd] is whether the system forwards packets. *)
Class NatLaws (Sys : Type) `{Shell Sys} (rules : Sys → hook → list rule) (fwd : Sys → bool) := {
  nat_append h r s h' : rules (run (hook_cmd h "-A" r) s) h' =
    if decide (h' = h ∧ (exec (hook_cmd h "-A" r) s).2.2 = None) then rules s h' ++ [r] else rules s h';
  nat_delete h r s h' : rules (run (hook_cmd h "-D" r) s) h' =
    if decide (h' = h) then remove_first r (rules s h') else rules s h';
  nat_keeps h op r s : fwd (run (hook_cmd h op r) s) = fwd s;
  ask_keeps s h : rules (run ask_wan s) h = rules s h ∧ fwd (run ask_wan s) = fwd s;
  sysctl_keeps setting s h : rules (run (sysctl setting) s) h = rules s h;
  sysctl_forwards s : (exec (sysctl "net.ipv4.ip_forward=1") s).2.2 = None →
    fwd (run (sysctl "net.ipv4.ip_forward=1") s) = true
}.

(** The commands of a list that fail. *)
Section NatFacts.
Context {Sys : Type} `{!Shell Sys} (rules : Sys → hook → list rule) (fwd : Sys → bool).
Context `{!NatLaws Sys rules fwd}.
Implicit Types (s : Sys).

(** The rules of a list that a run of appends really added. *)
Fixpoint added (rs : list (hook * rule)) s : list (hook * rule) :=
  match rs with
  | [] => []
  | (h, r) :: rs =>
      (if decide ((exec (hook_cmd h "-A" r) s).2.2 = None) then [(h, r)] else []) ++
      added rs (run (hook_cmd h "-A" r) s)
  end.
Definition of_hook (h : hook) (rs : list (hook * rule)) : list rule := (filter (λ x, x.1 = h) rs).*2.

Lemma run_rules_cons op h r rs s :
  run_rules op ((h, r) :: rs) s = run_rules op rs (run (hook_cmd h op r) s).
Proof. done. Qed.

Lemma run_append rs s h : rules (run_rules "-A" rs s) h = rules s h ++ of_hook h (added rs s).
Proof.
  revert s. induction rs as [|[h' r] rs IH]; intros s; [by rewrite app_nil_r|].
  rewrite run_rules_cons, IH, nat_append. cbn [added]. unfold of_hook. rewrite filter_app, fmap_app.
  destruct (decide ((exec (hook_cmd h' "-A" r) s).2.2 = None)) as [E|E].
  - destruct (decide (h = h')) as [->|Hne].
    + rewrite decide_True, filter_cons_True by done. by rewrite <- app_assoc.
    + rewrite decide_False by tauto. rewrite filter_cons_False by done. done.
  - by rewrite decide_False by tauto.
Qed.

Lemma run_delete rs s h :
  rules (run_rules "-D" rs s) h = foldl (λ l r, remove_first r l) (rules s h) (of_hook h rs).
Proof.
  revert s. induction rs as [|[h' r] rs IH]; intros s; [done|].
  rewrite run_rules_cons, IH, nat_delete. unfold of_hook.
  destruct (decide (h = h')) as [->|Hne].
  - by rewrite filter_cons_True.
  - by rewrite filter_cons_False.
Qed.

Lemma run_fwd op rs s : fwd (run_rules op rs s) = fwd s.
Proof.
  revert s. induction rs as [|[h r] rs IH]; intros s; [done|].
  by rewrite run_rules_cons, IH, nat_keeps.
Qed.
End NatFacts.

Section ExitProperties.
Context {Sys : Type} `{!Shell Sys} (rules : Sys → hook → list rule) (fwd : Sys → bool).
Context `{!NatLaws Sys rules fwd}.
Implicit Types (s : Sys).

(** The system once the WAN interface was asked for, and the answer. *)
Definition asked (s : Sys) : Sys := run ask_wan (run (sysctl "net.ipv4.ip_forward=1") s).
Definition wan_of (s : Sys) : option gostring :=
  let r := (exec ask_wan (run (sysctl "net.ipv4.ip_forward=1") s)).2 in
  if decide (r.2 = None ∧ TrimSpace r.1 ≠ []) then Some (TrimSpace r.1) else None.

Lemma setup_linux tunName subnet s :
  setupServerNAT Linux tunName subnet s =
    match wan_of s with
    | Some wan => (run_rules "-A" (nat_rules tunName subnet wan) (asked s),
                   run_rules "-D" (nat_rules tunName subnet wan))
    | None => (asked s, id)
    end.
Proof.
  unfold setupServerNAT, wan_of, asked. rewrite decide_True by done.
  set (x := run (sysctl _) s). unfold run at 1.
  destruct (exec ask_wan x) as [s1 [out err]] eqn:E. cbn [fst snd]. unfold run. rewrite E.
  by destruct (decide _).
Qed.

Lemma asked_rules s h : rules (asked s) h = rules s h.
Proof. unfold asked. rewrite (proj1 (ask_keeps _ h)). apply sysctl_keeps. Qed.

(** C17: the exit node takes its rules back.  On Linux with a default route, the
    rules that iptables accepts are appended to their chains, and packets are
    forwarded if sysctl succeeds.  When all three were accepted and the chains are
    as they were, cleaning up leaves the rules there were before, up to their order,
    and exactly those if none of the three was among them.  What is not
    taken back: forwarding stays as it is; and if no rule was accepted, cleaning up
    deletes the first copies of rules that somebody else had added.  Without a
    default route, and elsewhere, no chain is touched. *)
Theorem exit_node_rules os tunName subnet s s1 cleanup :
  setupServerNAT os tunName subnet s = (s1, cleanup) →
  (os ≠ Linux ∨ wan_of s = None → (∀ h, rules s1 h = rules s h) ∧ ∀ s2, cleanup s2 = s2) ∧
  ∀ wan, os = Linux → wan_of s = Some wan →
    let rs := nat_rules tunName subnet wan in
    (∀ h, rules s1 h = rules s h ++ of_hook h (added rs (asked s))) ∧
    ((exec (sysctl "net.ipv4.ip_forward=1") s).2.2 = None → fwd s1 = true) ∧
    (∀ s2, fwd (cleanup s2) = fwd s2) ∧
    (added rs (asked s) = rs → ∀ s2 h, rules s2 h = rules s1 h →
       rules (cleanup s2) h ≡ₚ rules s h ∧
       (Forall (λ r, r ∉ rules s h) (of_hook h rs) → rules (cleanup s2) h = rules s h)) ∧
    (added rs (asked s) = [] → ∀ h,
       rules (cleanup s1) h = foldl (λ l r, remove_first r l) (rules s h) (of_hook h rs)).
Proof.
  intros HS. split.
  - intros Ho. destruct (decide (os = Linux)) as [->|Hne].
    + destruct Ho as [Ho|Ho]; [done|]. rewrite setup_linux, Ho in HS. injection HS as <- <-.
      split; [apply asked_rules|done].
    + unfold setupServerNAT in HS. rewrite decide_False in HS by done.
      case_decide; injection HS as <- <-; (split; [|done]); intros h; [apply sysctl_keeps|done].
  - intros wan -> Hw rs. rewrite setup_linux, Hw in HS. apply pair_eq in HS as [<- <-]. fold rs.
    assert (∀ h, rules (run_rules "-A" rs (asked s)) h = rules s h ++ of_hook h (added rs (asked s)))
      as Happ by (intros h; by rewrite (run_append rules fwd), asked_rules).
    split_and!; [done| | | |].
    + intros Hok. rewrite (run_fwd rules fwd). unfold asked. rewrite (proj2 (ask_keeps _ Postrouting)).
      by apply sysctl_forwards.
    + intros s2. apply (run_fwd rules fwd).
    + intros Hall s2 h Hs2. rewrite (run_delete rules fwd), Hs2, Happ, Hall. split.
      * apply remove_all_perm. by rewrite Permutation_app_comm.
      * apply remove_all_app.
    + intros Hno h. by rewrite (run_delete rules fwd), Happ, Hno, app_nil_r.
Qed.
End ExitProperties.

(** The server opens a UDP and a TLS transport, never a WebSocket one. *)
Definition server_end (t : AnyTransport) : Prop :=
  match t with TrUDP _ => True | TrTLS t => tls_queue_valid t | TrWS _ => False end.

#[global] Instance server_end_receive `{N : Net, !NetLaws N, Dl : Dialer} :
  TransportReceive AnyTransport server_end.
Proof.
  constructor.
  - intros pick t buf t' buf' r n Ht Hn Hp HR.
    destruct t as [t|t|t]; [..|done]; simpl in HR;
      apply bind_Some in HR as ([[t1 b1] r1] & HR & [= <- <- ->]);
      [destruct (Receive_wf (T := UDPTransport) pick t buf t1 b1 r n) as (? & ? & ?)
      |destruct (Receive_wf (T := TLSTransport) pick t buf t1 b1 r n) as (? & ? & ?)]; done.
  - intros pick t buf t' buf' e n Ht Hp HR.
    destruct t as [t|t|t]; [..|done]; simpl in HR;
      apply bind_Some in HR as ([[t1 b1] r1] & HR & [= <- <- ->]);
      [destruct (Receive_err (T := UDPTransport) pick t buf t1 b1 e n) as (? & ?)
      |destruct (Receive_err (T := TLSTransport) pick t buf t1 b1 e n) as (? & ?)]; done.
  - intros t buf a t' e Ht HS.
    destruct t as [t|t|t]; [..|done]; simpl in HS;
      apply outcome_bind_Ret in HS as ([t1 e1] & HS & [= <- <-]); [done|].
    by eapply (Send_keeps (T := TLSTransport) (inv := tls_queue_valid)).
Qed.

Section StartFacts.
Context `{L : AeadLib, !AeadLaws L, H : HashLib, !HashLaws H, C : Curve25519, !CurveLaws C}.
Context `{N : Net, !NetLaws N, Dl : Dialer, Li : Listener}.
Context {D Sys : Type} `{!Device D, !TunDevice D Sys, !TunLaws D Sys, !Shell Sys}.
Implicit Types (s : Sys) (f : ServerFlags).

Lemma server_tun_returns os f s : returns (server_tun os f s).
Proof.
  unfold server_tun, open_tun_device.
  destruct (CreateTUN_returns (D := D) (tunName f) DefaultMTU s) as [[s1 r] ->]. simpl.
  destruct r as [d|e]; simpl; [|by eexists]. destruct (enableNAT f); [|by eexists].
  destruct (setupServerNAT _ _ _ _). by eexists.
Qed.

Lemma server_transports_valid f : Forall server_end (server_transports f).
Proof.
  unfold server_transports, NewUDPTransport, NewTLSServerTransport.
  destruct (udp_listen (udpListen f)), (server_cert false), (tls_listen (tlsListen f));
    repeat constructor.
Qed.

(** The key pair fits. *)
Lemma server_keys_pair str rnd priv pub :
  server_keys str rnd = Started (priv, pub) → pub = PublicKey priv ∧ length priv = 32%nat.
Proof.
  unfold server_keys. case_decide.
  - destruct (ParsePrivateKey str) as [k|e] eqn:E; [|done]. intros [= <- <-]. split; [done|].
    revert E. unfold ParsePrivateKey. destruct (b64_decode str) as [d|]; simpl.
    + case_decide; [done|]. intros [= <-]. rewrite length_take. unfold KeySize, zlen in *. lia.
    + destruct (hex_decode str) as [d|]; simpl; [|done]. case_decide; [done|]. intros [= <-].
      rewrite length_take. unfold KeySize, zlen in *. lia.
  - destruct rnd as [r|e]; [|done]. destruct (GenerateKeyPair_ok r) as (k & -> & Hk). by intros [= <- <-].
Qed.

(** What a running server was made of. *)
Lemma server_main_started os f rnd s s1 (r : Running D Sys) :
  server_main os f rnd s = Ret (s1, Started r) →
  ∃ priv t, server_keys (privKeyStr f) rnd = Started (priv, PublicKey priv) ∧ length priv = 32%nat ∧
    server_tun os f s = Ret (s1, t, rn_cleanup r) ∧ server_transports f ≠ [] ∧
    rn_cfg r = mkConfig priv (string_of (peerIP f)) ∧
    rn_server r = NewServer (server_transports f) t ∧
    rn_printed r = connection_string (PublicKey priv) server_host (tls_port (tlsListen f)).
Proof.
  unfold server_main. destruct (server_keys _ _) as [why|[priv pub]] eqn:EK; [done|].
  destruct (server_keys_pair _ _ _ _ EK) as [-> Hl].
  destruct (server_tun_returns os f s) as [[[s2 t] cl] E]. rewrite E. simpl.
  case_decide as Ht; [done|]. intros [= <- <-]. exists priv, t. by split_and!.
Qed.
End StartFacts.

(** *** Connection strings *)

Lemma b64_char_plain v : 0 ≤ v < 64 → b64_char v ∉ reserved.
Proof.
  intros Hv. apply byte_notin.
  assert (∀ i, (i < 64)%nat → bool_decide (b64_char (Z.of_nat i) ∈ reserved) = false) as Hall.
  { intros i Hi. do 64 (destruct i as [|i]; [reflexivity|]). lia. }
  replace v with (Z.of_nat (Z.to_nat v)) by lia. apply Hall. lia.
Qed.

Lemma Base64_plain k c : c ∈ reserved → c ∉ Base64 k.
Proof.
  intros Hc Hin. unfold Base64 in Hin. rewrite b64_encode_sextets in Hin.
  apply list_elem_of_fmap in Hin as (v & -> & Hv).
  pose proof (sextets_range k) as Hr. rewrite Forall_forall in Hr. by apply (b64_char_plain v (Hr v Hv)).
Qed.

Lemma tls_port_bare port : plain port → tls_port ([colon] ++ port) = port.
Proof.
  intros Hp. unfold tls_port.
  assert (SplitHostPort ([colon] ++ port) = Ok ([], port)) as ->; [|done].
  pose proof (SplitHostPort_join [] port) as Hs. unfold JoinHostPort in Hs.
  rewrite decide_False in Hs by apply not_elem_of_nil.
  apply Hs; [apply not_elem_of_nil|apply not_elem_of_nil|done].
Qed.

Lemma tls_port_host host port : plain host → plain port → tls_port (host_port host port) = port.
Proof. intros Hh Hp. unfold tls_port. by rewrite Split_host_port. Qed.

Lemma connection_string_parses pub host port :
  plain host → plain port →
  ParseURL (connection_string pub host port) = Ok (mkURL (Base64 pub) (host_port host port) (bytes_of "tls") []).
Proof.
  intros Hh Hp. unfold connection_string.
  change (bytes_of "@") with [x40]. change (bytes_of ":") with [colon].
  change (bytes_of "?obfs=tls") with ([x3f] ++ bytes_of "obfs=tls").
  replace (host ++ [colon] ++ port ++ [x3f] ++ bytes_of "obfs=tls") with
    (host_port host port ++ [x3f] ++ bytes_of "obfs=tls")
    by (unfold host_port; by rewrite <- !app_assoc).
  rewrite ParseURL_query; [|apply Base64_plain, reserved_in; reflexivity
    |apply host_port_free; [done|done|by apply reserved_in|done]|by apply byte_notin
    |apply host_port_free; [done|done|by apply reserved_in|done]].
  rewrite <- sanitize_dial. unfold host_port. by rewrite sanitize_port.
Qed.

(** ** Properties of the server's start and stop *)

Definition closed_transport (t : AnyTransport) : Prop :=
  match t with
  | TrUDP t => udp_closed t = true
  | TrTLS t => tls_closed t = true
  | TrWS t => ws_closed t = true
  end.

Lemma Close_closed t : closed_transport (Close t).
Proof.
  destruct t as [t|t|t]; [done|..]; simpl; unfold tls_Close, ws_Close;
    [by destruct (tls_closed t) eqn:E|by destruct (ws_closed t) eqn:E].
Qed.

Section StartProperties.
Context `{L : AeadLib, !AeadLaws L, H : HashLib, !HashLaws H, C : Curve25519, !CurveLaws C}.
Context `{N : Net, !NetLaws N, Dl : Dialer, Li : Listener}.
Context {D Sys : Type} `{!Device D, !TunDevice D Sys, !TunLaws D Sys, !Shell Sys}.
Context {emitted : D → list (list byte)} {willing : D → Prop} `{!DeviceLaws D emitted willing}.
Implicit Types (s : Sys) (f : ServerFlags) (sv : Server AnyTransport D).

(** C15: the printed connection string is an invitation that works.  For a server
    that has started and listens for TLS on a port, whatever its key came from, a
    client given the printed string with a host name in place of the placeholder
    dials that host and port over TLS under the usual server name, and takes exactly
    the public key of the key the server handles packets with. *)
Theorem server_invites os f rnd s s1 (r : Running D Sys) host port :
  server_main os f rnd s = Ret (s1, Started r) → plain host → plain port →
  tlsListen f = [colon] ++ port ∨ (∃ ip, plain ip ∧ tlsListen f = host_port ip port) →
  ∃ pub cfg, rn_printed r = connection_string pub server_host port ∧
    client_settings (client_defaults [connection_string pub host port]) = Started cfg ∧
    pub = PublicKey (serverPriv (rn_cfg r)) ∧ ParsePublicKey (cc_serverKeyStr cfg) = Ok pub ∧
    client_transport (cc_transMode cfg) (cc_serverAddr cfg) (cc_sni cfg) =
      Some (match tls_dial (host_port host port) (bytes_of "gateway.internal") with
            | Ok c => Ok (TrTLS (NewTLSClient c))
            | Err e => Err (ErrWrap "failed to dial tls server: %w" e)
            end).
Proof.
  intros HS Hh Hp Hl.
  destruct (server_main_started os f rnd s s1 r HS) as (priv & t & _ & _ & _ & _ & Hcfg & _ & Hpr).
  assert (tls_port (tlsListen f) = port) as Hport
    by (destruct Hl as [->|(ip & Hip & ->)]; [by apply tls_port_bare|by apply tls_port_host]).
  rewrite Hport in Hpr. exists (PublicKey priv). rewrite Hcfg.
  exists (mkClientConfig (host_port host port) (Base64 (PublicKey priv)) (bytes_of "tls")
    (bytes_of "gateway.internal")).
  split; [done|]. split; [|split; [done|split]].
  - unfold client_settings, raw_url. cbn [fl_url fl_args client_defaults].
    assert (HasPrefix (connection_string (PublicKey priv) host port) (bytes_of "ant://") = true) as ->
      by apply HasPrefix_app.
    rewrite decide_True by done. rewrite decide_True by done.
    by rewrite connection_string_parses.
  - apply ParsePublicKey_Base64', zlen_PublicKey.
  - unfold client_transport. cbn [cc_transMode cc_serverAddr cc_sni].
    rewrite decide_False by done. rewrite decide_True by done. unfold NewTLSClientTransport.
    rewrite <- sanitize_dial. unfold host_port at 1. rewrite sanitize_port by done.
    unfold tls_server_name. rewrite decide_False by done. by destruct (tls_dial _ _).
Qed.

(** C16: the life of a server.  Start-up always ends; it exits without touching the
    system when the key is not valid, and when no transport can be opened it exits
    with the device and the NAT rules left as they are; otherwise the server runs.
    In every state a running server reaches no ingress round panics.  Stopping it in
    any such state closes every transport and the device, empties the session table
    and wipes every session in it, zeroes the private key, and runs the clean-up. *)
Theorem server_lifecycle os f rnd s :
  (∃ s1 r, server_main os f rnd s = Ret (s1, r)) ∧
  (privKeyStr f ≠ [] → (∀ k, ParsePrivateKey (privKeyStr f) ≠ Ok k) →
     server_main os f rnd s = Ret (s, Exit "Invalid private key")) ∧
  (∀ kp s1 t cleanup, server_keys (privKeyStr f) rnd = Started kp →
     server_tun os f s = Ret (s1, t, cleanup) → server_transports f = [] →
     server_main os f rnd s = Ret (s1, Exit "No transports could be initialized")) ∧
  ∀ s1 (r : Running D Sys) sv, server_main os f rnd s = Ret (s1, Started r) →
    rtc (server_step server_end (rn_cfg r)) (rn_server r) sv →
    (∀ e tr pick choice, (tr < length (srv_transports sv))%nat →
       ingress e (rn_cfg r) tr pick choice sv = None ∨
       ∃ sv', ingress e (rn_cfg r) tr pick choice sv = Some (Ret sv')) ∧
    ∀ order s2, order ≡ₚ map_to_list (sessions (srv_mgr sv)) →
      let st := server_stop r order sv s2 in
      Forall closed_transport (srv_transports (stopped_server st)) ∧
      (∀ d buf, srv_tun (stopped_server st) = Some d →
         ∃ d' buf' e, ReadPacket d buf = Some (d', buf', Some e)) ∧
      sessions (srv_mgr (stopped_server st)) = ∅ ∧
      (∀ i p, Get_session (srv_mgr sv) i = Some p →
         ∃ x, sess_store (srv_mgr (stopped_server st)) !! p = Some x ∧ wiped x) ∧
      stopped_priv st = zeros 32 ∧ stopped_sys st = rn_cleanup r s2.
Proof.
  split; [|split; [|split]].
  - unfold server_main. destruct (server_keys _ _) as [why|[priv pub]]; [by eexists _, _|].
    destruct (server_tun_returns os f s) as [[[s1 t] cl] E]. rewrite E. by eexists _, _.
  - intros Hk Hbad. unfold server_main, server_keys. rewrite decide_True by done.
    destruct (ParsePrivateKey _) as [k|e]; [by destruct (Hbad k)|done].
  - intros [priv pub] s1 t cl HK HT Ht. unfold server_main. rewrite HK, HT. simpl. by rewrite decide_True.
  - intros s1 r sv HS Hrun.
    destruct (server_main_started os f rnd s s1 r HS) as (priv & t & _ & Hlen & _ & _ & Hcfg & Hsv & _).
    rewrite Hsv in Hrun.
    pose proof (server_reachable_inv server_end (rn_cfg r) _ t sv (server_transports_valid f) Hrun) as Hinv.
    split.
    + intros e tr pick choice Htr.
      pose proof (ingress_ok server_end e (rn_cfg r) tr pick choice sv ∅ Hinv Htr) as Hi.
      destruct (ingress e (rn_cfg r) tr pick choice sv) as [o|]; [|by left]. right.
      destruct Hi as (sv' & -> & _). eauto.
    + intros order s2 Ho. destruct (Clear_all (srv_mgr sv) order Ho) as [He Hw].
      split_and!; simpl; [| |done| |by rewrite Hcfg; apply PrivateKey_Wipe_spec|done].
      * apply Forall_map, Forall_true, Close_closed.
      * intros d buf (d0 & _ & ->)%fmap_Some. apply CloseTun_read.
      * intros i p Hp. destruct (so_entry _ (si_sessions _ _ _ Hinv) i p Hp) as (x & Hx & _).
        by apply (Hw i p x).
Qed.
End StartProperties.

Section DaemonLife.
Context `{L : AeadLib, !AeadLaws L, H : HashLib, !HashLaws H, C : Curve25519, !CurveLaws C}.
Context `{N : Net, !NetLaws N, Dl : Dialer, Te : ErrorText}.
Context {D Rt Sys : Type} `{!Device D, !TunDevice D Sys, !TunLaws D Sys, !Shell Sys, !Router Rt Sys}.
Context {emitted : D → list (list byte)} {willing : D → Prop} `{!DeviceLaws D emitted willing}.
Implicit Types (n : Node D Rt Sys).

(** A daemon that is told to stop does so unless a connect request waits: it takes
    the tunnel down, closes the transport and the device, wipes the session, and no
    longer accepts connections.  While one waits, it does not react at all. *)
Lemma daemon_stops os listen path s lbs srv n :
  (daemon_main (D := D) (Rt := Rt) os path listen s).2 = Started (srv, start_node s) →
  node_steps (start_node s) lbs n →
  match nd_lock n with
  | Some _ => daemon_stop os srv n = None
  | None => ∃ d ops srv', daemon_stop os srv n = Some (Ret (d, ops, srv')) ∧ abs d = Down ∧
      (connected (nd n) = true →
         transport d = Close <$> transport (nd n) ∧ session d = Wipe <$> session (nd n) ∧
         tunDev d = CloseTun <$> tunDev (nd n)) ∧
      CloseListener ∈ ops ∧ ∀ e, accept_round (C := ()) srv' (Err e) = StopLoop
  end.
Proof.
  intros HS Hn. destruct (node_steps_ok _ _ _ (node_inv_start s) Hn) as [Hinv _].
  unfold daemon_stop. destruct (nd_lock n) as [x|]; [done|].
  destruct (handleDisconnect_spec os (nd n)) as (d & E & Hc & _ & Hup & _); [apply Hinv|].
  rewrite E. gsimpl. destruct (ipc_Close srv) as [ops srv'] eqn:EC.
  exists d, ops, srv'. split; [done|]. split; [unfold abs; by rewrite Hc|].
  split; [intros Hcn; by destruct (Hup Hcn) as (? & ? & ? & _)|].
  assert (is_closed srv = false) as Ho.
  { revert HS. unfold daemon_main, NewIpcServer. destruct (getNetworkAndAddr _) as [network addr].
    destruct listen; [done|]. by intros [= <-]. }
  revert EC. unfold ipc_Close. rewrite Ho. destruct (getNetworkAndAddr _) as [network addr].
  intros [= <- <-]. split; [by left|done].
Qed.
End DaemonLife.

(** ** Concrete instances *)

(** A system that keeps the two chains. *)
Record ToyExit := mkToyExit {
  te_rules : hook → list rule;
  te_forwards : bool
}.
Definition parse_hook (cmd : list gostring) : option (hook * gostring * rule) :=
  match cmd with
  | a :: b :: c :: rest =>
      if decide ([a; b; c] = words ["iptables"; "-t"; "nat"]) then
        match rest with
        | op :: p :: r => if decide (p = bytes_of "POSTROUTING") then Some (Postrouting, op, r) else None
        | _ => None
        end
      else if decide ([a; c] = words ["iptables"; "FORWARD"]) then Some (Forwarding, b, rest)
      else None
  | _ => None
  end.
Definition change_rules (op : gostring) (r : rule) (rs : list rule) : list rule :=
  if decide (op = bytes_of "-A") then rs ++ [r]
  else if decide (op = bytes_of "-D") then remove_first r rs else rs.
Definition toy_exit_exec (cmd : list gostring) (s : ToyExit) : ToyExit * (gostring * option error) :=
  match parse_hook cmd with
  | Some (h, op, r) =>
      (mkToyExit (λ h', if decide (h' = h) then change_rules op r (te_rules s h') else te_rules s h')
         (te_forwards s), ([], None))
  | None =>
      if decide (cmd = ask_wan) then (s, (bytes_of "eth0" ++ [x0a], None))
      else if decide (cmd = sysctl "net.ipv4.ip_forward=1") then (mkToyExit (te_rules s) true, ([], None))
      else (s, ([], None))
  end.
#[global] Instance toy_exit_shell : Shell ToyExit := {|
  exec := toy_exit_exec;
  create_temp := λ s, (s, Err (ErrNew "no temporary files"));
  write_file := λ _ _ s, (s, None);
  remove_file := λ _ s, s
|}.

Lemma parse_hook_cmd h op r : parse_hook (hook_cmd h op r) = Some (h, bytes_of op, r).
Proof. destruct h; simpl; [done|]. by case_decide. Qed.

#[global] Instance toy_nat_laws : NatLaws ToyExit te_rules te_forwards.
Proof.
  split.
  - intros h r s h'. unfold run. simpl. unfold toy_exit_exec. rewrite parse_hook_cmd. cbn [fst snd te_rules].
    destruct (decide (h' = h)) as [->|Hne]; [by rewrite decide_True|by rewrite decide_False by tauto].
  - intros h r s h'. unfold run. simpl. unfold toy_exit_exec. by rewrite parse_hook_cmd.
  - intros h op r s. unfold run. simpl. unfold toy_exit_exec. by rewrite parse_hook_cmd.
  - done.
  - intros setting s h. unfold run. simpl. unfold toy_exit_exec. simpl. by repeat case_decide.
  - done.
Qed.

(** A rule of the user's own in each chain; one of them is one of the server's. *)
Definition demo_exit : ToyExit :=
  mkToyExit (λ h, match h with Postrouting => [words ["-j"; "LOG"]] | Forwarding => [forward_replies] end) false.

Example exit_node_rules_witness :
  let subnet := bytes_of "10.8.0.1" in
  let r := setupServerNAT Linux (bytes_of "ant0") subnet demo_exit in
  te_forwards r.1 = true ∧ te_forwards (r.2 r.1) = true ∧
  te_rules (r.2 r.1) Postrouting = te_rules demo_exit Postrouting ∧
  te_rules (r.2 r.1) Forwarding ≡ₚ te_rules demo_exit Forwarding.
Proof.
  intros subnet r.
  destruct (exit_node_rules te_rules te_forwards Linux (bytes_of "ant0") subnet demo_exit r.1 r.2)
    as [_ H]; [apply surjective_pairing|].
  destruct (H (bytes_of "eth0") eq_refl) as (_ & Hf & Hk & Hall & _); [vm_compute; reflexivity|].
  split; [by apply Hf|]. split; [rewrite Hk; by apply Hf|].
  destruct (Hall ltac:(vm_compute; reflexivity) r.1 Postrouting eq_refl) as [_ Hp].
  destruct (Hall ltac:(vm_compute; reflexivity) r.1 Forwarding eq_refl) as [Hq _].
  split; [|exact Hq]. apply Hp. constructor; [|constructor]. apply (bool_decide_eq_false_1 _). vm_compute. reflexivity.
Defined.

Section LaunchDemo.
#[local] Existing Instance toy_aead.
#[local] Existing Instance toy_hash.
#[local] Existing Instance toy_curve.
#[local] Existing Instance toy_net.
#[local] Existing Instance toy_kernel.
#[local] Existing Instance toy_dialer.
#[local] Existing Instance toy_resolver.
#[local] Existing Instance toy_tun_calls.

Definition toy_listener : Listener := {| gen_cert := None; tls_listen := λ _, None |}.
#[local] Existing Instance toy_listener.

Definition demo_flags : ServerFlags :=
  mkServerFlags (bytes_of ":8444") (bytes_of ":8443") [] (bytes_of "ant0") (bytes_of "10.8.0.1")
    (bytes_of "10.8.0.2") true.
Abbreviation demo_start := (server_main (D := LinuxTUN) Linux demo_flags (Ok (demo_key 90)) demo_sys).

Lemma demo_started : ∃ s1 r, demo_start = Ret (s1, Started r).
Proof.
  assert (match demo_start with Ret (_, Started _) => true | _ => false end = true) as Hb
    by (vm_compute; reflexivity).
  destruct demo_start as [[s1 [why|r]]|pn]; [discriminate Hb| |discriminate Hb]. by exists s1, r.
Qed.

Example server_invites_witness :
  ∃ s1 r pub cfg, demo_start = Ret (s1, Started r) ∧
    client_settings (client_defaults [connection_string pub (bytes_of "vpn.example") (bytes_of "8443")]) =
      Started cfg ∧
    ParsePublicKey (cc_serverKeyStr cfg) = Ok (PublicKey (serverPriv (rn_cfg r))).
Proof.
  destruct demo_started as (s1 & r & Hr).
  destruct (server_invites Linux demo_flags (Ok (demo_key 90)) demo_sys s1 r (bytes_of "vpn.example")
    (bytes_of "8443") Hr) as (pub & cfg & _ & H1 & H2 & H3 & _);
    [by apply plainb_plain|by apply plainb_plain|by left|].
  exists s1, r, pub, cfg. rewrite <- H2. by split_and!.
Defined.

Example server_lifecycle_witness :
  ∃ s1 r, demo_start = Ret (s1, Started r) ∧
    stopped_priv (server_stop r [] (rn_server r) s1) = zeros 32 ∧
    Forall closed_transport (srv_transports (stopped_server (server_stop r [] (rn_server r) s1))).
Proof.
  destruct demo_started as (s1 & r & Hr). exists s1, r. split; [exact Hr|].
  destruct (server_lifecycle (emitted := λ t, tun_out (linux_state t))
    (willing := λ t, tun_willing (linux_state t)) Linux demo_flags (Ok (demo_key 90)) demo_sys)
    as (_ & _ & _ & H).
  destruct (H s1 r (rn_server r) Hr (rtc_refl _ _)) as [_ Hstop].
  destruct (Hstop [] s1) as (H1 & _ & _ & _ & H2 & _); [|by split].
  destruct (server_main_started Linux demo_flags (Ok (demo_key 90)) demo_sys s1 r Hr)
    as (priv & t & _ & _ & _ & _ & _ & E & _).
  rewrite E. reflexivity.
Defined.
End LaunchDemo.
